(* ===== verification/_CoqProject ===== *)
-Q . S2P
Prelude.v
GoErrors.v
Float64.v
GoText.v
GoMaps.v
GoHeap.v
Servers.v
Redact.v
ServerClient.v
ErrorMessages.v
Discovery.v
Kube.v
Api.v
ApiMemory.v
DeepCopy.v
Unavailable.v
Resources.v
InstanceTypes.v
Catalog.v
CatalogClient.v
LocationScope.v
NodeClaims.v
Kubeadm.v
CloudInit.v
Token.v
KubeClient.v
NodeClassStatus.v
ResourceClient.v
NodeClassController.v
NodeClassProofs.v
NodeClassLife.v
CatalogWake.v
Drift.v
Candidates.v
ListCache.v
Sim.v
Instance.v
InstanceTraces.v
Fleet.v
FleetClient.v
Metrics.v
CloudProvider.v
CloudProviderProofs.v
BootstrapProvider.v
Launch.v
InstanceGC.v
FleetGC.v
Concurrency.v
NodeClassHash.v
Operator.v
