(* ===== verification/Prelude.v ===== *)
(** * Verification of karpenter-provider-hcloud

    A Karpenter cloud provider for Hetzner Cloud: karpenter core decides that a
    node is needed or not, the provider orders, describes, drifts, reboots and
    deletes the Hetzner servers behind it.  This library models the provider's
    own logic and proves what it promises to core and to the owner of the Hetzner
    project.

    ** The program and where it is modelled

    Shared ground.
    - [Prelude]: tactics, the hint database [hcloud], int64 time, stable sorting.
    - [GoErrors]: Go errors as trees with [errors.As]; [hcloudapi/errors.go].
    - [Float64]: IEEE doubles ([SpecFloat]) and Go's conversions of them.
    - [GoText]: the string functions used; formatting of floats and quoting are a class.
    - [GoMaps]: Go's map iteration as any permutation of the entries, splitting, and
      the rendering of a map as sorted pairs with its reading back.
    - [GoHeap]: Go's memory: pointers, slices and maps as addresses of cells, what an
      object in memory denotes, and what makes a copy of one independent of it.
    - [Kube]: the libraries as interfaces: quantities, scheduling requirements and
      condition sets, each with its laws in a class and a concrete instance
      [KubeExample] that satisfies them.
    - [KubeClient]: the Kubernetes client, every call free to answer and change
      the world as it likes.
    - [Api]: [api/v1alpha1], the HCloudNodeClass, its defaults and its drift hash.
    - [ApiMemory], [DeepCopy]: the same objects as they lie in memory, and the copies
      of [zz_generated.deepcopy.go] between them.
    - [NodeClaims]: the part of karpenter's NodeClaim the provider reads and writes.

    Hetzner and what is for sale.
    - [Servers]: [hcloudapi/servers.go], [labels.go]: the server, its provider id, who
      owns it, and the API as the class [Servers].
    - [Redact]: [hcloudapi/redact.go], [client.go]: the token check, and what is
      scrubbed from an error before it leaves the package.
    - [ServerClient], [CatalogClient], [ResourceClient]: the adapters of
      [hcloudapi/servers.go], [types.go], [resources.go]; hcloud-go itself is a class,
      and each adapter is an instance of the interface the provider uses.
    - [ErrorMessages]: the text the repository's own errors print ([Error] methods),
      and what the server adapter's errors print.
    - [Unavailable]: [instancetype/unavailable.go], the cache of failed offerings.
    - [Resources], [InstanceTypes]: [instancetype/resources.go], [types.go], [zone.go]:
      capacity, overhead, offerings, [Build].
    - [Catalog]: [catalog/catalog.go], the refresh loop and its last good snapshot.

    Servers.
    - [ListCache]: the single-flight listing of [instance/list.go] as a machine whose
      events interleave freely, and as the sequential function a lone caller sees.
    - [Candidates], [Instance]: [instance/instance.go], [request.go], [list.go],
      [reboot.go]; state is the cache, the suppressions and the world.
    - [Sim]: a small concrete Hetzner project the examples run on.
    - [InstanceTraces]: the same operations over a world that records every API call.
    - [Fleet]: what the provider promises, as a specification: the servers of the
      cluster and the steps operations take on them, over any Hetzner that keeps
      names unique and tells the truth.
    - [FleetClient]: the adapter put under it, over hcloud-go's own laws.
    - [InstanceGC]: [controllers/instancegc], the orphan sweep.
    - [FleetGC]: the sweep on the provider, as what it leaves of the fleet.
    - [Concurrency]: operations and sweeps side by side: agents whose calls to
      Hetzner interleave freely with each other and with other people's.

    NodeClasses and nodes.
    - [Discovery], [Token]: [bootstrap/clusterinfo.go], [bootstrap/token.go].
    - [Kubeadm], [CloudInit]: [bootstrap/kubeadm.go], [cloudinit.go]: the join
      configuration with its kubelet flags, and the user data a server boots with.
    - [BootstrapProvider]: [bootstrap/provider.go], the [Bootstrapper] of the cloud
      provider: one token minted, then the rendering that carries it.
    - [LocationScope], [NodeClassStatus], [NodeClassController]:
      [controllers/nodeclass], the resolvers, validation, finalizer and the pass.
    - [NodeClassProofs], [NodeClassLife]: what a resolution means, what a failed one
      leaves alone, and the states a NodeClass can reach with the writes in between.
    - [CatalogWake]: the watches of [controllers/nodeclass/controller.go]: the refresh
      signal, the pump and the fan-out as one machine of interleaving steps.
    - [NodeClassHash]: [controllers/nodeclass/hash].
    - [Drift], [CloudProvider], [CloudProviderProofs]: [internal/cloudprovider].
    - [Launch]: request, adapter and drift put together.

    The process.
    - [Metrics]: [internal/metrics], the series and what a launch writes to them.
    - [Operator]: [cmd/karpenter-provider-hcloud] and [controllers/controllers.go]: the
      start, its wiring and the debug commands.

    ** How the code is read

    A method of the source is a function of the same name; a method that calls an
    API takes the world and returns the next one, an error is a value of [error]
    and [(T, error)] is [result T].  Interfaces of the source are type classes.
    The world is an arbitrary type with arbitrary answers, so a theorem about an
    operation holds whatever Hetzner or Kubernetes reply and whoever else changes
    them between two calls.  To speak of which calls were made, the proofs run
    the same operation over the world paired with a trace.  Clocks are part of the
    world.

    Objects are values.  The one place where the code relies on two objects not
    sharing memory, the generated deep copies the controllers snapshot with, is
    modelled on a heap ([GoHeap], [DeepCopy]); the sub-reconcilers that write into the
    reconciled object are functions from the object before to the one after.  Where
    goroutines share state (the listing cache, the
    catalog's wake-up) the model is a step relation.  Where they only share Hetzner,
    each is any log the sequential model can leave over any answers, and the logs
    interleave ([Concurrency]).

    ** What is proved

    - Ownership: over any sequence of operations nothing is deleted, reset or
      listed that does not carry the cluster's label ([InstanceTraces],
      [InstanceGC]); a deletion, a reboot and a sweep do exactly what they claim.
    - The fleet: provider and adapter refine the specification of [Fleet], errors,
      lost answers and failed cleanups included; a launch whose answer was lost is
      recovered, or its server collected once its NodeClaim is given up.
    - Races: however the calls of concurrent operations interleave, each NodeClaim has
      at most one server, if nobody else labels, renames or reassigns servers in the
      cluster's name; and whatever anybody does, an agent deletes or resets only a
      server it has just read with the cluster's label.
    - Launching: candidates are exactly the compatible offerings, sorted and
      deterministic; Create tries them cheapest first, suppresses exactly what was
      refused for capacity from the moment it was, adopts its own server and no
      other, and describes what runs;
      the adapter accounts for every server Hetzner makes, and what is delivered
      as ordered conforms.
    - The boundary: what Hetzner echoes of the API token does not leave the package,
      down to the text an error prints, when the error is a chain; in a joined error
      it can (proved on an example).  An error leaves detached from its request and
      with its code; a missing resource and a failed lookup are told apart; no price
      or zone is invented.
    - Drift: [serverDrift] is exactly non-conformance, a fresh launch is not drifted, a
      new hash generator rolls nothing, and drift is reported exactly on evidence.
    - NodeClasses: a resolver that fails in a pass loses nothing of its own, firewalls
      fail closed, SSH keys fail open only on missing keys, validation is exact, and by
      induction on its life a class that reports itself valid is fully resolved; the
      finalizer is added before anything else and released only when nothing uses the
      class.
    - Memory: a deep copy denotes the same object and shares no cell with it, so that
      the snapshot the controller patches against stays the object as it was read.
    - User data: every rendering joins with a pinned CA and the unregistered taint,
      its kubelet reserves what the instance type subtracts, it fits Hetzner's limit
      and does not depend on the iteration order of a map; a launch asks for one
      token; operator text stays text up to the heredoc's delimiter; compressed
      user data is not text.
    - Waking: whatever the interleaving, the signal of a landed catalog is not lost
      and the pump comes to rest; a class is parked exactly when only the catalog is
      missing.
    - Start: a process runs only with a cluster name, the same in every part, and
      then touches no other cluster's servers; a launch is counted for what it was.
    - Caches: suppression refines its log; over any interleaving listings cost at most
      one call per TTL, invalidation and failure; an invalidation is effective unless
      a flight already holds a response, and then it may not be; the catalog serves
      its last good snapshot.
    - Arithmetic: capacity and allocatable on doubles and exact quantities,
      provider ids on int64.

    ** Bounds and fuel

    Integers are [Z] with int64 bounds stated where they matter ([time_sub]
    saturates as Go's does).  Recursion is structural except [trim_left],
    [scrub_run], [replace_quoted] and [replace_all], whose fuel, the length of the
    text, is enough because each round consumes a byte of it.  That the pump of the
    catalog's wake-up stops is proved by a measure.  The create loop is
    bounded by the source's own eight attempts.

    ** What is not modelled

    - The registration of the types with a scheme and of the controllers with the
      manager, beyond what it wires together.
    - The libraries: hcloud-go, karpenter core, controller-runtime with its rate
      limiter and work queue, Prometheus, YAML, gzip and X.509 are classes; a law is
      assumed only where a theorem names it.  Of singleflight the listing cache uses
      what it documents, one call of a key at a time whose result goes to all who
      joined.
    - Logging, and when a context ends: a call that ends early is one that returns an
      error.  Which context a call is given is modelled where the code makes one of
      its own: the wait for a create and its cleanup ([ServerClient]).
    - What a node does with its user data, beyond how a shell reads a heredoc. *)

From stdpp Require Export base tactics decidable option list gmap strings pretty sorting.
From Stdlib Require Export ZArith Lia.

#[global] Set Default Goal Selector "!".
#[global] Set Warnings "-clear-no-such-hyp,-register-all".
#[global] Open Scope Z_scope.

(** ** Scopes, hint databases and tactics *)

Declare Scope go_scope.
Delimit Scope go_scope with go.

Create HintDb hcloud discriminated.

(** Case analysis on every [if] and [match] scrutinee of the goal or of a
    hypothesis, keeping the equations, and closing what becomes absurd. *)
Ltac case_all :=
  repeat (case_match; simplify_eq/=; try done).

(** Splits a boolean conjunction or disjunction in the hypotheses into Props. *)
Ltac bool_hyps :=
  repeat match goal with
  | H : andb _ _ = true |- _ => apply andb_prop in H as [? ?]
  | H : orb _ _ = false |- _ => apply orb_false_elim in H as [? ?]
  | H : negb _ = true |- _ => apply negb_true_iff in H
  | H : negb _ = false |- _ => apply negb_false_iff in H
  | H : bool_decide _ = true |- _ => apply bool_decide_eq_true in H
  | H : bool_decide _ = false |- _ => apply bool_decide_eq_false in H
  | H : (_ =? _)%string = true |- _ => apply String.eqb_eq in H
  | H : (_ =? _)%string = false |- _ => apply String.eqb_neq in H
  | H : (_ =? _)%Z = true |- _ => apply Z.eqb_eq in H
  | H : (_ =? _)%Z = false |- _ => apply Z.eqb_neq in H
  | H : (_ <? _)%Z = true |- _ => apply Z.ltb_lt in H
  | H : (_ <? _)%Z = false |- _ => apply Z.ltb_ge in H
  | H : (_ <=? _)%Z = true |- _ => apply Z.leb_le in H
  | H : (_ <=? _)%Z = false |- _ => apply Z.leb_gt in H
  end.

(** ** Machine integers: int64 bounds of Go's [int64], [int] and [time.Duration] *)

Definition min_int64 : Z := - 2 ^ 63.
Definition max_int64 : Z := 2 ^ 63 - 1.
Definition in_int64 (z : Z) : bool := (min_int64 <=? z) && (z <=? max_int64).

(** ** Time.  A [time.Time] is a count of nanoseconds since Go's zero time
    (January 1 of year 1), so [time.Time{}] is [0]; a [time.Duration] is an
    int64 number of nanoseconds. *)

Definition time := Z.
Definition duration := Z.

Definition time_zero : time := 0.
Definition time_is_zero (t : time) : bool := t =? 0.
Definition time_before (t u : time) : bool := t <? u.
Definition time_add (t : time) (d : duration) : time := t + d.

(** [Time.Sub] saturates at the bounds of [Duration] instead of wrapping. *)
Definition time_sub (t u : time) : duration :=
  Z.max min_int64 (Z.min max_int64 (t - u)).

Definition second : duration := 1000000000.
Definition minute : duration := 60 * second.

Lemma time_sub_lt (t u : time) (d : duration) :
  min_int64 < d -> d <= max_int64 -> (time_sub t u < d <-> t - u < d).
Proof. unfold time_sub, min_int64, max_int64. lia. Qed.

Lemma time_sub_ge (t u : time) (d : duration) :
  min_int64 < d -> d <= max_int64 -> (d <= time_sub t u <-> d <= t - u).
Proof. unfold time_sub, min_int64, max_int64. lia. Qed.

#[export] Hint Resolve time_sub_lt time_sub_ge : hcloud.

(** ** Strings: the equations of append, which stdpp keeps from [simpl] *)

Lemma append_nil_l (s : string) : EmptyString +:+ s = s.
Proof. done. Qed.

Lemma append_cons (a : Ascii.ascii) (s t : string) : String a s +:+ t = String a (s +:+ t).
Proof. done. Qed.

(** Go compares strings bytewise: [String.ltb], whose negation is the converse
    of stdpp's total order [String.le]. *)
Lemma ltb_false_le (s t : string) : (s <? t)%string = false <-> String.le t s.
Proof.
  unfold String.le, String.ltb, String.leb. rewrite (String.compare_antisym t s).
  destruct (s ?= t)%string; simpl; naive_solver.
Qed.

Lemma ltb_true_not_le (s t : string) : (s <? t)%string = true <-> ~ String.le t s.
Proof. rewrite <- ltb_false_le. by rewrite not_false_iff_true. Qed.

Lemma str_le_trans (s t u : string) : String.le s t -> String.le t u -> String.le s u.
Proof. apply transitivity. Qed.

Lemma str_le_antisym (s t : string) : String.le s t -> String.le t s -> s = t.
Proof. apply (anti_symm String.le). Qed.

Lemma str_le_total (s t : string) : String.le s t \/ String.le t s.
Proof. apply (total String.le). Qed.

#[export] Hint Resolve str_le_trans str_le_antisym : hcloud.

(** ** Stable sorting

    Go's [sort.SliceStable] with a comparator [less], as insertion from the
    right: an element goes in front of the first one it is not greater than, so
    equal elements keep their order.  [sort.Slice] and [sort.Strings] are
    modelled by the same function where the comparator leaves no ties between
    distinct elements. *)

Section StableSort.
Context {A : Type} (less : A -> A -> bool).

Fixpoint insert_stable (x : A) (l : list A) : list A :=
  match l with
  | [] => [x]
  | y :: l' => if less y x then y :: insert_stable x l' else x :: y :: l'
  end.

Fixpoint stable_sort (l : list A) : list A :=
  match l with
  | [] => []
  | x :: l' => insert_stable x (stable_sort l')
  end.

Lemma insert_stable_perm (x : A) (l : list A) : insert_stable x l ≡ₚ x :: l.
Proof.
  induction l as [|y l IH]; simpl; [done|].
  destruct (less y x); [|done]. rewrite IH. apply Permutation_swap.
Qed.

Lemma stable_sort_perm (l : list A) : stable_sort l ≡ₚ l.
Proof.
  induction l as [|x l IH]; simpl; [done|]. by rewrite insert_stable_perm, IH.
Qed.

Lemma stable_sort_length (l : list A) : length (stable_sort l) = length l.
Proof. by rewrite stable_sort_perm. Qed.

Lemma elem_of_stable_sort (x : A) (l : list A) : x ∈ stable_sort l <-> x ∈ l.
Proof. by rewrite stable_sort_perm. Qed.

(** The comparator is a strict weak order on the elements satisfying [P]:
    "not greater" is then a total preorder there. *)
Definition not_greater (x y : A) : Prop := less y x = false.

Record strict_weak (P : A -> Prop) : Prop := {
  sw_asym : forall x y, P x -> P y -> less x y = true -> less y x = false;
  sw_trans : forall x y z, P x -> P y -> P z ->
    less y x = false -> less z y = false -> less z x = false
}.

Context (P : A -> Prop) (HP : strict_weak P).

Lemma insert_stable_sorted (x : A) (l : list A) :
  P x -> Forall P l ->
  StronglySorted not_greater l -> StronglySorted not_greater (insert_stable x l).
Proof using HP.
  intros Hx Hl Hs. induction Hs as [|y l Hs IH Hy]; simpl; [repeat constructor|].
  apply Forall_cons in Hl as [HPy Hl].
  destruct (less y x) eqn:E.
  - constructor; [by apply IH|]. rewrite insert_stable_perm.
    constructor; [|done]. by apply (sw_asym _ HP).
  - constructor; [by constructor|]. constructor; [done|].
    rewrite Forall_forall in Hy, Hl |- *. intros z Hz.
    apply (sw_trans _ HP x y z); auto. by apply Hy.
Qed.

Lemma stable_sort_sorted (l : list A) :
  Forall P l -> StronglySorted not_greater (stable_sort l).
Proof using HP.
  induction 1 as [|x l Hx Hl IH]; simpl; [constructor|].
  apply insert_stable_sorted; [done| |done]. by rewrite stable_sort_perm.
Qed.
End StableSort.

#[export] Hint Resolve stable_sort_perm : hcloud.

Lemma StronglySorted_weaken {A} (R1 R2 : A -> A -> Prop) (l : list A) :
  (forall x y, R1 x y -> R2 x y) -> StronglySorted R1 l -> StronglySorted R2 l.
Proof.
  intros HR. induction 1 as [|x l Hs IH Hx]; constructor; [done|].
  eapply Forall_impl; eauto.
Qed.

(** [sort.Strings]. *)
Definition sort_strings (l : list string) : list string := stable_sort String.ltb l.

Lemma string_less_strict_weak : strict_weak String.ltb (fun _ => True).
Proof.
  split.
  - intros x y _ _ H. apply ltb_false_le.
    apply ltb_true_not_le in H. by destruct (str_le_total x y).
  - intros x y z _ _ _. rewrite !ltb_false_le. eauto with hcloud.
Qed.

(** Sorting makes the result independent of the order strings came in, which
    is how the source removes map iteration order from what it renders. *)
Lemma sort_strings_perm (l1 l2 : list string) :
  l1 ≡ₚ l2 -> sort_strings l1 = sort_strings l2.
Proof.
  intros Hp.
  assert (forall l, StronglySorted String.le (sort_strings l)) as Hs.
  { intros l. eapply StronglySorted_weaken; cycle 1.
    - apply (stable_sort_sorted _ _ string_less_strict_weak). by apply Forall_true.
    - intros x y. by rewrite <- ltb_false_le. }
  apply (StronglySorted_unique String.le); auto.
  unfold sort_strings. by rewrite !stable_sort_perm.
Qed.
