(* ===== verification/GoErrors.v ===== *)
(** Errors: Go error values as trees, and the Hetzner error classifier.

    Models [internal/hcloudapi/errors.go] ([Class], [Code], [Classify],
    [IsKnownCode]), the typed errors of [internal/hcloudapi/resources.go]
    ([NotFoundError]), [internal/hcloudapi/servers.go] ([IsNotFound]),
    [internal/providers/instance/instance.go] ([errNotManaged]) and
    [internal/providers/bootstrap/clusterinfo.go] ([ConfigError]), and Go's
    [errors.As] as a depth-first search of the tree. *)

From S2P Require Import Prelude.

(** ** Hetzner error codes

    One constructor per constant of hcloud-go the source names; any other code
    is [OtherCode].  That the named constants are pairwise distinct is what the
    Go compiler checks of the map literal they key. *)
Inductive error_code :=
  | CodeResourceUnavailable | CodePlacementError | CodeNoSpaceLeftInLocation
  | CodeMaintenance | CodeResourceLimitExceeded
  | CodeRateLimitExceeded | CodeServiceError | CodeServerError | CodeBadGateway
  | CodeTimeout | CodeConflict | CodeLocked | CodeResourceLocked | CodeProtected
  | CodeJSONError | CodeRobotUnavailable | CodeUnknownError
  | CodeInvalidInput | CodeNotFound | CodeUnsupportedError | CodeInvalidServerType
  | CodeUniqueness | CodeNetworksOverlap | CodeServerAlreadyAttached
  | CodeForbidden | CodeUnauthorized
  | OtherCode (text : string).

#[export] Instance error_code_eq_dec : EqDecision error_code.
Proof. solve_decision. Defined.

#[export] Instance error_code_countable : Countable error_code.
Proof.
  refine (inj_countable' (fun c : error_code => match c with
    | CodeResourceUnavailable => (0, "") | CodePlacementError => (1, "")
    | CodeNoSpaceLeftInLocation => (2, "") | CodeMaintenance => (3, "")
    | CodeResourceLimitExceeded => (4, "") | CodeRateLimitExceeded => (5, "")
    | CodeServiceError => (6, "") | CodeServerError => (7, "") | CodeBadGateway => (8, "")
    | CodeTimeout => (9, "") | CodeConflict => (10, "") | CodeLocked => (11, "")
    | CodeResourceLocked => (12, "") | CodeProtected => (13, "") | CodeJSONError => (14, "")
    | CodeRobotUnavailable => (15, "") | CodeUnknownError => (16, "")
    | CodeInvalidInput => (17, "") | CodeNotFound => (18, "")
    | CodeUnsupportedError => (19, "") | CodeInvalidServerType => (20, "")
    | CodeUniqueness => (21, "") | CodeNetworksOverlap => (22, "")
    | CodeServerAlreadyAttached => (23, "") | CodeForbidden => (24, "")
    | CodeUnauthorized => (25, "") | OtherCode t => (26, t)
    end : Z * string) (fun p => match p with
    | (0, _) => CodeResourceUnavailable | (1, _) => CodePlacementError
    | (2, _) => CodeNoSpaceLeftInLocation | (3, _) => CodeMaintenance
    | (4, _) => CodeResourceLimitExceeded | (5, _) => CodeRateLimitExceeded
    | (6, _) => CodeServiceError | (7, _) => CodeServerError | (8, _) => CodeBadGateway
    | (9, _) => CodeTimeout | (10, _) => CodeConflict | (11, _) => CodeLocked
    | (12, _) => CodeResourceLocked | (13, _) => CodeProtected | (14, _) => CodeJSONError
    | (15, _) => CodeRobotUnavailable | (16, _) => CodeUnknownError
    | (17, _) => CodeInvalidInput | (18, _) => CodeNotFound
    | (19, _) => CodeUnsupportedError | (20, _) => CodeInvalidServerType
    | (21, _) => CodeUniqueness | (22, _) => CodeNetworksOverlap
    | (23, _) => CodeServerAlreadyAttached | (24, _) => CodeForbidden
    | (25, _) => CodeUnauthorized | (_, t) => OtherCode t
    end) _).
  by intros [].
Defined.

(** The empty code: what [Code] yields for an error that carries none. *)
Definition no_code : error_code := OtherCode "".

(** ** Error values *)

(** The response an [hcloud.Error] holds: [None] when it embeds no HTTP
    response, otherwise the value of its X-Correlation-Id header ([""] when
    absent).  The request behind it carries the API token. *)
Record hcloud_response := { http_correlation_id : option string }.

(** Karpenter core's error wrappers. *)
Inductive karp_kind :=
  | InsufficientCapacity
  | CreateError (reason message : string)
  | NodeClaimNotFound
  | NodeClassNotReady
  | NodeRebootFailed.

(** The Kubernetes API status reasons the source distinguishes. *)
Inductive kube_reason :=
  | KubeNotFound | KubeConflict | KubeForbidden | KubeUnauthorized
  | KubeBadRequest | KubeOther.

#[export] Instance karp_kind_eq_dec : EqDecision karp_kind.
Proof. solve_decision. Defined.
#[export] Instance kube_reason_eq_dec : EqDecision kube_reason.
Proof. solve_decision. Defined.

(** A Go [error].  [Errorf] is [errors.New] or a [fmt.Errorf] without [%w];
    [Wrapf text err] is [fmt.Errorf("text%w", err)]; [Joined] is an error with
    [Unwrap() []error].  The hcloud errors occur by value and by pointer, which
    [errors.As] tells apart. *)
Inductive error :=
  | Errorf (text : string)
  | Wrapf (text : string) (err : error)
  | Joined (errs : list error)
  | HcloudError (code : error_code) (message : string) (resp : option hcloud_response)
  | HcloudErrorPtr (code : error_code) (message : string) (resp : option hcloud_response)
  | HcloudActionError (code : error_code) (message : string) (action : option Z)
  | HcloudActionErrorPtr (code : error_code) (message : string) (action : option Z)
  | NotFoundError (kind selector : string)
  | NotManagedError (name : string) (id : Z)
  | ConfigError (err : error)
  | KubeStatus (reason : kube_reason) (text : string)
  | KarpError (kind : karp_kind) (err : error).

(** A Go return pair [(T, error)] where exactly one side is meaningful. *)
Inductive result (A : Type) :=
  | Ok (a : A)
  | Err (e : error).
Arguments Ok {A} a.
Arguments Err {A} e.

Definition result_bind {A B} (r : result A) (k : A -> result B) : result B :=
  match r with Ok a => k a | Err e => Err e end.

Notation "'let*' x ':=' r 'in' k" := (result_bind r (fun x => k))
  (at level 10, x pattern, r at level 100, k at level 200) : go_scope.

Definition is_ok {A} (r : result A) : bool := match r with Ok _ => true | Err _ => false end.

(** Whether a karpenter error exposes what it wraps to [errors.As].  That is
    core's code, so it is a parameter of everything that searches a tree. *)
Class KarpErrors := karp_unwraps : karp_kind -> bool.

(** [err.Error()]: the message an error renders, libraries' errors included. *)
Class ErrorText := error_text : error -> string.

Section ErrorsAs.
Context `{KarpErrors}.

(** [errors.As]: the first node, in pre-order, that [f] accepts. *)
Fixpoint errors_as {A} (f : error -> option A) (err : error) : option A :=
  match f err with
  | Some a => Some a
  | None =>
      match err with
      | Wrapf _ e | ConfigError e => errors_as f e
      | KarpError k e => if karp_unwraps k then errors_as f e else None
      | Joined es =>
          (fix go (l : list error) : option A :=
             match l with
             | [] => None
             | e :: l' => match errors_as f e with Some a => Some a | None => go l' end
             end) es
      | _ => None
      end
  end.

Definition as_hcloud_error (err : error) : option error_code :=
  match err with HcloudError c _ _ => Some c | _ => None end.

Definition as_action_error (err : error) : option error_code :=
  match err with HcloudActionError c _ _ => Some c | _ => None end.

Definition as_not_found (err : error) : option (string * string) :=
  match err with NotFoundError k s => Some (k, s) | _ => None end.

(** [Code]: API errors first, then action errors, each searched through the
    whole tree. *)
Definition Code (err : option error) : option error_code :=
  match err with
  | None => None
  | Some e =>
      match errors_as as_hcloud_error e with
      | Some c => Some c
      | None => errors_as as_action_error e
      end
  end.

(** [IsNotFound]. *)
Definition IsNotFound (err : option error) : bool :=
  match err with
  | None => false
  | Some e => bool_decide (is_Some (errors_as as_not_found e))
  end.

Inductive Class_ :=
  | ClassNone | ClassCapacity | ClassQuota | ClassTransient | ClassConfig | ClassFatal.

#[export] Instance Class_eq_dec : EqDecision Class_.
Proof. solve_decision. Defined.

(** [Class.String], the label the launch-failure counter carries. *)
Definition class_string (c : Class_) : string :=
  match c with
  | ClassNone => "none"
  | ClassCapacity => "capacity"
  | ClassQuota => "quota"
  | ClassTransient => "transient"
  | ClassConfig => "config"
  | ClassFatal => "fatal"
  end.

(** The [classes] table; [None] is a code absent from it. *)
Definition classes (c : error_code) : option Class_ :=
  match c with
  | CodeResourceUnavailable | CodePlacementError | CodeNoSpaceLeftInLocation
  | CodeMaintenance => Some ClassCapacity
  | CodeResourceLimitExceeded => Some ClassQuota
  | CodeRateLimitExceeded | CodeServiceError | CodeServerError | CodeBadGateway
  | CodeTimeout | CodeConflict | CodeLocked | CodeResourceLocked | CodeProtected
  | CodeJSONError | CodeRobotUnavailable | CodeUnknownError => Some ClassTransient
  | CodeInvalidInput | CodeNotFound | CodeUnsupportedError | CodeInvalidServerType
  | CodeUniqueness | CodeNetworksOverlap | CodeServerAlreadyAttached => Some ClassConfig
  | CodeForbidden | CodeUnauthorized => Some ClassFatal
  | OtherCode _ => None
  end.

Definition Classify (err : option error) : Class_ :=
  match err with
  | None => ClassNone
  | Some _ =>
      match Code err with
      | None => ClassTransient
      | Some code => default ClassTransient (classes code)
      end
  end.

Definition IsKnownCode (err : option error) : bool :=
  match Code err with
  | None => false
  | Some code => bool_decide (is_Some (classes code))
  end.

(** [rebootError] and the create path read the code as a string that is empty
    when there is none. *)
Definition code_or_empty (err : option error) : error_code :=
  default no_code (Code err).

(** ** Lemmas *)

Lemma errors_as_wrap {A} (f : error -> option A) (t : string) (e : error) :
  f (Wrapf t e) = None -> errors_as f (Wrapf t e) = errors_as f e.
Proof. intros Hf. simpl. by rewrite Hf. Qed.

Lemma Code_wrap (t : string) (e : error) : Code (Some (Wrapf t e)) = Code (Some e).
Proof. done. Qed.

Lemma Classify_wrap (t : string) (e : error) :
  Classify (Some (Wrapf t e)) = Classify (Some e).
Proof. done. Qed.

Lemma IsNotFound_wrap (t : string) (e : error) :
  IsNotFound (Some (Wrapf t e)) = IsNotFound (Some e).
Proof. done. Qed.

Lemma Classify_not_none (e : error) : Classify (Some e) <> ClassNone.
Proof.
  unfold Classify. destruct (Code (Some e)) as [c|]; [|done].
  by destruct c.
Qed.

Lemma Classify_code (e : error) (c : Class_) :
  c <> ClassTransient -> Classify (Some e) = c ->
  exists code, Code (Some e) = Some code /\ classes code = Some c.
Proof.
  unfold Classify. intros Hc. destruct (Code (Some e)) as [code|]; [|intros; congruence].
  destruct (classes code) as [c'|] eqn:E; simpl; intros; [|congruence].
  exists code. by subst.
Qed.

Lemma classes_empty : classes no_code = None.
Proof. done. Qed.
End ErrorsAs.

#[export] Hint Resolve Classify_not_none : hcloud.
