(* ===== verification/Float64.v ===== *)
(** IEEE-754 binary64, Go's [float64], on the specification floats of the
    standard library: exact definitions of the rounded operations, so that
    prices and capacities evaluate bit for bit.

    Used by the models of [internal/providers/instancetype] (prices, capacity)
    and [internal/providers/instance] (price order). *)

From Stdlib Require Import SpecFloat.
From S2P Require Import Prelude.

Abbreviation float64 := spec_float.

Definition prec64 : Z := 53.
Definition emax64 : Z := 1024.

Definition fadd : float64 -> float64 -> float64 := SFadd prec64 emax64.
Definition fsub : float64 -> float64 -> float64 := SFsub prec64 emax64.
Definition fmul : float64 -> float64 -> float64 := SFmul prec64 emax64.
Definition fdiv : float64 -> float64 -> float64 := SFdiv prec64 emax64.

(** The conversion of an integer, and of a constant [n/d], each rounded once to
    nearest even, as Go converts an int64 or an untyped constant. *)
Definition f_of_Z (z : Z) : float64 := binary_normalize prec64 emax64 z 0 false.

Definition f_ratio (n : Z) (d : positive) : float64 :=
  match n with
  | Z0 => S754_zero false
  | Zpos p =>
      let '(m, e, l) := SFdiv_core_binary prec64 emax64 (Zpos p) 0 (Zpos d) 0 in
      binary_round_aux prec64 emax64 false m e l
  | Zneg p =>
      let '(m, e, l) := SFdiv_core_binary prec64 emax64 (Zpos p) 0 (Zpos d) 0 in
      binary_round_aux prec64 emax64 true m e l
  end.

Definition f_zero : float64 := S754_zero false.
Definition f_is_nan (f : float64) : bool := match f with S754_nan => true | _ => false end.

(** The integer part of a finite float, toward zero. *)
Definition f_trunc (f : float64) : option Z :=
  match f with
  | S754_zero _ => Some 0
  | S754_finite s m e =>
      let n := if 0 <=? e then Zpos m * 2 ^ e else Zpos m / 2 ^ (- e) in
      Some (if s then - n else n)
  | _ => None
  end.

(** [math.Ceil]: integers, infinities and NaN are fixed points. *)
Definition f_ceil (f : float64) : float64 :=
  match f with
  | S754_finite s m e =>
      if 0 <=? e then f
      else
        let d := 2 ^ (- e) in
        let n := if s then - (Zpos m / d) else - (- Zpos m / d) in
        binary_normalize prec64 emax64 n 0 s
  | _ => f
  end.

(** [int64(f)].  Go leaves the result of an out-of-range conversion to the
    implementation, so that value is a parameter. *)
Class IntConv := conv_out_of_range : float64 -> Z.

Definition int64_of_float `{IntConv} (f : float64) : Z :=
  match f_trunc f with
  | Some z => if in_int64 z then z else conv_out_of_range f
  | None => conv_out_of_range f
  end.

(** ** The order on floats other than NaN

    [SFcompare] is lexicographic on (class, exponent, mantissa), negated below
    zero; the key makes it the order of integer triples. *)
Definition fkey (f : float64) : Z * Z * Z :=
  match f with
  | S754_infinity true => (-2, 0, 0)
  | S754_finite true m e => (-1, - e, - Zpos m)
  | S754_zero _ => (0, 0, 0)
  | S754_finite false m e => (1, e, Zpos m)
  | S754_infinity false => (2, 0, 0)
  | S754_nan => (0, 0, 0)
  end.

Definition key_lt (a b : Z * Z * Z) : Prop :=
  let '(a1, a2, a3) := a in
  let '(b1, b2, b3) := b in
  a1 < b1 \/ (a1 = b1 /\ (a2 < b2 \/ (a2 = b2 /\ a3 < b3))).

Lemma SFcompare_key (x y : float64) :
  x <> S754_nan -> y <> S754_nan ->
  match SFcompare x y with
  | Some Lt => key_lt (fkey x) (fkey y)
  | Some Eq => fkey x = fkey y
  | Some Gt => key_lt (fkey y) (fkey x)
  | None => False
  end.
Proof.
  intros Hx Hy.
  destruct x as [[]|[]| |[] mx ex], y as [[]|[]| |[] my ey]; simpl; try congruence; try lia.
  all: change (Pos.compare_cont Eq mx my) with (Pos.compare mx my).
  all: destruct (Z.compare_spec ex ey), (Pos.compare_spec mx my); simpl; try lia;
    subst; try f_equal; lia.
Qed.

Lemma SFltb_key (x y : float64) :
  x <> S754_nan -> y <> S754_nan -> SFltb x y = true <-> key_lt (fkey x) (fkey y).
Proof.
  intros Hx Hy. pose proof (SFcompare_key x y Hx Hy) as H. unfold SFltb.
  destruct (fkey x) as [[a1 a2] a3], (fkey y) as [[b1 b2] b3]. simpl in *.
  destruct (SFcompare x y) as [[]|]; [|split; [done|]..|done]; try lia.
  all: simplify_eq; naive_solver lia.
Qed.

Lemma SFeqb_key (x y : float64) :
  x <> S754_nan -> y <> S754_nan -> SFeqb x y = true <-> fkey x = fkey y.
Proof.
  intros Hx Hy. pose proof (SFcompare_key x y Hx Hy) as H. unfold SFeqb.
  destruct (fkey x) as [[a1 a2] a3], (fkey y) as [[b1 b2] b3]. simpl in *.
  destruct (SFcompare x y) as [[]|]; [done| | |done].
  all: split; [done|]; intros [= -> -> ->]; lia.
Qed.

#[export] Hint Resolve SFltb_key SFeqb_key : hcloud.
