(* ===== verification/GoText.v ===== *)
(** The text functions of Go's standard library the provider calls.

    [strings.TrimSpace], [CutSuffix], [Join] and [HasPrefix] are defined here
    on bytes.  [strconv.ParseFloat], [%g] and [%q] are operations of the class
    [GoText]: no theorem depends on which floats or strings they produce beyond
    the hypotheses it states. *)

From Stdlib Require Import Ascii.
From S2P Require Import Prelude Float64.

Class GoText := {
  ParseFloat : string -> option float64;
  FormatG : float64 -> string;
  Quote : string -> string
}.

(** Reverses a string; suffixes are prefixes of the reverse. *)
Fixpoint srev_app (s acc : string) : string :=
  match s with EmptyString => acc | String a s' => srev_app s' (String a acc) end.
Definition srev (s : string) : string := srev_app s EmptyString.

(** [strings.CutPrefix]. *)
Fixpoint CutPrefix (s prefix : string) {struct prefix} : option string :=
  match prefix with
  | EmptyString => Some s
  | String a p' =>
      match s with
      | EmptyString => None
      | String b s' => if decide (a = b) then CutPrefix s' p' else None
      end
  end.

Definition CutSuffix (s suffix : string) : option string :=
  srev <$> CutPrefix (srev s) (srev suffix).

Definition bytes (l : list nat) : string :=
  foldr (fun n s => String (ascii_of_nat n) s) EmptyString l.

(** The UTF-8 encodings of Unicode's White_Space characters. *)
Definition white_space : list string :=
  bytes <$> [[9]; [10]; [11]; [12]; [13]; [32];
             [194; 133]; [194; 160]; [225; 154; 128];
             [226; 128; 128]; [226; 128; 129]; [226; 128; 130]; [226; 128; 131];
             [226; 128; 132]; [226; 128; 133]; [226; 128; 134]; [226; 128; 135];
             [226; 128; 136]; [226; 128; 137]; [226; 128; 138];
             [226; 128; 168]; [226; 128; 169]; [226; 128; 175];
             [226; 129; 159]; [227; 128; 128]]%nat.

(** Drops leading encodings of [ws]; each round shortens [s], so its length is
    fuel enough. *)
Fixpoint trim_left (ws : list string) (fuel : nat) (s : string) : string :=
  match fuel with
  | O => s
  | S fuel =>
      match head (omap (CutPrefix s) ws) with
      | Some rest => trim_left ws fuel rest
      | None => s
      end
  end.

Definition TrimSpace (s : string) : string :=
  let l := trim_left white_space (String.length s) s in
  srev (trim_left (srev <$> white_space) (String.length l) (srev l)).

(** [strings.Join]. *)
Fixpoint Join (l : list string) (sep : string) : string :=
  match l with
  | [] => ""
  | [s] => s
  | s :: l' => s +:+ sep +:+ Join l' sep
  end.

Lemma CutPrefix_spec (s p r : string) : CutPrefix s p = Some r <-> s = p +:+ r.
Proof.
  revert s r. induction p as [|a p IH]; intros s r; simpl.
  { rewrite append_nil_l. split; congruence. }
  rewrite append_cons.
  destruct s as [|b s]; [done|]. case_decide as Hab; [|split; congruence].
  subst. rewrite IH. split; congruence.
Qed.

Lemma srev_app_app (s t acc : string) : srev_app (s +:+ t) acc = srev_app t (srev_app s acc).
Proof. revert acc. induction s as [|a s IH]; intros acc; [done|]. rewrite append_cons. apply IH. Qed.

Lemma append_assoc_s (s t u : string) : (s +:+ t) +:+ u = s +:+ (t +:+ u).
Proof. induction s as [|a s IH]; [done|]. rewrite !append_cons. by rewrite IH. Qed.

Lemma append_nil_r (s : string) : s +:+ "" = s.
Proof. induction s as [|a s IH]; [done|]. by rewrite append_cons, IH. Qed.

Lemma srev_app_acc (s acc : string) : srev_app s acc = srev s +:+ acc.
Proof.
  unfold srev. revert acc. induction s as [|a s IH]; intros acc; [done|]. simpl.
  rewrite IH, (IH (String a "")), append_assoc_s. done.
Qed.

Lemma srev_append (s t : string) : srev (s +:+ t) = srev t +:+ srev s.
Proof. unfold srev at 1. by rewrite srev_app_app, srev_app_acc. Qed.

Lemma srev_involutive (s : string) : srev (srev s) = s.
Proof.
  induction s as [|a s IH]; [done|].
  change (String a s) with (String a "" +:+ s) at 1.
  rewrite !srev_append, IH. done.
Qed.

Lemma CutSuffix_spec (s suf r : string) : CutSuffix s suf = Some r <-> s = r +:+ suf.
Proof.
  unfold CutSuffix. rewrite fmap_Some. setoid_rewrite CutPrefix_spec. split.
  - intros (x & Hx & ->). rewrite <- (srev_involutive s), Hx, srev_append.
    by rewrite srev_involutive.
  - intros ->. exists (srev r). by rewrite srev_append, srev_involutive.
Qed.
