(* ===== verification/GoMaps.v ===== *)
(** Separators and maps: [strings.Split], [strings.Cut] and [range] over a map.

    Go iterates over a map in an order of its own choosing.  [MapRange] is that
    choice, any permutation of the entries ([MapRangeLaws]); what renders a map
    takes an instance, so that a theorem for every instance says that no
    iteration order shows in the result. *)

From Stdlib Require Import Ascii.
From S2P Require Import Prelude Float64 GoText.

(** ** Characters of a string *)

Fixpoint has_char (c : ascii) (s : string) : bool :=
  match s with
  | EmptyString => false
  | String a s' => bool_decide (a = c) || has_char c s'
  end.

(** [strings.Split] on a separator of one byte. *)
Fixpoint Split (s : string) (sep : ascii) : list string :=
  match s with
  | EmptyString => [""]
  | String a s' =>
      if decide (a = sep) then "" :: Split s' sep
      else match Split s' sep with
           | [] => [String a ""]
           | x :: l => String a x :: l
           end
  end.

(** [strings.Cut] at the first separator of one byte. *)
Fixpoint Cut (s : string) (sep : ascii) : option (string * string) :=
  match s with
  | EmptyString => None
  | String a s' =>
      if decide (a = sep) then Some ("", s')
      else prod_map (String a) id <$> Cut s' sep
  end.

Lemma has_char_append (c : ascii) (s t : string) :
  has_char c (s +:+ t) = has_char c s || has_char c t.
Proof.
  induction s as [|a s IH]; [done|]. rewrite append_cons. cbn [has_char].
  by rewrite IH, orb_assoc.
Qed.

Lemma Split_nonempty (s : string) (sep : ascii) : Split s sep <> [].
Proof. destruct s; cbn [Split]; [done|]. case_decide; [done|]. by destruct (Split s sep). Qed.

Lemma Split_whole (s : string) (sep : ascii) : has_char sep s = false -> Split s sep = [s].
Proof.
  induction s as [|a s IH]; [done|]. cbn [has_char Split]. intros H. bool_hyps.
  by rewrite decide_False, IH.
Qed.

Lemma Split_first (s t : string) (sep : ascii) :
  has_char sep s = false -> Split (s +:+ String sep t) sep = s :: Split t sep.
Proof.
  induction s as [|a s IH].
  - intros _. rewrite append_nil_l. cbn [Split]. by rewrite decide_True.
  - rewrite append_cons. cbn [has_char Split]. intros H. bool_hyps.
    by rewrite decide_False, IH.
Qed.

Lemma Split_app (s t : string) (sep : ascii) :
  Split (s +:+ String sep t) sep = Split s sep ++ Split t sep.
Proof.
  induction s as [|a s IH].
  - rewrite append_nil_l. cbn [Split]. by rewrite decide_True.
  - rewrite append_cons. cbn [Split]. rewrite IH. case_decide; [done|].
    pose proof (Split_nonempty s sep). by destruct (Split s sep).
Qed.

(** Splitting undoes joining when no part holds the separator. *)
Lemma Split_Join (l : list string) (sep : ascii) :
  l <> [] -> Forall (fun s => has_char sep s = false) l ->
  Split (Join l (String sep "")) sep = l.
Proof.
  induction l as [|s l IH]; [done|]. intros _ [Hs Hl]%Forall_cons.
  destruct l as [|t l]; [by apply Split_whole|].
  change (Join (s :: t :: l) (String sep "")) with
    (s +:+ String sep "" +:+ Join (t :: l) (String sep "")).
  change (String sep "" +:+ ?r) with (String sep r).
  rewrite Split_first by done. f_equal. by apply IH.
Qed.

(** Joining undoes splitting, always. *)
Lemma Join_Split (s : string) (sep : ascii) : Join (Split s sep) (String sep "") = s.
Proof.
  induction s as [|a s IH]; [done|]. cbn [Split]. pose proof (Split_nonempty s sep).
  destruct (Split s sep) as [|x l] eqn:E; [done|]. case_decide as Ha.
  - subst a. change (Join ("" :: x :: l) ?c) with (c +:+ Join (x :: l) c).
    rewrite IH. done.
  - rewrite <- IH. destruct l; done.
Qed.

Lemma Cut_first (s t : string) (sep : ascii) :
  has_char sep s = false -> Cut (s +:+ String sep t) sep = Some (s, t).
Proof.
  induction s as [|a s IH].
  - intros _. rewrite append_nil_l. cbn [Cut]. by rewrite decide_True.
  - rewrite append_cons. cbn [has_char Cut]. intros H. bool_hyps.
    rewrite decide_False, IH by done. done.
Qed.

(** ** Ranging over a map *)

Class MapRange := map_range : forall {V : Type}, gmap string V -> list (string * V).

Class MapRangeLaws `(M : MapRange) :=
  map_range_perm : forall (V : Type) (m : gmap string V), map_range m ≡ₚ map_to_list m.

(** The order of stdpp's [map_to_list], for examples. *)
Definition some_order : MapRange := fun V m => map_to_list m.

#[export] Instance some_order_laws : MapRangeLaws some_order.
Proof. intros V m. reflexivity. Qed.

(** [maps.Copy(dst, src)]. *)
Definition maps_Copy `{MapRange} {V} (dst src : gmap string V) : gmap string V :=
  foldl (fun m kv => <[ kv.1 := kv.2 ]> m) dst (map_range src).

Lemma foldl_insert_union {V} (l : list (string * V)) (m : gmap string V) :
  NoDup l.*1 -> foldl (fun m kv => <[ kv.1 := kv.2 ]> m) m l = list_to_map l ∪ m.
Proof.
  revert m. induction l as [|[k v] l IH]; intros m; [intros _; symmetry; apply map_empty_union|].
  cbn [fmap list_fmap foldl list_to_map]. intros [Hk Hl]%NoDup_cons. rewrite IH by done.
  cbn [fst snd]. rewrite <- insert_union_r by (by apply not_elem_of_list_to_map).
  by rewrite insert_union_l.
Qed.

(** Copying is the union in which the source wins, in whatever order. *)
Lemma maps_Copy_union `{MR : MapRange} {ML : MapRangeLaws MR} {V} (dst src : gmap string V) :
  maps_Copy dst src = src ∪ dst.
Proof.
  unfold maps_Copy. pose proof (NoDup_fst_map_to_list src) as Hnd.
  rewrite foldl_insert_union by (by rewrite (map_range_perm V src)).
  f_equal. symmetry. apply list_to_map_flip. by rewrite (map_range_perm V src).
Qed.

Lemma map_range_order `{M1 : MapRange, M2 : MapRange} {L1 : MapRangeLaws M1} {L2 : MapRangeLaws M2}
    {V} (m : gmap string V) : @map_range M1 V m ≡ₚ @map_range M2 V m.
Proof. by rewrite (@map_range_perm M1 L1), (@map_range_perm M2 L2). Qed.

(** The pairs of a map, each printed with a separator, sorted and joined by
    commas, and the map a reader of that text gets back. *)
Definition pairs_arg {V} (sep : ascii) (show : V -> string) (l : list (string * V)) : string :=
  Join (sort_strings ((fun kv => kv.1 +:+ String sep (show kv.2)) <$> l)) ",".

Definition read_pairs (sep : ascii) (s : string) : gmap string string :=
  list_to_map (omap (fun p => Cut p sep) (Split s ",")).

Lemma pairs_arg_perm {V} (sep : ascii) (show : V -> string) (l1 l2 : list (string * V)) :
  l1 ≡ₚ l2 -> pairs_arg sep show l1 = pairs_arg sep show l2.
Proof. intros Hp. unfold pairs_arg. f_equal. apply sort_strings_perm. by rewrite Hp. Qed.

(** An entry whose key holds neither separator and whose value no comma. *)
Definition plain_entry {V} (sep : ascii) (show : V -> string) (k : string) (v : V) : Prop :=
  has_char sep k = false /\ has_char "," k = false /\ sep <> ","%char /\
  has_char "," (show v) = false.

Lemma read_pairs_arg {V} (sep : ascii) (show : V -> string) (m : gmap string V)
    (l : list (string * V)) :
  l ≡ₚ map_to_list m -> map_Forall (plain_entry sep show) m ->
  read_pairs sep (pairs_arg sep show l) = show <$> m.
Proof.
  intros Hl Hm. unfold read_pairs, pairs_arg.
  set (f := fun kv : string * V => kv.1 +:+ String sep (show kv.2)).
  assert (Forall (fun kv => plain_entry sep show kv.1 kv.2) l) as Hp.
  { rewrite Hl. apply Forall_forall. intros [k v] Hkv. apply Hm. by apply elem_of_map_to_list. }
  assert (Forall (fun s => has_char "," s = false) (sort_strings (f <$> l))) as Hc.
  { unfold sort_strings. rewrite stable_sort_perm. apply Forall_fmap.
    eapply Forall_impl; [exact Hp|]. intros [k v] (_ & Hk & Hs & Hv). unfold compose, f.
    rewrite has_char_append. cbn [has_char]. rewrite Hk, Hv. by rewrite bool_decide_false. }
  assert (omap (fun p => Cut p sep) (f <$> l) = prod_map id show <$> l) as Ho.
  { clear Hl Hc. induction Hp as [|[k v] l (Hk & _) _ IH]; [done|]. cbn [fmap list_fmap omap list_omap].
    unfold f at 1. cbn [fst snd]. rewrite Cut_first by done. f_equal. exact IH. }
  symmetry. apply list_to_map_flip. rewrite map_to_list_fmap, <- Hl, <- Ho.
  destruct (f <$> l) as [|x xs] eqn:E.
  { done. }
  change ("," : string) with (String "," ""). rewrite Split_Join; [|intros Hnil|done].
  - unfold sort_strings. by rewrite stable_sort_perm.
  - apply (f_equal length) in Hnil. unfold sort_strings in Hnil.
    by rewrite stable_sort_length in Hnil.
Qed.

#[export] Hint Resolve map_range_perm map_range_order pairs_arg_perm : hcloud.
