(* ===== verification/GoHeap.v ===== *)
(** Go memory: pointers, slices and maps as addresses of cells.

    The rest of the library reads a Go value as the value it denotes.  This file
    is where aliasing exists: a heap of typed cells, programs that allocate and
    dereference ([GoM], where [None] is the panic of a bad dereference), and
    loaders, which read the value a piece of memory denotes together with the
    cells it is made of.  [copies] is the contract of a deep copy: the same value
    from cells that did not exist before; the combinators for pointers and
    slices meet it when their elements do, and [makes] composes them into
    structs. *)

From S2P Require Import Prelude.

Abbreviation addr := positive.

(** A cell type holds values of a Go type. *)
Class Cell (C A : Type) := {
  to_cell : A -> C;
  of_cell : C -> option A;
  of_to_cell : forall x, of_cell (to_cell x) = Some x
}.

Abbreviation heap_of C := (gmap addr C).

Section Heap.
Context {C : Type}.
Abbreviation heap := (gmap addr C).

(** ** Programs *)

Definition GoM (A : Type) : Type := heap -> option (A * heap).

Definition go_ret {A} (x : A) : GoM A := fun h => Some (x, h).

Definition go_bind {A B} (m : GoM A) (k : A -> GoM B) : GoM B := fun h =>
  match m h with
  | Some (x, h') => k x h'
  | None => None
  end.

(** [new] and [make], with what is then stored. *)
Definition alloc `{Cell C A} (x : A) : GoM addr := fun h =>
  let a := fresh (dom h) in Some (a, <[ a := to_cell x ]> h).

Definition deref `{Cell C A} (a : addr) : GoM A := fun h =>
  match h !! a ≫= of_cell with
  | Some x => Some (x, h)
  | None => None
  end.

Definition store `{Cell C A} (a : addr) (x : A) : GoM unit := fun h =>
  match (h !! a ≫= of_cell : option A) with
  | Some _ => Some (tt, <[ a := to_cell x ]> h)
  | None => None
  end.

(** ** Loaders *)

Definition loader (V : Type) : Type := heap -> option (V * gset addr).

Definition l_pure {V} (v : V) : loader V := fun _ => Some (v, ∅).

Definition l_ap {V U} (lf : loader (V -> U)) (la : loader V) : loader U := fun h =>
  match lf h, la h with
  | Some (f, p), Some (a, q) => Some (f a, p ∪ q)
  | _, _ => None
  end.

Definition l_bind {V U} (la : loader V) (k : V -> loader U) : loader U := fun h =>
  match la h with
  | Some (a, p) => match k a h with Some (b, q) => Some (b, p ∪ q) | None => None end
  | None => None
  end.

Definition l_cell `{Cell C A} (a : addr) : loader A := fun h =>
  match h !! a ≫= of_cell with
  | Some x => Some (x, {[ a ]})
  | None => None
  end.

Fixpoint l_list {A V} (l : A -> loader V) (xs : list A) : loader (list V) :=
  match xs with
  | [] => l_pure []
  | x :: xs => l_ap (l_ap (l_pure cons) (l x)) (l_list l xs)
  end.

(** A pointer; nil is [None]. *)
Definition l_ptr `{Cell C A} {V} (l : A -> loader V) (p : option addr) : loader (option V) :=
  match p with
  | None => l_pure None
  | Some a => l_ap (l_pure Some) (l_bind (l_cell a) l)
  end.

(** A slice, by its array; the value of nil is the empty list. *)
Definition l_slice `{Cell C (list A)} {V} (l : A -> loader V) (s : option addr) : loader (list V) :=
  match s with
  | None => l_pure []
  | Some a => l_bind (l_cell a) (l_list l)
  end.

(** A map of plain values. *)
Definition l_map `{Cell C (gmap string A)} (m : option addr) : loader (gmap string A) :=
  match m with
  | None => l_pure ∅
  | Some a => l_cell a
  end.

(** What a loader reads is there, and depends on nothing else. *)
Definition good {V} (l : loader V) : Prop := forall h v p,
  l h = Some (v, p) ->
  p ⊆ dom h /\ forall h', (forall a, a ∈ p -> h' !! a = h !! a) -> l h' = Some (v, p).

Lemma good_pure {V} (v : V) : good (l_pure v).
Proof. intros h v' p [= <- <-]. split; [set_solver|done]. Qed.

Lemma good_ap {V U} (lf : loader (V -> U)) (la : loader V) : good lf -> good la -> good (l_ap lf la).
Proof.
  intros Hf Ha h v p. unfold l_ap. destruct (lf h) as [[f q]|] eqn:Ef; [|done].
  destruct (la h) as [[a r]|] eqn:Ea; [|done]. intros [= <- <-].
  destruct (Hf _ _ _ Ef) as [Hfd Hfl], (Ha _ _ _ Ea) as [Had Hal]. split; [set_solver|].
  intros h' Hh. rewrite Hfl, Hal by set_solver. done.
Qed.

Lemma good_bind {V U} (la : loader V) (k : V -> loader U) :
  good la -> (forall a, good (k a)) -> good (l_bind la k).
Proof.
  intros Ha Hk h v p. unfold l_bind. destruct (la h) as [[a q]|] eqn:Ea; [|done].
  destruct (k a h) as [[b r]|] eqn:Ek; [|done]. intros [= <- <-].
  destruct (Ha _ _ _ Ea) as [Had Hal], (Hk a _ _ _ Ek) as [Hkd Hkl]. split; [set_solver|].
  intros h' Hh. rewrite Hal, Hkl by set_solver. done.
Qed.

Lemma good_cell `{Cell C A} (a : addr) : good (l_cell a : loader A).
Proof.
  intros h v p. unfold l_cell. destruct (h !! a) as [c|] eqn:Ea; [|done]. cbn [mbind option_bind].
  destruct (of_cell c) as [x|] eqn:Ec; [|done]. intros [= <- <-]. split.
  - apply singleton_subseteq_l, elem_of_dom. by eexists.
  - intros h' Hh. specialize (Hh a (elem_of_singleton_2 _ _ eq_refl)). rewrite Ea in Hh. unfold l_cell. rewrite Hh. cbn [mbind option_bind]. by rewrite Ec.
Qed.

Lemma good_list {A V} (l : A -> loader V) (xs : list A) : (forall x, good (l x)) -> good (l_list l xs).
Proof. intros Hl. induction xs as [|x xs IH]; cbn [l_list]; eauto using good_pure, good_ap. Qed.

Lemma good_ptr `{Cell C A} {V} (l : A -> loader V) (p : option addr) :
  (forall x, good (l x)) -> good (l_ptr l p).
Proof. intros Hl. destruct p; cbn [l_ptr]; eauto using good_pure, good_ap, good_bind, good_cell. Qed.

Lemma good_slice `{Cell C (list A)} {V} (l : A -> loader V) (s : option addr) :
  (forall x, good (l x)) -> good (l_slice l s).
Proof. intros Hl. destruct s; cbn [l_slice]; eauto using good_pure, good_bind, good_cell, good_list. Qed.

Lemma good_map `{Cell C (gmap string A)} (m : option addr) : good (l_map m : loader (gmap string A)).
Proof. destruct m; cbn [l_map]; eauto using good_pure, good_cell. Qed.

Lemma good_mono {V} (l : loader V) (h h' : heap) v p :
  good l -> h ⊆ h' -> l h = Some (v, p) -> l h' = Some (v, p).
Proof.
  intros Hg Hsub Hl. destruct (Hg _ _ _ Hl) as [Hd Hloc]. apply Hloc. intros a Ha.
  apply Hd, elem_of_dom in Ha as [c Hc]. rewrite Hc. by eapply lookup_weaken.
Qed.

Lemma l_ap_inv {V U} (lf : loader (V -> U)) (la : loader V) h v p :
  l_ap lf la h = Some (v, p) ->
  exists f a q r, lf h = Some (f, q) /\ la h = Some (a, r) /\ v = f a.
Proof.
  unfold l_ap. destruct (lf h) as [[f q]|]; [|done]. destruct (la h) as [[a r]|]; [|done].
  intros [= <- _]. by exists f, a, q, r.
Qed.

(** ** Deep copies *)

(** At [h] a value lies in cells none of which is of [h0]. *)
Record fresh_at (h0 : heap) {V} (l : loader V) (v : V) (h : heap) : Prop := {
  fa_good : good l;
  fa_sub : h0 ⊆ h;
  fa_loads : exists p, l h = Some (v, p) /\ p ## dom h0
}.

(** The program ends with such a value. *)
Definition makes (h0 : heap) {A V} (m : GoM A) (l : A -> loader V) (v : V) (h : heap) : Prop :=
  exists x h', m h = Some (x, h') /\ fresh_at h0 (l x) v h'.

(** The contract of a deep copy. *)
Record copies {A V} (c : A -> GoM A) (l : A -> loader V) : Prop := {
  copies_good : forall x, good (l x);
  copies_makes : forall x h v p, l x h = Some (v, p) -> makes h (c x) l v h
}.

Lemma fresh_pure (h : heap) {V} (v : V) : fresh_at h (l_pure v) v h.
Proof. split; [apply good_pure|done|]. exists ∅. split; [done|set_solver]. Qed.

Lemma fresh_mono (h0 h h' : heap) {V} (l : loader V) (v : V) :
  h ⊆ h' -> fresh_at h0 l v h -> fresh_at h0 l v h'.
Proof.
  intros Hs [Hg Hs0 (p & Hl & Hp)]. split; [done|by etransitivity|].
  exists p. split; [by eapply good_mono|done].
Qed.

Lemma fresh_ap (h0 h : heap) {V U} (lf : loader (V -> U)) (la : loader V) f a :
  fresh_at h0 lf f h -> fresh_at h0 la a h -> fresh_at h0 (l_ap lf la) (f a) h.
Proof.
  intros [Hgf Hs (p & Hf & Hp)] [Hga _ (q & Ha & Hq)]. split; [by apply good_ap|done|].
  exists (p ∪ q). unfold l_ap. rewrite Hf, Ha. split; [done|set_solver].
Qed.

Lemma makes_ret (h0 h : heap) {A V} (x : A) (l : A -> loader V) (v : V) :
  fresh_at h0 (l x) v h -> makes h0 (go_ret x) l v h.
Proof. intros Hx. by exists x, h. Qed.

(** One more part: it is made, and joins what was made before. *)
Lemma makes_then (h0 h : heap) {A V B U T} (m : GoM A) (l : A -> loader V) (v : V)
    (acc : loader (V -> U)) f (k : A -> GoM B) (out : B -> loader T) (t : T) :
  makes h m l v h -> fresh_at h0 acc f h ->
  (forall x' h', fresh_at h0 (l_ap acc (l x')) (f v) h' -> makes h0 (k x') out t h') ->
  makes h0 (go_bind m k) out t h.
Proof.
  intros (x' & h' & Hrun & [Hg Hs' (q & Hq & Hd)]) Hacc Hk. pose proof (fa_sub _ _ _ _ Hacc) as Hs.
  destruct (Hk x' h') as (b & h2 & Hb & Hf).
  - apply fresh_ap; [by eapply fresh_mono|]. split; [done|by etransitivity|]. exists q.
    split; [done|]. apply subseteq_dom in Hs. set_solver.
  - exists b, h2. unfold go_bind. by rewrite Hrun.
Qed.

(** In particular the copy of a field. *)
Lemma makes_field (h0 h : heap) {A V B U T} (c : A -> GoM A) (l : A -> loader V) (x : A) (v : V) p
    (acc : loader (V -> U)) f (k : A -> GoM B) (out : B -> loader T) (t : T) :
  copies c l -> l x h0 = Some (v, p) -> fresh_at h0 acc f h ->
  (forall x' h', fresh_at h0 (l_ap acc (l x')) (f v) h' -> makes h0 (k x') out t h') ->
  makes h0 (go_bind (c x) k) out t h.
Proof.
  intros [Hg Hc] Hl Hacc Hk. eapply makes_then; [|done|done]. eapply Hc.
  eapply good_mono; [done|by eapply fa_sub|done].
Qed.

(** A plain value. *)
Definition c_flat {A} (x : A) : GoM A := go_ret x.

Lemma copies_flat {A} : copies (@c_flat A) l_pure.
Proof.
  split; [intros; apply good_pure|]. intros x h v p [= <- _]. apply makes_ret, fresh_pure.
Qed.

Fixpoint c_list {A} (c : A -> GoM A) (xs : list A) : GoM (list A) :=
  match xs with
  | [] => go_ret []
  | x :: xs => go_bind (c x) (fun y => go_bind (c_list c xs) (fun ys => go_ret (y :: ys)))
  end.

Lemma copies_list {A V} (c : A -> GoM A) (l : A -> loader V) : copies c l -> copies (c_list c) (l_list l).
Proof.
  intros Hc. split; [intros; apply good_list, Hc|]. induction x as [|x xs IH]; intros h v p Hl.
  - injection Hl as <- _. apply makes_ret, fresh_pure.
  - cbn [l_list c_list] in *. apply l_ap_inv in Hl as (f & vs & q & r & Hf & Hvs & ->).
    apply l_ap_inv in Hf as (g & v & q' & r' & [= <- _] & Hv & ->).
    eapply (makes_field h h c); [done|exact Hv|apply (fresh_pure h cons)|]. intros x' h1 H1.
    eapply makes_then; [|exact H1|].
    + eapply IH, good_mono; [apply good_list, Hc|by eapply fa_sub|done].
    + intros ys h2 H2. by apply makes_ret.
Qed.

Lemma alloc_spec `{Cell C A} (x : A) (h : heap) :
  exists a h', alloc x h = Some (a, h') /\ (a ∉ dom h) /\ h ⊆ h' /\ h' !! a = Some (to_cell x).
Proof.
  pose proof (is_fresh (dom h)) as Hf. eexists _, _. split; [reflexivity|]. split; [done|].
  split; [|apply lookup_insert_eq]. apply insert_subseteq. by apply not_elem_of_dom.
Qed.

(** Copying what a cell holds into a new cell. *)
Definition c_cell `{Cell C A} (c : A -> GoM A) (a : addr) : GoM addr :=
  go_bind (deref a) (fun x => go_bind (c x) alloc).

Lemma copies_cell `{Cell C A} {V} (c : A -> GoM A) (l : A -> loader V) :
  copies c l -> copies (c_cell c) (fun a => l_bind (l_cell a) l).
Proof.
  intros Hc. assert (forall a, good (l_bind (l_cell a) l)) as Hg.
  { intros a. apply good_bind; [apply good_cell|apply Hc]. }
  split; [done|]. intros a h v p Hl.
  unfold l_bind, l_cell in Hl. destruct (h !! a ≫= of_cell) as [x|] eqn:Ex; [|done].
  destruct (l x h) as [[v' r]|] eqn:Ev; [|done]. injection Hl as <- _.
  destruct (copies_makes _ _ Hc x h v' r Ev) as (x' & h1 & Hrun & [Hgx Hs1 (q & Hq & Hd)]).
  destruct (alloc_spec x' h1) as (b & h2 & Ha & Hb & Hs2 & Hl2).
  exists b, h2. unfold c_cell, go_bind, deref. rewrite Ex, Hrun. split; [done|].
  split; [done|by etransitivity|].
  exists ({[ b ]} ∪ q). unfold l_bind, l_cell. rewrite Hl2. cbn [mbind option_bind]. rewrite of_to_cell.
  rewrite (good_mono _ _ _ _ _ Hgx Hs2 Hq). split; [done|]. apply subseteq_dom in Hs1. set_solver.
Qed.

(** Behind nil checks: a pointer, a slice copied element by element, and a slice
    or map of plain values. *)
Definition c_nilable (c : addr -> GoM addr) (p : option addr) : GoM (option addr) :=
  match p with
  | None => go_ret None
  | Some a => go_bind (c a) (fun b => go_ret (Some b))
  end.

Lemma copies_nilable {V U} (c : addr -> GoM addr) (l : addr -> loader V) (none : U) (some : V -> U) :
  copies c l ->
  copies (c_nilable c) (fun p => match p with None => l_pure none | Some a => l_ap (l_pure some) (l a) end).
Proof.
  intros Hc. split.
  - intros [a|]; [|apply good_pure]. apply good_ap; [apply good_pure|apply Hc].
  - intros [a|] h v p Hl.
    + apply l_ap_inv in Hl as (f & x & q & r & [= <- _] & Hx & ->).
      eapply (makes_field h h c); [done|exact Hx|apply (fresh_pure h some)|]. intros b h' Hb.
      by apply makes_ret.
    + injection Hl as <- _. apply makes_ret, fresh_pure.
Qed.

Definition c_ptr `{Cell C A} (c : A -> GoM A) : option addr -> GoM (option addr) := c_nilable (c_cell c).
Definition c_slice `{Cell C (list A)} (c : A -> GoM A) : option addr -> GoM (option addr) :=
  c_nilable (c_cell (c_list c)).
Definition c_map `{Cell C (gmap string A)} (c : A -> A) : option addr -> GoM (option addr) :=
  c_nilable (c_cell (fun m => go_ret (c <$> m))).

Lemma copies_ptr `{Cell C A} {V} (c : A -> GoM A) (l : A -> loader V) :
  copies c l -> copies (c_ptr c) (l_ptr l).
Proof. intros Hc. apply (copies_nilable _ _ None Some), copies_cell, Hc. Qed.

(** Two loaders that read the same. *)
Lemma copies_ext {A V} (c : A -> GoM A) (l l' : A -> loader V) :
  (forall x h, l x h = l' x h) -> copies c l -> copies c l'.
Proof.
  intros He [Hg Hc].
  assert (forall x, good (l' x)) as Hg'.
  { intros x h v p Hl. rewrite <- He in Hl. destruct (Hg x h v p Hl) as [Hd Hloc]. split; [done|].
    intros h' Hh. rewrite <- He. by apply Hloc. }
  split; [done|]. intros x h v p Hl. rewrite <- He in Hl.
  destruct (Hc x h v p Hl) as (x' & h' & Hrun & [_ Hs (q & Hq & Hd)]). exists x', h'.
  split; [done|]. split; [done|done|]. exists q. by rewrite <- He.
Qed.

Lemma copies_slice `{Cell C (list A)} {V} (c : A -> GoM A) (l : A -> loader V) :
  copies c l -> copies (c_slice c) (l_slice l).
Proof.
  intros Hc. eapply copies_ext; [|apply (copies_nilable (V := list V) (U := list V)
    _ (fun a => l_bind (l_cell a) (l_list l)) [] id), copies_cell, copies_list, Hc].
  intros [a|] h; [|done]. cbn [l_slice]. unfold l_ap, l_pure. destruct (l_bind _ _ h) as [[v p]|]; [|done].
  by rewrite (left_id_L ∅ (∪)).
Qed.

Lemma copies_map `{Cell C (gmap string A)} (c : A -> A) :
  (forall x, c x = x) -> copies (c_map c) (l_map (A := A)).
Proof.
  intros Hid. eapply copies_ext; [|apply (copies_nilable (V := gmap string A) (U := gmap string A)
    _ (fun a => l_bind (l_cell a) l_pure) ∅ id), copies_cell].
  - intros [a|] h; [|done]. cbn [l_map]. unfold l_ap, l_pure, l_bind. destruct (l_cell a h) as [[v p]|]; [|done].
    by rewrite (left_id_L ∅ (∪)), (right_id_L ∅ (∪)).
  - split; [intros; apply good_pure|]. intros m h v p [= <- _]. apply makes_ret.
    rewrite (map_fmap_ext _ id) by (intros; apply Hid). rewrite map_fmap_id. apply fresh_pure.
Qed.

Lemma copies_id_map `{Cell C (gmap string A)} : copies (c_map (A := A) id) l_map.
Proof. by apply copies_map. Qed.

(** ** Values laid out in new memory *)

Definition e_ptr `{Cell C A} (x : option A) : GoM (option addr) :=
  match x with
  | None => go_ret None
  | Some x => go_bind (alloc x) (fun a => go_ret (Some a))
  end.

Definition e_slice `{Cell C (list A)} (xs : list A) : GoM (option addr) :=
  go_bind (alloc xs) (fun a => go_ret (Some a)).

Lemma l_list_pure {A} (xs : list A) (h : heap) : l_list l_pure xs h = Some (xs, ∅).
Proof.
  induction xs as [|x xs IH]; [done|]. cbn [l_list]. unfold l_ap at 1. rewrite IH. cbn.
  by rewrite !(right_id_L ∅ (∪)).
Qed.

Lemma makes_e_ptr `{Cell C A} (x : option A) (h : heap) : makes h (e_ptr x) (l_ptr l_pure) x h.
Proof.
  destruct x as [x|]; [|apply makes_ret, fresh_pure]. cbn [e_ptr].
  destruct (alloc_spec x h) as (a & h' & Hrun & Ha & Hs & Hl). exists (Some a), h'.
  unfold go_bind. rewrite Hrun. split; [done|]. split; [apply good_ptr, good_pure|done|].
  exists {[ a ]}. split; [|set_solver]. cbn [l_ptr]. unfold l_ap, l_bind, l_cell, l_pure. rewrite Hl.
  cbn [mbind option_bind]. rewrite of_to_cell. by rewrite (left_id_L ∅ (∪)), (right_id_L ∅ (∪)).
Qed.

(** An array of structs whose own parts were made before. *)
Lemma makes_slice `{Cell C (list A)} {V} (m : GoM (list A)) (l : A -> loader V) (vs : list V) (h : heap) :
  (forall x, good (l x)) -> makes h m (l_list l) vs h ->
  makes h (go_bind m e_slice) (l_slice l) vs h.
Proof.
  intros Hgl (xs & h1 & Hm & [Hg Hs (q & Hq & Hd)]).
  destruct (alloc_spec xs h1) as (a & h' & Hrun & Ha & Hs' & Hl). exists (Some a), h'.
  unfold e_slice, go_bind. rewrite Hm, Hrun. split; [done|].
  split; [by apply good_slice|by etransitivity|].
  exists ({[ a ]} ∪ q). cbn [l_slice]. unfold l_bind, l_cell. rewrite Hl. cbn [mbind option_bind].
  rewrite of_to_cell, (good_mono _ _ _ _ _ Hg Hs' Hq). split; [done|]. apply subseteq_dom in Hs. set_solver.
Qed.

Lemma makes_e_slice `{Cell C (list A)} (xs : list A) (h : heap) : makes h (e_slice xs) (l_slice l_pure) xs h.
Proof.
  apply (makes_slice (go_ret xs) l_pure); [intros; apply good_pure|]. apply makes_ret.
  split; [apply good_list; intros; apply good_pure|done|]. exists ∅. rewrite l_list_pure.
  split; [done|set_solver].
Qed.

(** ** Writing after a copy *)

(** What a program that holds only [cells] can do to a heap: write them, and
    allocate. *)
Definition confined (cells : gset addr) (h h' : heap) : Prop :=
  forall a, a ∈ dom h -> a ∉ cells -> h' !! a = h !! a.

Lemma confined_store `{Cell C A} (a : addr) (x : A) (cells : gset addr) (h h' : heap) :
  a ∈ cells -> store a x h = Some (tt, h') -> confined cells h h'.
Proof.
  unfold store. intros Ha. destruct (h !! a ≫= of_cell : option A); [|done]. intros [= <-] b _ Hb.
  apply lookup_insert_ne. set_solver.
Qed.

Lemma confined_alloc `{Cell C A} (x : A) (cells : gset addr) (h h' : heap) a :
  alloc x h = Some (a, h') -> confined cells h h'.
Proof.
  destruct (alloc_spec x h) as (b & h1 & Hrun & _ & Hs & _). rewrite Hrun. intros [= _ <-] c Hc _.
  apply elem_of_dom in Hc as [y Hy]. rewrite Hy. by eapply lookup_weaken.
Qed.

(** The original and its deep copy: the same value, no cell in common, and each
    keeps it whatever is written through the other. *)
Definition independent {V} (l : addr -> loader V) (p q : addr) (v : V) (h : heap) : Prop :=
  exists cells copied,
    l p h = Some (v, cells) /\ l q h = Some (v, copied) /\ cells ## copied /\
    (forall h', confined cells h h' -> l q h' = Some (v, copied)) /\
    (forall h', confined copied h h' -> l p h' = Some (v, cells)).

Lemma copies_independent {V} (c : addr -> GoM addr) (l : addr -> loader V) (p : addr) (v : V)
    (cells : gset addr) (h : heap) :
  copies c l -> l p h = Some (v, cells) ->
  exists q h', c p h = Some (q, h') /\ h ⊆ h' /\ independent l p q v h'.
Proof.
  intros [Hg Hc] Hl. destruct (Hc p h v cells Hl) as (q & h' & Hrun & [_ Hs (copied & Hq & Hd)]).
  exists q, h'. split; [done|]. split; [done|]. exists cells, copied.
  destruct (Hg p h v cells Hl) as [Hcd _].
  assert (cells ## copied) as Hdis by set_solver.
  pose proof (good_mono _ _ _ _ _ (Hg p) Hs Hl) as Hl'.
  destruct (Hg p h' v cells Hl') as [Hpd Hploc], (Hg q h' v copied Hq) as [Hqd Hqloc].
  split; [done|]. split; [done|]. split; [done|]. split.
  - intros h2 Hw. apply Hqloc. intros a Ha. apply Hw; set_solver.
  - intros h2 Hw. apply Hploc. intros a Ha. apply Hw; set_solver.
Qed.

(** The same through a pointer that may be nil. *)
Lemma c_nilable_Some (c : addr -> GoM addr) (a b : addr) (h h' : heap) :
  c a h = Some (b, h') -> c_nilable c (Some a) h = Some (Some b, h').
Proof. intros Hc. cbn [c_nilable]. unfold go_bind, go_ret. by rewrite Hc. Qed.
End Heap.

(** ** Automation *)

Create HintDb deep discriminated.
#[export] Hint Resolve good_pure good_ap good_ptr good_slice good_map : deep.
#[export] Hint Resolve copies_flat copies_ptr copies_slice copies_id_map : deep.

(** A struct: its value is taken apart into those of its fields, each is copied in
    turn, and the copies are put together. *)
Ltac copies_struct :=
  split; [intros x; solve [eauto 30 with deep]|];
  intros x h v p Hl;
  repeat match goal with
  | H : l_ap _ _ h = Some _ |- _ => apply l_ap_inv in H as (? & ? & ? & ? & H & ? & ->)
  end;
  match goal with H : l_pure ?f h = Some _ |- _ =>
    injection H as <- _; pose proof (fresh_pure h f) as Hacc
  end;
  repeat match goal with
  | Hacc : fresh_at h ?acc _ ?h' |- makes h (go_bind (?c ?x) _) _ _ ?h' =>
      eapply (makes_field h h' c);
        [solve [eauto with deep]|eassumption|exact Hacc|clear Hacc; intros ? ? Hacc]
  end;
  by apply makes_ret.
