(* ===== verification/Servers.v ===== *)
(** Hetzner servers in this provider's terms, and the interface to them.

    Models [internal/hcloudapi/servers.go] ([Server], [CreateServerRequest],
    [Action], the [Servers] interface, [ProviderID], [ServerIDFromProviderID])
    and [internal/hcloudapi/labels.go] ([ManagedBySelector], [IsManagedBy]).
    [strconv.ParseInt] and [strconv.FormatInt] are the base-10, 64-bit cases of
    Go's standard library. *)

From Stdlib Require Import Ascii.
From S2P Require Import Prelude GoErrors Float64 GoText.

(** ** Labels *)

Definition LabelManagedBy : string := "karpenter.sh/managed-by".
Definition LabelNodePool : string := "karpenter.sh/nodepool".
Definition LabelNodeClaim : string := "karpenter.itsh.dev/nodeclaim".

(** Reading a Go map of strings: an absent key reads as [""]. *)
Definition map_get (m : gmap string string) (k : string) : string := default "" (m !! k).

Definition ManagedBySelector (clusterName : string) : string :=
  LabelManagedBy +:+ "==" +:+ clusterName.

(** ** Servers *)

Record Server := {
  srv_ID : Z;
  srv_Name : string;
  srv_ServerType : string;
  srv_Location : string;
  srv_Status : string;
  srv_Labels : gmap string string;
  srv_ImageID : Z;
  srv_Created : time;
  srv_PrivateIPv4 : string;
  srv_PublicIPv4 : string;
  srv_NetworkIDs : list Z;
  srv_FirewallIDs : list Z;
  srv_PlacementGroupID : Z;
  srv_HasPublicIPv4 : bool;
  srv_HasPublicIPv6 : bool
}.

(** [IsManagedBy] on a possibly nil pointer: fails closed. *)
Definition IsManagedBy (s : option Server) (clusterName : string) : bool :=
  match s with
  | None => false
  | Some s =>
      if bool_decide (srv_Labels s = ∅) || (clusterName =? "")%string then false
      else (map_get (srv_Labels s) LabelManagedBy =? clusterName)%string
  end.

(** ** strconv *)

Definition digit_val (a : ascii) : option Z :=
  let n := Z.of_N (Ascii.N_of_ascii a) in
  if (48 <=? n) && (n <=? 57) then Some (n - 48) else None.

(** The digits of [s] read after those already in [acc]. *)
Fixpoint parse_digits (s : string) (acc : Z) : option Z :=
  match s with
  | EmptyString => Some acc
  | String a s' =>
      match digit_val a with
      | Some d => parse_digits s' (acc * 10 + d)
      | None => None
      end
  end.

(** [ParseInt(s, 10, 64)]: an optional sign, at least one digit, in range. *)
Definition ParseInt (s : string) : option Z :=
  let unsigned (t : string) : option Z :=
    match t with EmptyString => None | _ => parse_digits t 0 end in
  let range (z : Z) : option Z := if in_int64 z then Some z else None in
  match s with
  | EmptyString => None
  | String a s' =>
      if decide (a = "+"%char) then unsigned s' ≫= range
      else if decide (a = "-"%char) then unsigned s' ≫= (fun z => range (- z))
      else unsigned s ≫= range
  end.

(** [FormatInt(z, 10)]. *)
Definition FormatInt (z : Z) : string := pretty z.

(** ** Provider ids *)

Definition ProviderIDPrefix : string := "hcloud://".

Definition ProviderID (s : Server) : string := ProviderIDPrefix +:+ FormatInt (srv_ID s).

Definition ServerIDFromProviderID `{GT : GoText} (providerID : string) : result Z :=
  match CutPrefix providerID ProviderIDPrefix with
  | None => Err (Errorf ("providerID " +:+ Quote providerID +:+ " is not an hcloud provider id"))
  | Some rest =>
      match ParseInt rest with
      | Some id =>
          if id <=? 0
          then Err (Errorf ("providerID " +:+ Quote providerID +:+ " has no valid server id"))
          else Ok id
      | None => Err (Errorf ("providerID " +:+ Quote providerID +:+ " has no valid server id"))
      end
  end.

(** ** The server API *)

Record CreateServerRequest := {
  req_Name : string;
  req_ServerType : string;
  req_Location : string;
  req_ImageID : Z;
  req_SSHKeyIDs : list Z;
  req_NetworkIDs : list Z;
  req_FirewallIDs : list Z;
  req_PlacementGroupID : option Z;
  req_UserData : string;
  req_Labels : gmap string string;
  req_PublicIPv4 : bool;
  req_PublicIPv6 : bool
}.

Record Action := {
  act_Command : string;
  act_Status : string;
  act_Started : time
}.

(** The [Servers] interface over a world [W] of Hetzner and everyone else who
    acts on it: every call may change the world.  Listings hold pointers, which
    may be nil. *)
Class Servers (W : Type) := {
  api_Create : CreateServerRequest -> W -> result Server * W;
  api_Delete : Z -> W -> option error * W;
  api_Get : Z -> W -> result (option Server) * W;
  api_GetByName : string -> W -> result (option Server) * W;
  api_List : string -> W -> result (list (option Server)) * W;
  api_Reset : Z -> W -> option error * W;
  api_RecentActions : Z -> W -> result (list Action) * W
}.

(** The clock: what [time.Now] reads in a world.  Time passes between and
    during API calls; the code between two calls reads one instant. *)
Class Clock (W : Type) := world_now : W -> time.

(** ** Lemmas *)

Lemma IsManagedBy_spec (s : option Server) (c : string) :
  IsManagedBy s c = true <->
  c <> "" /\ exists srv, s = Some srv /\ srv_Labels srv !! LabelManagedBy = Some c.
Proof.
  unfold IsManagedBy, map_get. destruct s as [srv|]; [|naive_solver].
  assert ((exists srv', Some srv = Some srv' /\ srv_Labels srv' !! LabelManagedBy = Some c) <->
          srv_Labels srv !! LabelManagedBy = Some c) as -> by naive_solver.
  destruct (decide (srv_Labels srv = ∅)) as [E|E].
  { rewrite E, bool_decide_true by done. naive_solver. }
  rewrite bool_decide_false by done. simpl.
  destruct (String.eqb_spec c "") as [->|Hc]; [naive_solver|].
  rewrite String.eqb_eq. destruct (srv_Labels srv !! LabelManagedBy); naive_solver.
Qed.

Lemma IsManagedBy_empty_cluster (s : option Server) : IsManagedBy s "" = false.
Proof. destruct (IsManagedBy s "") eqn:E; [|done]. apply IsManagedBy_spec in E. naive_solver. Qed.

Lemma digit_val_pretty (n : N) :
  (n < 10)%N -> digit_val (pretty_N_char n) = Some (Z.of_N n).
Proof.
  intros Hn. assert (n ∈ [0; 1; 2; 3; 4; 5; 6; 7; 8; 9]%N) as Hin.
  { repeat rewrite elem_of_cons. lia. }
  repeat (apply elem_of_cons in Hin as [->|Hin]; [done|]). by apply elem_of_nil in Hin.
Qed.

Lemma parse_pretty_go (x : N) (s : string) :
  parse_digits (pretty_N_go x s) 0 = parse_digits s (Z.of_N x).
Proof.
  revert s. induction (N.lt_wf_0 x) as [x _ IH]; intros s.
  destruct (decide (x = 0%N)) as [->|Hx]; [by rewrite pretty_N_go_0|].
  rewrite pretty_N_go_step by lia.
  rewrite IH by (apply N.div_lt; lia). simpl.
  rewrite digit_val_pretty by (apply N.mod_lt; lia).
  f_equal. rewrite N2Z.inj_div, N2Z.inj_mod. pose proof (Z.div_mod (Z.of_N x) 10). lia.
Qed.

Lemma pretty_pos_head (z : Z) :
  0 < z -> exists a s d, FormatInt z = String a s /\ digit_val a = Some d.
Proof.
  intros Hz. destruct z as [|p|p]; try lia. unfold FormatInt.
  change (pretty (Z.pos p)) with (pretty (N.pos p)).
  assert (parse_digits (pretty (N.pos p)) 0 = Some (Z.pos p)) as Hp.
  { unfold pretty, pretty_N. rewrite decide_False by done. by rewrite parse_pretty_go. }
  destruct (pretty (N.pos p)) as [|a s] eqn:E; [done|]. simpl in Hp.
  destruct (digit_val a) as [d|] eqn:Ea; [|done]. naive_solver.
Qed.

Lemma ParseInt_FormatInt (z : Z) :
  0 < z <= max_int64 -> ParseInt (FormatInt z) = Some z.
Proof.
  intros [Hz Hm]. destruct (pretty_pos_head z Hz) as (a & s & d & E & Ha).
  assert (parse_digits (FormatInt z) 0 = Some z) as Hp.
  { destruct z as [|p|p]; try lia. unfold FormatInt.
    change (pretty (Z.pos p)) with (pretty (N.pos p)).
    unfold pretty, pretty_N. rewrite decide_False by done. by rewrite parse_pretty_go. }
  unfold ParseInt. rewrite E in Hp |- *.
  rewrite decide_False by (intros ->; done).
  rewrite decide_False by (intros ->; done).
  rewrite Hp. simpl. unfold in_int64.
  assert (min_int64 <= z) by (unfold min_int64; lia).
  destruct (Z.leb_spec min_int64 z), (Z.leb_spec z max_int64); try lia. done.
Qed.

Lemma parse_digits_nonneg (s : string) (acc z : Z) :
  0 <= acc -> parse_digits s acc = Some z -> 0 <= z.
Proof.
  revert acc. induction s as [|a s IH]; simpl; intros acc Hacc; [naive_solver|].
  destruct (digit_val a) as [d|] eqn:E; [|done]. apply IH.
  unfold digit_val in E. case_all. bool_hyps. lia.
Qed.

(** What [ParseInt] accepts, when the number it reads is positive. *)
Lemma ParseInt_pos (s : string) (z : Z) :
  ParseInt s = Some z -> 0 < z ->
  z <= max_int64 /\
  exists sign ds, s = sign +:+ ds /\ (sign = "" \/ sign = "+") /\ ds <> "" /\
    parse_digits ds 0 = Some z.
Proof.
  assert (forall y, in_int64 y = true -> y <= max_int64) as Hr
    by (intros y Hy; unfold in_int64 in Hy; bool_hyps; done).
  unfold ParseInt. destruct s as [|a s]; [done|]. intros H Hz.
  destruct (decide (a = "+"%char)) as [->|Hplus]; [|destruct (decide (a = "-"%char)) as [->|Hminus]].
  - destruct s as [|b s]; [done|]. destruct (parse_digits (String b s) 0) as [y|] eqn:E; [|done].
    simpl in H. destruct (in_int64 y) eqn:Ey; [|done]. simplify_eq. split; [auto|].
    exists "+", (String b s). rewrite append_cons, append_nil_l. naive_solver.
  - destruct s as [|b s]; [done|]. destruct (parse_digits (String b s) 0) as [y|] eqn:E; [|done].
    apply parse_digits_nonneg in E; [|done]. simpl in H. case_all. lia.
  - destruct (parse_digits (String a s) 0) as [y|] eqn:E; [|done].
    simpl in H. destruct (in_int64 y) eqn:Ey; [|done]. simplify_eq. split; [auto|].
    exists "", (String a s). rewrite append_nil_l. naive_solver.
Qed.

(** ** The trace of API calls

    [traced] is any implementation of the server API with a record of the calls
    made through it, their arguments and their answers, oldest first.  Theorems
    about which calls an operation makes are stated over it. *)
Inductive call :=
  | CCreate (r : CreateServerRequest) (out : result Server)
  | CDelete (id : Z) (out : option error)
  | CGet (id : Z) (out : result (option Server))
  | CGetByName (name : string) (out : result (option Server))
  | CList (selector : string) (out : result (list (option Server)))
  | CReset (id : Z) (out : option error)
  | CActions (id : Z) (out : result (list Action)).

Section Traced.
Context {W : Type} `{SV : Servers W, CK : Clock W}.

Definition traced_call {A} (log : A -> call) (f : W -> A * W) (wt : W * list call)
    : A * (W * list call) :=
  let '(a, w) := f wt.1 in (a, (w, wt.2 ++ [log a])).

#[export] Instance traced : Servers (W * list call) := {
  api_Create r := traced_call (CCreate r) (api_Create r);
  api_Delete id := traced_call (CDelete id) (api_Delete id);
  api_Get id := traced_call (CGet id) (api_Get id);
  api_GetByName n := traced_call (CGetByName n) (api_GetByName n);
  api_List s := traced_call (CList s) (api_List s);
  api_Reset id := traced_call (CReset id) (api_Reset id);
  api_RecentActions id := traced_call (CActions id) (api_RecentActions id)
}.

#[export] Instance traced_clock : Clock (W * list call) := fun wt => world_now wt.1.
End Traced.

(** ** Properties *)

Lemma ServerID_ProviderID `{GT : GoText} (s : Server) :
  0 < srv_ID s <= max_int64 -> ServerIDFromProviderID (ProviderID s) = Ok (srv_ID s).
Proof.
  intros Hid.
  unfold ServerIDFromProviderID, ProviderID.
  rewrite (proj2 (CutPrefix_spec _ ProviderIDPrefix _)) by done.
  rewrite ParseInt_FormatInt by done.
  destruct (Z.leb_spec (srv_ID s) 0); [lia|done].
Qed.

(** C39. A server's provider id reads back as the server's own id, for every id an
    int64 can hold and Hetzner can issue. *)
Theorem provider_id_roundtrip `{GT : GoText} (s : Server) (Hid : 0 < srv_ID s <= max_int64) :
  ServerIDFromProviderID (ProviderID s) = Ok (srv_ID s).
Proof. by apply ServerID_ProviderID. Qed.

(** A provider id is accepted only whole: the scheme, an optional plus sign and
    nothing but decimal digits, which denote a positive int64.  Trailing rubbish
    never truncates to the id of some other server. *)
Theorem provider_id_sound `{GT : GoText} (pid : string) (id : Z)
    (Hid : ServerIDFromProviderID pid = Ok id) :
  0 < id <= max_int64 /\
  exists sign ds, pid = ProviderIDPrefix +:+ sign +:+ ds /\ (sign = "" \/ sign = "+") /\
    ds <> "" /\ parse_digits ds 0 = Some id.
Proof.
  unfold ServerIDFromProviderID in Hid.
  destruct (CutPrefix pid ProviderIDPrefix) as [rest|] eqn:E; [|done].
  apply CutPrefix_spec in E. destruct (ParseInt rest) as [z|] eqn:Ep; [|done].
  destruct (Z.leb_spec z 0); [done|]. simplify_eq.
  destruct (ParseInt_pos rest id Ep ltac:(lia)) as (Hm & sign & ds & -> & Hs).
  split; [lia|]. by exists sign, ds.
Qed.

Definition example_text : GoText :=
  {| ParseFloat _ := None; FormatG _ := ""; Quote s := "<" +:+ s +:+ ">" |}.

Definition example_server : Server :=
  {| srv_ID := 4711; srv_Name := "default-x7k2p"; srv_ServerType := "cx23"; srv_Location := "fsn1";
     srv_Status := "running";
     srv_Labels := {[ LabelManagedBy := "prod"; LabelNodeClaim := "default-x7k2p" ]};
     srv_ImageID := 9; srv_Created := 0; srv_PrivateIPv4 := "10.0.0.5"; srv_PublicIPv4 := "";
     srv_NetworkIDs := [7]; srv_FirewallIDs := []; srv_PlacementGroupID := 0;
     srv_HasPublicIPv4 := false; srv_HasPublicIPv6 := false |}.

Lemma provider_id_roundtrip_witness :
  @ServerIDFromProviderID example_text (ProviderID example_server) = Ok 4711 /\
  ProviderID example_server = "hcloud://4711".
Proof.
  split; [|by vm_compute].
  apply (@provider_id_roundtrip example_text example_server). by vm_compute.
Defined.

Lemma provider_id_sound_witness :
  0 < 4711 <= max_int64 /\
  exists sign ds, "hcloud://4711" = ProviderIDPrefix +:+ sign +:+ ds /\ (sign = "" \/ sign = "+") /\
    ds <> "" /\ parse_digits ds 0 = Some 4711.
Proof. apply (@provider_id_sound example_text "hcloud://4711" 4711). by vm_compute. Defined.
