(* ===== verification/Redact.v ===== *)
(** Keeping the API token out of what leaves the Hetzner package.

    Models [internal/hcloudapi/redact.go]: [longestRun], [scrubToken], the
    regular expression [quotedToken] and [scrubQuoted], [scrub], [rebuild],
    [attached], [scrubMessages] and [redact], on bytes.  The token the package
    variable [apiToken] holds is an argument, [None] before one is accepted. *)

From Stdlib Require Import Ascii.
From S2P Require Import Prelude GoErrors Float64 GoText Servers.

(** Strings as their bytes. *)
Definition chars (s : string) : list ascii := String.list_ascii_of_string s.
Definition of_chars (l : list ascii) : string := String.string_of_list_ascii l.

(** The shortest run of the token scrubbed by value. *)
Definition minEcho : nat := 12.

(** ** By value *)

(** The length of the common prefix: the inner loop of [longestRun]. *)
Fixpoint common_prefix (s t : list ascii) : nat :=
  match s, t with
  | a :: s', b :: t' => if decide (a = b) then S (common_prefix s' t') else O
  | _, _ => O
  end.

(** The longest prefix of [s] found anywhere in [token]: the loop over the
    positions of the token. *)
Fixpoint longestRun (s token : list ascii) : nat :=
  match token with
  | [] => O
  | _ :: token' => Nat.max (common_prefix s token) (longestRun s token')
  end.

Definition redacted : list ascii := chars "[redacted]".

(** The loop of [scrubToken] over what is left of the message.  Each round
    consumes a byte at least, so the message's length is fuel enough. *)
Fixpoint scrub_run (token : list ascii) (fuel : nat) (msg : list ascii) : list ascii :=
  match fuel, msg with
  | S fuel, a :: msg' =>
      let n := longestRun msg token in
      if decide (minEcho <= n)%nat then redacted ++ scrub_run token fuel (drop n msg)
      else a :: scrub_run token fuel msg'
  | _, _ => []
  end.

Definition scrubToken (apiToken : option string) (msg : string) : string :=
  match apiToken with
  | None => msg
  | Some token => of_chars (scrub_run (chars token) (length (chars msg)) (chars msg))
  end.

(** ** By wording: [(?i)(token\s*')[^']*'?] *)

(** One letter of the word, ignoring case. *)
Definition eat (lower upper : ascii) (l : list ascii) : option (list ascii * list ascii) :=
  match l with
  | a :: l' => if decide (a = lower \/ a = upper) then Some ([a], l') else None
  | [] => None
  end.

(** The letter k, which case folding also matches with the Kelvin sign. *)
Definition eat_k (l : list ascii) : option (list ascii * list ascii) :=
  match eat "k" "K" l with
  | Some r => Some r
  | None =>
      match l with
      | a :: b :: c :: l' =>
          if decide ([a; b; c] = chars (bytes [226; 132; 170]%nat)) then Some ([a; b; c], l') else None
      | _ => None
      end
  end.

(** Perl's [\s]. *)
Definition is_space (a : ascii) : bool :=
  bool_decide (nat_of_ascii a ∈ [9; 10; 12; 13; 32]%nat).

Fixpoint eat_spaces (l : list ascii) : list ascii * list ascii :=
  match l with
  | a :: l' => if is_space a then let '(s, r) := eat_spaces l' in (a :: s, r) else ([], l)
  | [] => ([], [])
  end.

Definition quote : ascii := "'".

(** The first group at the head of [l]: what it matched and what follows. *)
Definition token_word (l : list ascii) : option (list ascii * list ascii) :=
  match eat "t" "T" l with
  | Some (w1, l) =>
  match eat "o" "O" l with
  | Some (w2, l) =>
  match eat_k l with
  | Some (w3, l) =>
  match eat "e" "E" l with
  | Some (w4, l) =>
  match eat "n" "N" l with
  | Some (w5, l) =>
      let '(w6, l) := eat_spaces l in
      match l with
      | a :: l' => if decide (a = quote) then Some (w1 ++ w2 ++ w3 ++ w4 ++ w5 ++ w6 ++ [a], l') else None
      | [] => None
      end
  | None => None end
  | None => None end
  | None => None end
  | None => None end
  | None => None end.

(** The rest of a match: up to and including the next quote, or to the end. *)
Fixpoint after_quoted (l : list ascii) : list ascii :=
  match l with
  | a :: l' => if decide (a = quote) then l' else after_quoted l'
  | [] => []
  end.

(** [ReplaceAllString(msg, "${1}[redacted]'")], leftmost matches first. *)
Fixpoint replace_quoted (fuel : nat) (l : list ascii) : list ascii :=
  match fuel, l with
  | S fuel, a :: l' =>
      match token_word l with
      | Some (w, rest) => w ++ redacted ++ [quote] ++ replace_quoted fuel (after_quoted rest)
      | None => a :: replace_quoted fuel l'
      end
  | _, _ => []
  end.

Definition scrubQuoted (msg : string) : string :=
  of_chars (replace_quoted (length (chars msg)) (chars msg)).

Definition scrub (apiToken : option string) (msg : string) : string :=
  scrubQuoted (scrubToken apiToken msg).

(** [strings.ReplaceAll] of a text that is not empty. *)
Fixpoint replace_all (fuel : nat) (m s l : list ascii) : list ascii :=
  match fuel, l with
  | S fuel, a :: l' =>
      if decide (take (length m) l = m) then s ++ replace_all fuel m s (drop (length m) l)
      else a :: replace_all fuel m s l'
  | _, _ => []
  end.

Definition ReplaceAll (l m s : string) : string :=
  of_chars (replace_all (length (chars l)) (chars m) (chars s) (chars l)).

(** ** Errors *)

Section Redact.
Context `{KE : KarpErrors, ET : ErrorText}.
Context (apiToken : option string).

(** The hcloud error at this node, behind a pointer or not. *)
Inductive hcloud_node :=
  | NodeAPI (code : error_code) (message : string) (resp : option hcloud_response)
  | NodeAction (code : error_code) (message : string) (action : option Z).

Definition hcloudNode (err : error) : option hcloud_node :=
  match err with
  | HcloudError c m r | HcloudErrorPtr c m r => Some (NodeAPI c m r)
  | HcloudActionError c m a | HcloudActionErrorPtr c m a => Some (NodeAction c m a)
  | _ => None
  end.

Definition rebuild (err : error) : option error :=
  match hcloudNode err with
  | Some (NodeAPI code m resp) =>
      let msg := scrub apiToken m in
      let msg :=
        match resp ≫= http_correlation_id with
        | Some id => if (id =? "")%string then msg else msg +:+ " (correlation id " +:+ id +:+ ")"
        | None => msg
        end in
      Some (HcloudError code msg None)
  | Some (NodeAction code m action) =>
      let msg := scrub apiToken m in
      let msg :=
        match action with
        | Some id => msg +:+ " (action " +:+ FormatInt id +:+ ")"
        | None => msg
        end in
      Some (HcloudActionError code msg None)
  | None => None
  end.

(** The loop along [errors.Unwrap]: the first node of the chain that rebuilds. *)
Fixpoint rebuilt_chain (err : error) : option error :=
  match rebuild err with
  | Some r => Some r
  | None =>
      match err with
      | Wrapf _ e | ConfigError e => rebuilt_chain e
      | KarpError k e => if karp_unwraps k then rebuilt_chain e else None
      | _ => None
      end
  end.

(** Some node of the tree still holds a response or an action. *)
Definition holds_attachment (err : error) : option () :=
  match hcloudNode err with
  | Some (NodeAPI _ _ (Some _)) | Some (NodeAction _ _ (Some _)) => Some ()
  | _ => None
  end.

Definition attached (err : error) : bool :=
  match errors_as holds_attachment err with Some _ => true | None => false end.

(** The Hetzner messages of the tree, in the order [eachNode] visits them. *)
Fixpoint messages (err : error) : list string :=
  match hcloudNode err with
  | Some (NodeAPI _ m _) | Some (NodeAction _ m _) => [m]
  | None =>
      match err with
      | Wrapf _ e | ConfigError e => messages e
      | KarpError k e => if karp_unwraps k then messages e else []
      | Joined es => (fix go (l : list error) : list string :=
                        match l with [] => [] | e :: l' => messages e ++ go l' end) es
      | _ => []
      end
  end.

Definition scrubMessages (err : error) (msg : string) : string :=
  foldl (fun msg m =>
    let s := scrubToken apiToken m in
    if (s =? m)%string then msg else ReplaceAll msg m s) msg (messages err).

Definition redact (err : error) : error :=
  let err := default err (rebuilt_chain err) in
  let msg := error_text err in
  let clean := scrubQuoted (scrubMessages err msg) in
  if (clean =? msg)%string && negb (attached err) then err
  else match Code (Some err) with
       | None => Errorf clean
       | Some code => HcloudError code clean None
       end.

(** ** What survives, and what does not *)

Lemma rebuild_detached (err r : error) : rebuild err = Some r -> attached r = false.
Proof. unfold rebuild. destruct (hcloudNode err) as [[]|]; intros [= <-]; done. Qed.

Lemma rebuilt_chain_detached (err r : error) : rebuilt_chain err = Some r -> attached r = false.
Proof.
  induction err; cbn [rebuilt_chain]; destruct (rebuild _) eqn:E; intros H; simplify_eq;
    try (by eapply rebuild_detached); auto.
  destruct (karp_unwraps kind); [auto|done].
Qed.

(** The code of a chain that rebuilds is the code it had. *)
Lemma rebuild_Code (err r : error) (c : error_code) :
  rebuild err = Some r -> Code (Some err) = Some c -> Code (Some r) = Some c.
Proof. unfold rebuild, Code. destruct err; simpl; intros [= <-]; simpl; congruence. Qed.

Lemma rebuilt_chain_Code (err r : error) (c : error_code) :
  rebuilt_chain err = Some r -> Code (Some err) = Some c -> Code (Some r) = Some c.
Proof.
  induction err; cbn [rebuilt_chain]; destruct (rebuild _) eqn:E; intros H Hc; simplify_eq;
    try (by eapply rebuild_Code); try discriminate.
  - apply IHerr; [done|exact Hc].
  - apply IHerr; [done|exact Hc].
  - unfold Code in Hc. simpl in Hc. destruct (karp_unwraps kind); [|done]. apply IHerr; [done|exact Hc].
Qed.
End Redact.

(** ** The token that is accepted *)

Definition TokenEnvVar : string := "HCLOUD_TOKEN".
Definition tokenLength : nat := 64.

(** The byte is an ASCII letter or digit, in the source's order of ranges. *)
Definition alphanumeric (a : ascii) : bool :=
  let n := nat_of_ascii a in
  ((97 <=? n) && (n <=? 122) || (65 <=? n) && (n <=? 90) || (48 <=? n) && (n <=? 57))%nat.

(** The checks of [NewClientFromEnv] on the variable's value; the token is stored
    only past them.  A rune outside ASCII starts with a byte outside ASCII, so
    the first offending byte is where the first offending rune starts. *)
Definition NewClientFromEnv (token : string) : result string :=
  if (token =? "")%string then Err (Errorf (TokenEnvVar +:+ " is not set"))
  else if negb (length (chars token) =? tokenLength)%nat then
    Err (Errorf (TokenEnvVar +:+ " is " +:+ FormatInt (Z.of_nat (length (chars token))) +:+
                 " characters, expected " +:+ FormatInt (Z.of_nat tokenLength) +:+
                 "; check the secret for a truncated value or trailing whitespace"))
  else match list_find (fun a => alphanumeric a = false) (chars token) with
       | Some (idx, _) =>
           Err (Errorf (TokenEnvVar +:+ " contains a non-alphanumeric character at position " +:+
                        FormatInt (Z.of_nat idx) +:+
                        "; check the secret for a newline or a copied-in quote"))
       | None => Ok token
       end.

Lemma accepted_alphanumeric (env token : string) (a : ascii) :
  NewClientFromEnv env = Ok token -> a ∈ chars token -> alphanumeric a = true.
Proof.
  unfold NewClientFromEnv. destruct (env =? "")%string; [done|]. destruct (negb _); [done|].
  destruct (list_find _ _) as [[i b]|] eqn:E; [done|]. intros [= <-] Ha.
  apply list_find_None in E. rewrite Forall_forall in E. by apply not_false_is_true, E.
Qed.

Lemma accepted_excludes (env token : string) (a : ascii) :
  NewClientFromEnv env = Ok token -> alphanumeric a = false -> a ∉ chars token.
Proof. intros Hok Ha Hin. pose proof (accepted_alphanumeric env token a Hok Hin). congruence. Qed.

(** ** Lemmas: no run of the token *)

(** [l] holds no twelve consecutive bytes of [token]. *)
Definition no_run (token l : list ascii) : Prop :=
  forall pre w post t1 t2, l = pre ++ w ++ post -> token = t1 ++ w ++ t2 -> (length w < minEcho)%nat.

Lemma no_run_nil token : no_run token [].
Proof. intros pre w post t1 t2 Hl _. destruct pre, w; try done. unfold minEcho. simpl. lia. Qed.

Lemma no_run_short token l : (length l < minEcho)%nat -> no_run token l.
Proof. intros Hs pre w post t1 t2 -> _. rewrite !length_app in Hs. lia. Qed.

(** A byte the token does not hold separates what is before it from what is
    after it. *)
Lemma no_run_split token a (x : ascii) b :
  x ∉ token -> no_run token a -> no_run token b -> no_run token (a ++ x :: b).
Proof.
  intros Hx Ha Hb pre w post t1 t2 Hl Ht.
  assert (x ∉ w) as Hw by (intros Hw; apply Hx; rewrite Ht, !elem_of_app; auto).
  apply app_eq_inv in Hl as [(k & Hpre & Hk)|(k & Hpre & Hk)].
  - apply app_eq_inv in Hk as [(k' & Hw' & Hk)|(k' & Hw' & Hk)].
    + destruct k' as [|y k']; [|injection Hk as <- Hk; subst w; set_solver].
      rewrite app_nil_r in Hw'. subst w. by eapply (Ha pre k [] t1 t2); rewrite ?app_nil_r.
    + subst. by eapply (Ha pre w k' t1 t2).
  - destruct k as [|y k]; simpl in Hk.
    + destruct w as [|y w]; [unfold minEcho; simpl; lia|]. injection Hk as <- Hk. set_solver.
    + injection Hk as <- Hk. subst b. by eapply (Hb k w post t1 t2).
Qed.

Lemma no_run_app_redacted token l :
  "["%char ∉ token -> "]"%char ∉ token -> no_run token l -> no_run token (redacted ++ l).
Proof.
  intros H1 H2 Hl. change (redacted ++ l) with ([] ++ "["%char :: (chars "redacted" ++ "]"%char :: l)).
  apply no_run_split; [done|apply no_run_nil|]. apply no_run_split; [done| |done].
  apply no_run_short. unfold minEcho. simpl. lia.
Qed.

Lemma common_prefix_app w s t : (length w <= common_prefix (w ++ s) (w ++ t))%nat.
Proof. induction w as [|a w IH]; simpl; [lia|]. rewrite decide_True by done. lia. Qed.

(** A prefix of [s] that occurs in the token is counted. *)
Lemma longestRun_infix w s t1 t2 : (length w <= longestRun (w ++ s) (t1 ++ w ++ t2))%nat.
Proof.
  induction t1 as [|a t1 IH]; simpl.
  - destruct w as [|a w]; [simpl; lia|]. cbn [app longestRun].
    pose proof (common_prefix_app (a :: w) s t2). simpl app in *. lia.
  - lia.
Qed.

Lemma common_prefix_le s t : (common_prefix s t <= length s)%nat.
Proof.
  revert t. induction s as [|a s IH]; intros [|b t]; simpl; try lia.
  destruct (decide (a = b)); [|lia]. specialize (IH t). lia.
Qed.

Lemma longestRun_le s token : (longestRun s token <= length s)%nat.
Proof.
  induction token as [|a token IH]; simpl; [lia|]. pose proof (common_prefix_le s (a :: token)). lia.
Qed.

(** As far as nothing was redacted, the output is the message. *)
Lemma scrub_run_kept token fuel msg w rest :
  scrub_run token fuel msg = w ++ rest -> "["%char ∉ w -> exists msg', msg = w ++ msg'.
Proof.
  revert msg w. induction fuel as [|fuel IH]; intros msg w Hs Hw.
  { destruct w; [by exists msg|done]. }
  destruct w as [|b w]; [by exists msg|]. destruct msg as [|a msg]; [done|]. cbn [scrub_run] in Hs.
  destruct (decide (minEcho <= longestRun (a :: msg) token)%nat).
  - injection Hs as <- _. set_solver.
  - injection Hs as <- Hs. destruct (IH msg w Hs) as [msg' ->]; [set_solver|]. by exists msg'.
Qed.

Lemma scrub_run_clean token fuel msg :
  "["%char ∉ token -> "]"%char ∉ token -> no_run token (scrub_run token fuel msg).
Proof.
  intros H1 H2. revert msg. induction fuel as [|fuel IH]; intros msg; [apply no_run_nil|].
  destruct msg as [|a msg]; [apply no_run_nil|]. cbn [scrub_run].
  destruct (decide (minEcho <= longestRun (a :: msg) token)%nat) as [|Hn].
  - by apply no_run_app_redacted.
  - intros pre w post t1 t2 Hl Ht. destruct pre as [|b pre].
    + destruct w as [|b w]; [unfold minEcho; simpl; lia|]. injection Hl as <- Hl.
      assert ("["%char ∉ w) as Hw by (intros Hw; apply H1; rewrite Ht, !elem_of_app, elem_of_cons; auto).
      destruct (scrub_run_kept token fuel msg w post Hl Hw) as [msg' ->].
      pose proof (longestRun_infix (a :: w) msg' t1 t2). rewrite Ht in Hn. simpl in *. lia.
    + injection Hl as <- Hl. by eapply (IH msg pre w post t1 t2).
Qed.

Lemma no_run_infix token a b c : no_run token (a ++ b ++ c) -> no_run token b.
Proof.
  intros H pre w post t1 t2 -> Ht. apply (H (a ++ pre) w (post ++ c) t1 t2); [|done].
  by rewrite <- !app_assoc.
Qed.

Lemma no_run_suffix token a b : no_run token (a ++ b) -> no_run token b.
Proof. intros H. apply (no_run_infix token a b []). by rewrite app_nil_r. Qed.

Lemma no_run_prefix token a b : no_run token (a ++ b) -> no_run token a.
Proof. exact (no_run_infix token [] a b). Qed.

(** ** The regular expression keeps what it does not replace *)

Lemma eat_spec lo up l w r : eat lo up l = Some (w, r) -> l = w ++ r.
Proof. destruct l as [|a l]; [done|]. simpl. by case_decide; intros [= <- <-]. Qed.

Lemma eat_k_spec l w r : eat_k l = Some (w, r) -> l = w ++ r.
Proof.
  unfold eat_k. destruct (eat _ _ l) as [[w' r']|] eqn:E.
  - intros [= <- <-]. by apply eat_spec in E.
  - destruct l as [|a [|b [|c l]]]; try done. by case_decide; intros [= <- <-].
Qed.

Lemma eat_spaces_spec l : l = (eat_spaces l).1 ++ (eat_spaces l).2.
Proof.
  induction l as [|a l IH]; [done|]. simpl. destruct (is_space a); [|done].
  destruct (eat_spaces l) as [s r]. simpl in *. by rewrite <- IH.
Qed.

Lemma token_word_spec l w r : token_word l = Some (w, r) -> l = w ++ r.
Proof.
  unfold token_word. intros H. repeat (case_match; try discriminate H; subst).
  repeat match goal with
  | E : eat _ _ _ = Some _ |- _ => apply eat_spec in E
  | E : eat_k _ = Some _ |- _ => apply eat_k_spec in E
  end.
  match goal with E : eat_spaces ?l = _ |- _ => pose proof (eat_spaces_spec l) as Hs; rewrite E in Hs end.
  simplify_eq. simpl in *. subst. by rewrite <- !app_assoc.
Qed.

Lemma after_quoted_spec l : exists p, l = p ++ after_quoted l.
Proof.
  induction l as [|a l [p IH]]; [by exists []|]. simpl. case_decide; [by exists [a]|].
  exists (a :: p). by rewrite IH at 1.
Qed.

Lemma replace_quoted_kept fuel l w rest :
  replace_quoted fuel l = w ++ rest -> "["%char ∉ w -> exists l', l = w ++ l'.
Proof.
  revert l w. induction fuel as [|fuel IH]; intros l w Hs Hw.
  { destruct w; [by exists l|done]. }
  destruct w as [|b w]; [by exists l|]. destruct l as [|a l]; [done|]. cbn [replace_quoted] in Hs.
  destruct (token_word (a :: l)) as [[t r]|] eqn:E.
  - apply token_word_spec in E. rewrite E. apply app_eq_inv in Hs as [(k & -> & _)|(k & Hk & Hr)].
    + exists (k ++ r). by rewrite <- app_assoc.
    + destruct k as [|x k]; [rewrite app_nil_r in Hk; rewrite Hk; by exists r|].
      injection Hr as <- _. rewrite Hk in Hw. set_solver.
  - injection Hs as <- Hs. destruct (IH l w Hs) as [l' ->]; [set_solver|]. by exists l'.
Qed.

Lemma replace_quoted_clean token fuel l :
  "["%char ∉ token -> "]"%char ∉ token -> quote ∉ token ->
  no_run token l -> no_run token (replace_quoted fuel l).
Proof.
  intros H1 H2 H3. revert l. induction fuel as [|fuel IH]; intros l Hl; [apply no_run_nil|].
  destruct l as [|a l]; [apply no_run_nil|]. cbn [replace_quoted].
  destruct (token_word (a :: l)) as [[t r]|] eqn:E.
  - apply token_word_spec in E. rewrite E in Hl. destruct (after_quoted_spec r) as [p Hp].
    change (t ++ redacted ++ [quote] ++ replace_quoted fuel (after_quoted r))
      with (t ++ "["%char :: (chars "redacted" ++ "]"%char ::
              ([] ++ quote :: replace_quoted fuel (after_quoted r)))).
    apply no_run_split; [done|by eapply no_run_prefix|].
    apply no_run_split; [done|apply no_run_short; unfold minEcho; simpl; lia|].
    apply no_run_split; [done|apply no_run_nil|]. apply IH.
    apply no_run_suffix in Hl. rewrite Hp in Hl. by eapply no_run_suffix.
  - intros pre w post t1 t2 Ho Ht. destruct pre as [|b pre].
    + destruct w as [|b w]; [unfold minEcho; simpl; lia|]. injection Ho as <- Ho.
      assert ("["%char ∉ w) as Hw
        by (intros Hw; apply H1; rewrite Ht, !elem_of_app, elem_of_cons; auto).
      destruct (replace_quoted_kept fuel l w post Ho Hw) as [l' ->].
      exact (Hl [] (a :: w) l' t1 t2 eq_refl Ht).
    + injection Ho as <- Ho. assert (no_run token l) as Hl' by (by apply (no_run_suffix token [a])).
      by eapply (IH l Hl' pre w post t1 t2).
Qed.

(** ** Replacing a message in a text *)

Lemma replace_all_head fuel m s l :
  m <> [] -> replace_all (S fuel) m s (m ++ l) = s ++ replace_all fuel m s l.
Proof.
  intros Hm. destruct m as [|a m]; [done|]. cbn [replace_all app].
  rewrite decide_True by (change (a :: m ++ l) with ((a :: m) ++ l); by rewrite take_app_length).
  change (a :: m ++ l) with ((a :: m) ++ l). by rewrite drop_app_length.
Qed.

Lemma replace_all_absent fuel m s l :
  (length l <= fuel)%nat -> (forall pre post, l <> pre ++ m ++ post) -> replace_all fuel m s l = l.
Proof.
  revert l. induction fuel as [|fuel IH]; intros l Hf Hno; [by destruct l; simpl in Hf; [|lia]|].
  destruct l as [|a l]; [done|]. cbn [replace_all]. case_decide as Ht.
  - exfalso. apply (Hno [] (drop (length m) (a :: l))). simpl app at 1. rewrite <- Ht at 1.
    by rewrite take_drop.
  - f_equal. apply IH; [simpl in Hf; lia|]. intros pre post ->. by apply (Hno (a :: pre) post).
Qed.

(** ** Scrubbing by value is idle on clean text *)

Lemma common_prefix_take s t : take (common_prefix s t) s = take (common_prefix s t) t.
Proof.
  revert t. induction s as [|a s IH]; intros [|b t]; simpl; [done..|]. destruct (decide (a = b)) as [->|]; [|done].
  simpl. by rewrite IH.
Qed.

Lemma longestRun_spec s token : exists t1 t2, token = t1 ++ take (longestRun s token) s ++ t2.
Proof.
  induction token as [|a token (t1 & t2 & IH)]; [by exists [], []|]. cbn [longestRun].
  destruct (Nat.max_spec (common_prefix s (a :: token)) (longestRun s token)) as [[_ ->]|[_ ->]].
  - exists (a :: t1), t2. by rewrite IH at 1.
  - exists [], (drop (common_prefix s (a :: token)) (a :: token)). rewrite common_prefix_take.
    by rewrite take_drop.
Qed.

Lemma scrub_run_id token fuel msg :
  (length msg <= fuel)%nat -> no_run token msg -> scrub_run token fuel msg = msg.
Proof.
  revert msg. induction fuel as [|fuel IH]; intros msg Hf Hm; [by destruct msg; simpl in Hf; [|lia]|].
  destruct msg as [|a msg]; [done|]. cbn [scrub_run]. case_decide as Hn.
  - exfalso. destruct (longestRun_spec (a :: msg) token) as (t1 & t2 & Ht).
    pose proof (longestRun_le (a :: msg) token) as Hle.
    pose proof (Hm [] (take (longestRun (a :: msg) token) (a :: msg))
      (drop (longestRun (a :: msg) token) (a :: msg)) t1 t2) as H.
    rewrite length_take in H. simpl app in H. rewrite take_drop in H. specialize (H eq_refl Ht). lia.
  - f_equal. apply IH; [simpl in Hf; lia|]. by apply (no_run_suffix token [a]).
Qed.

(** The fuel is enough: any more gives the same text. *)
Lemma scrub_run_fuel token f1 f2 msg :
  (length msg <= f1)%nat -> (length msg <= f2)%nat -> scrub_run token f1 msg = scrub_run token f2 msg.
Proof.
  revert f2 msg. induction f1 as [|f1 IH]; intros [|f2] [|a msg] H1 H2; simpl in H1, H2; try lia; try done.
  cbn [scrub_run]. case_decide as Hn; [|f_equal; apply IH; lia].
  f_equal. unfold minEcho in Hn. apply IH; rewrite length_drop; simpl; lia.
Qed.

Lemma after_quoted_length l : (length (after_quoted l) <= length l)%nat.
Proof. destruct (after_quoted_spec l) as [p Hp]. rewrite Hp at 2. rewrite length_app. lia. Qed.

Lemma replace_quoted_fuel f1 f2 l :
  (length l <= f1)%nat -> (length l <= f2)%nat -> replace_quoted f1 l = replace_quoted f2 l.
Proof.
  revert f2 l. induction f1 as [|f1 IH]; intros [|f2] [|a l] H1 H2; simpl in H1, H2; try lia; try done.
  cbn [replace_quoted]. destruct (token_word (a :: l)) as [[w r]|] eqn:E; [|f_equal; apply IH; lia].
  do 3 f_equal. pose proof (after_quoted_length r).
  assert (length r <= length l)%nat; [|apply IH; lia].
  assert (w <> []) as Hw.
  { unfold token_word in E. intros ->. repeat (case_match; try discriminate E); simplify_eq.
    repeat match goal with H : _ ++ _ = [] |- _ => apply app_eq_nil in H as [? H] end. done. }
  apply token_word_spec in E. destruct w; [done|]. injection E as _ ->. rewrite length_app. lia.
Qed.

Lemma chars_of_chars l : chars (of_chars l) = l.
Proof. apply String.list_ascii_of_string_of_list_ascii. Qed.

Lemma of_chars_chars s : of_chars (chars s) = s.
Proof. apply String.string_of_list_ascii_of_string. Qed.

Lemma chars_app s t : chars (s +:+ t) = chars s ++ chars t.
Proof. induction s as [|a s IH]; [done|]. rewrite append_cons. unfold chars in *. simpl. by rewrite IH. Qed.

(** ** Properties *)

Section Properties.
Context `{KE : KarpErrors, ET : ErrorText}.

(** How hcloud-go renders its errors once they hold no response and no action. *)
Class HcloudText := {
  code_text : error_code -> string;
  text_api : forall c m, error_text (HcloudError c m None) = m +:+ " (" +:+ code_text c +:+ ")";
  text_action : forall c m,
    error_text (HcloudActionError c m None) = m +:+ " (" +:+ code_text c +:+ ")"
}.

Lemma redact_Code (apiToken : option string) (err : error) (c : error_code) :
  Code (Some err) = Some c -> Code (Some (redact apiToken err)) = Some c.
Proof.
  intros Hc. assert (Code (Some (default err (rebuilt_chain apiToken err))) = Some c) as He.
  { destruct (rebuilt_chain apiToken err) as [r|] eqn:E; [|done]. by eapply rebuilt_chain_Code. }
  unfold redact. destruct (_ && _); [done|]. by rewrite He.
Qed.

Lemma rebuilt_chain_found (apiToken : option string) (err r : error) :
  rebuilt_chain apiToken err = Some r -> IsNotFound (Some r) = false.
Proof.
  induction err; cbn [rebuilt_chain]; unfold rebuild; simpl; intros E; simplify_eq; auto.
  destruct (karp_unwraps kind); [auto|done].
Qed.

(** Redaction never makes a missing resource of an error. *)
Lemma redact_IsNotFound (apiToken : option string) (err : error) :
  IsNotFound (Some err) = false -> IsNotFound (Some (redact apiToken err)) = false.
Proof.
  intros Hn. assert (IsNotFound (Some (default err (rebuilt_chain apiToken err))) = false) as He.
  { destruct (rebuilt_chain apiToken err) as [r|] eqn:E; [|done]. by eapply rebuilt_chain_found. }
  unfold redact. destruct (_ && _); [done|]. by destruct (Code _).
Qed.

(** What leaves the package is detached and keeps its meaning: no error in the
    tree holds a response, and so the request with the token, or an action; a
    Hetzner code that was there is still there, so the classification is the
    same; and redaction never turns anything into a missing resource. *)
Theorem redact_keeps_the_code (apiToken : option string) (err : error) :
  attached (redact apiToken err) = false /\
  (forall c, Code (Some err) = Some c ->
     Code (Some (redact apiToken err)) = Some c /\
     Classify (Some (redact apiToken err)) = Classify (Some err)) /\
  (IsNotFound (Some err) = false -> IsNotFound (Some (redact apiToken err)) = false).
Proof.
  split; [|split; [|apply redact_IsNotFound]].
  - unfold redact. destruct (_ && _) eqn:E.
    + apply andb_prop in E as [_ E]. by apply negb_true_iff in E.
    + by destruct (Code _).
  - intros c Hc. pose proof (redact_Code apiToken err c Hc) as Hr. split; [done|].
    unfold Classify. by rewrite Hr, Hc.
Qed.

(** The rebuilt error, its code and its message. *)
Definition node_of (r : error) (c : error_code) (m : string) : Prop :=
  r = HcloudError c m None \/ r = HcloudActionError c m None.

Lemma rebuilt_chain_node apiToken err r :
  rebuilt_chain apiToken err = Some r -> exists c m, node_of r c m.
Proof.
  unfold node_of. induction err; cbn [rebuilt_chain]; unfold rebuild; simpl; intros H; simplify_eq; eauto.
  destruct (karp_unwraps kind); [auto|done].
Qed.

Section Echo.
Context (token : string) `{HT : HcloudText}.
Context (env : string) (Htok : NewClientFromEnv env = Ok token).

Lemma excluded (a : ascii) : alphanumeric a = false -> a ∉ chars token.
Proof using Htok. by apply (accepted_excludes env). Qed.

Lemma scrub_text_clean (c : error_code) (m : string) :
  no_run (chars token) (chars (code_text c)) ->
  no_run (chars token) (chars (scrubMessages (Some token) (HcloudError c m None)
    (m +:+ " (" +:+ code_text c +:+ ")"))).
Proof using Htok.
  intros Hc. cbn [scrubMessages messages hcloudNode foldl].
  set (suffix := chars (" (" +:+ code_text c +:+ ")")).
  assert (no_run (chars token) suffix) as Hs.
  { unfold suffix. rewrite !chars_app. change (chars " (" ++ ?l) with ([] ++ " "%char :: [] ++ "("%char :: l).
    apply no_run_split; [by apply excluded|apply no_run_nil|].
    apply no_run_split; [by apply excluded|apply no_run_nil|].
    apply no_run_split; [by apply excluded|done|apply no_run_nil]. }
  set (s := scrub_run (chars token) (length (chars m)) (chars m)).
  assert (no_run (chars token) s) as Hsc by (apply scrub_run_clean; by apply excluded).
  assert (forall x, no_run (chars token) x -> no_run (chars token) (x ++ suffix)) as Happ.
  { intros x Hx. unfold suffix in *. rewrite chars_app in *.
    change (chars " (" ++ ?l) with (" "%char :: "("%char :: l) in *.
    apply no_run_split; [by apply excluded|done|]. by apply (no_run_suffix _ [" "%char]). }
  destruct (String.eqb_spec (scrubToken (Some token) m) m) as [He|He].
  - rewrite chars_app. apply Happ. unfold scrubToken in He. fold s in He. rewrite <- He.
    by rewrite chars_of_chars.
  - unfold ReplaceAll. rewrite chars_of_chars.
    assert (s <> chars m) as Hne.
    { intros Hm. apply He. unfold scrubToken. fold s. by rewrite Hm, of_chars_chars. }
    assert (chars m <> []) as Hnil by (intros Hm; apply Hne; unfold s; by rewrite Hm).
    rewrite chars_app. fold suffix. rewrite length_app.
    destruct (length (chars m)) as [|n] eqn:En; [by destruct (chars m)|].
    change (S n + length suffix)%nat with (S (n + length suffix)).
    rewrite replace_all_head by done. unfold scrubToken. rewrite En. fold s. rewrite chars_of_chars.
    rewrite replace_all_absent; [by apply Happ|lia|].
    intros pre post Hp. apply Hne. unfold s. rewrite <- En. apply scrub_run_id; [lia|].
    rewrite Hp in Hs. by eapply no_run_infix.
Qed.

(** No echo.  A Hetzner error, however deep in a chain of wrappers it comes, leaves
    the package as a Hetzner error of the same code whose message holds no twelve consecutive characters of the token, wherever in the
    original message they stood; provided the token passed the startup check and
    the error code itself spells no part of it. *)
Theorem redact_no_echo (err r : error) (c : error_code) (m0 : string)
    (Hr : rebuilt_chain (Some token) err = Some r) (Hn : node_of r c m0)
    (Hc : no_run (chars token) (chars (code_text c))) :
  exists m, node_of (redact (Some token) err) c m /\ no_run (chars token) (chars m).
Proof using Htok HT.
  unfold redact. rewrite Hr. change (default err (Some r)) with r. cbv zeta.
  assert (error_text r = m0 +:+ " (" +:+ code_text c +:+ ")" /\ attached r = false /\
    Code (Some r) = Some c /\
    scrubMessages (Some token) r (error_text r) =
      scrubMessages (Some token) (HcloudError c m0 None) (error_text r)) as (Ht & Ha & Hcode & Hs).
  { destruct Hn as [->| ->]; rewrite ?text_api, ?text_action; done. }
  rewrite Ha, Hcode, Hs. set (clean := scrubQuoted _).
  assert (no_run (chars token) (chars clean)) as Hclean.
  { unfold clean, scrubQuoted. rewrite chars_of_chars.
    apply replace_quoted_clean; [by apply excluded..|]. rewrite Ht. by apply scrub_text_clean. }
  destruct (String.eqb_spec clean (error_text r)) as [He|He]; simpl.
  - exists m0. split; [done|]. rewrite He, Ht, chars_app in Hclean. by eapply no_run_prefix.
  - exists clean. split; [by left|done].
Qed.
End Echo.
End Properties.

(** ** Witness *)

Module RedactExample.
#[export] Instance unwraps : KarpErrors := fun _ => true.

Definition code_name (c : error_code) : string :=
  match c with CodeRateLimitExceeded => "rate_limit_exceeded" | _ => "other" end.

#[export] Instance text : ErrorText := fun e =>
  match e with
  | HcloudError c m None | HcloudActionError c m None => m +:+ " (" +:+ code_name c +:+ ")"
  | _ => "error"
  end.

#[export] Instance hcloud_text : HcloudText.
Proof. by refine {| code_text := code_name |}. Defined.

Definition token : string := "0123456789abcdefghijklmnopqrstuvwxyzABCDEFGHIJKLMNOPQRSTUVWXYZ01".

(** The message Hetzner sends when the limit is hit, and an echo without quotes. *)
Definition limit : error :=
  Wrapf "creating server: "
    (HcloudError CodeRateLimitExceeded
       "Limit of '3600' requests per hour for Token 'abc' reached, 0123456789abcdef"
       (Some {| http_correlation_id := Some "f00" |})).
End RedactExample.

Section Witnesses.
Import RedactExample.

Lemma redact_no_echo_witness :
  redact (Some token) limit = HcloudError CodeRateLimitExceeded
    "Limit of '3600' requests per hour for Token '[redacted]' reached, [redacted] (correlation id f00)" None /\
  exists m, node_of (redact (Some token) limit) CodeRateLimitExceeded m /\
    no_run (chars token) (chars m).
Proof.
  split; [by vm_compute|].
  apply (redact_no_echo token token eq_refl limit
    (HcloudError CodeRateLimitExceeded
       "Limit of '3600' requests per hour for Token '[redacted]' reached, [redacted] (correlation id f00)" None)
    CodeRateLimitExceeded
    "Limit of '3600' requests per hour for Token '[redacted]' reached, [redacted] (correlation id f00)").
  - by vm_compute.
  - by left.
  - change (no_run (chars token)
      (chars "rate" ++ "_"%char :: (chars "limit" ++ "_"%char :: chars "exceeded"))).
    assert ("_"%char ∉ chars token) as Hu by (by apply (accepted_excludes token)).
    apply no_run_split; [exact Hu|apply no_run_short; unfold minEcho; simpl; lia|].
    apply no_run_split; [exact Hu|apply no_run_short; unfold minEcho; simpl; lia..].
Defined.
End Witnesses.
