(* ===== verification/ServerClient.v ===== *)
(** The server adapter: Hetzner's SDK behind the [Servers] interface.

    Models [serverClient] of [internal/hcloudapi/servers.go]: the create options,
    the wait for the create's actions with the cleanup of a server that fails
    them, each under the context the code gives it, the reads, [Delete], [Reset], [RecentActions] and [serverFromHcloud].
    hcloud-go is a class over the world; [server_client] is the instance of
    [Servers] the rest of the provider runs on. *)

From S2P Require Import Prelude GoErrors Float64 GoText Servers Redact.

(** ** The SDK *)

(** [hcloud.ServerCreateOpts], references by what the source sets of them. *)
Record ServerCreateOpts := {
  co_Name : string;
  co_ServerType : string;
  co_Image : Z;
  co_Location : string;
  co_UserData : string;
  co_Labels : gmap string string;
  co_StartAfterCreate : option bool;
  co_Automount : option bool;
  co_EnableIPv4 : bool;
  co_EnableIPv6 : bool;
  co_SSHKeys : list Z;
  co_Networks : list Z;
  co_Firewalls : list Z;
  co_PlacementGroup : option Z
}.

(** [hcloud.Server]: pointers are options, an IP is its text. *)
Record sdk_server := {
  sv_ID : Z;
  sv_Name : string;
  sv_Status : string;
  sv_Labels : gmap string string;
  sv_Created : time;
  sv_ServerType : option string;
  sv_Location : option string;
  sv_Image : option Z;
  sv_IPv4 : option string;
  sv_IPv4ID : Z;
  sv_IPv6ID : Z;
  sv_PlacementGroup : option Z;
  sv_Firewalls : list Z;
  sv_PrivateNet : list (option string * option Z)
}.

(** [hcloud.ServerCreateResult]; an action is its id, nil or not. *)
Record ServerCreateResult := {
  cr_Server : option sdk_server;
  cr_Action : option Z;
  cr_NextActions : list (option Z)
}.

(** What the adapter makes of a [context.Context]: whether it still ends when the
    caller's does, and the time it is given beyond that. *)
Record Context := { ctx_Inherits : bool; ctx_Timeout : option duration }.

Definition caller_ctx : Context := {| ctx_Inherits := true; ctx_Timeout := None |}.
Definition context_WithTimeout (ctx : Context) (d : duration) : Context :=
  {| ctx_Inherits := ctx_Inherits ctx;
     ctx_Timeout := Some (match ctx_Timeout ctx with Some d' => Z.min d d' | None => d end) |}.
Definition context_WithoutCancel (ctx : Context) : Context :=
  {| ctx_Inherits := false; ctx_Timeout := None |}.

Class HcloudServers (W : Type) := {
  sdk_Create : ServerCreateOpts -> W -> result ServerCreateResult * W;
  (** [Action.WaitFor], which ends with its context. *)
  sdk_WaitFor : Context -> list (option Z) -> W -> option error * W;
  sdk_Delete : Context -> Z -> W -> option error * W;
  sdk_Reset : Z -> W -> option error * W;
  (** [Action.ListFor], fifty of them, newest first. *)
  sdk_ListFor : Z -> W -> result (list (option Action)) * W;
  sdk_GetByID : Z -> W -> result (option sdk_server) * W;
  sdk_GetByName : string -> W -> result (option sdk_server) * W;
  sdk_AllWithOpts : string -> W -> result (list (option sdk_server)) * W;
  sdk_IsError : error -> error_code -> bool
}.

(** ** The adapter *)

Definition DefaultCreateTimeout : duration := 90 * second.

Record serverClient := { sc_timeout : duration }.

Definition NewServersWithTimeout (timeout : duration) : serverClient :=
  {| sc_timeout := if timeout <=? 0 then DefaultCreateTimeout else timeout |}.

Definition NewServers : serverClient := NewServersWithTimeout DefaultCreateTimeout.

Section Client.
Context `{GT : GoText, KE : KarpErrors, ET : ErrorText} (apiToken : option string).
Context {W : Type} `{SDK : HcloudServers W}.

Definition createOpts (r : CreateServerRequest) : ServerCreateOpts :=
  {| co_Name := req_Name r; co_ServerType := req_ServerType r; co_Image := req_ImageID r;
     co_Location := req_Location r; co_UserData := req_UserData r; co_Labels := req_Labels r;
     co_StartAfterCreate := Some true; co_Automount := Some false;
     co_EnableIPv4 := req_PublicIPv4 r; co_EnableIPv6 := req_PublicIPv6 r;
     co_SSHKeys := req_SSHKeyIDs r; co_Networks := req_NetworkIDs r;
     co_Firewalls := req_FirewallIDs r; co_PlacementGroup := req_PlacementGroupID r |}.

Definition serverFromHcloud (srv : sdk_server) : Server :=
  {| srv_ID := sv_ID srv; srv_Name := sv_Name srv;
     srv_ServerType := default "" (sv_ServerType srv);
     srv_Location := default "" (sv_Location srv);
     srv_Status := sv_Status srv; srv_Labels := sv_Labels srv;
     srv_ImageID := default 0 (sv_Image srv); srv_Created := sv_Created srv;
     (* the first address that is there; [""] is not an address *)
     srv_PrivateIPv4 := default "" (head (omap fst (sv_PrivateNet srv)));
     srv_PublicIPv4 := default "" (sv_IPv4 srv);
     srv_NetworkIDs := omap snd (sv_PrivateNet srv);
     srv_FirewallIDs := sv_Firewalls srv;
     srv_PlacementGroupID := default 0 (sv_PlacementGroup srv);
     srv_HasPublicIPv4 := negb (sv_IPv4ID srv =? 0);
     srv_HasPublicIPv6 := negb (sv_IPv6ID srv =? 0) |}.

Definition client_Get (id : Z) (w : W) : result (option Server) * W :=
  match sdk_GetByID id w with
  | (Err err, w) => (Err (Wrapf ("getting server " +:+ FormatInt id +:+ ": ") (redact apiToken err)), w)
  | (Ok srv, w) => (Ok (serverFromHcloud <$> srv), w)
  end.

Definition client_GetByName (name : string) (w : W) : result (option Server) * W :=
  match sdk_GetByName name w with
  | (Err err, w) => (Err (Wrapf ("getting server " +:+ Quote name +:+ ": ") (redact apiToken err)), w)
  | (Ok srv, w) => (Ok (serverFromHcloud <$> srv), w)
  end.

(** Best effort: the error is only logged. *)
Definition deleteQuietly (ctx : Context) (id : Z) (w : W) : W :=
  (sdk_Delete (context_WithTimeout ctx (30 * second)) id w).2.

Definition client_Create (s : serverClient) (r : CreateServerRequest) (w : W) : result Server * W :=
  match sdk_Create (createOpts r) w with
  | (Err err, w) => (Err (Wrapf ("creating server " +:+ Quote (req_Name r) +:+ ": ") (redact apiToken err)), w)
  | (Ok res, w) =>
      match cr_Server res with
      | None =>
          (Err (Errorf ("creating server " +:+ Quote (req_Name r) +:+ ": hetzner returned no server")), w)
      | Some made =>
          let waitCtx := context_WithTimeout caller_ctx (sc_timeout s) in
          match sdk_WaitFor waitCtx (cr_Action res :: cr_NextActions res) w with
          | (Some err, w) =>
              (Err (Wrapf ("waiting for server " +:+ Quote (req_Name r) +:+ " to be created: ")
                      (redact apiToken err)),
               deleteQuietly (context_WithoutCancel caller_ctx) (sv_ID made) w)
          | (None, w) =>
              match client_Get (sv_ID made) w with
              | (Err err, w) => (Err err, w)
              | (Ok None, w) =>
                  (Err (Errorf ("server " +:+ Quote (req_Name r) +:+ " vanished immediately after creation")), w)
              | (Ok (Some srv), w) => (Ok srv, w)
              end
          end
      end
  end.

(** A missing server is this package's own error, anything else is redacted. *)
Definition client_error (what : string) (id : Z) (err : error) : error :=
  if sdk_IsError err CodeNotFound then NotFoundError "server" (FormatInt id)
  else Wrapf (what +:+ " " +:+ FormatInt id +:+ ": ") (redact apiToken err).

Definition client_Delete (id : Z) (w : W) : option error * W :=
  let '(err, w) := sdk_Delete caller_ctx id w in (client_error "deleting server" id <$> err, w).

Definition client_Reset (id : Z) (w : W) : option error * W :=
  let '(err, w) := sdk_Reset id w in (client_error "resetting server" id <$> err, w).

Definition client_RecentActions (id : Z) (w : W) : result (list Action) * W :=
  match sdk_ListFor id w with
  | (Err err, w) => (Err (client_error "listing actions of server" id err), w)
  | (Ok actions, w) => (Ok (omap (fun a => a) actions), w)
  end.

Definition client_List (labelSelector : string) (w : W) : result (list (option Server)) * W :=
  match sdk_AllWithOpts labelSelector w with
  | (Err err, w) =>
      (Err (Wrapf ("listing servers " +:+ Quote labelSelector +:+ ": ") (redact apiToken err)), w)
  | (Ok srvs, w) => (Ok ((fun s => Some (serverFromHcloud s)) <$> omap (fun s => s) srvs), w)
  end.

#[export] Instance server_client (s : serverClient) : Servers W := {
  api_Create := client_Create s;
  api_Delete := client_Delete;
  api_Get := client_Get;
  api_GetByName := client_GetByName;
  api_List := client_List;
  api_Reset := client_Reset;
  api_RecentActions := client_RecentActions
}.
End Client.

(** ** The calls of a create *)

Inductive sdk_call :=
  | KCreate (opts : ServerCreateOpts) (out : result ServerCreateResult)
  | KWait (ctx : Context) (actions : list (option Z)) (out : option error)
  | KDelete (ctx : Context) (id : Z) (out : option error)
  | KGet (id : Z) (out : result (option sdk_server))
  | KOther.

Section Traced.
Context `{GT : GoText, KE : KarpErrors, ET : ErrorText} (apiToken : option string).
Context {W : Type} `{SDK : HcloudServers W}.

Definition recorded {A} (f : W -> A * W) (k : A -> sdk_call) (wt : W * list sdk_call)
    : A * (W * list sdk_call) :=
  let '(a, w) := f wt.1 in (a, (w, wt.2 ++ [k a])).

#[local] Instance traced_sdk : HcloudServers (W * list sdk_call) := {
  sdk_Create opts := recorded (sdk_Create opts) (KCreate opts);
  sdk_WaitFor ctx acts := recorded (sdk_WaitFor ctx acts) (KWait ctx acts);
  sdk_Delete ctx id := recorded (sdk_Delete ctx id) (KDelete ctx id);
  sdk_Reset id := recorded (sdk_Reset id) (fun _ => KOther);
  sdk_ListFor id := recorded (sdk_ListFor id) (fun _ => KOther);
  sdk_GetByID id := recorded (sdk_GetByID id) (KGet id);
  sdk_GetByName n := recorded (sdk_GetByName n) (fun _ => KOther);
  sdk_AllWithOpts l := recorded (sdk_AllWithOpts l) (fun _ => KOther);
  sdk_IsError := sdk_IsError
}.

(** A call that ends with the caller's or after [d], and one that ends only then. *)
Definition within (d : duration) : Context := {| ctx_Inherits := true; ctx_Timeout := Some d |}.
Definition detached (d : duration) : Context := {| ctx_Inherits := false; ctx_Timeout := Some d |}.

(** How a create of Hetzner's ends: nothing was made; it was made, failed its
    actions and was asked to be deleted; it settled and is described by the
    re-read; or it settled and the re-read did not show it. *)
Inductive create_ends (timeout : duration) (opts : ServerCreateOpts) :
    list sdk_call -> result Server -> Prop :=
  | EndRefused err e :
      (forall c, Code (Some err) = Some c -> Code (Some e) = Some c) ->
      create_ends timeout opts [KCreate opts (Err err)] (Err e)
  | EndNoServer res e :
      cr_Server res = None -> create_ends timeout opts [KCreate opts (Ok res)] (Err e)
  | EndCleaned res made err out e :
      cr_Server res = Some made ->
      (forall c, Code (Some err) = Some c -> Code (Some e) = Some c) ->
      create_ends timeout opts
        [KCreate opts (Ok res); KWait (within timeout) (cr_Action res :: cr_NextActions res) (Some err);
         KDelete (detached (30 * second)) (sv_ID made) out] (Err e)
  | EndMade res made srv :
      cr_Server res = Some made ->
      create_ends timeout opts
        [KCreate opts (Ok res); KWait (within timeout) (cr_Action res :: cr_NextActions res) None;
         KGet (sv_ID made) (Ok (Some srv))] (Ok (serverFromHcloud srv))
  | EndUnseen res made out e :
      cr_Server res = Some made -> (forall srv, out <> Ok (Some srv)) ->
      create_ends timeout opts
        [KCreate opts (Ok res); KWait (within timeout) (cr_Action res :: cr_NextActions res) None;
         KGet (sv_ID made) out] (Err e).

Lemma redacted_code (t : string) (err : error) (c : error_code) :
  Code (Some err) = Some c -> Code (Some (Wrapf t (redact apiToken err))) = Some c.
Proof. intros Hc. rewrite Code_wrap. by apply redact_Code. Qed.

Lemma NewServersWithTimeout_positive (d : duration) :
  0 < sc_timeout (NewServersWithTimeout d) /\ (0 < d -> sc_timeout (NewServersWithTimeout d) = d).
Proof.
  unfold NewServersWithTimeout, DefaultCreateTimeout, second. cbn [sc_timeout].
  destruct (Z.leb_spec d 0); lia.
Qed.

(** C17. Every server a create makes is accounted for.  The adapter orders exactly
    the request, started and without automount, in one call; then the run is one
    of five: refused, with the code that decides the fall-through intact under
    redaction and wrapping; answered without a server; failed while its actions
    ran, and then exactly that server is asked to be deleted, also when what ended
    was the caller's context; settled, read back and returned as it was read; or
    settled and not read back, which is an error and deletes nothing.  A server is
    returned only after every action succeeded, nothing but the server just made is
    ever deleted, and the wait is bounded: by a positive timeout, whatever was
    configured. *)
Theorem client_create_accounts (configured : duration) (r : CreateServerRequest) (w : W) :
  let s := NewServersWithTimeout configured in
  let '(res, (_, calls)) := client_Create apiToken s r (w, []) in
  create_ends (sc_timeout s) (createOpts r) calls res /\
  0 < sc_timeout s /\ (0 < configured -> sc_timeout s = configured) /\
  co_StartAfterCreate (createOpts r) = Some true /\ co_Automount (createOpts r) = Some false.
Proof.
  unfold client_Create, deleteQuietly, client_Get, sdk_Create, sdk_WaitFor, sdk_Delete, sdk_GetByID,
    traced_sdk, recorded. cbv zeta. cbn [fst snd app].
  pose proof (NewServersWithTimeout_positive configured) as [Ht1 Ht2].
  destruct (ServerClient.sdk_Create (createOpts r) w) as [[res|err] w1]; cbn [fst snd app].
  2: { split; [|done]. constructor. apply redacted_code. }
  destruct (cr_Server res) as [made|] eqn:Em; cbn [fst snd app]; [|split; [by constructor|done]].
  destruct (ServerClient.sdk_WaitFor _ _ w1) as [[err|] w2]; cbn [fst snd app].
  - destruct (ServerClient.sdk_Delete _ _ w2) as [out w3]; cbn [fst snd app].
    split; [|done]. econstructor; [done|]. apply redacted_code.
  - destruct (ServerClient.sdk_GetByID _ w2) as [[[srv|]|err] w3]; cbn [fst snd app fmap option_fmap option_map];
      (split; [|done]).
    + by apply EndMade.
    + by apply EndUnseen.
    + by apply EndUnseen.
Qed.
End Traced.
