(* ===== verification/ErrorMessages.v ===== *)
(** The messages errors print, and that none of the adapter's prints the token.

    Models the [Error] methods of the repository's own errors: [NotFoundError]
    ([hcloudapi/resources.go]), [errNotManaged] ([instance/instance.go]) and
    [ConfigError] ([bootstrap/clusterinfo.go]), with [fmt.Errorf]'s texts.  How
    hcloud-go, karpenter core and a joined error print is a class.  On it, what
    [redact] does to an error is followed to the text a log line or a condition
    shows. *)

From Stdlib Require Import Ascii.
From S2P Require Import Prelude GoErrors Float64 GoText Servers Redact ServerClient.

(** ** Messages *)

(** How the libraries print theirs. *)
Class LibraryText := {
  text_code : error_code -> string;
  (** [hcloud.Error]: the message and the code, and the correlation id of a response. *)
  text_response : error_code -> string -> hcloud_response -> string;
  text_of_action : error_code -> string -> Z -> string;
  text_joined : list string -> string;
  text_karp : karp_kind -> string -> string
}.

Section Messages.
Context `{GT : GoText, LT : LibraryText}.

Definition hcloud_message (c : error_code) (m : string) : string := m +:+ " (" +:+ text_code c +:+ ")".

Definition NotFoundError_Error (kind selector : string) : string :=
  kind +:+ " " +:+ Quote selector +:+ " not found".

Definition errNotManaged_Error (name : string) (id : Z) : string :=
  "server " +:+ Quote name +:+ " (id " +:+ FormatInt id +:+ ") does not carry this cluster's " +:+
  LabelManagedBy +:+ " label; refusing to touch it".

(** [err.Error()]. *)
Fixpoint Error (err : error) : string :=
  match err with
  | Errorf text => text
  | Wrapf text e => text +:+ Error e
  | Joined es => text_joined (Error <$> es)
  | HcloudError c m resp | HcloudErrorPtr c m resp =>
      match resp with None => hcloud_message c m | Some resp => text_response c m resp end
  | HcloudActionError c m action | HcloudActionErrorPtr c m action =>
      match action with None => hcloud_message c m | Some id => text_of_action c m id end
  | NotFoundError kind selector => NotFoundError_Error kind selector
  | NotManagedError name id => errNotManaged_Error name id
  | ConfigError e => Error e
  | KubeStatus _ text => text
  | KarpError kind e => text_karp kind (Error e)
  end.

#[export] Instance error_messages : ErrorText := Error.

#[export] Instance hcloud_messages : HcloudText.
Proof. by refine {| code_text := text_code |}. Defined.
End Messages.

(** ** Numbers *)

Definition numeral (a : ascii) : bool :=
  bool_decide (a = "-"%char) || match digit_val a with Some _ => true | None => false end.

Definition dquote : ascii := ascii_of_nat 34.

Lemma pretty_N_go_numerals (x : N) (s : string) :
  Forall (fun a => numeral a = true) (chars s) -> Forall (fun a => numeral a = true) (chars (pretty_N_go x s)).
Proof.
  revert s. induction (N.lt_wf_0 x) as [x _ IH]; intros s Hs.
  destruct (decide (x = 0%N)) as [->|Hx]; [by rewrite pretty_N_go_0|].
  rewrite pretty_N_go_step by lia. apply IH; [apply N.div_lt; lia|]. constructor; [|done].
  unfold numeral. rewrite digit_val_pretty by (apply N.mod_lt; lia). apply orb_true_r.
Qed.

Lemma pretty_N_numerals (x : N) : Forall (fun a => numeral a = true) (chars (pretty x)).
Proof.
  unfold pretty, pretty_N. destruct (decide (x = 0%N)); [by repeat constructor|].
  by apply pretty_N_go_numerals.
Qed.

Lemma FormatInt_numerals (id : Z) : Forall (fun a => numeral a = true) (chars (FormatInt id)).
Proof.
  destruct id as [|p|p]; unfold FormatInt.
  - by repeat constructor.
  - change (pretty (Z.pos p)) with (pretty (N.pos p)). apply pretty_N_numerals.
  - change (pretty (Z.neg p)) with (String "-" (pretty (N.pos p))). constructor; [done|apply pretty_N_numerals].
Qed.

(** ** Text that spells no part of the token *)

Section Echo.
Context `{GT : GoText, LT : LibraryText, KE : KarpErrors}.
Context (token env : string) (Htok : NewClientFromEnv env = Ok token).

Definition silent_text (s : string) : Prop := no_run (chars token) (chars s).

(** Every run of letters and digits is shorter than what counts as an echo; [n] of
    them come before [l]. *)
Fixpoint short_words (n : nat) (l : list ascii) : bool :=
  match l with
  | [] => (n <? minEcho)%nat
  | a :: l => if alphanumeric a then short_words (S n) l else (n <? minEcho)%nat && short_words 0 l
  end.

Lemma short_words_no_run (l acc : list ascii) :
  short_words (length acc) l = true -> no_run (chars token) (acc ++ l).
Proof using Htok.
  revert acc. induction l as [|a l IH]; intros acc; cbn [short_words].
  - intros Hn%Nat.ltb_lt. rewrite app_nil_r. by apply no_run_short.
  - destruct (alphanumeric a) eqn:Ea.
    + intros Hw. change (acc ++ a :: l) with (acc ++ [a] ++ l). rewrite app_assoc. apply IH.
      by rewrite length_app, Nat.add_1_r.
    + intros [Hn%Nat.ltb_lt Hl]%andb_prop. apply no_run_split; [by eapply accepted_excludes|by apply no_run_short|].
      by apply (IH []).
Qed.

(** Literal texts of the source, by computation. *)
Lemma silent_literal (s : string) : short_words 0 (chars s) = true -> silent_text s.
Proof using Htok. apply (short_words_no_run (chars s) []). Qed.

(** A character no token holds keeps the two sides apart. *)
Lemma silent_glue (s : string) (a : ascii) (t : string) :
  alphanumeric a = false -> silent_text s -> silent_text t -> silent_text (s +:+ String a t).
Proof using Htok.
  intros Ha Hs Ht. unfold silent_text in *. rewrite chars_app. apply no_run_split; [|done..].
  by eapply accepted_excludes.
Qed.

Lemma silent_between (before q after : string) :
  short_words 0 (chars before) = true -> silent_text q -> silent_text after ->
  silent_text (before +:+ String " " (q +:+ String ":" (String " " after))).
Proof using Htok.
  intros Hb Hq Ha. apply silent_glue; [done|by apply silent_literal|].
  apply silent_glue; [done|done|]. apply (silent_glue "" " " after); [done|by apply silent_literal|done].
Qed.

Lemma hcloud_message_silent (c : error_code) (m : string) :
  silent_text (text_code c) -> silent_text m -> silent_text (hcloud_message c m).
Proof using Htok.
  intros Hc Hm. unfold hcloud_message.
  change (" (" +:+ ?x +:+ ")") with (String " " ("(" +:+ x +:+ ")")).
  apply silent_glue; [done..|]. apply (silent_glue "" "("); [done|by apply silent_literal|].
  apply (silent_glue _ ")" ""); [done|done|by apply silent_literal].
Qed.

(** What hcloud-go may return: an error of Hetzner's, somewhere down a chain, whose
    message may say anything, also the token; or one that has nothing of Hetzner's
    in it and does not spell the token, the failure of a connection. *)
Inductive expected (err : error) : Prop :=
  | expected_hetzner r c m :
      rebuilt_chain (Some token) err = Some r -> node_of r c m -> silent_text (text_code c) -> expected err
  | expected_transport :
      rebuilt_chain (Some token) err = None -> messages err = [] -> Code (Some err) = None ->
      silent_text (Error err) -> expected err.

Lemma redacted_silent (err : error) : expected err -> silent_text (Error (redact (Some token) err)).
Proof using Htok.
  intros [r c m Hr Hn Hc|Hr Hm Hcode Ht].
  - destruct (redact_no_echo token (HT := hcloud_messages) env Htok err r c m Hr Hn Hc) as (m' & [-> | ->] & Hm');
      by apply hcloud_message_silent.
  - unfold redact. rewrite Hr. cbn [default]. unfold scrubMessages. rewrite Hm, Hcode. cbn [foldl].
    set (clean := scrubQuoted _).
    assert (silent_text clean) as Hclean.
    { unfold clean, scrubQuoted, silent_text. rewrite chars_of_chars.
      apply replace_quoted_clean; [by eapply accepted_excludes..|exact Ht]. }
    destruct (_ && _); done.
Qed.

(** ** The server adapter *)

Context {W : Type} `{SDK : HcloudServers W}.

(** An error some call of hcloud-go returns. *)
Inductive sdk_returned (err : error) : Prop :=
  | ret_Create o w : (sdk_Create o w).1 = Err err -> sdk_returned err
  | ret_WaitFor ctx actions w : (sdk_WaitFor ctx actions w).1 = Some err -> sdk_returned err
  | ret_Delete ctx id w : (sdk_Delete ctx id w).1 = Some err -> sdk_returned err
  | ret_Reset id w : (sdk_Reset id w).1 = Some err -> sdk_returned err
  | ret_ListFor id w : (sdk_ListFor id w).1 = Err err -> sdk_returned err
  | ret_GetByID id w : (sdk_GetByID id w).1 = Err err -> sdk_returned err
  | ret_GetByName name w : (sdk_GetByName name w).1 = Err err -> sdk_returned err
  | ret_AllWithOpts sel w : (sdk_AllWithOpts sel w).1 = Err err -> sdk_returned err.

Context (Hsdk : forall err, sdk_returned err -> expected err).
(** The token has no twelve digits in a row, and [%q] of a number is the number in
    double quotes. *)
Context (Hdigits : forall t1 w t2, chars token = t1 ++ w ++ t2 -> Forall (fun a => numeral a = true) w ->
  (length w < minEcho)%nat).
Context (Hquote : forall id, Quote (FormatInt id) = String dquote (FormatInt id +:+ String dquote "")).

Lemma number_silent (id : Z) : silent_text (FormatInt id).
Proof using Hdigits.
  intros pre w post t1 t2 Hl Ht. apply (Hdigits t1 w t2 Ht).
  pose proof (FormatInt_numerals id) as Hf. rewrite Hl, !Forall_app in Hf. apply Hf.
Qed.

Lemma quoted_number_silent (id : Z) : silent_text (Quote (FormatInt id)).
Proof using Htok Hdigits Hquote.
  rewrite Hquote. apply (silent_glue "" dquote _); [done|by apply silent_literal|].
  apply silent_glue; [done|apply number_silent|by apply silent_literal].
Qed.

Lemma wrapped_silent (before q : string) (err : error) :
  short_words 0 (chars before) = true -> silent_text q -> sdk_returned err ->
  silent_text (Error (Wrapf (before +:+ String " " (q +:+ ": ")) (redact (Some token) err))).
Proof using Htok Hsdk.
  intros Hb Hq He. cbn [Error]. rewrite append_assoc_s, append_cons, append_assoc_s.
  apply silent_between; [done|done|]. by apply redacted_silent, Hsdk.
Qed.

Lemma wait_silent (q : string) (err : error) :
  silent_text q -> sdk_returned err ->
  silent_text (Error (Wrapf ("waiting for server " +:+ q +:+ " to be created: ") (redact (Some token) err))).
Proof using Htok Hsdk.
  intros Hq He. cbn [Error]. rewrite !append_assoc_s.
  apply (silent_glue "waiting for server" " " _); [done|by apply silent_literal|].
  apply silent_glue; [done|done|].
  apply (silent_glue "to be created" ":" _); [done|by apply silent_literal|].
  apply (silent_glue "" " " _); [done|by apply silent_literal|]. by apply redacted_silent, Hsdk.
Qed.

Lemma client_error_silent (what : string) (id : Z) (err : error) :
  short_words 0 (chars what) = true -> sdk_returned err ->
  silent_text (Error (client_error (Some token) what id err)).
Proof using Htok Hsdk Hdigits Hquote.
  intros Hw He. unfold client_error. destruct (sdk_IsError _ _).
  - cbn [Error]. unfold NotFoundError_Error. apply (silent_glue "server" " " _); [done|by apply silent_literal|].
    apply (silent_glue _ " " "not found"); [done|apply quoted_number_silent|by apply silent_literal].
  - apply (wrapped_silent what); [done|apply number_silent|done].
Qed.

Lemma client_Get_silent (id : Z) (w : W) (e : error) :
  (client_Get (Some token) id w).1 = Err e -> silent_text (Error e).
Proof using Htok Hsdk Hdigits Hquote.
  unfold client_Get. destruct (sdk_GetByID id w) as [[s|err] w'] eqn:E; cbn [fst]; [done|].
  intros [= <-]. apply (wrapped_silent "getting server"); [done|apply number_silent|].
  apply (ret_GetByID _ id w). by rewrite E.
Qed.

Lemma client_Create_silent (s : serverClient) (r : CreateServerRequest) (w : W) (e : error) :
  silent_text (Quote (req_Name r)) -> (client_Create (Some token) s r w).1 = Err e -> silent_text (Error e).
Proof using Htok Hsdk Hdigits Hquote.
  intros Hq. unfold client_Create. destruct (sdk_Create _ w) as [[res|err] w1] eqn:Ec.
  2: { intros [= <-]. apply (wrapped_silent "creating server"); [done|done|]. eapply ret_Create. by rewrite Ec. }
  destruct (cr_Server res) as [made|].
  2: { intros [= <-]. cbn [Error]. apply (silent_glue "creating server" " " _); [done|by apply silent_literal|].
       apply (silent_glue _ ":" " hetzner returned no server"); [done|done|by apply silent_literal]. }
  destruct (sdk_WaitFor _ _ w1) as [[err|] w2] eqn:Ew; cbn [fst].
  { intros [= <-]. apply wait_silent; [done|]. eapply ret_WaitFor. by rewrite Ew. }
  pose proof (client_Get_silent (sv_ID made) w2) as Hg.
  destruct (client_Get (Some token) (sv_ID made) w2) as [[[srv|]|err] w3]; cbn [fst]; [done| |].
  - intros [= <-]. cbn [Error]. apply (silent_glue "server" " " _); [done|by apply silent_literal|].
    apply (silent_glue _ " " "vanished immediately after creation"); [done|done|by apply silent_literal].
  - intros [= <-]. by apply Hg.
Qed.

(** C16. What Hetzner echoes of the token is never printed.  No error an operation of
    the server adapter returns prints twelve consecutive characters of the token:
    not in the redacted part, whatever Hetzner's message says, not in the text
    wrapped around it and not across the seam.  Assumed of what hcloud-go returns:
    it is a chain of wrappers around one Hetzner error, of any message and
    response, whose code does not spell the token; or it holds nothing of
    Hetzner's and does not itself spell the token, since redact scrubs by value
    only Hetzner's messages (a transport error is passed on as it is).  Joined
    errors are not covered (see [joined_errors_echo]).  Assumed besides: the token
    passed the startup check and has no twelve digits in a row, numbers are quoted
    as themselves, and the names that are quoted do not spell a part of it. *)
Theorem adapter_never_echoes (s : serverClient) :
  (forall r w e, silent_text (Quote (req_Name r)) ->
     (client_Create (Some token) s r w).1 = Err e -> silent_text (Error e)) /\
  (forall id w e, (client_Get (Some token) id w).1 = Err e -> silent_text (Error e)) /\
  (forall name w e, silent_text (Quote name) ->
     (client_GetByName (Some token) name w).1 = Err e -> silent_text (Error e)) /\
  (forall sel w e, silent_text (Quote sel) ->
     (client_List (Some token) sel w).1 = Err e -> silent_text (Error e)) /\
  (forall id w e, (client_Delete (Some token) id w).1 = Some e -> silent_text (Error e)) /\
  (forall id w e, (client_Reset (Some token) id w).1 = Some e -> silent_text (Error e)) /\
  (forall id w e, (client_RecentActions (Some token) id w).1 = Err e -> silent_text (Error e)).
Proof using Htok Hsdk Hdigits Hquote.
  split; [by eauto using client_Create_silent|]. split; [apply client_Get_silent|].
  split; [|split; [|split; [|split]]].
  - intros name w e Hq. unfold client_GetByName. destruct (sdk_GetByName name w) as [[x|err] w'] eqn:E; [done|].
    intros [= <-]. apply (wrapped_silent "getting server"); [done|done|]. eapply ret_GetByName. by rewrite E.
  - intros sel w e Hq. unfold client_List. destruct (sdk_AllWithOpts sel w) as [[x|err] w'] eqn:E; [done|].
    intros [= <-]. apply (wrapped_silent "listing servers"); [done|done|]. eapply ret_AllWithOpts. by rewrite E.
  - intros id w e. unfold client_Delete. destruct (sdk_Delete caller_ctx id w) as [[err|] w'] eqn:E; [|done].
    intros [= <-]. apply client_error_silent; [done|]. eapply ret_Delete. by rewrite E.
  - intros id w e. unfold client_Reset. destruct (sdk_Reset id w) as [[err|] w'] eqn:E; [|done].
    intros [= <-]. apply client_error_silent; [done|]. eapply ret_Reset. by rewrite E.
  - intros id w e. unfold client_RecentActions. destruct (sdk_ListFor id w) as [[x|err] w'] eqn:E; [done|].
    intros [= <-]. apply client_error_silent; [done|]. eapply ret_ListFor. by rewrite E.
Qed.
End Echo.

(** ** Witness *)

Module MessagesExample.
#[export] Instance unwraps : KarpErrors := fun _ => true.
#[export] Instance quoting : GoText :=
  {| ParseFloat _ := None; FormatG _ := ""; Quote s := String dquote (s +:+ String dquote "") |}.
#[export] Instance printing : LibraryText :=
  {| text_code _ := "rate_limit_exceeded"; text_response _ m _ := m; text_of_action _ m _ := m;
     text_joined _ := ""; text_karp _ t := t |}.

Definition token : string := "abcdefghijklmnopqrstuvwxyzabcdefghijklmnopqrstuvwxyzabcdefghijkl".

(** Hetzner refuses everything and repeats the token, here and there. *)
Definition echo : error :=
  HcloudError CodeRateLimitExceeded
    "limit reached for klmnopqrstuvwxyzabcdefghijklmnop, token 'abcdefghijklmnop'" None.

#[export] Instance echoing : HcloudServers unit := {|
  sdk_Create _ w := (Err echo, w);
  sdk_WaitFor _ _ w := (Some echo, w);
  sdk_Delete _ _ w := (Some echo, w);
  sdk_Reset _ w := (Some echo, w);
  sdk_ListFor _ w := (Err echo, w);
  sdk_GetByID _ w := (Err echo, w);
  sdk_GetByName _ w := (Err echo, w);
  sdk_AllWithOpts _ w := (Err echo, w);
  sdk_IsError _ _ := false
|}.

Definition request : CreateServerRequest :=
  {| req_Name := "node-1"; req_ServerType := "cx23"; req_Location := "nbg1"; req_ImageID := 9;
     req_SSHKeyIDs := []; req_NetworkIDs := []; req_FirewallIDs := []; req_PlacementGroupID := None;
     req_UserData := ""; req_Labels := ∅; req_PublicIPv4 := true; req_PublicIPv6 := true |}.

Lemma token_accepted : NewClientFromEnv token = Ok token.
Proof. by vm_compute. Qed.

Lemma echo_expected (err : error) : sdk_returned err -> expected token err.
Proof.
  intros Hr. assert (err = echo) as ->.
  { destruct Hr as [? ? H|? ? ? H|? ? ? H|? ? H|? ? H|? ? H|? ? H|? ? H]; by injection H as <-. }
  eapply expected_hetzner; [reflexivity|by left|]. by apply (silent_literal token token token_accepted).
Qed.

Lemma letters_only (t1 w t2 : list ascii) :
  chars token = t1 ++ w ++ t2 -> Forall (fun a => numeral a = true) w -> (length w < minEcho)%nat.
Proof.
  intros Ht Hw. destruct w as [|a w]; [unfold minEcho; simpl; lia|]. exfalso.
  assert (Forall (fun a => numeral a = false) (chars token)) as Hf
    by (apply (bool_decide_eq_true_1 _); by vm_compute).
  rewrite Ht, !Forall_app, Forall_cons in Hf. apply Forall_cons in Hw as [Ha _].
  destruct Hf as (_ & [Hn _] & _). congruence.
Qed.

(** The create fails, and its message is there without the token. *)
Lemma adapter_never_echoes_witness :
  exists e, (client_Create (Some token) NewServers request tt).1 = Err e /\
    Error e = "creating server " +:+ Quote "node-1" +:+
      ": limit reached for [redacted], token '[redacted]' (rate_limit_exceeded)" /\
    silent_text token (Error e).
Proof.
  eexists. split; [reflexivity|]. split; [by vm_compute|].
  apply (adapter_never_echoes token token token_accepted echo_expected letters_only (fun _ => eq_refl) NewServers)
    with (r := request) (w := tt); [|reflexivity].
  by apply (silent_literal token token token_accepted).
Defined.

(** ** Joined errors *)

(** [errors.Join]: the messages, a line each. *)
Definition newline : string := String (ascii_of_nat 10) "".

(** How a tree with a join prints: the libraries as above, a join by lines. *)
Definition join_lines : LibraryText :=
  {| text_code _ := "rate_limit_exceeded"; text_response _ m _ := m; text_of_action _ m _ := m;
     text_joined := String.concat newline; text_karp _ t := t |}.

(** Two refusals joined, the first message a part of the second, which echoes
    another part of the token too. *)
Definition short_message : string := "limit for abcdefghijklmnop".
Definition long_message : string := "limit for abcdefghijklmnop, before for opqrstuvwxyzabcd".
Definition joined : error :=
  Joined [HcloudError CodeRateLimitExceeded short_message None;
          HcloudError CodeRateLimitExceeded long_message None].

(** Joined errors can echo.  Each message of a tree is scrubbed within the printed
    text by replacing it whole; when one message is a part of another, replacing
    the shorter one first leaves the longer one unrecognised, and what else it
    holds of the token stays.  Alone, the longer message comes out clean. *)
Theorem joined_errors_echo :
  let LT := join_lines in
  no_run (chars token) (chars (scrubToken (Some token) long_message)) /\
  Error (LT := LT) (redact (ET := error_messages (LT := LT)) (Some token) joined) =
    "limit for [redacted] (rate_limit_exceeded)" +:+ newline +:+
    "limit for [redacted], before for opqrstuvwxyzabcd (rate_limit_exceeded) (rate_limit_exceeded)" /\
  ~ silent_text token (Error (LT := LT) (redact (ET := error_messages (LT := LT)) (Some token) joined)).
Proof.
  intros LT.
  assert (Error (LT := LT) (redact (ET := error_messages (LT := LT)) (Some token) joined) =
    "limit for [redacted] (rate_limit_exceeded)" +:+ newline +:+
    "limit for [redacted], before for opqrstuvwxyzabcd (rate_limit_exceeded) (rate_limit_exceeded)") as He
    by by vm_compute.
  split; [|split; [exact He|]].
  - apply (silent_literal token token token_accepted). by vm_compute.
  - rewrite He. intros Hs.
    specialize (Hs (chars ("limit for [redacted] (rate_limit_exceeded)" +:+ newline +:+
      "limit for [redacted], before for ")) (chars "opqrstuvwxyzabcd")
      (chars " (rate_limit_exceeded) (rate_limit_exceeded)")
      (chars "abcdefghijklmn") (chars "efghijklmnopqrstuvwxyzabcdefghijkl") eq_refl eq_refl).
    unfold minEcho in Hs. simpl in Hs. lia.
Qed.
End MessagesExample.
