(* ===== verification/Discovery.v ===== *)
(** Discovery of the join endpoint and CA pins.

    Models [internal/providers/bootstrap/clusterinfo.go].  Kubeconfig loading,
    URL parsing, PEM and X.509 decoding and SHA-256 are Go's and client-go's: the
    operations of [JoinLibrary].  [pem_blocks] is the sequence of blocks repeated
    [pem.Decode] yields. *)

From Stdlib Require Import Ascii.
From S2P Require Import Prelude GoErrors Float64 GoText Servers.

Definition ClusterInfoNamespace : string := "kube-public".
Definition ClusterInfoName : string := "cluster-info".

Class JoinLibrary := {
  (** [clientcmd.Load]: the clusters in the order Go's map iteration gives them,
      nil pointers as [None], each with its server and CA bundle. *)
  clientcmd_Load : string -> result (list (option (string * string)));
  (** [url.Parse]: host and port. *)
  url_Parse : string -> result (string * string);
  pem_blocks : string -> list (string * string);
  (** [x509.ParseCertificate] then [MarshalPKIXPublicKey]. *)
  x509_ParseCertificate : string -> result string;
  x509_MarshalPKIXPublicKey : string -> result string;
  sha256_hex : string -> string
}.

(** The cluster-info ConfigMap: its data, or the error of the read. *)
Class ClusterInfoReader (W : Type) :=
  kube_GetClusterInfo : W -> result (gmap string string) * W.

Section Parsing.
Context `{GT : GoText, KE : KarpErrors, JL : JoinLibrary}.

Definition hostPort (server : string) : result string :=
  match url_Parse server with
  | Err err => Err (Wrapf ("parsing server URL " +:+ Quote server +:+ ": ") err)
  | Ok (host, port) =>
      if (host =? "")%string
      then Err (Errorf ("server URL " +:+ Quote server +:+ " has no host"))
      else if (port =? "")%string then Ok (host +:+ ":6443")
      else Ok host
  end.

Fixpoint hash_blocks (blocks : list (string * string)) (hashes : list string)
    : result (list string) :=
  match blocks with
  | [] =>
      match hashes with
      | [] => Err (Errorf "no CERTIFICATE block in certificate-authority-data")
      | _ => Ok hashes
      end
  | (type, bytes) :: rest =>
      if negb (type =? "CERTIFICATE")%string then hash_blocks rest hashes
      else
        match x509_ParseCertificate bytes with
        | Err err => Err (Wrapf "parsing CA certificate: " err)
        | Ok cert =>
            match x509_MarshalPKIXPublicKey cert with
            | Err err => Err (Wrapf "marshalling CA public key: " err)
            | Ok spki => hash_blocks rest (hashes ++ ["sha256:" +:+ sha256_hex spki])
            end
        end
  end.

Definition caCertHashes (caPEM : string) : result (list string) := hash_blocks (pem_blocks caPEM) [].

Definition parseClusterInfo (raw : string) : result (string * list string) :=
  match clientcmd_Load raw with
  | Err err => Err (Wrapf "parsing cluster-info kubeconfig: " err)
  | Ok clusters =>
      let '(server, caPEM) := default ("", "") (head (omap id clusters)) in
      if (server =? "")%string then Err (Errorf "cluster-info kubeconfig has no server")
      else if (caPEM =? "")%string
      then Err (Errorf "cluster-info kubeconfig has no certificate-authority-data")
      else
        match hostPort server with
        | Err err => Err err
        | Ok endpoint =>
            match caCertHashes caPEM with
            | Err err => Err err
            | Ok hashes => Ok (endpoint, hashes)
            end
        end
  end.

(** [hex.DecodeString] succeeds: pairs of hexadecimal digits. *)
Definition is_hex (a : ascii) : bool :=
  let n := nat_of_ascii a in
  ((48 <=? n) && (n <=? 57) || (97 <=? n) && (n <=? 102) || (65 <=? n) && (n <=? 70))%nat.

Fixpoint all_hex (s : string) : bool :=
  match s with EmptyString => true | String a s' => is_hex a && all_hex s' end.

Definition ValidHash (s : string) : bool :=
  match CutPrefix s "sha256:" with
  | None => false
  | Some h => (String.length h =? 64)%nat && all_hex h
  end.

(** The API status reasons the source counts as configuration. *)
Definition config_reason (r : kube_reason) : bool :=
  match r with
  | KubeNotFound | KubeForbidden | KubeUnauthorized | KubeBadRequest => true
  | KubeConflict | KubeOther => false
  end.

Definition kube_status (err : error) : option kube_reason :=
  errors_as (fun e => match e with KubeStatus r _ => Some r | _ => None end) err.

Definition asConfigError (err : error) : error :=
  match kube_status err with
  | Some r => if config_reason r then ConfigError err else err
  | None => err
  end.

(** [errors.As(err, *ConfigError)]. *)
Definition is_config_error (err : error) : bool :=
  match errors_as (fun e => match e with ConfigError _ => Some tt | _ => None end) err with
  | Some _ => true
  | None => false
  end.
End Parsing.

(** ** The cached join parameters *)

Record discovery := { d_endpoint : string; d_hashes : list string }.

Definition NewDiscovery : discovery := {| d_endpoint := ""; d_hashes := [] |}.

Section Discovery.
Context `{GT : GoText, KE : KarpErrors, JL : JoinLibrary}.
Context {W : Type} `{CI : ClusterInfoReader W}.

Definition Refresh (d : discovery) (w : W) : option error * discovery * W :=
  let at_ := ClusterInfoNamespace +:+ "/" +:+ ClusterInfoName in
  match kube_GetClusterInfo w with
  | (Err err, w) => (Some (asConfigError (Wrapf ("reading " +:+ at_ +:+ ": ") err)), d, w)
  | (Ok data, w) =>
      match data !! "kubeconfig" with
      | None => (Some (ConfigError (Errorf (at_ +:+ " has no kubeconfig key"))), d, w)
      | Some raw =>
          match parseClusterInfo raw with
          | Err err => (Some (ConfigError err), d, w)
          | Ok (endpoint, hashes) => (None, {| d_endpoint := endpoint; d_hashes := hashes |}, w)
          end
      end
  end.

Definition Get (d : discovery) : option (string * list string) :=
  if (d_endpoint d =? "")%string then None
  else match d_hashes d with [] => None | hs => Some (d_endpoint d, hs) end.

Definition Resolve (d : discovery) (endpointOverride : string) (hashOverride : list string)
    : result (string * list string) :=
  let got := Get d in
  let '(endpoint, hashes) := default ("", []) got in
  let endpoint := if (endpointOverride =? "")%string then endpoint else endpointOverride in
  let hashes := match hashOverride with [] => hashes | _ => hashOverride end in
  match endpoint, hashes with
  | EmptyString, _ | _, [] =>
      match got with
      | None => Err (Errorf "cluster-info has not been read yet and no override was given")
      | Some _ => Err (Errorf "no API server endpoint or CA pin available")
      end
  | _, _ => Ok (endpoint, hashes)
  end.

(** ** Properties *)

Lemma resolve_ok (d : discovery) (eo : string) (ho : list string) (e : string) (hs : list string) :
  Resolve d eo ho = Ok (e, hs) -> e <> "" /\ hs <> [].
Proof.
  unfold Resolve. destruct (default ("", []) (Get d)) as [e0 h0].
  destruct (if (eo =? "")%string then e0 else eo), (match ho with [] => h0 | _ => ho end);
    intros H; try (by destruct (Get d)); by injection H as <- <-.
Qed.

(** What is resolved is complete and honours every override: an endpoint and at
    least one pin, the override's when one is given and the discovered value
    otherwise; it fails exactly when one of the two is missing from both. *)
Theorem resolve_complete (d : discovery) (eo : string) (ho : list string) :
  match Resolve d eo ho with
  | Ok (endpoint, hashes) =>
      endpoint <> "" /\ hashes <> [] /\
      endpoint = (if (eo =? "")%string then d_endpoint d else eo) /\
      hashes = match ho with [] => d_hashes d | _ => ho end
  | Err _ => (eo = "" /\ Get d = None) \/ (ho = [] /\ Get d = None)
  end.
Proof.
  unfold Resolve. destruct (Get d) as [[e hs]|] eqn:Eg; simpl.
  - unfold Get in Eg. destruct (String.eqb_spec (d_endpoint d) "") as [|He]; [done|].
    destruct (d_hashes d) as [|h hs'] eqn:Eh; [done|]. injection Eg as <- <-.
    destruct (String.eqb_spec eo "") as [->|Heo].
    + destruct (d_endpoint d) as [|a s]; [done|]. by destruct ho.
    + destruct eo as [|a s]; [done|]. by destruct ho.
  - destruct (String.eqb_spec eo "") as [->|Heo]; [by left|].
    destruct eo as [|a s]; [done|]. destruct ho; [by right|done].
Qed.

(** A failed refresh keeps the last good parameters, and is a configuration
    failure exactly when the read was refused for a reason retrying cannot fix,
    or succeeded and its content is unusable; anything else stays transient. *)
Theorem refresh_failures (d : discovery) (w : W) :
  let '(err, d', _) := Refresh d w in
  match (kube_GetClusterInfo w).1 with
  | Err e =>
      d' = d /\ exists e', err = Some e' /\
        (is_config_error e = false ->
         (is_config_error e' = true <-> exists r, kube_status e = Some r /\ config_reason r = true))
  | Ok data =>
      match data !! "kubeconfig" ≫= fun raw => match parseClusterInfo raw with Ok p => Some p | Err _ => None end with
      | Some (endpoint, hashes) => err = None /\ d' = {| d_endpoint := endpoint; d_hashes := hashes |}
      | None => d' = d /\ exists e', err = Some e' /\ is_config_error e' = true
      end
  end.
Proof.
  unfold Refresh. destruct (kube_GetClusterInfo w) as [[data|e] w']; simpl.
  - destruct (data !! "kubeconfig") as [raw|]; simpl; [|eauto].
    destruct (parseClusterInfo raw) as [[endpoint hashes]|e]; simpl; eauto.
  - split; [done|]. eexists. split; [done|]. intros Hne. unfold asConfigError, is_config_error in *.
    change (kube_status (Wrapf ?t e)) with (kube_status e).
    destruct (kube_status e) as [r|] eqn:Er; simpl.
    + destruct (config_reason r) eqn:Ec; simpl; [naive_solver|]. destruct (errors_as _ e); naive_solver.
    + destruct (errors_as _ e); naive_solver.
Qed.
End Discovery.

(** What is published as a pin is a pin: a value [ValidHash] accepts is the
    scheme followed by 64 hexadecimal digits, and nothing else is. *)
Theorem valid_hash_exact (s : string) :
  ValidHash s = true <->
  exists h, s = "sha256:" +:+ h /\ String.length h = 64%nat /\ all_hex h = true.
Proof.
  unfold ValidHash. destruct (CutPrefix s "sha256:") as [h|] eqn:E.
  - apply CutPrefix_spec in E as ->. rewrite andb_true_iff, Nat.eqb_eq. split; [naive_solver|].
    intros (h' & Hh & Hl). assert (CutPrefix ("sha256:" +:+ h) "sha256:" = Some h') as Hc
      by (rewrite Hh; by apply CutPrefix_spec).
    rewrite (proj2 (CutPrefix_spec _ "sha256:" h)) in Hc by done. by injection Hc as ->.
  - split; [done|]. intros (h & -> & _).
    by rewrite (proj2 (CutPrefix_spec _ "sha256:" h)) in E.
Qed.
