(* ===== verification/Kube.v ===== *)
(** The libraries the provider is written against, as interfaces.

    Kubernetes quantities ([k8s.io/apimachinery/pkg/api/resource]), karpenter
    core's scheduling requirements and instance-type arithmetic
    ([sigs.k8s.io/karpenter/pkg/scheduling], [pkg/cloudprovider]) and the
    condition sets of [github.com/awslabs/operatorpkg/status] are not part of
    the repository: their operations are the fields of a class, every model
    that uses them takes an instance, and what the code relies on is stated as
    separate law classes.  [KubeExample] at the end is a concrete instance that
    satisfies the laws, on which the witnesses evaluate. *)

From Stdlib Require Import Ascii.
From S2P Require Import Prelude.

(** ** Operations *)

Inductive quantity_format := DecimalSI | BinarySI.

(** A status condition as operatorpkg stores it. *)
Inductive cond_status := CondTrue | CondFalse | CondUnknown.

Record condition := {
  cond_Status : cond_status;
  cond_Reason : string;
  cond_Message : string;
  cond_ObservedGeneration : Z
}.

#[export] Instance cond_status_eq_dec : EqDecision cond_status.
Proof. solve_decision. Defined.
#[export] Instance condition_eq_dec : EqDecision condition.
Proof. solve_decision. Defined.

Class Kube := {
  (** [resource.Quantity]. *)
  Quantity : Type;
  NewQuantity : Z -> quantity_format -> Quantity;
  q_Sub : Quantity -> Quantity -> Quantity;
  q_Cmp : Quantity -> Quantity -> comparison;
  q_Value : Quantity -> Z;
  q_String : Quantity -> string;
  ParseQuantity : string -> option Quantity;
  MustParse : string -> Quantity;
  (** [scheduling.Requirements]: [NewRequirements] takes the [In]
      requirements the source builds, as key and values. *)
  Requirements : Type;
  Requirement : Type;
  NodeSelectorRequirement : Type;
  NewRequirements : list (string * list string) -> Requirements;
  NewNodeSelectorRequirements : list NodeSelectorRequirement -> Requirements;
  Intersects : Requirements -> Requirements -> bool;
  IsCompatible : Requirements -> Requirements -> bool;
  ReqGet : Requirements -> string -> Requirement;
  ReqEntries : Requirements -> list (string * Requirement);
  ReqLen : Requirement -> Z;
  ReqValues : Requirement -> list string;
  (** The condition list of an object's status, read and written through
      operatorpkg's [ConditionSet] at the object's generation. *)
  Conditions : Type;
  root_is_true : Conditions -> Z -> bool;
  root_message : Conditions -> Z -> string;
  (** [StatusConditions()] initialises what is absent; [Get], [SetTrue] and the
      other setters, at the object's generation. *)
  CondInit : Conditions -> Z -> Conditions;
  CondGet : Conditions -> string -> option condition;
  CondSetTrue : Conditions -> Z -> string -> Conditions;
  CondSet : Conditions -> Z -> string -> cond_status -> string -> string -> Conditions;
  #[global] Conditions_eq_dec :: EqDecision Conditions
}.

(** [corev1.ResourceList], read as a Go map. *)
Abbreviation ResourceList := (gmap string Quantity).

Definition ResourceCPU : string := "cpu".
Definition ResourceMemory : string := "memory".
Definition ResourceEphemeralStorage : string := "ephemeral-storage".
Definition ResourcePods : string := "pods".

(** ** Laws *)

(** A quantity denotes a fixed-point number with nine decimals: [q_amount] is
    its count of billionths, on which comparison and subtraction are exact. *)
Class QuantityLaws (K : Kube) := {
  q_amount : Quantity -> Z;
  q_amount_new : forall v f, q_amount (NewQuantity v f) = v * 1000000000;
  q_amount_sub : forall a b, q_amount (q_Sub a b) = q_amount a - q_amount b;
  q_cmp_amount : forall a b, q_Cmp a b = (q_amount a ?= q_amount b);
  q_value_new : forall v f, in_int64 v = true -> q_Value (NewQuantity v f) = v
}.

(** A requirement built from one value is exactly that value. *)
Class RequirementLaws (K : Kube) := {
  req_get_single : forall l k v,
    NoDup l.*1 -> (k, [v]) ∈ l ->
    ReqLen (ReqGet (NewRequirements l) k) = 1 /\ ReqValues (ReqGet (NewRequirements l) k) = [v]
}.

(** A condition written is the condition read, at the generation it was written
    for; writing one leaves the others, the root apart; initialising keeps what
    is there and makes the rest Unknown. *)
Definition RootCondition : string := "Ready".

Class ConditionLaws (K : Kube) := {
  cond_get_set : forall c g t s r m,
    CondGet (CondSet c g t s r m) t =
      Some {| cond_Status := s; cond_Reason := r; cond_Message := m; cond_ObservedGeneration := g |};
  cond_get_set_ne : forall c g t s r m t',
    t' <> t -> t' <> RootCondition -> CondGet (CondSet c g t s r m) t' = CondGet c t';
  cond_get_true : forall c g t, exists r m,
    CondGet (CondSetTrue c g t) t =
      Some {| cond_Status := CondTrue; cond_Reason := r; cond_Message := m; cond_ObservedGeneration := g |};
  cond_get_true_ne : forall c g t t',
    t' <> t -> t' <> RootCondition -> CondGet (CondSetTrue c g t) t' = CondGet c t';
  cond_get_init : forall c g t x,
    t <> RootCondition -> CondGet c t = Some x -> CondGet (CondInit c g) t = Some x;
  cond_get_init_new : forall c g t x,
    t <> RootCondition -> CondGet c t = None -> CondGet (CondInit c g) t = Some x ->
    cond_Status x = CondUnknown
}.

(** ** Well-known keys *)

Definition LabelTopologyRegion : string := "topology.kubernetes.io/region".
Definition LabelTopologyZone : string := "topology.kubernetes.io/zone".
Definition LabelInstanceTypeStable : string := "node.kubernetes.io/instance-type".
Definition LabelArchStable : string := "kubernetes.io/arch".
Definition LabelOSStable : string := "kubernetes.io/os".
Definition CapacityTypeLabelKey : string := "karpenter.sh/capacity-type".
Definition CapacityTypeOnDemand : string := "on-demand".
Definition NodePoolLabelKey : string := "karpenter.sh/nodepool".

(** ** A concrete instance

    Quantities as billionths; requirements as a finite map from key to the
    allowed values, where a key that is absent allows everything; a condition
    list as a map from type to condition. *)
Module KubeExample.

Definition values_meet (a b : list string) : bool :=
  existsb (fun x => existsb (String.eqb x) b) a.

Definition reqs_meet (a b : gmap string (list string)) : bool :=
  forallb (fun kv => match b !! kv.1 with Some vs => values_meet kv.2 vs | None => true end)
    (map_to_list a).

(** Quantities print as their sign and binary digits, which parse back. *)
Fixpoint print_bits (p : positive) : string :=
  match p with
  | xH => "e"
  | xO p => String "0" (print_bits p)
  | xI p => String "1" (print_bits p)
  end.

Fixpoint read_bits (s : string) : option positive :=
  match s with
  | String "e" EmptyString => Some xH
  | String "0" s => xO <$> read_bits s
  | String "1" s => xI <$> read_bits s
  | _ => None
  end.

Definition print_quantity (q : Z) : string :=
  match q with
  | Z0 => "0"
  | Zpos p => String "+" (print_bits p)
  | Zneg p => String "-" (print_bits p)
  end.

Definition read_quantity (s : string) : option Z :=
  match s with
  | String "0" EmptyString => Some 0
  | String "+" s => Zpos <$> read_bits s
  | String "-" s => Zneg <$> read_bits s
  | _ => None
  end.

#[export] Instance kube : Kube := {|
  Quantity := Z;
  NewQuantity v _ := v * 1000000000;
  q_Sub := Z.sub;
  q_Cmp := Z.compare;
  q_Value q := - ((- q) / 1000000000);
  q_String := print_quantity;
  ParseQuantity s :=
    if (s =? "200m")%string then Some 200000000
    else if (s =? "500Mi")%string then Some (500 * 1048576 * 1000000000)
    else if (s =? "512Mi")%string then Some (512 * 1048576 * 1000000000)
    else read_quantity s;
  MustParse s :=
    if (s =? "200m")%string then 200000000 else 512 * 1048576 * 1000000000;
  Requirements := gmap string (list string);
  Requirement := list string;
  NodeSelectorRequirement := string * list string;
  NewRequirements l := list_to_map l;
  NewNodeSelectorRequirements l := list_to_map l;
  Intersects := reqs_meet;
  IsCompatible := reqs_meet;
  ReqGet m k := default [] (m !! k);
  ReqEntries m := map_to_list m;
  ReqLen vs := Z.of_nat (length vs);
  ReqValues vs := vs;
  Conditions := gmap string condition;
  root_is_true c g := bool_decide (c <> ∅) &&
    forallb (fun kx => bool_decide (cond_Status kx.2 = CondTrue) && (cond_ObservedGeneration kx.2 =? g))
      (map_to_list c);
  root_message _ _ := "";
  CondInit c _ := c;
  CondGet c t := c !! t;
  CondSetTrue c g t := <[ t := {| cond_Status := CondTrue; cond_Reason := t; cond_Message := "";
                                  cond_ObservedGeneration := g |} ]> c;
  CondSet c g t s r m := <[ t := {| cond_Status := s; cond_Reason := r; cond_Message := m;
                                    cond_ObservedGeneration := g |} ]> c
|}.

(** A condition set in which one condition is True at generation 1. *)
Definition ready : gmap string condition :=
  {[ "ValidationSucceeded" := {| cond_Status := CondTrue; cond_Reason := "ValidationSucceeded";
                                 cond_Message := ""; cond_ObservedGeneration := 1 |} ]}.

#[export] Instance condition_laws : ConditionLaws kube.
Proof.
  split; simpl; intros.
  - apply lookup_insert_eq.
  - by apply lookup_insert_ne.
  - eexists _, _. apply lookup_insert_eq.
  - by apply lookup_insert_ne.
  - done.
  - congruence.
Qed.

#[export] Instance quantity_laws : QuantityLaws kube.
Proof.
  refine {| q_amount := (fun q : Z => q) : @Quantity kube -> Z |}; simpl; [done..|].
  intros v _ Hv. rewrite <- Z.mul_opp_l, Z.div_mul; lia.
Defined.

#[export] Instance requirement_laws : RequirementLaws kube.
Proof.
  split. intros l k v Hnd Hin. simpl.
  assert ((list_to_map l : gmap string (list string)) !! k = Some [v]) as ->; [|done].
  by apply elem_of_list_to_map.
Qed.
End KubeExample.
