(* ===== verification/Api.v ===== *)
(** The [HCloudNodeClass] API: its spec, its status and the accessors that
    apply defaults.

    Models [api/v1alpha1/hcloudnodeclass.go], [bootstrap.go],
    [hcloudnodeclass_status.go], [labels.go], [defaults.go] and the constants of
    [hcloudnodeclass_hash.go] and [groupversion_info.go].  A Go pointer is an
    [option]; a nil slice or map is the empty one, which no accessor tells
    apart. *)

From S2P Require Import Prelude Kube.

(** ** Constants *)

Definition Group : string := "karpenter.itsh.dev".
Definition TerminationFinalizer : string := Group +:+ "/termination".

Definition LabelServerTypeLine : string := Group +:+ "/server-type-line".
Definition LabelCPUType : string := Group +:+ "/cpu-type".
Definition LabelCPUVendor : string := Group +:+ "/cpu-vendor".
Definition LabelStorageType : string := Group +:+ "/storage-type".
Definition LabelVCPU : string := Group +:+ "/vcpu".
Definition LabelMemoryGB : string := Group +:+ "/memory-gb".
Definition LabelDiskGB : string := Group +:+ "/disk-gb".
Definition LabelNetworkZone : string := Group +:+ "/network-zone".
Definition LabelCSILocation : string := "csi.hetzner.cloud/location".

Definition ServerTypeLineCX : string := "cx".
Definition ServerTypeLineCPX : string := "cpx".
Definition ServerTypeLineCCX : string := "ccx".
Definition ServerTypeLineCAX : string := "cax".

Definition wellKnownLabels : list string :=
  [LabelServerTypeLine; LabelCPUType; LabelCPUVendor; LabelStorageType; LabelVCPU;
   LabelMemoryGB; LabelDiskGB; LabelNetworkZone; LabelCSILocation].

(** [init] adds them to the labels karpenter knows. *)
Definition init_WellKnownLabels (known : gset string) : gset string :=
  known ∪ list_to_set wellKnownLabels.

Definition AnnotationHash : string := Group +:+ "/hcloudnodeclass-hash".
Definition AnnotationHashVersion : string := Group +:+ "/hcloudnodeclass-hash-version".
Definition HashVersion : string := "v1".

Definition DefaultContainerdAptPin : string := "2.*".
Definition DefaultPackageRevision : string := "1.1".
Definition DefaultMaxPods : Z := 110.

Section WithKube.
Context `{Kube}.

(** ** Spec *)

(** The five selector terms ([ImageSelectorTerm], [NetworkSelectorTerm],
    [FirewallSelectorTerm], [SSHKeySelectorTerm],
    [PlacementGroupSelectorTerm]) share one shape: a name or an id. *)
Record SelectorTerm := {
  sel_Name : string;
  sel_ID : option Z
}.

Definition ImageDriftPolicyIgnore : string := "Ignore".
Definition ImageDriftPolicyReplace : string := "Replace".

Record KubeletArg := {
  arg_Name : string;
  arg_Value : string
}.

Record KubeletConfiguration := {
  kl_KubeReserved : ResourceList;
  kl_SystemReserved : ResourceList;
  kl_EvictionHard : gmap string string;
  kl_EvictionSoft : gmap string string;
  kl_EvictionSoftGracePeriod : gmap string duration;
  kl_MaxPods : option Z;
  kl_ClusterDNS : list string;
  kl_ExtraArgs : list KubeletArg
}.

Record ContainerdSpec := {
  cd_SystemdCgroup : option bool;
  cd_AptPin : string;
  cd_ExtraConfig : string
}.

Record UnattendedUpgradesSpec := {
  uu_Enabled : option bool;
  uu_ExtraOrigins : list string;
  uu_RemoveUnusedKernelPackages : option bool
}.

Record File := {
  file_Path : string;
  file_Content : string;
  file_Permissions : string;
  file_Owner : string
}.

Record BootstrapSpec := {
  bs_OSFamily : string;
  bs_Mode : string;
  bs_KubernetesVersion : string;
  bs_PackageRevision : string;
  bs_APIServerEndpoint : string;
  bs_CACertHashes : list string;
  bs_Containerd : ContainerdSpec;
  bs_UnattendedUpgrades : UnattendedUpgradesSpec;
  bs_Sysctls : gmap string string;
  bs_KernelModules : list string;
  bs_PackageUpgradeOnBoot : option bool;
  bs_ExtraPackages : list string;
  bs_ExtraFiles : list File;
  bs_PreJoinCommands : list string;
  bs_PostJoinCommands : list string;
  bs_Revision : string
}.

Record HCloudNodeClassSpec := {
  spec_ImageSelector : SelectorTerm;
  spec_ImageDriftPolicy : string;
  spec_MaxNodeAge : option duration;
  spec_Locations : list string;
  spec_NetworkSelector : option SelectorTerm;
  spec_FirewallSelectors : list SelectorTerm;
  spec_SSHKeySelectors : list SelectorTerm;
  spec_PlacementGroup : option SelectorTerm;
  spec_PublicIPv4 : option bool;
  spec_PublicIPv6 : option bool;
  spec_ServerLabels : gmap string string;
  spec_Kubelet : KubeletConfiguration;
  spec_Bootstrap : BootstrapSpec
}.

(** ** Status *)

Record ImageStatus := {
  ist_ID : Z; ist_Name : string; ist_Description : string;
  ist_Architecture : string; ist_Created : string
}.

Record NetworkStatus := {
  nst_ID : Z; nst_Name : string; nst_IPRange : string; nst_Zone : string
}.

Record FirewallStatus := { fst_ID : Z; fst_Name : string }.

Record SSHKeyStatus := { kst_ID : Z; kst_Name : string; kst_Fingerprint : string }.

Record PlacementGroupStatus := {
  pst_ID : Z; pst_Name : string; pst_Type : string; pst_ServerCount : Z
}.

Record LocationStatus := {
  lst_Name : string; lst_NetworkZone : string; lst_Datacenters : list string
}.

Record HCloudNodeClassStatus := {
  status_Image : option ImageStatus;
  status_Network : option NetworkStatus;
  status_Firewalls : list FirewallStatus;
  status_SSHKeys : list SSHKeyStatus;
  status_PlacementGroup : option PlacementGroupStatus;
  status_Locations : list LocationStatus;
  status_APIServerEndpoint : string;
  status_CACertHashes : list string;
  status_Conditions : Conditions
}.

#[export] Instance ImageStatus_eq_dec : EqDecision ImageStatus.
Proof. solve_decision. Defined.
#[export] Instance NetworkStatus_eq_dec : EqDecision NetworkStatus.
Proof. solve_decision. Defined.
#[export] Instance FirewallStatus_eq_dec : EqDecision FirewallStatus.
Proof. solve_decision. Defined.
#[export] Instance SSHKeyStatus_eq_dec : EqDecision SSHKeyStatus.
Proof. solve_decision. Defined.
#[export] Instance PlacementGroupStatus_eq_dec : EqDecision PlacementGroupStatus.
Proof. solve_decision. Defined.
#[export] Instance LocationStatus_eq_dec : EqDecision LocationStatus.
Proof. solve_decision. Defined.
#[export] Instance HCloudNodeClassStatus_eq_dec : EqDecision HCloudNodeClassStatus.
Proof. solve_decision. Defined.

(** The object, with the metadata the provider reads. *)
Record HCloudNodeClass := {
  nc_Name : string;
  nc_UID : string;
  nc_Generation : Z;
  nc_DeletionTimestamp : option time;
  nc_Finalizers : list string;
  nc_Annotations : gmap string string;
  nc_Spec : HCloudNodeClassSpec;
  nc_Status : HCloudNodeClassStatus
}.

(** [DeletionTimestamp.IsZero]: nil, or the zero time. *)
Definition is_deleting (nc : HCloudNodeClass) : bool :=
  match nc_DeletionTimestamp nc with None => false | Some t => negb (time_is_zero t) end.

(** [StatusConditions().Root().IsTrue()]. *)
Definition RootIsTrue (nc : HCloudNodeClass) : bool :=
  root_is_true (status_Conditions (nc_Status nc)) (nc_Generation nc).

(** ** The drift hash *)

(** The fields of a spec without a [hash:"ignore"] tag, the ones that are
    hashed. *)
Record HashedSpec := {
  hs_SSHKeySelectors : list SelectorTerm;
  hs_ServerLabels : gmap string string;
  hs_Kubelet : KubeletConfiguration;
  hs_Bootstrap : BootstrapSpec
}.

Definition hashed_spec (s : HCloudNodeClassSpec) : HashedSpec :=
  {| hs_SSHKeySelectors := spec_SSHKeySelectors s; hs_ServerLabels := spec_ServerLabels s;
     hs_Kubelet := spec_Kubelet s; hs_Bootstrap := spec_Bootstrap s |}.

(** [hashstructure.Hash] with the options of the source, printed. *)
Class SpecHash := hash_structure : HashedSpec -> string.

Definition Hash `{SpecHash} (nc : HCloudNodeClass) : string :=
  hash_structure (hashed_spec (nc_Spec nc)).

(** ** Defaults *)

Definition DefaultKubeReserved : ResourceList :=
  {[ ResourceCPU := MustParse "200m"; ResourceMemory := MustParse "512Mi" ]}.

Definition DefaultSystemReserved : ResourceList :=
  {[ ResourceCPU := MustParse "200m"; ResourceMemory := MustParse "512Mi" ]}.

Definition DefaultEvictionHard : gmap string string :=
  {[ "memory.available" := "500Mi";
     "nodefs.available" := "10%";
     "nodefs.inodesFree" := "5%";
     "imagefs.available" := "15%";
     "imagefs.inodesFree" := "5%" ]}.

Definition SystemdCgroupEnabled (c : option ContainerdSpec) : bool :=
  default true (c ≫= cd_SystemdCgroup).

Definition AptPinOrDefault (c : option ContainerdSpec) : string :=
  match c with
  | None => DefaultContainerdAptPin
  | Some c => if (cd_AptPin c =? "")%string then DefaultContainerdAptPin else cd_AptPin c
  end.

Definition UnattendedUpgradesEnabled (u : option UnattendedUpgradesSpec) : bool :=
  default true (u ≫= uu_Enabled).

Definition RemoveUnusedKernelsEnabled (u : option UnattendedUpgradesSpec) : bool :=
  default true (u ≫= uu_RemoveUnusedKernelPackages).

Definition PackageRevisionOrDefault (b : option BootstrapSpec) : string :=
  match b with
  | None => DefaultPackageRevision
  | Some b => if (bs_PackageRevision b =? "")%string then DefaultPackageRevision
              else bs_PackageRevision b
  end.

Definition PackageUpgradeOnBootEnabled (b : option BootstrapSpec) : bool :=
  default true (b ≫= bs_PackageUpgradeOnBoot).

(** A nil or empty map falls back to the default as a whole. *)
Definition map_or_default {V} (m : option (gmap string V)) (d : gmap string V) : gmap string V :=
  match m with
  | None => d
  | Some m => if decide (size m = 0%nat) then d else m
  end.

Definition KubeReservedOrDefault (k : option KubeletConfiguration) : ResourceList :=
  map_or_default (kl_KubeReserved <$> k) DefaultKubeReserved.

Definition SystemReservedOrDefault (k : option KubeletConfiguration) : ResourceList :=
  map_or_default (kl_SystemReserved <$> k) DefaultSystemReserved.

Definition EvictionHardOrDefault (k : option KubeletConfiguration) : gmap string string :=
  map_or_default (kl_EvictionHard <$> k) DefaultEvictionHard.

Definition MaxPodsOrDefault (k : option KubeletConfiguration) : Z :=
  default DefaultMaxPods (k ≫= kl_MaxPods).

Definition PublicIPv4Enabled (s : option HCloudNodeClassSpec) : bool :=
  default true (s ≫= spec_PublicIPv4).

Definition PublicIPv6Enabled (s : option HCloudNodeClassSpec) : bool :=
  default true (s ≫= spec_PublicIPv6).

Definition ImageDriftPolicyOrDefault (s : option HCloudNodeClassSpec) : string :=
  match s with
  | None => ImageDriftPolicyIgnore
  | Some s =>
      if (spec_ImageDriftPolicy s =? "")%string then ImageDriftPolicyIgnore
      else spec_ImageDriftPolicy s
  end.
End WithKube.
