(* ===== verification/ApiMemory.v ===== *)
(** The API objects as they lie in memory.

    For every struct of [api/v1alpha1] that holds a pointer, a slice or a map,
    the record [m_...] has that field as the address of a cell, nil as [None];
    structs of plain values are the records of [Api].  [l_...] reads the API value
    such a struct denotes, and the cells it reaches. *)

From S2P Require Import Prelude Kube Api GoHeap.

Declare Scope mem_scope.
Delimit Scope mem_scope with mem.
Notation "'let!' x := c 'in' k" := (go_bind c (fun x => k))
  (at level 10, x binder, c at level 100, k at level 200) : mem_scope.
Notation "lf <*> la" := (l_ap lf la) (at level 61, left associativity) : mem_scope.

(** An entry of the condition list: its type, and the rest. *)
Abbreviation typed_condition := (string * condition)%type.

Section WithKube.
Context `{KB : Kube}.

(** ** Structs *)

(** The five selector terms share one shape here too. *)
Record m_SelectorTerm := { mt_Name : string; mt_ID : option addr }.

Record m_KubeletConfiguration := {
  mk_KubeReserved : option addr;
  mk_SystemReserved : option addr;
  mk_EvictionHard : option addr;
  mk_EvictionSoft : option addr;
  mk_EvictionSoftGracePeriod : option addr;
  mk_MaxPods : option addr;
  mk_ClusterDNS : option addr;
  mk_ExtraArgs : option addr
}.

Record m_ContainerdSpec := {
  mcd_SystemdCgroup : option addr;
  mcd_AptPin : string;
  mcd_ExtraConfig : string
}.

Record m_UnattendedUpgradesSpec := {
  muu_Enabled : option addr;
  muu_ExtraOrigins : option addr;
  muu_RemoveUnusedKernelPackages : option addr
}.

Record m_BootstrapSpec := {
  mb_OSFamily : string;
  mb_Mode : string;
  mb_KubernetesVersion : string;
  mb_PackageRevision : string;
  mb_APIServerEndpoint : string;
  mb_CACertHashes : option addr;
  mb_Containerd : m_ContainerdSpec;
  mb_UnattendedUpgrades : m_UnattendedUpgradesSpec;
  mb_Sysctls : option addr;
  mb_KernelModules : option addr;
  mb_PackageUpgradeOnBoot : option addr;
  mb_ExtraPackages : option addr;
  mb_ExtraFiles : option addr;
  mb_PreJoinCommands : option addr;
  mb_PostJoinCommands : option addr;
  mb_Revision : string
}.

Record m_HCloudNodeClassSpec := {
  ms_ImageSelector : m_SelectorTerm;
  ms_ImageDriftPolicy : string;
  ms_MaxNodeAge : option addr;
  ms_Locations : option addr;
  ms_NetworkSelector : option addr;
  ms_FirewallSelectors : option addr;
  ms_SSHKeySelectors : option addr;
  ms_PlacementGroup : option addr;
  ms_PublicIPv4 : option addr;
  ms_PublicIPv6 : option addr;
  ms_ServerLabels : option addr;
  ms_Kubelet : m_KubeletConfiguration;
  ms_Bootstrap : m_BootstrapSpec
}.

Record m_LocationStatus := {
  ml_Name : string; ml_NetworkZone : string; ml_Datacenters : option addr
}.

Record m_HCloudNodeClassStatus := {
  mst_Image : option addr;
  mst_Network : option addr;
  mst_Firewalls : option addr;
  mst_SSHKeys : option addr;
  mst_PlacementGroup : option addr;
  mst_Locations : option addr;
  mst_APIServerEndpoint : string;
  mst_CACertHashes : option addr;
  mst_Conditions : option addr
}.

(** [metav1.TypeMeta], [ObjectMeta] and [ListMeta], by the fields the provider
    reads; [ObjectMeta] is the value of the second. *)
Record TypeMeta := { tm_Kind : string; tm_APIVersion : string }.

Record m_ObjectMeta := {
  mm_Name : string;
  mm_UID : string;
  mm_Generation : Z;
  mm_DeletionTimestamp : option addr;
  mm_Finalizers : option addr;
  mm_Annotations : option addr
}.

Record ObjectMeta := {
  om_Name : string;
  om_UID : string;
  om_Generation : Z;
  om_DeletionTimestamp : option time;
  om_Finalizers : list string;
  om_Annotations : gmap string string
}.

Record m_ListMeta := { mlm_Continue : string; mlm_RemainingItemCount : option addr }.

Record m_HCloudNodeClass := {
  mn_TypeMeta : TypeMeta;
  mn_ObjectMeta : m_ObjectMeta;
  mn_Spec : m_HCloudNodeClassSpec;
  mn_Status : m_HCloudNodeClassStatus
}.

Record m_HCloudNodeClassList := {
  mnl_TypeMeta : TypeMeta;
  mnl_ListMeta : m_ListMeta;
  mnl_Items : option addr
}.

(** The accessors of [status.Object] hand out and take the slice itself. *)
Definition GetConditions (in_ : m_HCloudNodeClass) : option addr := mst_Conditions (mn_Status in_).

Definition SetConditions (in_ : m_HCloudNodeClass) (conditions : option addr) : m_HCloudNodeClass :=
  let s := mn_Status in_ in
  {| mn_TypeMeta := mn_TypeMeta in_; mn_ObjectMeta := mn_ObjectMeta in_; mn_Spec := mn_Spec in_;
     mn_Status := {| mst_Image := mst_Image s; mst_Network := mst_Network s;
       mst_Firewalls := mst_Firewalls s; mst_SSHKeys := mst_SSHKeys s;
       mst_PlacementGroup := mst_PlacementGroup s; mst_Locations := mst_Locations s;
       mst_APIServerEndpoint := mst_APIServerEndpoint s; mst_CACertHashes := mst_CACertHashes s;
       mst_Conditions := conditions |} |}.

(** ** Cells *)

Inductive cell :=
  | CBool (x : bool)
  | CInt (x : Z)
  | CStrings (x : list string)
  | CStringMap (x : gmap string string)
  | CIntMap (x : gmap string Z)
  | CQuantities (x : gmap string Quantity)
  | CKubeletArg (x : KubeletArg)
  | CKubeletArgs (x : list KubeletArg)
  | CFile (x : File)
  | CFiles (x : list File)
  | CImageStatus (x : ImageStatus)
  | CNetworkStatus (x : NetworkStatus)
  | CFirewallStatus (x : FirewallStatus)
  | CFirewalls (x : list FirewallStatus)
  | CSSHKeyStatus (x : SSHKeyStatus)
  | CSSHKeys (x : list SSHKeyStatus)
  | CPlacementGroupStatus (x : PlacementGroupStatus)
  | CLocationStatus (x : m_LocationStatus)
  | CLocations (x : list m_LocationStatus)
  | CConditions (x : list typed_condition)
  | CSelectorTerm (x : m_SelectorTerm)
  | CSelectorTerms (x : list m_SelectorTerm)
  | CKubelet (x : m_KubeletConfiguration)
  | CContainerd (x : m_ContainerdSpec)
  | CUpgrades (x : m_UnattendedUpgradesSpec)
  | CBootstrap (x : m_BootstrapSpec)
  | CSpec (x : m_HCloudNodeClassSpec)
  | CStatus (x : m_HCloudNodeClassStatus)
  | CNodeClass (x : m_HCloudNodeClass)
  | CNodeClasses (x : list m_HCloudNodeClass)
  | CNodeClassList (x : m_HCloudNodeClassList).

#[export] Instance cell_Bool : Cell cell (bool) :=
  {| to_cell := CBool; of_cell c := match c with CBool x => Some x | _ => None end;
     of_to_cell _ := eq_refl |}.
#[export] Instance cell_Int : Cell cell (Z) :=
  {| to_cell := CInt; of_cell c := match c with CInt x => Some x | _ => None end;
     of_to_cell _ := eq_refl |}.
#[export] Instance cell_Strings : Cell cell (list string) :=
  {| to_cell := CStrings; of_cell c := match c with CStrings x => Some x | _ => None end;
     of_to_cell _ := eq_refl |}.
#[export] Instance cell_StringMap : Cell cell (gmap string string) :=
  {| to_cell := CStringMap; of_cell c := match c with CStringMap x => Some x | _ => None end;
     of_to_cell _ := eq_refl |}.
#[export] Instance cell_IntMap : Cell cell (gmap string Z) :=
  {| to_cell := CIntMap; of_cell c := match c with CIntMap x => Some x | _ => None end;
     of_to_cell _ := eq_refl |}.
#[export] Instance cell_Quantities : Cell cell (gmap string Quantity) :=
  {| to_cell := CQuantities; of_cell c := match c with CQuantities x => Some x | _ => None end;
     of_to_cell _ := eq_refl |}.
#[export] Instance cell_KubeletArg : Cell cell (KubeletArg) :=
  {| to_cell := CKubeletArg; of_cell c := match c with CKubeletArg x => Some x | _ => None end;
     of_to_cell _ := eq_refl |}.
#[export] Instance cell_KubeletArgs : Cell cell (list KubeletArg) :=
  {| to_cell := CKubeletArgs; of_cell c := match c with CKubeletArgs x => Some x | _ => None end;
     of_to_cell _ := eq_refl |}.
#[export] Instance cell_File : Cell cell (File) :=
  {| to_cell := CFile; of_cell c := match c with CFile x => Some x | _ => None end;
     of_to_cell _ := eq_refl |}.
#[export] Instance cell_Files : Cell cell (list File) :=
  {| to_cell := CFiles; of_cell c := match c with CFiles x => Some x | _ => None end;
     of_to_cell _ := eq_refl |}.
#[export] Instance cell_ImageStatus : Cell cell (ImageStatus) :=
  {| to_cell := CImageStatus; of_cell c := match c with CImageStatus x => Some x | _ => None end;
     of_to_cell _ := eq_refl |}.
#[export] Instance cell_NetworkStatus : Cell cell (NetworkStatus) :=
  {| to_cell := CNetworkStatus; of_cell c := match c with CNetworkStatus x => Some x | _ => None end;
     of_to_cell _ := eq_refl |}.
#[export] Instance cell_FirewallStatus : Cell cell (FirewallStatus) :=
  {| to_cell := CFirewallStatus; of_cell c := match c with CFirewallStatus x => Some x | _ => None end;
     of_to_cell _ := eq_refl |}.
#[export] Instance cell_Firewalls : Cell cell (list FirewallStatus) :=
  {| to_cell := CFirewalls; of_cell c := match c with CFirewalls x => Some x | _ => None end;
     of_to_cell _ := eq_refl |}.
#[export] Instance cell_SSHKeyStatus : Cell cell (SSHKeyStatus) :=
  {| to_cell := CSSHKeyStatus; of_cell c := match c with CSSHKeyStatus x => Some x | _ => None end;
     of_to_cell _ := eq_refl |}.
#[export] Instance cell_SSHKeys : Cell cell (list SSHKeyStatus) :=
  {| to_cell := CSSHKeys; of_cell c := match c with CSSHKeys x => Some x | _ => None end;
     of_to_cell _ := eq_refl |}.
#[export] Instance cell_PlacementGroupStatus : Cell cell (PlacementGroupStatus) :=
  {| to_cell := CPlacementGroupStatus; of_cell c := match c with CPlacementGroupStatus x => Some x | _ => None end;
     of_to_cell _ := eq_refl |}.
#[export] Instance cell_LocationStatus : Cell cell (m_LocationStatus) :=
  {| to_cell := CLocationStatus; of_cell c := match c with CLocationStatus x => Some x | _ => None end;
     of_to_cell _ := eq_refl |}.
#[export] Instance cell_Locations : Cell cell (list m_LocationStatus) :=
  {| to_cell := CLocations; of_cell c := match c with CLocations x => Some x | _ => None end;
     of_to_cell _ := eq_refl |}.
#[export] Instance cell_Conditions : Cell cell (list typed_condition) :=
  {| to_cell := CConditions; of_cell c := match c with CConditions x => Some x | _ => None end;
     of_to_cell _ := eq_refl |}.
#[export] Instance cell_SelectorTerm : Cell cell (m_SelectorTerm) :=
  {| to_cell := CSelectorTerm; of_cell c := match c with CSelectorTerm x => Some x | _ => None end;
     of_to_cell _ := eq_refl |}.
#[export] Instance cell_SelectorTerms : Cell cell (list m_SelectorTerm) :=
  {| to_cell := CSelectorTerms; of_cell c := match c with CSelectorTerms x => Some x | _ => None end;
     of_to_cell _ := eq_refl |}.
#[export] Instance cell_Kubelet : Cell cell (m_KubeletConfiguration) :=
  {| to_cell := CKubelet; of_cell c := match c with CKubelet x => Some x | _ => None end;
     of_to_cell _ := eq_refl |}.
#[export] Instance cell_Containerd : Cell cell (m_ContainerdSpec) :=
  {| to_cell := CContainerd; of_cell c := match c with CContainerd x => Some x | _ => None end;
     of_to_cell _ := eq_refl |}.
#[export] Instance cell_Upgrades : Cell cell (m_UnattendedUpgradesSpec) :=
  {| to_cell := CUpgrades; of_cell c := match c with CUpgrades x => Some x | _ => None end;
     of_to_cell _ := eq_refl |}.
#[export] Instance cell_Bootstrap : Cell cell (m_BootstrapSpec) :=
  {| to_cell := CBootstrap; of_cell c := match c with CBootstrap x => Some x | _ => None end;
     of_to_cell _ := eq_refl |}.
#[export] Instance cell_Spec : Cell cell (m_HCloudNodeClassSpec) :=
  {| to_cell := CSpec; of_cell c := match c with CSpec x => Some x | _ => None end;
     of_to_cell _ := eq_refl |}.
#[export] Instance cell_Status : Cell cell (m_HCloudNodeClassStatus) :=
  {| to_cell := CStatus; of_cell c := match c with CStatus x => Some x | _ => None end;
     of_to_cell _ := eq_refl |}.
#[export] Instance cell_NodeClass : Cell cell (m_HCloudNodeClass) :=
  {| to_cell := CNodeClass; of_cell c := match c with CNodeClass x => Some x | _ => None end;
     of_to_cell _ := eq_refl |}.
#[export] Instance cell_NodeClasses : Cell cell (list m_HCloudNodeClass) :=
  {| to_cell := CNodeClasses; of_cell c := match c with CNodeClasses x => Some x | _ => None end;
     of_to_cell _ := eq_refl |}.
#[export] Instance cell_NodeClassList : Cell cell (m_HCloudNodeClassList) :=
  {| to_cell := CNodeClassList; of_cell c := match c with CNodeClassList x => Some x | _ => None end;
     of_to_cell _ := eq_refl |}.

(** ** What they denote *)

#[local] Open Scope mem_scope.

Definition l_SelectorTerm (t : m_SelectorTerm) : loader SelectorTerm :=
  l_pure (fun id => {| sel_Name := mt_Name t; sel_ID := id |}) <*> l_ptr l_pure (mt_ID t).

Definition l_KubeletConfiguration (k : m_KubeletConfiguration) : loader KubeletConfiguration :=
  l_pure Build_KubeletConfiguration
    <*> l_map (mk_KubeReserved k) <*> l_map (mk_SystemReserved k)
    <*> l_map (mk_EvictionHard k) <*> l_map (mk_EvictionSoft k)
    <*> l_map (mk_EvictionSoftGracePeriod k) <*> l_ptr l_pure (mk_MaxPods k)
    <*> l_slice l_pure (mk_ClusterDNS k) <*> l_slice l_pure (mk_ExtraArgs k).

Definition l_ContainerdSpec (c : m_ContainerdSpec) : loader ContainerdSpec :=
  l_pure (fun cgroup => {| cd_SystemdCgroup := cgroup; cd_AptPin := mcd_AptPin c;
                           cd_ExtraConfig := mcd_ExtraConfig c |})
    <*> l_ptr l_pure (mcd_SystemdCgroup c).

Definition l_UnattendedUpgradesSpec (u : m_UnattendedUpgradesSpec) : loader UnattendedUpgradesSpec :=
  l_pure Build_UnattendedUpgradesSpec
    <*> l_ptr l_pure (muu_Enabled u) <*> l_slice l_pure (muu_ExtraOrigins u)
    <*> l_ptr l_pure (muu_RemoveUnusedKernelPackages u).

Definition l_BootstrapSpec (b : m_BootstrapSpec) : loader BootstrapSpec :=
  l_pure (fun hashes containerd upgrades sysctls modules upgrade packages files pre post =>
      {| bs_OSFamily := mb_OSFamily b; bs_Mode := mb_Mode b;
         bs_KubernetesVersion := mb_KubernetesVersion b; bs_PackageRevision := mb_PackageRevision b;
         bs_APIServerEndpoint := mb_APIServerEndpoint b; bs_CACertHashes := hashes;
         bs_Containerd := containerd; bs_UnattendedUpgrades := upgrades; bs_Sysctls := sysctls;
         bs_KernelModules := modules; bs_PackageUpgradeOnBoot := upgrade;
         bs_ExtraPackages := packages; bs_ExtraFiles := files; bs_PreJoinCommands := pre;
         bs_PostJoinCommands := post; bs_Revision := mb_Revision b |})
    <*> l_slice l_pure (mb_CACertHashes b) <*> l_ContainerdSpec (mb_Containerd b)
    <*> l_UnattendedUpgradesSpec (mb_UnattendedUpgrades b) <*> l_map (mb_Sysctls b)
    <*> l_slice l_pure (mb_KernelModules b) <*> l_ptr l_pure (mb_PackageUpgradeOnBoot b)
    <*> l_slice l_pure (mb_ExtraPackages b) <*> l_slice l_pure (mb_ExtraFiles b)
    <*> l_slice l_pure (mb_PreJoinCommands b) <*> l_slice l_pure (mb_PostJoinCommands b).

Definition l_HCloudNodeClassSpec (s : m_HCloudNodeClassSpec) : loader HCloudNodeClassSpec :=
  l_pure (fun image age locations network firewalls keys group ipv4 ipv6 labels kubelet bootstrap =>
      {| spec_ImageSelector := image; spec_ImageDriftPolicy := ms_ImageDriftPolicy s;
         spec_MaxNodeAge := age; spec_Locations := locations; spec_NetworkSelector := network;
         spec_FirewallSelectors := firewalls; spec_SSHKeySelectors := keys;
         spec_PlacementGroup := group; spec_PublicIPv4 := ipv4; spec_PublicIPv6 := ipv6;
         spec_ServerLabels := labels; spec_Kubelet := kubelet; spec_Bootstrap := bootstrap |})
    <*> l_SelectorTerm (ms_ImageSelector s) <*> l_ptr l_pure (ms_MaxNodeAge s)
    <*> l_slice l_pure (ms_Locations s) <*> l_ptr l_SelectorTerm (ms_NetworkSelector s)
    <*> l_slice l_SelectorTerm (ms_FirewallSelectors s) <*> l_slice l_SelectorTerm (ms_SSHKeySelectors s)
    <*> l_ptr l_SelectorTerm (ms_PlacementGroup s) <*> l_ptr l_pure (ms_PublicIPv4 s)
    <*> l_ptr l_pure (ms_PublicIPv6 s) <*> l_map (ms_ServerLabels s)
    <*> l_KubeletConfiguration (ms_Kubelet s) <*> l_BootstrapSpec (ms_Bootstrap s).

Definition l_LocationStatus (l : m_LocationStatus) : loader LocationStatus :=
  l_pure (fun dcs => {| lst_Name := ml_Name l; lst_NetworkZone := ml_NetworkZone l;
                        lst_Datacenters := dcs |})
    <*> l_slice l_pure (ml_Datacenters l).

(** How operatorpkg reads a condition list is the library's. *)
Context (conditions_of : list typed_condition -> Conditions).

Definition l_HCloudNodeClassStatus (s : m_HCloudNodeClassStatus) : loader HCloudNodeClassStatus :=
  l_pure (fun image network firewalls keys group locations hashes conditions =>
      {| status_Image := image; status_Network := network; status_Firewalls := firewalls;
         status_SSHKeys := keys; status_PlacementGroup := group; status_Locations := locations;
         status_APIServerEndpoint := mst_APIServerEndpoint s; status_CACertHashes := hashes;
         status_Conditions := conditions_of conditions |})
    <*> l_ptr l_pure (mst_Image s) <*> l_ptr l_pure (mst_Network s)
    <*> l_slice l_pure (mst_Firewalls s) <*> l_slice l_pure (mst_SSHKeys s)
    <*> l_ptr l_pure (mst_PlacementGroup s) <*> l_slice l_LocationStatus (mst_Locations s)
    <*> l_slice l_pure (mst_CACertHashes s) <*> l_slice l_pure (mst_Conditions s).

Definition l_ObjectMeta (m : m_ObjectMeta) : loader ObjectMeta :=
  l_pure (fun deleted finalizers annotations =>
      {| om_Name := mm_Name m; om_UID := mm_UID m; om_Generation := mm_Generation m;
         om_DeletionTimestamp := deleted; om_Finalizers := finalizers; om_Annotations := annotations |})
    <*> l_ptr l_pure (mm_DeletionTimestamp m) <*> l_slice l_pure (mm_Finalizers m)
    <*> l_map (mm_Annotations m).

Definition l_ListMeta (m : m_ListMeta) : loader (string * option Z) :=
  l_pure (fun remaining => (mlm_Continue m, remaining)) <*> l_ptr l_pure (mlm_RemainingItemCount m).

Definition l_HCloudNodeClass (n : m_HCloudNodeClass) : loader HCloudNodeClass :=
  l_pure (fun meta spec status =>
      {| nc_Name := om_Name meta; nc_UID := om_UID meta; nc_Generation := om_Generation meta;
         nc_DeletionTimestamp := om_DeletionTimestamp meta; nc_Finalizers := om_Finalizers meta;
         nc_Annotations := om_Annotations meta; nc_Spec := spec; nc_Status := status |})
    <*> l_ObjectMeta (mn_ObjectMeta n) <*> l_HCloudNodeClassSpec (mn_Spec n)
    <*> l_HCloudNodeClassStatus (mn_Status n).

Definition l_HCloudNodeClassList (n : m_HCloudNodeClassList) : loader (string * option Z * list HCloudNodeClass) :=
  l_pure pair <*> l_ListMeta (mnl_ListMeta n) <*> l_slice l_HCloudNodeClass (mnl_Items n).
End WithKube.

Abbreviation memory := (heap_of cell).
