(* ===== verification/DeepCopy.v ===== *)
(** The deep copies of the API types.

    Models [api/v1alpha1/zz_generated.deepcopy.go] on the memory of [ApiMemory],
    one [DeepCopyInto] and one [DeepCopy] per type.  [*out = *in] is the record of
    the same fields; a field the source then replaces is the result of its copy.
    A [DeepCopyInto] returns what it leaves in [*out]; what a slot is written
    before it is filled is not represented, for no one else holds it yet.

    [ObjectMeta], [ListMeta], [status.Condition] and [resource.Quantity] are copied
    by their own packages: parameters, with the contract of a deep copy. *)

From S2P Require Import Prelude Kube Api GoHeap ApiMemory.
#[local] Open Scope mem_scope.

Section WithKube.
Context `{KB : Kube}.

(** ** The libraries' copies *)

Class LibraryCopies := {
  Quantity_DeepCopy : Quantity -> Quantity;
  Condition_DeepCopyInto : typed_condition -> GoM (C := cell) typed_condition;
  ObjectMeta_DeepCopyInto : m_ObjectMeta -> GoM (C := cell) m_ObjectMeta;
  ListMeta_DeepCopyInto : m_ListMeta -> GoM (C := cell) m_ListMeta
}.

(** The same value from new cells. *)
Class LibraryCopiesLaws (L : LibraryCopies) : Prop := {
  Quantity_copied : forall q, Quantity_DeepCopy q = q;
  Condition_copied : copies Condition_DeepCopyInto l_pure;
  ObjectMeta_copied : copies ObjectMeta_DeepCopyInto l_ObjectMeta;
  ListMeta_copied : copies ListMeta_DeepCopyInto l_ListMeta
}.

Section Copies.
Context `{LC : LibraryCopies}.

Abbreviation GoM := (GoM (C := cell)).

(** ** Into a struct *)

(** [*out = *in] of a struct without references. *)
Definition File_DeepCopyInto (in_ : File) : GoM File := c_flat in_.
Definition FirewallStatus_DeepCopyInto (in_ : FirewallStatus) : GoM FirewallStatus := c_flat in_.
Definition ImageStatus_DeepCopyInto (in_ : ImageStatus) : GoM ImageStatus := c_flat in_.
Definition KubeletArg_DeepCopyInto (in_ : KubeletArg) : GoM KubeletArg := c_flat in_.
Definition NetworkStatus_DeepCopyInto (in_ : NetworkStatus) : GoM NetworkStatus := c_flat in_.
Definition PlacementGroupStatus_DeepCopyInto (in_ : PlacementGroupStatus) : GoM PlacementGroupStatus :=
  c_flat in_.
Definition SSHKeyStatus_DeepCopyInto (in_ : SSHKeyStatus) : GoM SSHKeyStatus := c_flat in_.

(** The five selector terms, one shape. *)
Definition term_DeepCopyInto (in_ : m_SelectorTerm) : GoM m_SelectorTerm :=
  let! id := c_ptr (A := Z) c_flat (mt_ID in_) in
  go_ret {| mt_Name := mt_Name in_; mt_ID := id |}.

Definition ImageSelectorTerm_DeepCopyInto : m_SelectorTerm -> GoM m_SelectorTerm := term_DeepCopyInto.
Definition NetworkSelectorTerm_DeepCopyInto : m_SelectorTerm -> GoM m_SelectorTerm := term_DeepCopyInto.
Definition FirewallSelectorTerm_DeepCopyInto : m_SelectorTerm -> GoM m_SelectorTerm := term_DeepCopyInto.
Definition SSHKeySelectorTerm_DeepCopyInto : m_SelectorTerm -> GoM m_SelectorTerm := term_DeepCopyInto.
Definition PlacementGroupSelectorTerm_DeepCopyInto : m_SelectorTerm -> GoM m_SelectorTerm :=
  term_DeepCopyInto.

Definition ContainerdSpec_DeepCopyInto (in_ : m_ContainerdSpec) : GoM m_ContainerdSpec :=
  let! cgroup := c_ptr (A := bool) c_flat (mcd_SystemdCgroup in_) in
  go_ret {| mcd_SystemdCgroup := cgroup; mcd_AptPin := mcd_AptPin in_;
            mcd_ExtraConfig := mcd_ExtraConfig in_ |}.

Definition UnattendedUpgradesSpec_DeepCopyInto (in_ : m_UnattendedUpgradesSpec)
    : GoM m_UnattendedUpgradesSpec :=
  let! enabled := c_ptr (A := bool) c_flat (muu_Enabled in_) in
  let! origins := c_slice (A := string) c_flat (muu_ExtraOrigins in_) in
  let! kernels := c_ptr (A := bool) c_flat (muu_RemoveUnusedKernelPackages in_) in
  go_ret {| muu_Enabled := enabled; muu_ExtraOrigins := origins;
            muu_RemoveUnusedKernelPackages := kernels |}.

Definition KubeletConfiguration_DeepCopyInto (in_ : m_KubeletConfiguration)
    : GoM m_KubeletConfiguration :=
  let! kube := c_map (A := Quantity) Quantity_DeepCopy (mk_KubeReserved in_) in
  let! system := c_map (A := Quantity) Quantity_DeepCopy (mk_SystemReserved in_) in
  let! hard := c_map (A := string) id (mk_EvictionHard in_) in
  let! soft := c_map (A := string) id (mk_EvictionSoft in_) in
  let! grace := c_map (A := Z) id (mk_EvictionSoftGracePeriod in_) in
  let! pods := c_ptr (A := Z) c_flat (mk_MaxPods in_) in
  let! dns := c_slice (A := string) c_flat (mk_ClusterDNS in_) in
  let! args := c_slice (A := KubeletArg) c_flat (mk_ExtraArgs in_) in
  go_ret {| mk_KubeReserved := kube; mk_SystemReserved := system; mk_EvictionHard := hard;
            mk_EvictionSoft := soft; mk_EvictionSoftGracePeriod := grace; mk_MaxPods := pods;
            mk_ClusterDNS := dns; mk_ExtraArgs := args |}.

Definition BootstrapSpec_DeepCopyInto (in_ : m_BootstrapSpec) : GoM m_BootstrapSpec :=
  let! hashes := c_slice (A := string) c_flat (mb_CACertHashes in_) in
  let! containerd := ContainerdSpec_DeepCopyInto (mb_Containerd in_) in
  let! upgrades := UnattendedUpgradesSpec_DeepCopyInto (mb_UnattendedUpgrades in_) in
  let! sysctls := c_map (A := string) id (mb_Sysctls in_) in
  let! modules := c_slice (A := string) c_flat (mb_KernelModules in_) in
  let! upgrade := c_ptr (A := bool) c_flat (mb_PackageUpgradeOnBoot in_) in
  let! packages := c_slice (A := string) c_flat (mb_ExtraPackages in_) in
  let! files := c_slice (A := File) c_flat (mb_ExtraFiles in_) in
  let! pre := c_slice (A := string) c_flat (mb_PreJoinCommands in_) in
  let! post := c_slice (A := string) c_flat (mb_PostJoinCommands in_) in
  go_ret {| mb_OSFamily := mb_OSFamily in_; mb_Mode := mb_Mode in_;
            mb_KubernetesVersion := mb_KubernetesVersion in_;
            mb_PackageRevision := mb_PackageRevision in_;
            mb_APIServerEndpoint := mb_APIServerEndpoint in_; mb_CACertHashes := hashes;
            mb_Containerd := containerd; mb_UnattendedUpgrades := upgrades; mb_Sysctls := sysctls;
            mb_KernelModules := modules; mb_PackageUpgradeOnBoot := upgrade;
            mb_ExtraPackages := packages; mb_ExtraFiles := files; mb_PreJoinCommands := pre;
            mb_PostJoinCommands := post; mb_Revision := mb_Revision in_ |}.

Definition HCloudNodeClassSpec_DeepCopyInto (in_ : m_HCloudNodeClassSpec) : GoM m_HCloudNodeClassSpec :=
  let! image := ImageSelectorTerm_DeepCopyInto (ms_ImageSelector in_) in
  let! age := c_ptr (A := Z) c_flat (ms_MaxNodeAge in_) in
  let! locations := c_slice (A := string) c_flat (ms_Locations in_) in
  let! network := c_ptr NetworkSelectorTerm_DeepCopyInto (ms_NetworkSelector in_) in
  let! firewalls := c_slice FirewallSelectorTerm_DeepCopyInto (ms_FirewallSelectors in_) in
  let! keys := c_slice SSHKeySelectorTerm_DeepCopyInto (ms_SSHKeySelectors in_) in
  let! group := c_ptr PlacementGroupSelectorTerm_DeepCopyInto (ms_PlacementGroup in_) in
  let! ipv4 := c_ptr (A := bool) c_flat (ms_PublicIPv4 in_) in
  let! ipv6 := c_ptr (A := bool) c_flat (ms_PublicIPv6 in_) in
  let! labels := c_map (A := string) id (ms_ServerLabels in_) in
  let! kubelet := KubeletConfiguration_DeepCopyInto (ms_Kubelet in_) in
  let! bootstrap := BootstrapSpec_DeepCopyInto (ms_Bootstrap in_) in
  go_ret {| ms_ImageSelector := image; ms_ImageDriftPolicy := ms_ImageDriftPolicy in_;
            ms_MaxNodeAge := age; ms_Locations := locations; ms_NetworkSelector := network;
            ms_FirewallSelectors := firewalls; ms_SSHKeySelectors := keys;
            ms_PlacementGroup := group; ms_PublicIPv4 := ipv4; ms_PublicIPv6 := ipv6;
            ms_ServerLabels := labels; ms_Kubelet := kubelet; ms_Bootstrap := bootstrap |}.

Definition LocationStatus_DeepCopyInto (in_ : m_LocationStatus) : GoM m_LocationStatus :=
  let! dcs := c_slice (A := string) c_flat (ml_Datacenters in_) in
  go_ret {| ml_Name := ml_Name in_; ml_NetworkZone := ml_NetworkZone in_; ml_Datacenters := dcs |}.

Definition HCloudNodeClassStatus_DeepCopyInto (in_ : m_HCloudNodeClassStatus)
    : GoM m_HCloudNodeClassStatus :=
  let! image := c_ptr (A := ImageStatus) c_flat (mst_Image in_) in
  let! network := c_ptr (A := NetworkStatus) c_flat (mst_Network in_) in
  let! firewalls := c_slice (A := FirewallStatus) c_flat (mst_Firewalls in_) in
  let! keys := c_slice (A := SSHKeyStatus) c_flat (mst_SSHKeys in_) in
  let! group := c_ptr (A := PlacementGroupStatus) c_flat (mst_PlacementGroup in_) in
  let! locations := c_slice LocationStatus_DeepCopyInto (mst_Locations in_) in
  let! hashes := c_slice (A := string) c_flat (mst_CACertHashes in_) in
  let! conditions := c_slice Condition_DeepCopyInto (mst_Conditions in_) in
  go_ret {| mst_Image := image; mst_Network := network; mst_Firewalls := firewalls;
            mst_SSHKeys := keys; mst_PlacementGroup := group; mst_Locations := locations;
            mst_APIServerEndpoint := mst_APIServerEndpoint in_; mst_CACertHashes := hashes;
            mst_Conditions := conditions |}.

Definition HCloudNodeClass_DeepCopyInto (in_ : m_HCloudNodeClass) : GoM m_HCloudNodeClass :=
  let! meta := ObjectMeta_DeepCopyInto (mn_ObjectMeta in_) in
  let! spec := HCloudNodeClassSpec_DeepCopyInto (mn_Spec in_) in
  let! status := HCloudNodeClassStatus_DeepCopyInto (mn_Status in_) in
  go_ret {| mn_TypeMeta := mn_TypeMeta in_; mn_ObjectMeta := meta; mn_Spec := spec;
            mn_Status := status |}.

Definition HCloudNodeClassList_DeepCopyInto (in_ : m_HCloudNodeClassList) : GoM m_HCloudNodeClassList :=
  let! meta := ListMeta_DeepCopyInto (mnl_ListMeta in_) in
  let! items := c_slice HCloudNodeClass_DeepCopyInto (mnl_Items in_) in
  go_ret {| mnl_TypeMeta := mnl_TypeMeta in_; mnl_ListMeta := meta; mnl_Items := items |}.

(** ** Of a pointer: nil stays nil, anything else is copied into a new struct *)

Definition BootstrapSpec_DeepCopy := c_ptr BootstrapSpec_DeepCopyInto.
Definition ContainerdSpec_DeepCopy := c_ptr ContainerdSpec_DeepCopyInto.
Definition File_DeepCopy := c_ptr File_DeepCopyInto.
Definition FirewallSelectorTerm_DeepCopy := c_ptr FirewallSelectorTerm_DeepCopyInto.
Definition FirewallStatus_DeepCopy := c_ptr FirewallStatus_DeepCopyInto.
Definition HCloudNodeClass_DeepCopy := c_ptr HCloudNodeClass_DeepCopyInto.
Definition HCloudNodeClassList_DeepCopy := c_ptr HCloudNodeClassList_DeepCopyInto.
Definition HCloudNodeClassSpec_DeepCopy := c_ptr HCloudNodeClassSpec_DeepCopyInto.
Definition HCloudNodeClassStatus_DeepCopy := c_ptr HCloudNodeClassStatus_DeepCopyInto.
Definition ImageSelectorTerm_DeepCopy := c_ptr ImageSelectorTerm_DeepCopyInto.
Definition ImageStatus_DeepCopy := c_ptr ImageStatus_DeepCopyInto.
Definition KubeletArg_DeepCopy := c_ptr KubeletArg_DeepCopyInto.
Definition KubeletConfiguration_DeepCopy := c_ptr KubeletConfiguration_DeepCopyInto.
Definition LocationStatus_DeepCopy := c_ptr LocationStatus_DeepCopyInto.
Definition NetworkSelectorTerm_DeepCopy := c_ptr NetworkSelectorTerm_DeepCopyInto.
Definition NetworkStatus_DeepCopy := c_ptr NetworkStatus_DeepCopyInto.
Definition PlacementGroupSelectorTerm_DeepCopy := c_ptr PlacementGroupSelectorTerm_DeepCopyInto.
Definition PlacementGroupStatus_DeepCopy := c_ptr PlacementGroupStatus_DeepCopyInto.
Definition SSHKeySelectorTerm_DeepCopy := c_ptr SSHKeySelectorTerm_DeepCopyInto.
Definition SSHKeyStatus_DeepCopy := c_ptr SSHKeyStatus_DeepCopyInto.
Definition UnattendedUpgradesSpec_DeepCopy := c_ptr UnattendedUpgradesSpec_DeepCopyInto.

(** A [runtime.Object] around the copy; the untyped nil for a nil copy. *)
Inductive runtime_Object :=
  | ObjectNil
  | ObjectNodeClass (p : addr)
  | ObjectNodeClassList (p : addr).

Definition HCloudNodeClass_DeepCopyObject (in_ : option addr) : GoM runtime_Object :=
  let! c := HCloudNodeClass_DeepCopy in_ in
  go_ret match c with Some p => ObjectNodeClass p | None => ObjectNil end.

Definition HCloudNodeClassList_DeepCopyObject (in_ : option addr) : GoM runtime_Object :=
  let! c := HCloudNodeClassList_DeepCopy in_ in
  go_ret match c with Some p => ObjectNodeClassList p | None => ObjectNil end.

(** ** Every copy meets the contract *)

Lemma term_copied : copies term_DeepCopyInto l_SelectorTerm.
Proof. unfold term_DeepCopyInto, l_SelectorTerm. copies_struct. Qed.
#[local] Hint Resolve term_copied : deep.
#[local] Hint Extern 1 (good (l_SelectorTerm _)) => apply (copies_good _ _ term_copied) : deep.

Lemma ContainerdSpec_copied : copies ContainerdSpec_DeepCopyInto l_ContainerdSpec.
Proof. unfold ContainerdSpec_DeepCopyInto, l_ContainerdSpec. copies_struct. Qed.
#[local] Hint Resolve ContainerdSpec_copied : deep.
#[local] Hint Extern 1 (good (l_ContainerdSpec _)) => apply (copies_good _ _ ContainerdSpec_copied) : deep.

Lemma UnattendedUpgradesSpec_copied : copies UnattendedUpgradesSpec_DeepCopyInto l_UnattendedUpgradesSpec.
Proof. unfold UnattendedUpgradesSpec_DeepCopyInto, l_UnattendedUpgradesSpec. copies_struct. Qed.
#[local] Hint Resolve UnattendedUpgradesSpec_copied : deep.
#[local] Hint Extern 1 (good (l_UnattendedUpgradesSpec _)) => apply (copies_good _ _ UnattendedUpgradesSpec_copied) : deep.

Lemma BootstrapSpec_copied : copies BootstrapSpec_DeepCopyInto l_BootstrapSpec.
Proof. unfold BootstrapSpec_DeepCopyInto, l_BootstrapSpec. copies_struct. Qed.
#[local] Hint Resolve BootstrapSpec_copied : deep.
#[local] Hint Extern 1 (good (l_BootstrapSpec _)) => apply (copies_good _ _ BootstrapSpec_copied) : deep.

Lemma LocationStatus_copied : copies LocationStatus_DeepCopyInto l_LocationStatus.
Proof. unfold LocationStatus_DeepCopyInto, l_LocationStatus. copies_struct. Qed.
#[local] Hint Resolve LocationStatus_copied : deep.
#[local] Hint Extern 1 (good (l_LocationStatus _)) => apply (copies_good _ _ LocationStatus_copied) : deep.

Context {LL : LibraryCopiesLaws LC} (conditions_of : list typed_condition -> Conditions).

Lemma copies_quantities : copies (c_map (A := Quantity) Quantity_DeepCopy) l_map.
Proof using LL. apply copies_map, Quantity_copied. Qed.
#[local] Hint Resolve copies_quantities Condition_copied ObjectMeta_copied ListMeta_copied : deep.
#[local] Hint Extern 1 (good (l_ObjectMeta _)) => apply (copies_good _ _ ObjectMeta_copied) : deep.
#[local] Hint Extern 1 (good (l_ListMeta _)) => apply (copies_good _ _ ListMeta_copied) : deep.

Lemma KubeletConfiguration_copied : copies KubeletConfiguration_DeepCopyInto l_KubeletConfiguration.
Proof using LL. unfold KubeletConfiguration_DeepCopyInto, l_KubeletConfiguration. copies_struct. Qed.
#[local] Hint Resolve KubeletConfiguration_copied : deep.
#[local] Hint Extern 1 (good (l_KubeletConfiguration _)) => apply (copies_good _ _ KubeletConfiguration_copied) : deep.

Lemma HCloudNodeClassSpec_copied : copies HCloudNodeClassSpec_DeepCopyInto l_HCloudNodeClassSpec.
Proof using LL. unfold HCloudNodeClassSpec_DeepCopyInto, l_HCloudNodeClassSpec. copies_struct. Qed.
#[local] Hint Resolve HCloudNodeClassSpec_copied : deep.
#[local] Hint Extern 1 (good (l_HCloudNodeClassSpec _)) => apply (copies_good _ _ HCloudNodeClassSpec_copied) : deep.

Lemma HCloudNodeClassStatus_copied : copies HCloudNodeClassStatus_DeepCopyInto (l_HCloudNodeClassStatus conditions_of).
Proof using LL. unfold HCloudNodeClassStatus_DeepCopyInto, l_HCloudNodeClassStatus. copies_struct. Qed.
#[local] Hint Resolve HCloudNodeClassStatus_copied : deep.
#[local] Hint Extern 1 (good (l_HCloudNodeClassStatus conditions_of _)) => apply (copies_good _ _ HCloudNodeClassStatus_copied) : deep.

Lemma HCloudNodeClass_copied : copies HCloudNodeClass_DeepCopyInto (l_HCloudNodeClass conditions_of).
Proof using LL. unfold HCloudNodeClass_DeepCopyInto, l_HCloudNodeClass. copies_struct. Qed.
#[local] Hint Resolve HCloudNodeClass_copied : deep.
#[local] Hint Extern 1 (good (l_HCloudNodeClass conditions_of _)) => apply (copies_good _ _ HCloudNodeClass_copied) : deep.

Lemma HCloudNodeClassList_copied : copies HCloudNodeClassList_DeepCopyInto (l_HCloudNodeClassList conditions_of).
Proof using LL. unfold HCloudNodeClassList_DeepCopyInto, l_HCloudNodeClassList. copies_struct. Qed.
#[local] Hint Resolve HCloudNodeClassList_copied : deep.
#[local] Hint Extern 1 (good (l_HCloudNodeClassList conditions_of _)) => apply (copies_good _ _ HCloudNodeClassList_copied) : deep.

(** ** What a deep copy is for *)

(** The NodeClass, or the list, a pointer points to. *)
Definition at_NodeClass (p : addr) : loader HCloudNodeClass :=
  l_bind (l_cell p) (l_HCloudNodeClass conditions_of).
Definition at_NodeClassList (p : addr) : loader (string * option Z * list HCloudNodeClass) :=
  l_bind (l_cell p) (l_HCloudNodeClassList conditions_of).

(** C20. A deep copy of a NodeClass, or of a list of them, is the same object in other
    memory.  For every object that lies in memory in any way, also with parts
    shared, the copy succeeds and denotes the same value; the two have no cell in
    common, so whatever is then written through the one, fields, elements of its
    slices, entries of its maps, the other still denotes that value.  nil is
    copied to nil. *)
Theorem deepcopy_independent (h : memory) :
  HCloudNodeClass_DeepCopyObject None h = Some (ObjectNil, h) /\
  HCloudNodeClassList_DeepCopyObject None h = Some (ObjectNil, h) /\
  (forall p nc cells, at_NodeClass p h = Some (nc, cells) ->
     exists q h', HCloudNodeClass_DeepCopyObject (Some p) h = Some (ObjectNodeClass q, h') /\
       h ⊆ h' /\ independent at_NodeClass p q nc h') /\
  (forall p ncs cells, at_NodeClassList p h = Some (ncs, cells) ->
     exists q h', HCloudNodeClassList_DeepCopyObject (Some p) h = Some (ObjectNodeClassList q, h') /\
       h ⊆ h' /\ independent at_NodeClassList p q ncs h').
Proof using LL.
  split; [done|]. split; [done|]. split; intros p v cells Hl.
  - destruct (copies_independent _ _ _ _ _ _ (copies_cell _ _ HCloudNodeClass_copied) Hl)
      as (q & h' & Hrun & Hs & Hi).
    exists q, h'. split; [|done]. unfold HCloudNodeClass_DeepCopyObject, go_bind at 1.
    unfold HCloudNodeClass_DeepCopy, c_ptr. by rewrite (c_nilable_Some _ _ _ _ _ Hrun).
  - destruct (copies_independent _ _ _ _ _ _ (copies_cell _ _ HCloudNodeClassList_copied) Hl)
      as (q & h' & Hrun & Hs & Hi).
    exists q, h'. split; [|done]. unfold HCloudNodeClassList_DeepCopyObject, go_bind at 1.
    unfold HCloudNodeClassList_DeepCopy, c_ptr. by rewrite (c_nilable_Some _ _ _ _ _ Hrun).
Qed.
End Copies.
End WithKube.

(** ** Witness: a class with two fields that share a slice *)

Module DeepCopyExample.
Import KubeExample.

Definition copy_ObjectMeta (in_ : m_ObjectMeta) : GoM (C := cell) m_ObjectMeta :=
  let! deleted := c_ptr (A := Z) c_flat (mm_DeletionTimestamp in_) in
  let! finalizers := c_slice (A := string) c_flat (mm_Finalizers in_) in
  let! annotations := c_map (A := string) id (mm_Annotations in_) in
  go_ret {| mm_Name := mm_Name in_; mm_UID := mm_UID in_; mm_Generation := mm_Generation in_;
            mm_DeletionTimestamp := deleted; mm_Finalizers := finalizers;
            mm_Annotations := annotations |}.

Definition copy_ListMeta (in_ : m_ListMeta) : GoM (C := cell) m_ListMeta :=
  let! remaining := c_ptr (A := Z) c_flat (mlm_RemainingItemCount in_) in
  go_ret {| mlm_Continue := mlm_Continue in_; mlm_RemainingItemCount := remaining |}.

#[export] Instance library_copies : LibraryCopies := {|
  Quantity_DeepCopy q := q;
  Condition_DeepCopyInto := c_flat;
  ObjectMeta_DeepCopyInto := copy_ObjectMeta;
  ListMeta_DeepCopyInto := copy_ListMeta
|}.

#[export] Instance library_copies_laws : LibraryCopiesLaws library_copies.
Proof.
  split; [done|apply copies_flat| |].
  - cbn [ObjectMeta_DeepCopyInto library_copies]. unfold copy_ObjectMeta, l_ObjectMeta. copies_struct.
  - cbn [ListMeta_DeepCopyInto library_copies]. unfold copy_ListMeta, l_ListMeta. copies_struct.
Qed.

Definition no_kubelet : m_KubeletConfiguration :=
  {| mk_KubeReserved := Some 4%positive; mk_SystemReserved := None; mk_EvictionHard := None;
     mk_EvictionSoft := None; mk_EvictionSoftGracePeriod := None; mk_MaxPods := None;
     mk_ClusterDNS := None; mk_ExtraArgs := None |}.

Definition bootstrap (shared : addr) : m_BootstrapSpec :=
  {| mb_OSFamily := "Debian"; mb_Mode := ""; mb_KubernetesVersion := "1.34.7"; mb_PackageRevision := "";
     mb_APIServerEndpoint := ""; mb_CACertHashes := None;
     mb_Containerd := {| mcd_SystemdCgroup := None; mcd_AptPin := ""; mcd_ExtraConfig := "" |};
     mb_UnattendedUpgrades := {| muu_Enabled := None; muu_ExtraOrigins := None;
                                 muu_RemoveUnusedKernelPackages := None |};
     mb_Sysctls := None; mb_KernelModules := None; mb_PackageUpgradeOnBoot := None;
     mb_ExtraPackages := Some shared; mb_ExtraFiles := None; mb_PreJoinCommands := Some shared;
     mb_PostJoinCommands := None; mb_Revision := "" |}.

Definition object : m_HCloudNodeClass :=
  {| mn_TypeMeta := {| tm_Kind := "HCloudNodeClass"; tm_APIVersion := "karpenter.itsh.dev/v1alpha1" |};
     mn_ObjectMeta := {| mm_Name := "default"; mm_UID := "u"; mm_Generation := 1;
       mm_DeletionTimestamp := None; mm_Finalizers := None; mm_Annotations := None |};
     mn_Spec := {| ms_ImageSelector := {| mt_Name := ""; mt_ID := Some 5%positive |};
       ms_ImageDriftPolicy := ""; ms_MaxNodeAge := None; ms_Locations := None;
       ms_NetworkSelector := None; ms_FirewallSelectors := None; ms_SSHKeySelectors := None;
       ms_PlacementGroup := None; ms_PublicIPv4 := None; ms_PublicIPv6 := None;
       ms_ServerLabels := None; ms_Kubelet := no_kubelet; ms_Bootstrap := bootstrap 2%positive |};
     mn_Status := {| mst_Image := None; mst_Network := None; mst_Firewalls := None; mst_SSHKeys := None;
       mst_PlacementGroup := None; mst_Locations := None; mst_APIServerEndpoint := "";
       mst_CACertHashes := None; mst_Conditions := Some 3%positive |} |}.

Definition mem : memory :=
  {[ 1%positive := CNodeClass object; 2%positive := CStrings ["one"; "two"]; 3%positive := CConditions [];
     4%positive := CQuantities ∅; 5%positive := CInt 42 ]}.

Definition conditions_of (l : list typed_condition) : @Conditions kube :=
  (list_to_map l : gmap string condition).

Definition loads (p : addr) (h : memory) : bool :=
  match at_NodeClass conditions_of p h with Some _ => true | None => false end.

Lemma loads_value (p : addr) (h : memory) :
  loads p h = true -> exists nc cells, at_NodeClass conditions_of p h = Some (nc, cells).
Proof. unfold loads. destruct (at_NodeClass _ p h) as [[nc cells]|]; [eauto|done]. Qed.

Lemma object_loads : exists nc cells, at_NodeClass conditions_of 1%positive mem = Some (nc, cells).
Proof. apply loads_value. by vm_compute. Qed.

Lemma deepcopy_independent_witness :
  exists nc q h', HCloudNodeClass_DeepCopyObject (Some 1%positive) mem = Some (ObjectNodeClass q, h') /\
    independent (at_NodeClass conditions_of) 1%positive q nc h'.
Proof.
  destruct object_loads as (nc & cells & Hl).
  destruct (deepcopy_independent conditions_of mem) as (_ & _ & Hnc & _).
  destruct (Hnc 1%positive nc cells Hl) as (q & h' & Hrun & _ & Hi).
  exists nc, q, h'. exact (conj Hrun Hi).
Defined.
End DeepCopyExample.
