(* ===== verification/Unavailable.v ===== *)
(** The suppression cache: (server type, location) pairs that recently failed
    to provision.

    Models [internal/providers/instancetype/unavailable.go] and the tick of
    [metrics_sync.go].  The clock is an argument: each operation receives what
    [u.now()] reads.  The abstract specification is a log of failures, against
    which every run of the cache is a refinement. *)

From S2P Require Import Prelude GoErrors.

Definition DefaultUnavailableTTL : duration := 5 * minute.

(** [key]. *)
Abbreviation pair_key := (string * string)%type.

Record entry := { e_until : time; e_code : error_code }.

Record Unavailable := {
  u_ttl : duration;
  u_items : gmap pair_key entry
}.

Definition NewUnavailable : Unavailable :=
  {| u_ttl := DefaultUnavailableTTL; u_items := ∅ |}.

Definition NewUnavailableWithOptions (ttl : duration) : Unavailable :=
  {| u_ttl := ttl; u_items := ∅ |}.

Definition Mark (now : time) (u : Unavailable) (serverType location : string)
    (code : error_code) : Unavailable :=
  {| u_ttl := u_ttl u;
     u_items := <[ (serverType, location) :=
                     {| e_until := time_add now (u_ttl u); e_code := code |} ]> (u_items u) |}.

(** Every recorded pair of the location, expired ones included. *)
Definition MarkLocation (now : time) (u : Unavailable) (location : string)
    (code : error_code) : Unavailable :=
  let until := time_add now (u_ttl u) in
  {| u_ttl := u_ttl u;
     u_items := map_imap (fun k e =>
       Some (if (k.2 =? location)%string then {| e_until := until; e_code := code |} else e))
       (u_items u) |}.

Definition Has (now : time) (u : Unavailable) (serverType location : string) : bool :=
  match u_items u !! (serverType, location) with
  | Some e => time_before now (e_until e)
  | None => false
  end.

Definition UCode (now : time) (u : Unavailable) (serverType location : string) : option error_code :=
  match u_items u !! (serverType, location) with
  | Some e => if negb (time_before now (e_until e)) then None else Some (e_code e)
  | None => None
  end.

Record Suppression := {
  sup_ServerType : string; sup_Location : string; sup_Code : error_code
}.

Definition live_entry (now : time) (kv : pair_key * entry) : bool :=
  time_before now (e_until kv.2).

(** [Snapshot]: the live pairs, with the expired entries reaped. *)
Definition Snapshot (now : time) (u : Unavailable) : list Suppression * Unavailable :=
  let live := filter (fun kv => live_entry now kv = true) (u_items u) in
  ((fun kv => {| sup_ServerType := kv.1.1; sup_Location := kv.1.2; sup_Code := e_code kv.2 |})
     <$> map_to_list live,
   {| u_ttl := u_ttl u; u_items := live |}).

Definition Len (now : time) (u : Unavailable) : nat * Unavailable :=
  let '(out, u') := Snapshot now u in (length out, u').

(** One tick of [SyncUnavailable]: the gauge is reset and rebuilt, so its
    series are exactly the snapshot's. *)
Definition SyncUnavailable_tick (now : time) (u : Unavailable)
    : gmap (string * string * error_code) Z * Unavailable :=
  let '(sups, u') := Snapshot now u in
  (foldr (fun s g => <[ (sup_ServerType s, sup_Location s, sup_Code s) := 1 ]> g) ∅ sups, u').

(** ** The abstract specification: a log of observed failures *)

Inductive u_op :=
  | OpMark (serverType location : string) (code : error_code)
  | OpSnapshot.

Definition u_step (now : time) (o : u_op) (u : Unavailable) : Unavailable :=
  match o with
  | OpMark st l c => Mark now u st l c
  | OpSnapshot => (Snapshot now u).2
  end.

Definition u_run (ops : list (time * u_op)) (u : Unavailable) : Unavailable :=
  foldl (fun u to => u_step to.1 to.2 u) u ops.

(** A pair is suppressed when it was marked less than [ttl] ago. *)
Definition spec_suppressed (ttl : duration) (ops : list (time * u_op)) (now : time)
    (st l : string) : Prop :=
  exists t c, (t, OpMark st l c) ∈ ops /\ now < t + ttl.

(** ** Lemmas *)

Lemma Has_mark_eq (now t : time) (u : Unavailable) (st l : string) (c : error_code) :
  Has t (Mark now u st l c) st l = (t <? now + u_ttl u).
Proof. unfold Has, Mark. simpl. by rewrite lookup_insert_eq. Qed.

Lemma Has_mark_ne (now t : time) (u : Unavailable) (st l st' l' : string) (c : error_code) :
  (st, l) <> (st', l') -> Has t (Mark now u st l c) st' l' = Has t u st' l'.
Proof. intros Hne. unfold Has, Mark. simpl. by rewrite lookup_insert_ne. Qed.

Lemma u_run_app (ops : list (time * u_op)) (t : time) (o : u_op) (u : Unavailable) :
  u_run (ops ++ [(t, o)]) u = u_step t o (u_run ops u).
Proof. unfold u_run. by rewrite foldl_app. Qed.

Lemma u_run_ttl (ops : list (time * u_op)) (u : Unavailable) : u_ttl (u_run ops u) = u_ttl u.
Proof.
  induction ops as [|[t o] ops IH] using rev_ind; [done|].
  rewrite u_run_app. by destruct o.
Qed.

(** Reaping does not change what is suppressed from that instant on. *)
Lemma Has_snapshot (now t : time) (u : Unavailable) (st l : string) :
  now <= t -> Has t (Snapshot now u).2 st l = Has t u st l.
Proof.
  intros Ht. unfold Has, Snapshot. simpl. rewrite map_lookup_filter.
  destruct (u_items u !! (st, l)) as [e|] eqn:E; simpl; [|done].
  unfold live_entry, time_before. simpl.
  destruct (now <? e_until e) eqn:E1; simpl; [done|]. bool_hyps.
  destruct (Z.ltb_spec t (e_until e)); [lia|done].
Qed.

(** The clock of a run never goes back. *)
Definition monotone (ops : list (time * u_op)) (now : time) : Prop :=
  StronglySorted Z.le (ops.*1 ++ [now]).

Lemma monotone_snoc (ops : list (time * u_op)) (t now : time) (o : u_op) :
  monotone (ops ++ [(t, o)]) now -> monotone ops now /\ monotone ops t /\ t <= now.
Proof.
  unfold monotone. rewrite fmap_app. simpl. rewrite <- app_assoc. simpl.
  rewrite !StronglySorted_app. intros (Hc & Hs & Hn).
  apply StronglySorted_inv in Hn as [_ Hn]. rewrite Forall_singleton in Hn.
  repeat split; auto; try (repeat constructor).
  all: intros x y Hx Hy; apply list_elem_of_singleton in Hy as ->; apply Hc; set_solver.
Qed.

Lemma monotone_elem (ops : list (time * u_op)) (t now : time) (o : u_op) :
  monotone ops now -> (t, o) ∈ ops -> t <= now.
Proof.
  unfold monotone. rewrite StronglySorted_app. intros (Hc & _) Hin.
  apply Hc; [|by apply list_elem_of_singleton]. apply list_elem_of_fmap. by exists (t, o).
Qed.

(** ** Properties *)

(** C35. The cache implements its log: over any sequence of marks and snapshots with
    a clock that never goes back, a pair reads as suppressed exactly when it was
    marked less than one TTL ago. *)
Theorem unavailable_refines_log (ttl : duration) (ops : list (time * u_op)) (now : time)
    (st l : string) (Hmono : monotone ops now) :
  Has now (u_run ops (NewUnavailableWithOptions ttl)) st l = true <->
  spec_suppressed ttl ops now st l.
Proof.
  revert now Hmono. induction ops as [|[t o] ops IH] using rev_ind; intros now Hm.
  { split; [done|]. intros (? & ? & Hin & _). by apply elem_of_nil in Hin. }
  apply monotone_snoc in Hm as (Hm & Hmt & Ht). rewrite u_run_app. specialize (IH now Hm).
  assert (spec_suppressed ttl (ops ++ [(t, o)]) now st l <->
          spec_suppressed ttl ops now st l \/ exists c, o = OpMark st l c /\ now < t + ttl) as ->.
  { unfold spec_suppressed. setoid_rewrite elem_of_app. setoid_rewrite list_elem_of_singleton.
    split; [naive_solver|]. intros [|(c & -> & ?)]; naive_solver. }
  destruct o as [st' l' c|]; cbn [u_step].
  - destruct (decide ((st', l') = (st, l))) as [[= -> ->]|Hne].
    + rewrite Has_mark_eq, u_run_ttl. simpl. rewrite Z.ltb_lt. rewrite <- IH.
      split; [naive_solver|]. intros [Hh|(? & _ & ?)]; [|done].
      apply IH in Hh as (t' & c' & Hin & Hlt).
      pose proof (monotone_elem _ _ _ _ Hmt Hin). lia.
    + rewrite Has_mark_ne by done. rewrite IH. naive_solver.
  - rewrite Has_snapshot by done. rewrite IH. naive_solver.
Qed.

Lemma unavailable_refines_log_witness :
  Has 9 (u_run [(1, OpMark "cx23" "nbg1" CodeResourceUnavailable); (4, OpSnapshot)]
           (NewUnavailableWithOptions 10)) "cx23" "nbg1" = true <->
  spec_suppressed 10 [(1, OpMark "cx23" "nbg1" CodeResourceUnavailable); (4, OpSnapshot)]
    9 "cx23" "nbg1".
Proof. apply unavailable_refines_log. repeat constructor; simpl; lia. Defined.

(** [Snapshot] lists exactly the pairs suppressed at that instant, each once,
    under the code that suppressed it, and reaping changes no later answer of
    [Has]. *)
Theorem snapshot_exact (now t : time) (u : Unavailable) (s : Suppression) (Ht : now <= t) :
  let '(out, u') := Snapshot now u in
  (s ∈ out <-> Has now u (sup_ServerType s) (sup_Location s) = true /\
               UCode now u (sup_ServerType s) (sup_Location s) = Some (sup_Code s)) /\
  NoDup ((fun s => (sup_ServerType s, sup_Location s)) <$> out) /\
  Has t u' (sup_ServerType s) (sup_Location s) = Has t u (sup_ServerType s) (sup_Location s).
Proof.
  pose proof (Has_snapshot now t u (sup_ServerType s) (sup_Location s) Ht) as Hh.
  unfold Snapshot in *. simpl in Hh. split; [|split; [|done]].
  - rewrite list_elem_of_fmap. destruct s as [st l c]. simpl. unfold Has, UCode. split.
    + intros ([[st' l'] e] & [= -> -> ->] & Hin). apply elem_of_map_to_list in Hin.
      apply map_lookup_filter_Some in Hin as [-> Hlive]. unfold live_entry in Hlive.
      simpl in Hlive. by rewrite Hlive.
    + destruct (u_items u !! (st, l)) as [e|] eqn:E; [|naive_solver].
      intros [Hlive Hc]. rewrite Hlive in Hc. simplify_eq/=.
      exists ((st, l), e). split; [done|]. apply elem_of_map_to_list.
      by apply map_lookup_filter_Some.
  - rewrite <- list_fmap_compose.
    erewrite (list_fmap_ext _ fst); [apply NoDup_fst_map_to_list|].
    by intros ? [[? ?] ?] _.
Qed.

Lemma snapshot_exact_witness :
  let u := Mark 0 (NewUnavailableWithOptions 10) "cx23" "nbg1" CodePlacementError in
  let s := {| sup_ServerType := "cx23"; sup_Location := "nbg1"; sup_Code := CodePlacementError |} in
  s ∈ (Snapshot 5 u).1 /\ (Snapshot 12 u).1 = [].
Proof.
  split; [|by vm_compute].
  apply (proj1 (snapshot_exact 5 5 (Mark 0 (NewUnavailableWithOptions 10) "cx23" "nbg1"
    CodePlacementError) {| sup_ServerType := "cx23"; sup_Location := "nbg1";
    sup_Code := CodePlacementError |} (Z.le_refl 5))). by vm_compute.
Defined.

(** [MarkLocation] suppresses, until one TTL from now, the pairs of that
    location already recorded and nothing else: a type never recorded there
    stays available. *)
Theorem mark_location_scope (now t : time) (u : Unavailable) (loc : string) (c : error_code)
    (st l : string) :
  Has t (MarkLocation now u loc c) st l =
    match u_items u !! (st, l) with
    | None => false
    | Some e => if (l =? loc)%string then t <? now + u_ttl u else t <? e_until e
    end.
Proof.
  unfold Has, MarkLocation. simpl. rewrite map_lookup_imap. simpl.
  destruct (u_items u !! (st, l)) as [e|]; simpl; [|done].
  by destruct (l =? loc)%string.
Qed.
