(* ===== verification/Resources.v ===== *)
(** Node capacity and kubelet overhead.

    Models [internal/providers/instancetype/resources.go]: [Capacity],
    [Overhead], [evictionThreshold], [parseThreshold] and [Allocatable], with
    the float64 arithmetic of the source. *)

From S2P Require Import Prelude GoErrors Float64 Servers Kube Api GoText.

Section WithKube.
Context `{KB : Kube, GT : GoText, IC : IntConv}.

(** The constants 0.07 and 0.02, as the float64 they convert to. *)
Definition DefaultVMMemoryOverheadPercent : float64 := f_ratio 7 100.
Definition DefaultVMDiskOverheadPercent : float64 := f_ratio 2 100.

Definition mem_bytes (memoryGiB memOverhead : float64) : float64 :=
  fmul (fmul memoryGiB (f_of_Z (2 ^ 30))) (fsub (f_of_Z 1) memOverhead).

Definition disk_bytes (diskGB : Z) (diskOverhead : float64) : float64 :=
  fmul (fmul (f_of_Z diskGB) (f_of_Z 1000000000)) (fsub (f_of_Z 1) diskOverhead).

Definition Capacity (cores : Z) (memoryGiB : float64) (diskGB maxPods : Z)
    (memOverhead diskOverhead : float64) : ResourceList :=
  {[ ResourceCPU := NewQuantity cores DecimalSI;
     ResourceMemory := NewQuantity (int64_of_float (mem_bytes memoryGiB memOverhead)) BinarySI;
     ResourceEphemeralStorage :=
       NewQuantity (int64_of_float (disk_bytes diskGB diskOverhead)) DecimalSI;
     ResourcePods := NewQuantity maxPods DecimalSI ]}.

(** [cloudprovider.InstanceTypeOverhead]. *)
Record InstanceTypeOverhead := {
  ov_KubeReserved : ResourceList;
  ov_SystemReserved : ResourceList;
  ov_EvictionThreshold : ResourceList
}.

(** [parseThreshold]: a percentage of [total], or an absolute quantity.  Its only
    caller drops the error, so the parser's own message is not part of it. *)
Definition parseThreshold (value : string) (total : Quantity) : result Quantity :=
  match CutSuffix (TrimSpace value) "%" with
  | Some pct =>
      match ParseFloat pct with
      | None => Err (Errorf ("parsing percentage " +:+ Quote value))
      | Some f =>
          if SpecFloat.SFltb f f_zero || SpecFloat.SFltb (f_of_Z 100) f
          then Err (Errorf ("percentage " +:+ Quote value +:+ " out of range"))
          else
            let b := f_ceil (fdiv (fmul (f_of_Z (q_Value total)) f) (f_of_Z 100)) in
            Ok (NewQuantity (int64_of_float b) BinarySI)
      end
  | None =>
      match ParseQuantity value with
      | None => Err (Errorf ("parsing quantity " +:+ Quote value))
      | Some q => Ok q
      end
  end.

(** Reading a quantity from a list: an absent one is zero. *)
Definition rl_get (rl : ResourceList) (name : string) (f : quantity_format) : Quantity :=
  default (NewQuantity 0 f) (rl !! name).

(** One signal of [evictionThreshold]: set when present and parseable. *)
Definition threshold_signal (evictionHard : gmap string string) (signal : string)
    (total : Quantity) (name : string) (out : ResourceList) : ResourceList :=
  match evictionHard !! signal with
  | None => out
  | Some v =>
      match parseThreshold v total with
      | Ok q => <[ name := q ]> out
      | Err _ => out
      end
  end.

Definition evictionThreshold (evictionHard : gmap string string) (capacity : ResourceList)
    : ResourceList :=
  threshold_signal evictionHard "nodefs.available"
    (rl_get capacity ResourceEphemeralStorage DecimalSI) ResourceEphemeralStorage
    (threshold_signal evictionHard "memory.available"
       (rl_get capacity ResourceMemory BinarySI) ResourceMemory ∅).

Definition Overhead (kubelet : option KubeletConfiguration) (capacity : ResourceList)
    : InstanceTypeOverhead :=
  {| ov_KubeReserved := KubeReservedOrDefault kubelet;
     ov_SystemReserved := SystemReservedOrDefault kubelet;
     ov_EvictionThreshold := evictionThreshold (EvictionHardOrDefault kubelet) capacity |}.

(** One reservation list taken out of the running result: a resource absent
    from it is skipped. *)
Definition sub_list (out sub : ResourceList) : ResourceList :=
  map_imap (fun name cur =>
    Some (match sub !! name with Some q => q_Sub cur q | None => cur end)) out.

Definition Allocatable (capacity : ResourceList) (overhead : InstanceTypeOverhead) : ResourceList :=
  foldl sub_list capacity
    [ov_KubeReserved overhead; ov_SystemReserved overhead; ov_EvictionThreshold overhead].

(** ** Lemmas *)

Definition amount_of `{!QuantityLaws _} (rl : ResourceList) (name : string) : Z :=
  default 0 (q_amount <$> rl !! name).

Lemma sub_list_lookup (out sub : ResourceList) (name : string) :
  sub_list out sub !! name =
    (fun cur => match sub !! name with Some q => q_Sub cur q | None => cur end) <$> out !! name.
Proof. unfold sub_list. rewrite map_lookup_imap. by destruct (out !! name). Qed.

Lemma sub_list_amount `{!QuantityLaws _} (out sub : ResourceList) (name : string) :
  is_Some (out !! name) ->
  is_Some (sub_list out sub !! name) /\
  amount_of (sub_list out sub) name = amount_of out name - amount_of sub name.
Proof.
  intros [q Hq]. unfold amount_of. rewrite sub_list_lookup, Hq. simpl.
  destruct (sub !! name) as [q'|]; simpl; [|split; [eauto|lia]].
  rewrite q_amount_sub. eauto.
Qed.

(** ** Properties *)

(** What karpenter bin-packs against is capacity minus the three reservations,
    resource by resource: every resource of the capacity stays, no other
    appears, and its amount is the difference, without clamping at zero. *)
Theorem allocatable_exact `{!QuantityLaws _} (capacity : ResourceList)
    (overhead : InstanceTypeOverhead) (name : string) :
  (is_Some (Allocatable capacity overhead !! name) <-> is_Some (capacity !! name)) /\
  (is_Some (capacity !! name) ->
   amount_of (Allocatable capacity overhead) name =
     amount_of capacity name - amount_of (ov_KubeReserved overhead) name
       - amount_of (ov_SystemReserved overhead) name
       - amount_of (ov_EvictionThreshold overhead) name).
Proof.
  unfold Allocatable. simpl. split.
  - rewrite !sub_list_lookup, !fmap_is_Some. done.
  - intros Hs.
    destruct (sub_list_amount capacity (ov_KubeReserved overhead) name Hs) as [H1 E1].
    destruct (sub_list_amount _ (ov_SystemReserved overhead) name H1) as [H2 E2].
    destruct (sub_list_amount _ (ov_EvictionThreshold overhead) name H2) as [H3 E3].
    rewrite E3, E2, E1. done.
Qed.

(** A percentage threshold outside 0 to 100, or one that does not parse,
    contributes nothing to the overhead, and the other signal is unaffected. *)
Lemma evictionThreshold_lookup (eh : gmap string string) (cap : ResourceList) (name : string) :
  evictionThreshold eh cap !! name =
    (if (name =? ResourceMemory)%string then
       eh !! "memory.available" ≫= fun v =>
         match parseThreshold v (rl_get cap ResourceMemory BinarySI) with Ok q => Some q | _ => None end
     else if (name =? ResourceEphemeralStorage)%string then
       eh !! "nodefs.available" ≫= fun v =>
         match parseThreshold v (rl_get cap ResourceEphemeralStorage DecimalSI) with
         | Ok q => Some q | _ => None end
     else None).
Proof.
  unfold evictionThreshold, threshold_signal.
  assert (ResourceMemory <> ResourceEphemeralStorage) by done.
  destruct (String.eqb_spec name ResourceMemory) as [->|H1];
    [|destruct (String.eqb_spec name ResourceEphemeralStorage) as [->|H2]].
  all: repeat (case_match; simplify_map_eq/=); congruence.
Qed.

(** The float arithmetic of [Capacity], checked over every whole number of GiB
    and GB in the range: exact to one byte below the real product. *)
Definition mem_exact (g : Z) : bool :=
  match f_trunc (mem_bytes (f_of_Z g) DefaultVMMemoryOverheadPercent) with
  | Some n => (100 * n <=? 93 * (g * 2 ^ 30)) && (93 * (g * 2 ^ 30) - 100 <=? 100 * n) && in_int64 n
  | None => false
  end.

Definition disk_exact (g : Z) : bool :=
  match f_trunc (disk_bytes g DefaultVMDiskOverheadPercent) with
  | Some n => (100 * n <=? 98 * (g * 1000000000)) && (98 * (g * 1000000000) - 100 <=? 100 * n)
              && in_int64 n
  | None => false
  end.

Lemma mem_exact_range : forallb (fun k => mem_exact (Z.of_nat k)) (seq 1 2048) = true.
Proof. by vm_compute. Qed.

Lemma disk_exact_range : forallb (fun k => disk_exact (Z.of_nat k)) (seq 1 2048) = true.
Proof. by vm_compute. Qed.

Lemma forallb_range (f : Z -> bool) (n : nat) (g : Z) :
  forallb (fun k => f (Z.of_nat k)) (seq 1 n) = true -> 1 <= g <= Z.of_nat n -> f g = true.
Proof.
  intros Hf Hg. rewrite forallb_forall in Hf.
  rewrite <- (Z2Nat.id g) by lia. apply Hf. apply in_seq. lia.
Qed.

(** Capacity never over-estimates: for every advertised memory of 1 to 2048 GiB
    and disk of 1 to 2048 GB, the published bytes are 93% and 98% of what is
    advertised, rounded down by at most one byte, in float64 arithmetic. *)
Theorem capacity_underestimates (cores mem disk maxPods : Z)
    (Hm : 1 <= mem <= 2048) (Hd : 1 <= disk <= 2048) :
  exists m d,
    let cap := Capacity cores (f_of_Z mem) disk maxPods
                 DefaultVMMemoryOverheadPercent DefaultVMDiskOverheadPercent in
    cap !! ResourceMemory = Some (NewQuantity m BinarySI) /\
    cap !! ResourceEphemeralStorage = Some (NewQuantity d DecimalSI) /\
    93 * (mem * 2 ^ 30) - 100 <= 100 * m <= 93 * (mem * 2 ^ 30) /\
    98 * (disk * 1000000000) - 100 <= 100 * d <= 98 * (disk * 1000000000).
Proof.
  pose proof (forallb_range _ 2048 mem mem_exact_range Hm) as Em.
  pose proof (forallb_range _ 2048 disk disk_exact_range Hd) as Ed.
  unfold mem_exact in Em. unfold disk_exact in Ed.
  destruct (f_trunc (mem_bytes _ _)) as [m|] eqn:E1; [|done].
  destruct (f_trunc (disk_bytes _ _)) as [d|] eqn:E2; [|done]. bool_hyps.
  exists m, d. unfold Capacity, int64_of_float. rewrite E1, E2.
  repeat match goal with E : in_int64 _ = true |- _ => rewrite E end.
  split; [by simplify_map_eq|]. split; [by simplify_map_eq|]. lia.
Qed.

(** A percentage that [ParseFloat] reads as NaN passes the range check, since no
    comparison with NaN holds, and becomes whatever the implementation makes of
    converting NaN to int64. *)
Theorem nan_percentage_accepted (value pct : string) (total : Quantity)
    (Hcut : CutSuffix (TrimSpace value) "%" = Some pct)
    (Hnan : ParseFloat pct = Some SpecFloat.S754_nan) :
  parseThreshold value total = Ok (NewQuantity (conv_out_of_range SpecFloat.S754_nan) BinarySI).
Proof.
  unfold parseThreshold. rewrite Hcut, Hnan. simpl.
  unfold int64_of_float, fmul, fdiv.
  destruct (f_of_Z (q_Value total)) as [[]|[]| |[] m e]; done.
Qed.
End WithKube.

Section Witnesses.
#[local] Instance text : GoText :=
  {| ParseFloat s := if (s =? "NaN")%string then Some SpecFloat.S754_nan else None;
     FormatG _ := ""; Quote s := s |}.
#[local] Instance conv : IntConv := fun _ => min_int64.
Import KubeExample.

Lemma allocatable_exact_witness :
  let cap := Capacity 2 (f_of_Z 4) 40 110 DefaultVMMemoryOverheadPercent
               DefaultVMDiskOverheadPercent in
  let ov := Overhead None cap in
  amount_of (Allocatable cap ov) ResourceCPU = 2000000000 - 200000000 - 200000000 - 0.
Proof.
  intros cap ov. rewrite (proj2 (allocatable_exact cap ov ResourceCPU)); [by vm_compute|].
  vm_compute. eauto.
Defined.

Lemma capacity_underestimates_witness :
  exists m d,
    let cap := Capacity 2 (f_of_Z 4) 40 110 DefaultVMMemoryOverheadPercent
                 DefaultVMDiskOverheadPercent in
    cap !! ResourceMemory = Some (NewQuantity m BinarySI) /\
    cap !! ResourceEphemeralStorage = Some (NewQuantity d DecimalSI) /\
    93 * (4 * 2 ^ 30) - 100 <= 100 * m <= 93 * (4 * 2 ^ 30) /\
    98 * (40 * 1000000000) - 100 <= 100 * d <= 98 * (40 * 1000000000).
Proof. apply (capacity_underestimates 2 4 40 110); lia. Defined.

Lemma nan_percentage_accepted_witness :
  parseThreshold "NaN%" (NewQuantity 0 BinarySI) =
  Ok (NewQuantity (conv_out_of_range SpecFloat.S754_nan) BinarySI).
Proof. by apply (nan_percentage_accepted "NaN%" "NaN" (NewQuantity 0 BinarySI)). Defined.
End Witnesses.
