(* ===== verification/InstanceTypes.v ===== *)
(** The instance-type catalog karpenter schedules against.

    Models [internal/providers/instancetype/types.go] ([Options], [Build],
    [newInstanceType], [instanceTypeRequirements], [cpuVendor],
    [locationFilter], [keys]), [zone.go] and the catalog types of
    [internal/hcloudapi/types.go] ([Price], [ServerType], [Line]). *)

From S2P Require Import Prelude GoErrors Float64 Servers Kube Api GoText Unavailable Resources.

(** ** The Hetzner catalog *)

Record Price := { pr_HourlyNet : float64; pr_MonthlyNet : float64 }.

Record ServerTypeLocation := {
  stl_Location : string;
  stl_NetworkZone : string;
  stl_Available : bool;
  stl_Recommended : bool;
  stl_Deprecated : bool
}.

Record ServerType := {
  st_ID : Z;
  st_Name : string;
  st_Cores : Z;
  st_MemoryGiB : float64;
  st_DiskGB : Z;
  st_Architecture : string;
  st_CPUType : string;
  st_StorageType : string;
  st_Deprecated : bool;
  st_Prices : gmap string Price;
  st_Locations : list ServerTypeLocation
}.

(** [Line]: the first product line that prefixes the name. *)
Definition Line (s : ServerType) : string :=
  default "" (find (fun p => bool_decide (is_Some (CutPrefix (st_Name s) p)))
                ["ccx"; "cpx"; "cax"; "cx"]).

Definition LegacyDatacenterForLocation (location : string) : string :=
  if (location =? "nbg1")%string then "nbg1-dc3"
  else if (location =? "hel1")%string then "hel1-dc2"
  else if (location =? "fsn1")%string then "fsn1-dc14"
  else if (location =? "ash")%string then "ash-dc1"
  else if (location =? "hil")%string then "hil-dc1"
  else if (location =? "sin")%string then "sin-dc1"
  else location.

Definition cpuVendor (line : string) : string :=
  if (line =? ServerTypeLineCX)%string then "intel"
  else if (line =? ServerTypeLineCPX)%string || (line =? ServerTypeLineCCX)%string then "amd"
  else if (line =? ServerTypeLineCAX)%string then "ampere"
  else "unknown".

Definition HoursPerMonth : float64 := f_of_Z 730.
Definition csiDriver : string := "csi.hetzner.cloud".
Definition maxVolumesPerServer : Z := 16.

Section WithKube.
Context `{KB : Kube, GT : GoText, IC : IntConv}.

(** ** Karpenter's instance types *)

Record Offering := {
  of_Requirements : Requirements;
  of_Price : float64;
  of_Available : bool
}.

Record InstanceType := {
  it_Name : string;
  it_Capacity : ResourceList;
  it_Overhead : InstanceTypeOverhead;
  it_Offerings : list Offering;
  it_Requirements : Requirements;
  it_VolumeAttachmentLimits : gmap string Z
}.

Record Options := {
  opt_MemoryOverheadPercent : float64;
  opt_DiskOverheadPercent : float64;
  opt_IncludeArchitectures : list string
}.

Definition withDefaults (o : Options) : Options :=
  {| opt_MemoryOverheadPercent :=
       if SpecFloat.SFeqb (opt_MemoryOverheadPercent o) f_zero
       then DefaultVMMemoryOverheadPercent else opt_MemoryOverheadPercent o;
     opt_DiskOverheadPercent :=
       if SpecFloat.SFeqb (opt_DiskOverheadPercent o) f_zero
       then DefaultVMDiskOverheadPercent else opt_DiskOverheadPercent o;
     opt_IncludeArchitectures :=
       match opt_IncludeArchitectures o with [] => ["x86"] | l => l end |}.

(** The zero [Options{}] the cloud provider passes. *)
Definition zero_options : Options :=
  {| opt_MemoryOverheadPercent := f_zero; opt_DiskOverheadPercent := f_zero;
     opt_IncludeArchitectures := [] |}.

Definition locationFilter (allowed : list string) (l : string) : bool :=
  match allowed with
  | [] => true
  | _ => bool_decide (l ∈ allowed)
  end.

(** [keys]: the distinct keys, sorted. *)
Definition keys (l : list string) : list string := sort_strings (remove_dups l).

Definition type_requirements (st : ServerType) (regions : list string) : list (string * list string) :=
  let arch := if (st_Architecture st =? "arm")%string then "arm64" else "amd64" in
  [(LabelInstanceTypeStable, [st_Name st]);
   (LabelArchStable, [arch]);
   (LabelOSStable, ["linux"]);
   (CapacityTypeLabelKey, [CapacityTypeOnDemand]);
   (LabelTopologyRegion, regions);
   (LabelCSILocation, regions);
   (LabelServerTypeLine, [Line st]);
   (LabelCPUType, [st_CPUType st]);
   (LabelCPUVendor, [cpuVendor (Line st)]);
   (LabelStorageType, [st_StorageType st]);
   (LabelVCPU, [FormatInt (st_Cores st)]);
   (LabelMemoryGB, [FormatG (st_MemoryGiB st)]);
   (LabelDiskGB, [FormatInt (st_DiskGB st)])].

Definition instanceTypeRequirements (st : ServerType) (regions : list string) : Requirements :=
  NewRequirements (type_requirements st regions).

Definition offering_requirements (l : ServerTypeLocation) : list (string * list string) :=
  [(CapacityTypeLabelKey, [CapacityTypeOnDemand]);
   (LabelTopologyRegion, [stl_Location l]);
   (LabelTopologyZone, [LegacyDatacenterForLocation (stl_Location l)]);
   (LabelCSILocation, [stl_Location l]);
   (LabelNetworkZone, [stl_NetworkZone l])].

(** The hourly price of a type in a location: the monthly cap, with the IPv4
    surcharge when the NodeClass asks for one, over the billing month. *)
Definition hourly_price (nodeClass : HCloudNodeClass) (primaryIPv4Monthly : float64)
    (price : Price) : float64 :=
  let monthly :=
    if PublicIPv4Enabled (Some (nc_Spec nodeClass))
    then fadd (pr_MonthlyNet price) primaryIPv4Monthly else pr_MonthlyNet price in
  fdiv monthly HoursPerMonth.

(** One iteration of the offering loop: no price, no offering. *)
Definition newOffering (now : time) (st : ServerType) (nodeClass : HCloudNodeClass)
    (primaryIPv4Monthly : float64) (unavailable : Unavailable) (l : ServerTypeLocation)
    : option Offering :=
  price ← st_Prices st !! stl_Location l;
  Some {| of_Requirements := NewRequirements (offering_requirements l);
          of_Price := hourly_price nodeClass primaryIPv4Monthly price;
          of_Available := negb (Has now unavailable (st_Name st) (stl_Location l)) |}.

Definition newInstanceType (now : time) (st : ServerType) (locs : list ServerTypeLocation)
    (nodeClass : HCloudNodeClass) (primaryIPv4Monthly : float64) (unavailable : Unavailable)
    (opts : Options) : option InstanceType :=
  let kubelet := spec_Kubelet (nc_Spec nodeClass) in
  let capacity := Capacity (st_Cores st) (st_MemoryGiB st) (st_DiskGB st)
    (MaxPodsOrDefault (Some kubelet)) (opt_MemoryOverheadPercent opts) (opt_DiskOverheadPercent opts) in
  let offerings := omap (newOffering now st nodeClass primaryIPv4Monthly unavailable) locs in
  let regions := omap (fun l => _ ← st_Prices st !! stl_Location l; Some (stl_Location l)) locs in
  match offerings with
  | [] => None
  | _ => Some
      {| it_Name := st_Name st;
         it_Capacity := capacity;
         it_Overhead := Overhead (Some kubelet) capacity;
         it_Offerings := offerings;
         it_Requirements := instanceTypeRequirements st (keys regions);
         it_VolumeAttachmentLimits := {[ csiDriver := maxVolumesPerServer ]} |}
  end.

(** A location of a type that is in scope and not being phased out. *)
Definition usable_location (inScope : string -> bool) (l : ServerTypeLocation) : bool :=
  negb (negb (inScope (stl_Location l)) || stl_Deprecated l).

Definition build_one (now : time) (nodeClass : HCloudNodeClass) (primaryIPv4Monthly : float64)
    (unavailable : Unavailable) (opts : Options) (st : ServerType) : option InstanceType :=
  if st_Deprecated st || negb (bool_decide (st_Architecture st ∈ opt_IncludeArchitectures opts))
  then None
  else
    let inScope := locationFilter (spec_Locations (nc_Spec nodeClass)) in
    match filter (fun l => usable_location inScope l = true) (st_Locations st) with
    | [] => None
    | locs => newInstanceType now st locs nodeClass primaryIPv4Monthly unavailable opts
    end.

Definition Build (now : time) (serverTypes : list ServerType) (nodeClass : HCloudNodeClass)
    (primaryIPv4Monthly : float64) (unavailable : Unavailable) (opts : Options)
    : list InstanceType :=
  let opts := withDefaults opts in
  stable_sort (fun a b => (it_Name a <? it_Name b)%string)
    (omap (build_one now nodeClass primaryIPv4Monthly unavailable opts) serverTypes).

(** ** Lemmas *)

Lemma offering_requirements_nodup (l : ServerTypeLocation) :
  NoDup (offering_requirements l).*1.
Proof. simpl. apply (bool_decide_unpack _). by vm_compute. Qed.

(** The region of an offering is one definite value. *)
Lemma offering_region `{!RequirementLaws KB} (l : ServerTypeLocation) :
  let r := ReqGet (NewRequirements (offering_requirements l)) LabelTopologyRegion in
  ReqLen r = 1 /\ ReqValues r = [stl_Location l].
Proof.
  apply req_get_single; [apply offering_requirements_nodup|].
  unfold offering_requirements. set_solver.
Qed.

Lemma newInstanceType_Some now st locs nodeClass ipv4 u opts it :
  newInstanceType now st locs nodeClass ipv4 u opts = Some it ->
  it_Name it = st_Name st /\
  it_Offerings it = omap (newOffering now st nodeClass ipv4 u) locs /\
  it_Offerings it <> [].
Proof. unfold newInstanceType. intros. case_match; simplify_eq/=; done. Qed.

Lemma build_one_Some now nodeClass ipv4 u opts st it :
  build_one now nodeClass ipv4 u opts st = Some it <->
  st_Deprecated st = false /\ st_Architecture st ∈ opt_IncludeArchitectures opts /\
  newInstanceType now st
    (filter (fun l => usable_location (locationFilter (spec_Locations (nc_Spec nodeClass))) l = true)
       (st_Locations st)) nodeClass ipv4 u opts = Some it.
Proof.
  unfold build_one. destruct (st_Deprecated st); simpl; [naive_solver|].
  case_bool_decide; simpl; [|naive_solver].
  destruct (filter _ _); [|naive_solver]. split; [done|]. intros (_ & _ & Hn). done.
Qed.

(** What [Build] is meant to offer: a non-deprecated type of an included
    architecture, in a location of its own that is in scope, not deprecated and
    priced. *)
Record offered (opts : Options) (nodeClass : HCloudNodeClass) (serverTypes : list ServerType)
    (st : ServerType) (l : ServerTypeLocation) (price : Price) : Prop := {
  offered_type : st ∈ serverTypes;
  offered_live : st_Deprecated st = false;
  offered_arch : st_Architecture st ∈ opt_IncludeArchitectures (withDefaults opts);
  offered_location : l ∈ st_Locations st;
  offered_location_live : stl_Deprecated l = false;
  offered_scope : spec_Locations (nc_Spec nodeClass) = [] \/
                  stl_Location l ∈ spec_Locations (nc_Spec nodeClass);
  offered_price : st_Prices st !! stl_Location l = Some price
}.

Lemma usable_location_spec (allowed : list string) (l : ServerTypeLocation) :
  usable_location (locationFilter allowed) l = true <->
  (allowed = [] \/ stl_Location l ∈ allowed) /\ stl_Deprecated l = false.
Proof.
  unfold usable_location, locationFilter. destruct allowed as [|a allowed]; simpl.
  - destruct (stl_Deprecated l); naive_solver.
  - case_bool_decide as Hb; destruct (stl_Deprecated l); simpl; naive_solver.
Qed.

Lemma newOffering_Some now st nodeClass ipv4 u l o :
  newOffering now st nodeClass ipv4 u l = Some o <->
  exists price, st_Prices st !! stl_Location l = Some price /\
    o = {| of_Requirements := NewRequirements (offering_requirements l);
           of_Price := hourly_price nodeClass ipv4 price;
           of_Available := negb (Has now u (st_Name st) (stl_Location l)) |}.
Proof.
  unfold newOffering. destruct (st_Prices st !! stl_Location l); simpl; naive_solver.
Qed.

Lemma elem_of_Build now serverTypes nodeClass ipv4 u opts it :
  it ∈ Build now serverTypes nodeClass ipv4 u opts <->
  exists st, st ∈ serverTypes /\
    build_one now nodeClass ipv4 u (withDefaults opts) st = Some it.
Proof. unfold Build. rewrite elem_of_stable_sort, list_elem_of_omap. done. Qed.

(** ** Properties *)

(** The keys of karpenter's own that an offer is described by. *)
Definition core_labels : list string :=
  [LabelInstanceTypeStable; LabelArchStable; LabelOSStable; CapacityTypeLabelKey; LabelTopologyRegion;
   LabelTopologyZone].

(** karpenter ignores a requirement on a label it does not know.  Every label an
    instance type or an offering is described by is karpenter's own or one the
    provider registers, and every one it registers describes something: a NodePool
    can select on exactly what is offered. *)
Theorem offered_labels_registered (st : ServerType) (regions : list string) (l : ServerTypeLocation)
    (k : string) :
  k ∈ (type_requirements st regions).*1 ++ (offering_requirements l).*1 <->
  k ∈ init_WellKnownLabels (list_to_set core_labels).
Proof.
  unfold init_WellKnownLabels, core_labels, wellKnownLabels. cbn [type_requirements offering_requirements fmap
    list_fmap fst app list_to_set]. rewrite !elem_of_cons, elem_of_nil. set_solver.
Qed.

(** C34. [Build] offers exactly what is live, in the spec's locations and priced: an
    offering appears under a name if and only if some type of that name, neither
    deprecated nor of an architecture left out, has a location that is not
    deprecated, is one of spec.locations (any, when that is empty: the network's
    zone plays no part here, although the API's doc comment says it does) and has
    a price.  It then requires on-demand capacity, that location as region and CSI
    location, its legacy datacenter as zone and its network zone; costs the
    monthly net price, plus the monthly price of an IPv4 when the NodeClass asks
    for one, over 730 hours; and is available exactly when the pair is not
    suppressed, whatever Hetzner's own availability flag says. *)
Theorem build_offers_exactly now serverTypes nodeClass ipv4 u opts (name : string) (o : Offering) :
  (exists it, it ∈ Build now serverTypes nodeClass ipv4 u opts /\
     it_Name it = name /\ o ∈ it_Offerings it) <->
  (exists st l price, offered opts nodeClass serverTypes st l price /\ st_Name st = name /\
     of_Requirements o = NewRequirements
       [(CapacityTypeLabelKey, ["on-demand"]);
        (LabelTopologyRegion, [stl_Location l]);
        (LabelTopologyZone, [LegacyDatacenterForLocation (stl_Location l)]);
        (LabelCSILocation, [stl_Location l]);
        (LabelNetworkZone, [stl_NetworkZone l])] /\
     of_Price o = fdiv (if PublicIPv4Enabled (Some (nc_Spec nodeClass))
                        then fadd (pr_MonthlyNet price) ipv4 else pr_MonthlyNet price) (f_of_Z 730) /\
     of_Available o = negb (Has now u (st_Name st) (stl_Location l))).
Proof.
  split.
  - intros (it & Hit & Hn & Ho). apply elem_of_Build in Hit as (st & Hst & Hb).
    apply build_one_Some in Hb as (Hd & Ha & Hnew).
    apply newInstanceType_Some in Hnew as (Hname & Hoff & _). rewrite Hoff in Ho.
    apply list_elem_of_omap in Ho as (l & Hl & Hlo).
    apply list_elem_of_filter in Hl as [Hu Hl]. apply usable_location_spec in Hu as [Hs Hld].
    apply newOffering_Some in Hlo as (price & Hp & ->).
    exists st, l, price. split; [by split|]. split; [congruence|done].
  - intros (st & l & price & [Hst Hd Ha Hl Hld Hs Hp] & <- & Hr & Hpr & Hav).
    set (locs := filter (fun l => usable_location (locationFilter
      (spec_Locations (nc_Spec nodeClass))) l = true) (st_Locations st)).
    assert (o ∈ omap (newOffering now st nodeClass ipv4 u) locs) as Hin.
    { apply list_elem_of_omap. exists l. split; [|apply newOffering_Some; exists price; split; [done|];
        destruct o; cbn in *; by subst].
      apply list_elem_of_filter. split; [by apply usable_location_spec|done]. }
    destruct (newInstanceType now st locs nodeClass ipv4 u (withDefaults opts)) as [it|] eqn:E.
    + exists it. pose proof (newInstanceType_Some _ _ _ _ _ _ _ _ E) as (Hn & Ho & _).
      split; [|by rewrite Ho]. apply elem_of_Build. exists st. split; [done|].
      by apply build_one_Some.
    + unfold newInstanceType in E.
      destruct (omap (newOffering now st nodeClass ipv4 u) locs) eqn:Eo; [|done].
      by apply elem_of_nil in Hin.
Qed.

(** The catalog comes out in name order whatever order Hetzner lists types in,
    and no instance type is without an offering. *)
Theorem build_sorted now serverTypes nodeClass ipv4 u opts :
  StronglySorted (fun a b => String.le (it_Name a) (it_Name b))
    (Build now serverTypes nodeClass ipv4 u opts) /\
  Forall (fun it => it_Offerings it <> []) (Build now serverTypes nodeClass ipv4 u opts).
Proof.
  split.
  - eapply StronglySorted_weaken; cycle 1.
    + apply (stable_sort_sorted _ (fun _ => True)); [|by apply Forall_true].
      destruct string_less_strict_weak as [Ha Ht]. split; eauto.
    + intros a b Hab. by apply ltb_false_le.
  - apply Forall_forall. intros it Hit. apply elem_of_Build in Hit as (st & _ & Hb).
    apply build_one_Some in Hb as (_ & _ & Hn).
    by apply newInstanceType_Some in Hn as (_ & _ & Hne).
Qed.
End WithKube.

(** ** A concrete catalog *)
Module CatalogExample.
Import KubeExample.

#[export] Instance text : GoText :=
  {| ParseFloat _ := None; FormatG _ := "4"; Quote s := s |}.
#[export] Instance conv : IntConv := fun _ => min_int64.

Definition loc (name zone : string) : ServerTypeLocation :=
  {| stl_Location := name; stl_NetworkZone := zone; stl_Available := true;
     stl_Recommended := false; stl_Deprecated := false |}.

Definition eur (cents : Z) : Price :=
  {| pr_HourlyNet := f_ratio cents 73000; pr_MonthlyNet := f_ratio cents 100 |}.

Definition cx23 : ServerType :=
  {| st_ID := 114; st_Name := "cx23"; st_Cores := 2; st_MemoryGiB := f_of_Z 4; st_DiskGB := 40;
     st_Architecture := "x86"; st_CPUType := "shared"; st_StorageType := "local";
     st_Deprecated := false;
     st_Prices := {[ "nbg1" := eur 349; "fsn1" := eur 349 ]};
     st_Locations := [loc "nbg1" "eu-central"; loc "fsn1" "eu-central"] |}.

Definition cpx22 : ServerType :=
  {| st_ID := 115; st_Name := "cpx22"; st_Cores := 2; st_MemoryGiB := f_of_Z 4; st_DiskGB := 80;
     st_Architecture := "x86"; st_CPUType := "shared"; st_StorageType := "local";
     st_Deprecated := false;
     st_Prices := {[ "nbg1" := eur 649; "ash" := eur 649 ]};
     st_Locations := [loc "nbg1" "eu-central"; loc "ash" "us-east"] |}.

Definition kubelet : KubeletConfiguration :=
  {| kl_KubeReserved := ∅; kl_SystemReserved := ∅; kl_EvictionHard := ∅; kl_EvictionSoft := ∅;
     kl_EvictionSoftGracePeriod := ∅; kl_MaxPods := None; kl_ClusterDNS := []; kl_ExtraArgs := [] |}.

Definition bootstrap : BootstrapSpec :=
  {| bs_OSFamily := "Debian"; bs_Mode := "Managed"; bs_KubernetesVersion := "1.34.7";
     bs_PackageRevision := ""; bs_APIServerEndpoint := ""; bs_CACertHashes := [];
     bs_Containerd := {| cd_SystemdCgroup := None; cd_AptPin := ""; cd_ExtraConfig := "" |};
     bs_UnattendedUpgrades :=
       {| uu_Enabled := None; uu_ExtraOrigins := []; uu_RemoveUnusedKernelPackages := None |};
     bs_Sysctls := ∅; bs_KernelModules := []; bs_PackageUpgradeOnBoot := None;
     bs_ExtraPackages := []; bs_ExtraFiles := []; bs_PreJoinCommands := [];
     bs_PostJoinCommands := []; bs_Revision := "" |}.

Definition spec (locations : list string) (labels : gmap string string) : HCloudNodeClassSpec :=
  {| spec_ImageSelector := {| sel_Name := "debian-13"; sel_ID := None |};
     spec_ImageDriftPolicy := ""; spec_MaxNodeAge := None; spec_Locations := locations;
     spec_NetworkSelector := Some {| sel_Name := "k8s"; sel_ID := None |};
     spec_FirewallSelectors := []; spec_SSHKeySelectors := []; spec_PlacementGroup := None;
     spec_PublicIPv4 := None; spec_PublicIPv6 := None; spec_ServerLabels := labels;
     spec_Kubelet := kubelet; spec_Bootstrap := bootstrap |}.

Definition status : HCloudNodeClassStatus :=
  {| status_Image := Some {| ist_ID := 7; ist_Name := "debian-13"; ist_Description := "";
                             ist_Architecture := "x86"; ist_Created := "" |};
     status_Network := Some {| nst_ID := 9; nst_Name := "k8s"; nst_IPRange := "10.0.0.0/8";
                               nst_Zone := "eu-central" |};
     status_Firewalls := []; status_SSHKeys := []; status_PlacementGroup := None;
     status_Locations := [{| lst_Name := "nbg1"; lst_NetworkZone := "eu-central";
                             lst_Datacenters := [] |}];
     status_APIServerEndpoint := "10.0.0.2:6443"; status_CACertHashes := ["sha256:00"];
     status_Conditions := ready |}.

Definition nodeClass (locations : list string) (labels : gmap string string) : HCloudNodeClass :=
  {| nc_Name := "default"; nc_UID := "u"; nc_Generation := 1; nc_DeletionTimestamp := None;
     nc_Finalizers := []; nc_Annotations := ∅; nc_Spec := spec locations labels;
     nc_Status := status |}.

Definition types (locations : list string) (u : Unavailable) : list InstanceType :=
  Build 0 [cx23; cpx22] (nodeClass locations ∅) (f_ratio 50 100) u zero_options.

Definition regions_of (its : list InstanceType) : list (string * list string) :=
  its ≫= fun it => (fun o => (it_Name it, ReqValues (ReqGet (of_Requirements o) LabelTopologyRegion)))
    <$> it_Offerings it.
End CatalogExample.

Import KubeExample CatalogExample.

(** With [spec.locations] empty, a location outside the private network's zone
    is still offered: [Build] reads [spec.locations] and never the zone-bounded
    [status.locations]. *)
Theorem build_ignores_network_zone :
  exists (nc : HCloudNodeClass) (sts : list ServerType),
    spec_Locations (nc_Spec nc) = [] /\
    nst_Zone <$> status_Network (nc_Status nc) = Some "eu-central" /\
    lst_Name <$> status_Locations (nc_Status nc) = ["nbg1"] /\
    ("cpx22", ["ash"]) ∈ regions_of
      (Build 0 sts nc f_zero NewUnavailable zero_options).
Proof.
  exists (nodeClass [] ∅), [cx23; cpx22].
  split_and!; [done..|]. apply (bool_decide_unpack _). by vm_compute.
Qed.
