(* ===== verification/Catalog.v ===== *)
(** The catalog provider: a periodically refreshed snapshot of the server types.

    Models [internal/providers/catalog/catalog.go]: [Refresh], [Get], [Stale],
    the refresh loop of [Start] and [nextInterval].  The Hetzner catalog calls
    are the class [CatalogAPI]; the provider's atomics and gauges are the fields
    of [catalog]. *)

From S2P Require Import Prelude GoErrors Float64 GoText Servers Kube Api Unavailable Resources.
From S2P Require Import InstanceTypes.

Definition DefaultRefreshInterval : duration := 10 * minute.
Definition DefaultJitter : duration := 60 * second.

(** An immutable view of the catalog at one instant. *)
Record Snapshot := {
  sn_Generation : Z;
  sn_ServerTypes : list ServerType;
  sn_PrimaryIPv4Monthly : float64;
  sn_FetchedAt : time
}.

(** [hcloudapi.Catalog]. *)
Class CatalogAPI (W : Type) := {
  api_ServerTypes : W -> result (list ServerType) * W;
  api_PrimaryIPv4MonthlyNet : W -> result float64 * W
}.

(** [Provider], and the gauges only it writes: the published availability per
    (type, location) and the time of the last success. *)
Record catalog := {
  cat_interval : duration;
  cat_jitter : duration;
  cat_generation : Z;
  cat_snapshot : option Snapshot;
  cat_stale : bool;
  cat_refreshed : bool;   (* whether the one-slot channel holds a wake-up *)
  cat_lastSuccess : option time;
  cat_availability : gmap (string * string) float64
}.

Definition NewCatalog : catalog :=
  {| cat_interval := DefaultRefreshInterval; cat_jitter := DefaultJitter; cat_generation := 0;
     cat_snapshot := None; cat_stale := false; cat_refreshed := false; cat_lastSuccess := None;
     cat_availability := ∅ |}.

(** The options of [NewProvider]; the clock is the world's. *)
Definition WithInterval (d : duration) (p : catalog) : catalog :=
  {| cat_interval := d; cat_jitter := cat_jitter p; cat_generation := cat_generation p;
     cat_snapshot := cat_snapshot p; cat_stale := cat_stale p; cat_refreshed := cat_refreshed p;
     cat_lastSuccess := cat_lastSuccess p; cat_availability := cat_availability p |}.

Definition WithJitter (d : duration) (p : catalog) : catalog :=
  {| cat_interval := cat_interval p; cat_jitter := d; cat_generation := cat_generation p;
     cat_snapshot := cat_snapshot p; cat_stale := cat_stale p; cat_refreshed := cat_refreshed p;
     cat_lastSuccess := cat_lastSuccess p; cat_availability := cat_availability p |}.

Definition NewCatalogWith (opts : list (catalog -> catalog)) : catalog :=
  foldl (fun p o => o p) NewCatalog opts.

Definition Get (p : catalog) : option Snapshot := cat_snapshot p.
Definition Stale (p : catalog) : bool := cat_stale p.

(** [generation.Add(1)] on a uint64. *)
Definition next_generation (g : Z) : Z := (g + 1) mod 2 ^ 64.

Definition boolToFloat (b : bool) : float64 := if b then f_of_Z 1 else f_of_Z 0.

(** The published flags, rebuilt from nothing: a later entry for the same pair
    overwrites an earlier one. *)
Definition availability_flags (serverTypes : list ServerType) : gmap (string * string) float64 :=
  foldl (fun g st =>
    foldl (fun g l => <[ (st_Name st, stl_Location l) := boolToFloat (stl_Available l) ]> g) g (st_Locations st))
    ∅ serverTypes.

Section Refresh.
Context `{KE : KarpErrors}.
Context {W : Type} `{CAT : CatalogAPI W, CK : Clock W}.

Definition Refresh (p : catalog) (w : W) : option error * catalog * W :=
  match api_ServerTypes w with
  | (Err err, w) =>
      (Some (Wrapf "refreshing server types: " err),
       {| cat_interval := cat_interval p; cat_jitter := cat_jitter p;
          cat_generation := cat_generation p; cat_snapshot := cat_snapshot p;
          cat_stale := true; cat_refreshed := cat_refreshed p;
          cat_lastSuccess := cat_lastSuccess p; cat_availability := cat_availability p |}, w)
  | (Ok serverTypes, w) =>
      let '(r, w) := api_PrimaryIPv4MonthlyNet w in
      let primaryIPv4 := match r with Ok f => f | Err _ => f_zero end in
      let g := next_generation (cat_generation p) in
      (None,
       {| cat_interval := cat_interval p; cat_jitter := cat_jitter p;
          cat_generation := g;
          cat_snapshot := Some {| sn_Generation := g; sn_ServerTypes := serverTypes;
                                  sn_PrimaryIPv4Monthly := primaryIPv4;
                                  sn_FetchedAt := world_now w |};
          cat_stale := false; cat_refreshed := true;
          cat_lastSuccess := Some (world_now w);
          cat_availability := availability_flags serverTypes |}, w)
  end.

(** [Start]: the first refresh, then one per tick until the context ends.  A
    fatal first failure is returned; everything else keeps the loop running. *)
Inductive start_result := StartReturned (err : error) | StartLooping.

Definition Start_first (p : catalog) (w : W) : start_result * catalog * W :=
  let '(r, p, w) := Refresh p w in
  (match r with
   | Some err => if decide (Classify (Some err) = ClassFatal) then StartReturned err
                 else StartLooping
   | None => StartLooping
   end, p, w).

(** The loop's tick: the error, if any, is logged and dropped. *)
Definition Start_tick (p : catalog) (w : W) : catalog * W :=
  let '(_, p, w) := Refresh p w in (p, w).

(** A reader takes the pending wake-up. *)
Definition take_refreshed (p : catalog) : option catalog :=
  if cat_refreshed p then
    Some {| cat_interval := cat_interval p; cat_jitter := cat_jitter p;
            cat_generation := cat_generation p; cat_snapshot := cat_snapshot p;
            cat_stale := cat_stale p; cat_refreshed := false;
            cat_lastSuccess := cat_lastSuccess p; cat_availability := cat_availability p |}
  else None.
End Refresh.

(** [Duration.Truncate], toward zero. *)
Definition Truncate (d m : duration) : duration := if m <=? 0 then d else Z.quot d m * m.

(** [Duration.String] of whole seconds. *)
Definition seconds_String (d : duration) : string :=
  let n := Z.abs d / second in
  let h := n / 3600 in
  let m := n / 60 mod 60 in
  let s := FormatInt (n mod 60) +:+ "s" in
  (if d <? 0 then "-" else "") +:+
  (if 0 <? h then FormatInt h +:+ "h" +:+ FormatInt m +:+ "m" +:+ s
   else if 0 <? m then FormatInt m +:+ "m" +:+ s
   else s).

Definition staleFor (now : time) (p : catalog) : string :=
  match cat_snapshot p with
  | None => "never fetched"
  | Some s => seconds_String (Truncate (time_sub now (sn_FetchedAt s)) second)
  end.

Example stale_for_hours :
  seconds_String (Truncate (3 * 3600 * second + 61 * second + 5) second) = "3h1m1s".
Proof. reflexivity. Qed.

(** [nextInterval]: [int63n] is [rand.Int63n], a draw below its argument. *)
Definition nextInterval (int63n : Z -> Z) (p : catalog) : duration :=
  if cat_jitter p <=? 0 then cat_interval p
  else cat_interval p + int63n (cat_jitter p).

(** ** The run of the refresh loop *)

Section Run.
Context `{KE : KarpErrors}.
Context {W : Type} `{CAT : CatalogAPI W, CK : Clock W}.

(** What happens to the provider: a tick of the loop, a reader draining the
    channel, the world changing on its own. *)
Inductive cat_step : catalog * W -> catalog * W -> Prop :=
  | StepTick p w p' w' : Start_tick p w = (p', w') -> cat_step (p, w) (p', w')
  | StepDrain p w p' : take_refreshed p = Some p' -> cat_step (p, w) (p', w)
  | StepWorld p w w' : cat_step (p, w) (p, w').

(** The number of the latest snapshot is the generation counter, a snapshot is
    there exactly once one refresh has succeeded, and the published flags are
    those of the snapshot served. *)
Record cat_inv (p : catalog) : Prop := {
  inv_generation : forall s, cat_snapshot p = Some s -> sn_Generation s = cat_generation p;
  inv_success : cat_lastSuccess p = sn_FetchedAt <$> cat_snapshot p;
  inv_flags : cat_availability p =
    default ∅ (availability_flags ∘ sn_ServerTypes <$> cat_snapshot p);
  inv_wakeup : cat_refreshed p = true -> is_Some (cat_snapshot p)
}.

Lemma cat_inv_new : cat_inv NewCatalog.
Proof. by split. Qed.

Lemma Refresh_inv (p : catalog) (w : W) (r : option error) (p' : catalog) (w' : W) :
  cat_inv p -> Refresh p w = (r, p', w') -> cat_inv p'.
Proof.
  intros [H1 H2 H3 H4]. unfold Refresh. destruct (api_ServerTypes w) as [[sts|err] w1].
  - destruct (api_PrimaryIPv4MonthlyNet w1) as [ip w2]. intros [= <- <- <-].
    split; simpl; naive_solver.
  - intros [= <- <- <-]. by split.
Qed.

Lemma cat_step_inv (x y : catalog * W) : cat_step x y -> cat_inv x.1 -> cat_inv y.1.
Proof.
  destruct 1 as [p w p' w' E|p w p' E|p w w']; simpl; intros Hinv; [| |done].
  - unfold Start_tick in E. destruct (Refresh p w) as [[r p1] w1] eqn:ER. simplify_eq.
    by eapply Refresh_inv.
  - unfold take_refreshed in E. destruct (cat_refreshed p); simplify_eq.
    destruct Hinv. by split.
Qed.

(** A snapshot once served is never withdrawn, whatever fails later. *)
Lemma cat_step_keeps (x y : catalog * W) :
  cat_step x y -> is_Some (Get x.1) -> is_Some (Get y.1).
Proof.
  unfold Get. destruct 1 as [p w p' w' E|p w p' E|p w w']; simpl; intros Hs; [| |done].
  - unfold Start_tick, Refresh in E. destruct (api_ServerTypes w) as [[sts|err] w1].
    + destruct (api_PrimaryIPv4MonthlyNet w1) as [ip w2]. by simplify_eq/=.
    + by simplify_eq.
  - unfold take_refreshed in E. destruct (cat_refreshed p); by simplify_eq.
Qed.

(** Along every run of the loop: the catalog invariant holds, and once a
    snapshot has been served one always is, through any number of failed
    refreshes. *)
Theorem catalog_serves_last_good (x y : catalog * W) (Hinv : cat_inv x.1) (Hrun : rtc cat_step x y) :
  cat_inv y.1 /\ (is_Some (Get x.1) -> is_Some (Get y.1)).
Proof.
  induction Hrun as [x|x y z Hs _ IH]; [done|].
  destruct (IH (cat_step_inv x y Hs Hinv)) as [H1 H2]. split; [done|].
  intros Hx. by eapply H2, cat_step_keeps.
Qed.

(** One refresh: it fails exactly when the server types cannot be read, and
    then changes nothing but the stale mark; otherwise it serves what was read
    under the next generation, clears the mark, publishes exactly the
    availability flags of what was read and leaves a wake-up.  A missing IPv4
    price never fails it. *)
Theorem refresh_spec (p : catalog) (w : W) :
  let '(r, p', _) := Refresh p w in
  match (api_ServerTypes w).1 with
  | Err err =>
      r = Some (Wrapf "refreshing server types: " err) /\ Classify r = Classify (Some err) /\
      Get p' = Get p /\ Stale p' = true /\ cat_generation p' = cat_generation p /\
      cat_availability p' = cat_availability p /\ cat_refreshed p' = cat_refreshed p
  | Ok sts =>
      r = None /\ Stale p' = false /\ cat_refreshed p' = true /\
      (exists s, Get p' = Some s /\ sn_ServerTypes s = sts /\
         sn_Generation s = next_generation (cat_generation p)) /\
      cat_availability p' = availability_flags sts
  end.
Proof.
  unfold Refresh, Get, Stale. destruct (api_ServerTypes w) as [[sts|err] w1]; simpl.
  - destruct (api_PrimaryIPv4MonthlyNet w1) as [ip w2]. naive_solver.
  - done.
Qed.

(** Only a rejected credential stops the process: [Start] returns from its first
    refresh exactly when that failed with a fatal class. *)
Theorem start_stops_only_on_fatal (p : catalog) (w : W) (err : error) :
  (Start_first p w).1.1 = StartReturned err <->
  exists e, (api_ServerTypes w).1 = Err e /\ Classify (Some e) = ClassFatal /\
    err = Wrapf "refreshing server types: " e.
Proof.
  unfold Start_first, Refresh. destruct (api_ServerTypes w) as [[sts|e] w1]; simpl.
  - destruct (api_PrimaryIPv4MonthlyNet w1) as [ip w2]. simpl. naive_solver.
  - change (Classify (Some (Wrapf "refreshing server types: " e))) with (Classify (Some e)).
    case_decide; naive_solver.
Qed.
End Run.

(** The wait between refreshes stays within the interval and the interval plus
    the jitter, for any draw [rand.Int63n] may make. *)
Theorem next_interval_bounds (int63n : Z -> Z) (p : catalog)
    (Hdraw : forall n, 0 < n -> 0 <= int63n n < n) :
  cat_interval p <= nextInterval int63n p <= cat_interval p + Z.max 0 (cat_jitter p).
Proof.
  unfold nextInterval. destruct (Z.leb_spec (cat_jitter p) 0); [lia|].
  specialize (Hdraw (cat_jitter p) H). lia.
Qed.

Lemma next_interval_bounds_witness :
  DefaultRefreshInterval <= nextInterval (fun n => n - 1) NewCatalog <= DefaultRefreshInterval + DefaultJitter.
Proof. apply (next_interval_bounds (fun n => n - 1) NewCatalog). intros n Hn. lia. Defined.

Section Witnesses.
Import CatalogExample.
#[local] Instance unwraps : KarpErrors := fun _ => true.

(** A catalog endpoint that answers twice and then fails for good; the world
    counts the calls. *)
#[local] Instance flaky : CatalogAPI nat := {
  api_ServerTypes n := (if (n <=? 1)%nat then Ok [cx23; cpx22]
                        else Err (HcloudError CodeServiceError "unavailable" None), S n);
  api_PrimaryIPv4MonthlyNet n := (Ok (f_ratio 50 100), n)
}.
#[local] Instance counter_clock : Clock nat := fun n => Z.of_nat n * second.

Definition after_ticks (n : nat) : catalog * nat :=
  Nat.iter n (fun x => Start_tick x.1 x.2) (NewCatalog, 0%nat).

Lemma catalog_serves_last_good_witness :
  Stale (after_ticks 4).1 = true /\ sn_Generation <$> Get (after_ticks 4).1 = Some 2 /\
  cat_inv (after_ticks 4).1 /\
  (is_Some (Get (after_ticks 1).1) -> is_Some (Get (after_ticks 4).1)).
Proof.
  split; [by vm_compute|]. split; [by vm_compute|].
  apply (catalog_serves_last_good (after_ticks 1) (after_ticks 4)).
  - by eapply (Refresh_inv NewCatalog 0%nat _ _ _ cat_inv_new).
  - do 3 (eapply rtc_l; [by apply StepTick|]). apply rtc_refl.
Defined.
End Witnesses.
