(* ===== verification/CatalogClient.v ===== *)
(** The catalog adapter: Hetzner's price list as server types.

    Models [catalogClient] of [internal/hcloudapi/types.go]: [networkZones],
    [ServerTypes] and [PrimaryIPv4MonthlyNet].  hcloud-go is a class over the
    world; [catalog_client] is the instance of [CatalogAPI] the catalog provider
    refreshes from. *)

From S2P Require Import Prelude GoErrors Float64 GoText Servers Redact Kube Api Unavailable.
From S2P Require Import Resources InstanceTypes Catalog.

(** ** The SDK's objects; pointers are options, prices are decimal text *)

Record sdk_pricing := { sp_Location : option string; sp_HourlyNet : string; sp_MonthlyNet : string }.

Record sdk_type_location := {
  tl_Location : option string; tl_Available : bool; tl_Recommended : bool; tl_IsDeprecated : bool
}.

(** [hcloud.ServerType]; the memory's float32 widens to a float64 exactly. *)
Record sdk_server_type := {
  ty_ID : Z; ty_Name : string; ty_Cores : Z; ty_Memory : float64; ty_Disk : Z;
  ty_Architecture : string; ty_CPUType : string; ty_StorageType : string; ty_IsDeprecated : bool;
  ty_Pricings : list sdk_pricing; ty_Locations : list sdk_type_location
}.

Record sdk_location := { lo_Name : string; lo_NetworkZone : string }.

(** A primary IP's type and the monthly price texts of its pricings. *)
Record sdk_primary_ip := { ip_Type : string; ip_Monthly : list string }.

Class HcloudCatalog (W : Type) := {
  sdk_Locations : W -> result (list (option sdk_location)) * W;
  sdk_ServerTypes : W -> result (list sdk_server_type) * W;
  sdk_PrimaryIPs : W -> result (list sdk_primary_ip) * W
}.

(** ** The adapter *)

Section Client.
Context `{GT : GoText, KE : KarpErrors, ET : ErrorText} (apiToken : option string).

Definition add_zone (zones : gmap string string) (l : option sdk_location) : gmap string string :=
  match l with Some l => <[ lo_Name l := lo_NetworkZone l ]> zones | None => zones end.

(** A pricing that names its location and parses; anything else is skipped. *)
Definition parse_pricing (p : sdk_pricing) : option (string * Price) :=
  match sp_Location p with
  | None => None
  | Some l =>
      match ParseFloat (sp_HourlyNet p), ParseFloat (sp_MonthlyNet p) with
      | Some hourly, Some monthly => Some (l, {| pr_HourlyNet := hourly; pr_MonthlyNet := monthly |})
      | _, _ => None
      end
  end.

Definition add_price (prices : gmap string Price) (p : sdk_pricing) : gmap string Price :=
  match parse_pricing p with Some (l, price) => <[ l := price ]> prices | None => prices end.

Definition type_location (zones : gmap string string) (l : sdk_type_location)
    : option ServerTypeLocation :=
  match tl_Location l with
  | None => None
  | Some name =>
      Some {| stl_Location := name; stl_NetworkZone := map_get zones name;
              stl_Available := tl_Available l; stl_Recommended := tl_Recommended l;
              stl_Deprecated := tl_IsDeprecated l |}
  end.

Definition server_type (zones : gmap string string) (st : sdk_server_type) : ServerType :=
  {| st_ID := ty_ID st; st_Name := ty_Name st; st_Cores := ty_Cores st; st_MemoryGiB := ty_Memory st;
     st_DiskGB := ty_Disk st; st_Architecture := ty_Architecture st; st_CPUType := ty_CPUType st;
     st_StorageType := ty_StorageType st; st_Deprecated := ty_IsDeprecated st;
     st_Prices := foldl add_price ∅ (ty_Pricings st);
     st_Locations := omap (type_location zones) (ty_Locations st) |}.

Context {W : Type} `{SDK : HcloudCatalog W}.

Definition networkZones (w : W) : result (gmap string string) * W :=
  match sdk_Locations w with
  | (Err err, w) => (Err (Wrapf "listing locations: " (redact apiToken err)), w)
  | (Ok locs, w) => (Ok (foldl add_zone ∅ locs), w)
  end.

Definition ServerTypes (w : W) : result (list ServerType) * W :=
  match sdk_ServerTypes w with
  | (Err err, w) => (Err (Wrapf "listing server types: " (redact apiToken err)), w)
  | (Ok sts, w) =>
      match networkZones w with
      | (Err err, w) => (Err err, w)
      | (Ok zones, w) => (Ok (server_type zones <$> sts), w)
      end
  end.

(** The first pricing, in order, that parses, over the IPv4 entries. *)
Definition PrimaryIPv4MonthlyNet (w : W) : result float64 * W :=
  match sdk_PrimaryIPs w with
  | (Err err, w) => (Err (Wrapf "getting pricing: " (redact apiToken err)), w)
  | (Ok ips, w) =>
      (Ok (default f_zero (head (omap ParseFloat
             (ips ≫= fun p => if (ip_Type p =? "ipv4")%string then ip_Monthly p else [])))), w)
  end.

#[export] Instance catalog_client : CatalogAPI W := {
  api_ServerTypes := ServerTypes;
  api_PrimaryIPv4MonthlyNet := PrimaryIPv4MonthlyNet
}.

(** ** Lemmas *)

Lemma prices_from (ps : list sdk_pricing) (prices : gmap string Price) (l : string) (price : Price) :
  foldl add_price prices ps !! l = Some price ->
  prices !! l = Some price \/ exists p, p ∈ ps /\ parse_pricing p = Some (l, price).
Proof.
  revert prices. induction ps as [|p ps IH]; intros prices H; [by left|]. simpl in H.
  apply IH in H as [H|(p' & Hp' & H)]; [|right; exists p'; by rewrite elem_of_cons; auto].
  unfold add_price in H. destruct (parse_pricing p) as [[l' price']|] eqn:E; [|by left].
  destruct (decide (l' = l)) as [->|Hne].
  - rewrite lookup_insert_eq in H. injection H as ->. right. exists p. by rewrite elem_of_cons; auto.
  - left. by rewrite lookup_insert_ne in H.
Qed.

Lemma prices_kept (ps : list sdk_pricing) (prices : gmap string Price) (p : sdk_pricing) l price :
  (p ∈ ps /\ parse_pricing p = Some (l, price)) \/ is_Some (prices !! l) ->
  is_Some (foldl add_price prices ps !! l).
Proof.
  revert prices. induction ps as [|q ps IH]; intros prices [[Hp E]|Hs].
  - by apply elem_of_nil in Hp.
  - done.
  - simpl. apply elem_of_cons in Hp as [->|Hp]; [|apply IH; by left].
    apply IH. right. unfold add_price. rewrite E. by rewrite lookup_insert_eq.
  - simpl. apply IH. right. unfold add_price. destruct (parse_pricing q) as [[l' price']|]; [|done].
    destruct (decide (l' = l)) as [->|Hne]; [by rewrite lookup_insert_eq|by rewrite lookup_insert_ne].
Qed.

Lemma zones_from (ls : list (option sdk_location)) (zones : gmap string string) (n z : string) :
  foldl add_zone zones ls !! n = Some z ->
  zones !! n = Some z \/ Some {| lo_Name := n; lo_NetworkZone := z |} ∈ ls.
Proof.
  revert zones. induction ls as [|l ls IH]; intros zones H; [by left|]. simpl in H.
  apply IH in H as [H|H]; [|right; by rewrite elem_of_cons; right].
  destruct l as [[n' z']|]; simpl in H; [|by left]. destruct (decide (n' = n)) as [->|Hne].
  - rewrite lookup_insert_eq in H. injection H as ->. right. rewrite elem_of_cons. by left.
  - left. by rewrite lookup_insert_ne in H.
Qed.

(** ** Properties *)

(** The catalog invents nothing.  Of every server type handed on, a price is one
    Hetzner published for that location and that parsed, so one that is missing
    or unreadable never reads as zero; a location has a price when some pricing
    of it parses; and a location's network zone is what the locations listing
    says, or empty, never what the type's own location object carries. *)
Theorem server_types_invent_nothing (w w' : W) (sts : list ServerType)
    (Hok : ServerTypes w = (Ok sts, w')) :
  exists raw w1 locs, sdk_ServerTypes w = (Ok raw, w1) /\ sdk_Locations w1 = (Ok locs, w') /\
    Forall2 (fun r st =>
      st_Name st = ty_Name r /\
      (forall l price, st_Prices st !! l = Some price ->
         exists p, p ∈ ty_Pricings r /\ parse_pricing p = Some (l, price)) /\
      (forall p l price, p ∈ ty_Pricings r -> parse_pricing p = Some (l, price) ->
         is_Some (st_Prices st !! l)) /\
      Forall (fun l => stl_NetworkZone l = "" \/
         Some {| lo_Name := stl_Location l; lo_NetworkZone := stl_NetworkZone l |} ∈ locs)
        (st_Locations st)) raw sts.
Proof.
  unfold ServerTypes, networkZones in Hok. destruct (sdk_ServerTypes w) as [[raw|e] w1]; [|done].
  destruct (sdk_Locations w1) as [[locs|e] w2] eqn:El; [|done]. injection Hok as <- <-.
  exists raw, w1, locs. split_and!; [done..|]. apply Forall2_fmap_r, Forall_Forall2_diag, Forall_true.
  intros r. cbn [st_Name server_type st_Prices st_Locations]. split_and!.
  - done.
  - intros l price H. apply prices_from in H as [H|H]; [|done]. by rewrite lookup_empty in H.
  - intros p l price Hp E. apply (prices_kept _ _ p l price). by left.
  - rewrite Forall_forall. intros l Hl. apply list_elem_of_omap in Hl as (t & _ & Ht).
    unfold type_location in Ht. destruct (tl_Location t) as [n|]; [|done]. injection Ht as <-. simpl.
    unfold map_get. destruct (foldl add_zone ∅ locs !! n) as [z|] eqn:Ez; [|by left].
    right. apply zones_from in Ez as [Ez|Ez]; [|done]. by rewrite lookup_empty in Ez.
Qed.
End Client.

(** ** Witness *)

Section Witnesses.
Import KubeExample CatalogExample.
#[local] Instance unwraps : KarpErrors := fun _ => true.
#[local] Instance etext : ErrorText := fun _ => "error".
#[local] Instance decimal : GoText :=
  {| ParseFloat s := if (s =? "4.00")%string then Some (f_of_Z 4) else None;
     FormatG _ := ""; Quote s := s |}.

Definition listed_type : sdk_server_type :=
  {| ty_ID := 1; ty_Name := "cx23"; ty_Cores := 2; ty_Memory := f_of_Z 4; ty_Disk := 40;
     ty_Architecture := "x86"; ty_CPUType := "shared"; ty_StorageType := "local";
     ty_IsDeprecated := false;
     ty_Pricings := [{| sp_Location := Some "nbg1"; sp_HourlyNet := "4.00"; sp_MonthlyNet := "4.00" |};
                     {| sp_Location := Some "ash"; sp_HourlyNet := "4.00"; sp_MonthlyNet := "n/a" |}];
     ty_Locations := [{| tl_Location := Some "nbg1"; tl_Available := true; tl_Recommended := true;
                         tl_IsDeprecated := false |}] |}.

#[local] Instance listing : HcloudCatalog unit := {|
  sdk_Locations w := (Ok [Some {| lo_Name := "nbg1"; lo_NetworkZone := "eu-central" |}], w);
  sdk_ServerTypes w := (Ok [listed_type], w);
  sdk_PrimaryIPs w := (Ok [], w)
|}.

(** The readable price is there, the unreadable one is absent rather than zero. *)
Lemma server_types_invent_nothing_witness :
  let st := server_type {[ "nbg1" := "eu-central" ]} listed_type in
  st_Prices st !! "ash" = None /\
  (exists p, p ∈ ty_Pricings listed_type /\
     parse_pricing p = Some ("nbg1", {| pr_HourlyNet := f_of_Z 4; pr_MonthlyNet := f_of_Z 4 |})).
Proof.
  intros st. split; [by vm_compute|].
  destruct (server_types_invent_nothing None tt tt [st]) as (raw & w1 & locs & Hr & _ & Hall); [reflexivity|].
  injection Hr as <- <-. apply Forall2_cons_1 in Hall as [(_ & Hp & _) _]. apply Hp. by vm_compute.
Defined.
End Witnesses.
