(* ===== verification/LocationScope.v ===== *)
(** Which locations a NodeClass may place nodes in.

    Models [locationScope], [scope], [emptyFailure] and [excludedMessage] of
    [internal/controllers/nodeclass/validation.go]. *)

From S2P Require Import Prelude GoErrors Float64 GoText Servers Kube Api Unavailable Resources.
From S2P Require Import InstanceTypes Catalog.

Definition SupportedArchitecture : string := "x86".

Section WithKube.
Context `{KB : Kube, GT : GoText}.

Record scope := {
  sc_inScope : list LocationStatus;
  sc_outsideZone : list string;
  sc_unknown : list string;
  sc_catalogEmpty : bool;
  sc_explicit : bool;
  sc_zone : string
}.

(** The [zones] map: location to network zone, over the live locations of the
    live types of the supported architecture; a later entry overwrites. *)
Definition catalog_zones (snapshot : option Snapshot) : gmap string string :=
  match snapshot with
  | None => ∅
  | Some s =>
      foldl (fun zones st =>
        if st_Deprecated st || negb (st_Architecture st =? SupportedArchitecture)%string then zones
        else foldl (fun zones l =>
               if stl_Deprecated l then zones else <[ stl_Location l := stl_NetworkZone l ]> zones)
               zones (st_Locations st))
        ∅ (sn_ServerTypes s)
  end.

(** The names considered: the operator's, or every name of the catalog. *)
Definition candidate_names (zones : gmap string string) (specLocations : list string)
    : list string :=
  match specLocations with
  | [] => sort_strings (map_to_list zones).*1
  | names => names
  end.

(** The loop over the names; each is judged at its first occurrence. *)
Fixpoint scope_loop (zones : gmap string string) (networkZone : string) (seen : gset string)
    (names : list string) (out : scope) : scope :=
  match names with
  | [] => out
  | name :: rest =>
      if bool_decide (name ∈ seen) then scope_loop zones networkZone seen rest out
      else
        scope_loop zones networkZone ({[ name ]} ∪ seen) rest
          match zones !! name with
          | None =>
              {| sc_inScope := sc_inScope out; sc_outsideZone := sc_outsideZone out;
                 sc_unknown := sc_unknown out ++ [name]; sc_catalogEmpty := sc_catalogEmpty out;
                 sc_explicit := sc_explicit out; sc_zone := sc_zone out |}
          | Some zone =>
              if negb (zone =? "")%string && negb (networkZone =? "")%string &&
                 negb (zone =? networkZone)%string
              then {| sc_inScope := sc_inScope out; sc_outsideZone := sc_outsideZone out ++ [name];
                      sc_unknown := sc_unknown out; sc_catalogEmpty := sc_catalogEmpty out;
                      sc_explicit := sc_explicit out; sc_zone := sc_zone out |}
              else {| sc_inScope := sc_inScope out ++
                        [{| lst_Name := name; lst_NetworkZone := zone; lst_Datacenters := [] |}];
                      sc_outsideZone := sc_outsideZone out; sc_unknown := sc_unknown out;
                      sc_catalogEmpty := sc_catalogEmpty out; sc_explicit := sc_explicit out;
                      sc_zone := sc_zone out |}
          end
  end.

(** The zone of the resolved private network, [""] when there is none. *)
Definition network_zone (nodeClass : HCloudNodeClass) : string :=
  match status_Network (nc_Status nodeClass) with Some n => nst_Zone n | None => "" end.

Definition locationScope (snapshot : option Snapshot) (nodeClass : HCloudNodeClass) : scope :=
  let zones := catalog_zones snapshot in
  let specLocations := spec_Locations (nc_Spec nodeClass) in
  scope_loop zones (network_zone nodeClass) ∅ (candidate_names zones specLocations)
    {| sc_inScope := []; sc_outsideZone := []; sc_unknown := [];
       sc_catalogEmpty := bool_decide (zones = ∅);
       sc_explicit := match specLocations with [] => false | _ => true end;
       sc_zone := network_zone nodeClass |}.

Definition emptyFailure (s : scope) : string * string :=
  match sc_outsideZone s, sc_unknown s with
  | _ :: _, _ :: _ =>
      ("NoUsableLocations",
       "no location is usable: " +:+ Join (sc_outsideZone s) ", " +:+
       " are outside the private network's zone " +:+ Quote (sc_zone s) +:+ ", and " +:+
       Join (sc_unknown s) ", " +:+ " are not offered by any supported server type")
  | _ :: _, [] =>
      ("LocationsOutsideNetworkZone",
       "every location in scope (" +:+ Join (sc_outsideZone s) ", " +:+
       ") is outside the private network's zone " +:+ Quote (sc_zone s) +:+
       ", and a server cannot attach to a network in another zone")
  | [], _ :: _ =>
      ("UnknownLocations",
       "no supported server type is offered in any location in scope (" +:+
       Join (sc_unknown s) ", " +:+ ")")
  | [], [] =>
      ("NoLocationsAvailable", "the Hetzner catalog offers no location for any supported server type")
  end.

Definition excludedMessage (s : scope) : string :=
  let part (l : list string) (text : string) : list string :=
    match l with [] => [] | _ => [Join l ", " +:+ text] end in
  let parts :=
    part (sc_outsideZone s) (" outside the private network's zone " +:+ Quote (sc_zone s)) ++
    part (sc_unknown s) " not offered by any supported server type" in
  if negb (sc_explicit s) then ""
  else match parts with
       | [] => ""
       | _ => "spec.locations was narrowed, dropping " +:+ Join parts " and "
       end.

(** ** Lemmas *)

(** How a candidate is judged. *)
Inductive verdict := InScope (zone : string) | OutsideZone | Unknown.

Definition judge (zones : gmap string string) (networkZone name : string) : verdict :=
  match zones !! name with
  | None => Unknown
  | Some zone =>
      if negb (zone =? "")%string && negb (networkZone =? "")%string &&
         negb (zone =? networkZone)%string then OutsideZone else InScope zone
  end.

(** The three lists hold exactly the names seen so far, each as it is judged,
    and no location is in scope twice. *)
Record scope_inv (zones : gmap string string) (networkZone : string) (seen : gset string)
    (s : scope) : Prop := {
  si_in : forall n z, {| lst_Name := n; lst_NetworkZone := z; lst_Datacenters := [] |} ∈ sc_inScope s <->
    n ∈ seen /\ judge zones networkZone n = InScope z;
  si_shape : Forall (fun l => lst_Datacenters l = []) (sc_inScope s);
  si_out : forall n, n ∈ sc_outsideZone s <-> n ∈ seen /\ judge zones networkZone n = OutsideZone;
  si_unknown : forall n, n ∈ sc_unknown s <-> n ∈ seen /\ judge zones networkZone n = Unknown;
  si_nodup : NoDup (lst_Name <$> sc_inScope s)
}.

Lemma inv_in_name zones nz seen s n :
  scope_inv zones nz seen s -> n ∈ lst_Name <$> sc_inScope s -> n ∈ seen.
Proof.
  intros [H1 H2 _ _ _] Hn. apply list_elem_of_fmap in Hn as ([n' z d] & -> & Hl).
  rewrite Forall_forall in H2. pose proof (H2 _ Hl) as Hd. simpl in Hd. subst d. simpl.
  by apply H1 in Hl as [? _].
Qed.

Lemma seen_cons (seen : gset string) (n m : string) (P : string -> Prop) :
  (m ∈ {[ n ]} ∪ seen /\ P m) <-> (m ∈ seen /\ P m) \/ (m = n /\ P n).
Proof. rewrite elem_of_union, elem_of_singleton. naive_solver. Qed.

(** A list of names by verdict, after one more name is judged. *)
Lemma names_step (judged : string -> verdict) (v : verdict) (seen : gset string) (n : string)
    (l : list string) (here : bool) :
  (forall m, m ∈ l <-> m ∈ seen /\ judged m = v) ->
  (here = true <-> judged n = v) ->
  forall m, m ∈ (if here then l ++ [n] else l) <-> m ∈ {[ n ]} ∪ seen /\ judged m = v.
Proof.
  intros Hl Hh m. rewrite (seen_cons seen n m (fun m => judged m = v)).
  destruct here; [rewrite elem_of_app, list_elem_of_singleton|]; rewrite Hl; naive_solver.
Qed.

Lemma scope_loop_inv zones nz seen names s :
  scope_inv zones nz seen s ->
  scope_inv zones nz (list_to_set names ∪ seen) (scope_loop zones nz seen names s).
Proof.
  revert seen s. induction names as [|n names IH]; intros seen s Hinv; simpl.
  { by rewrite union_empty_l_L. }
  case_bool_decide as Hseen.
  { replace ({[n]} ∪ list_to_set names ∪ seen) with (list_to_set names ∪ seen) by set_solver.
    by apply IH. }
  replace ({[n]} ∪ list_to_set names ∪ seen) with (list_to_set names ∪ ({[n]} ∪ seen)) by set_solver.
  apply IH. pose proof (inv_in_name zones nz seen s n Hinv) as Hfresh.
  destruct Hinv as [H1 H2 H3 H4 H5].
  assert (judge zones nz n = match zones !! n with None => Unknown | Some zone =>
    if negb (zone =? "")%string && negb (nz =? "")%string && negb (zone =? nz)%string
    then OutsideZone else InScope zone end) as Hj by done.
  assert (forall m z, (m ∈ {[n]} ∪ seen /\ judge zones nz m = InScope z) <->
    (m ∈ seen /\ judge zones nz m = InScope z) \/ (m = n /\ judge zones nz n = InScope z)) as Hin
    by (intros m z; apply (seen_cons seen n m (fun m => judge zones nz m = InScope z))).
  destruct (zones !! n) as [zone|]; [destruct (_ && _)|]; split; simpl; try done.
  - intros m z. rewrite Hin, H1, Hj. split; [auto|intros [?|[_ ?]]; [done|congruence]].
  - apply (names_step (judge zones nz) OutsideZone seen n _ true); [done|rewrite Hj; split; congruence].
  - apply (names_step (judge zones nz) Unknown seen n _ false); [done|rewrite Hj; split; congruence].
  - intros m z. rewrite Hin, elem_of_app, list_elem_of_singleton, H1, Hj.
    split; intros [?|E]; auto; right; [by simplify_eq|destruct E as [-> E]; by simplify_eq].
  - apply Forall_app. by repeat constructor.
  - apply (names_step (judge zones nz) OutsideZone seen n _ false); [done|rewrite Hj; split; congruence].
  - apply (names_step (judge zones nz) Unknown seen n _ false); [done|rewrite Hj; split; congruence].
  - rewrite fmap_app. apply NoDup_app. split; [done|]. split; [|apply NoDup_singleton].
    intros m Hm Hm'. simpl in Hm'. apply list_elem_of_singleton in Hm' as ->. by apply Hseen, Hfresh.
  - intros m z. rewrite Hin, H1, Hj. split; [auto|intros [?|[_ ?]]; [done|congruence]].
  - apply (names_step (judge zones nz) OutsideZone seen n _ false); [done|rewrite Hj; split; congruence].
  - apply (names_step (judge zones nz) Unknown seen n _ true); [done|rewrite Hj; split; congruence].
Qed.

(** The catalog offers the name, in that zone: some live type of the supported
    architecture has a live location of that name. *)
Definition offers (s : Snapshot) (name zone : string) : Prop :=
  exists st l, st ∈ sn_ServerTypes s /\ st_Deprecated st = false /\
    st_Architecture st = SupportedArchitecture /\ l ∈ st_Locations st /\
    stl_Deprecated l = false /\ stl_Location l = name /\ stl_NetworkZone l = zone.

Lemma zones_locations (locs : list ServerTypeLocation) (zones : gmap string string) (n : string) :
  let zones' := foldl (fun zones l =>
    if stl_Deprecated l then zones else <[ stl_Location l := stl_NetworkZone l ]> zones) zones locs in
  let here z := exists l, l ∈ locs /\ stl_Deprecated l = false /\ stl_Location l = n /\ stl_NetworkZone l = z in
  (forall z, zones' !! n = Some z -> zones !! n = Some z \/ here z) /\
  (forall z, zones !! n = Some z \/ here z -> is_Some (zones' !! n)).
Proof.
  revert zones. induction locs as [|l locs IH]; intros zones; simpl.
  { split; [auto|]. intros z [Hz|(l & Hl & _)]; [eauto|by apply elem_of_nil in Hl]. }
  destruct (IH (if stl_Deprecated l then zones else <[stl_Location l:=stl_NetworkZone l]> zones)) as [H1 H2].
  assert (forall z, (exists l', l' ∈ l :: locs /\ stl_Deprecated l' = false /\ stl_Location l' = n /\
      stl_NetworkZone l' = z) <->
    (stl_Deprecated l = false /\ stl_Location l = n /\ stl_NetworkZone l = z) \/
    exists l', l' ∈ locs /\ stl_Deprecated l' = false /\ stl_Location l' = n /\ stl_NetworkZone l' = z) as Hc.
  { intros z. split.
    - intros (l' & Hl' & Hr). apply elem_of_cons in Hl' as [->|Hl']; eauto.
    - intros [Hr|(l' & Hl' & Hr)]; [exists l|exists l']; (split; [|done]);
        [apply list_elem_of_here|by apply list_elem_of_further]. }
  split; intros z; rewrite Hc.
  - intros Hz. apply H1 in Hz as [Hz|Hz]; [|auto]. destruct (stl_Deprecated l) eqn:Ed; [auto|].
    destruct (decide (stl_Location l = n)) as [E|E].
    + rewrite E, lookup_insert_eq in Hz. injection Hz as <-. auto.
    + rewrite lookup_insert_ne in Hz by done. auto.
  - intros [Hz|[(Hd & E & _)|Hz]]; [|apply (H2 (stl_NetworkZone l))|apply (H2 z); auto].
    + destruct (stl_Deprecated l) eqn:Ed; [apply (H2 z); auto|].
      destruct (decide (stl_Location l = n)) as [E|E].
      * apply (H2 (stl_NetworkZone l)). left. by rewrite E, lookup_insert_eq.
      * apply (H2 z). left. by rewrite lookup_insert_ne.
    + left. by rewrite Hd, E, lookup_insert_eq.
Qed.

Lemma catalog_zones_spec (s : Snapshot) (n : string) :
  (forall z, catalog_zones (Some s) !! n = Some z -> offers s n z) /\
  (forall z, offers s n z -> is_Some (catalog_zones (Some s) !! n)).
Proof.
  simpl. unfold offers.
  assert (forall zones : gmap string string,
    let zones' := foldl (fun zones st =>
        if st_Deprecated st || negb (st_Architecture st =? SupportedArchitecture)%string then zones
        else foldl (fun zones l =>
               if stl_Deprecated l then zones else <[ stl_Location l := stl_NetworkZone l ]> zones)
               zones (st_Locations st)) zones (sn_ServerTypes s) in
    let here z := exists st l, st ∈ sn_ServerTypes s /\ st_Deprecated st = false /\
      st_Architecture st = SupportedArchitecture /\ l ∈ st_Locations st /\
      stl_Deprecated l = false /\ stl_Location l = n /\ stl_NetworkZone l = z in
    (forall z, zones' !! n = Some z -> zones !! n = Some z \/ here z) /\
    (forall z, zones !! n = Some z \/ here z -> is_Some (zones' !! n))) as H.
  2: { destruct (H ∅) as [H1 H2]. split; intros z Hz; [|eauto].
       apply H1 in Hz as [Hz|Hz]; [by rewrite lookup_empty in Hz|done]. }
  induction (sn_ServerTypes s) as [|st sts IH]; intros zones; simpl.
  { split; [auto|]. intros z [Hz|(st & l & Hst & _)]; [eauto|by apply elem_of_nil in Hst]. }
  set (zones1 := if st_Deprecated st || negb (st_Architecture st =? SupportedArchitecture)%string
    then zones else foldl (fun zones l =>
      if stl_Deprecated l then zones else <[ stl_Location l := stl_NetworkZone l ]> zones)
      zones (st_Locations st)). destruct (IH zones1) as [H1 H2].
  destruct (zones_locations (st_Locations st) zones n) as [L1 L2].
  assert (st_Deprecated st || negb (st_Architecture st =? SupportedArchitecture)%string = false <->
    st_Deprecated st = false /\ st_Architecture st = SupportedArchitecture) as Hlive.
  { rewrite orb_false_iff, negb_false_iff, String.eqb_eq. done. }
  split; intros z.
  - intros Hz. apply H1 in Hz as [Hz|(st' & l & Hst & Hr)].
    + unfold zones1 in Hz. destruct (_ || _); [auto|]. destruct Hlive as [[Hd Ha] _]; [done|].
      apply L1 in Hz as [Hz|(l & Hl & Hr)]; [auto|]. right. exists st, l.
      split; [apply list_elem_of_here|]. naive_solver.
    + right. exists st', l. split; [by apply list_elem_of_further|done].
  - intros Hor. assert (is_Some (zones1 !! n) \/ exists z st' l, st' ∈ sts /\ st_Deprecated st' = false /\
      st_Architecture st' = SupportedArchitecture /\ l ∈ st_Locations st' /\
      stl_Deprecated l = false /\ stl_Location l = n /\ stl_NetworkZone l = z) as [[z' Hz]|(z' & Hz)];
      [|apply (H2 z'); auto|apply (H2 z'); auto].
    destruct Hor as [Hz|(st' & l & Hst & Hd & Ha & Hr)].
    + left. unfold zones1. destruct (_ || _); [eauto|]. apply (L2 z). auto.
    + apply elem_of_cons in Hst as [->|Hst]; [left|right; exists z, st', l; done].
      unfold zones1. rewrite (proj2 Hlive (conj Hd Ha)). apply (L2 z). right. exists l. naive_solver.
Qed.

Lemma judge_spec (zones : gmap string string) (nz n : string) :
  (forall z, judge zones nz n = InScope z <-> zones !! n = Some z /\ (z = "" \/ nz = "" \/ z = nz)) /\
  (judge zones nz n = OutsideZone <-> exists z, zones !! n = Some z /\ z <> "" /\ nz <> "" /\ z <> nz) /\
  (judge zones nz n = Unknown <-> zones !! n = None).
Proof.
  unfold judge. destruct (zones !! n) as [z|]; [|naive_solver].
  destruct (String.eqb_spec z ""), (String.eqb_spec nz ""), (String.eqb_spec z nz); simpl; naive_solver.
Qed.

Lemma elem_of_candidate_names (s : Snapshot) (specLocations : list string) (n : string) :
  n ∈ candidate_names (catalog_zones (Some s)) specLocations <->
  n ∈ specLocations \/ (specLocations = [] /\ exists z, offers s n z).
Proof.
  destruct (catalog_zones_spec s n) as [Z1 Z2]. unfold candidate_names.
  destruct specLocations as [|x xs]; [|naive_solver].
  unfold sort_strings. rewrite elem_of_stable_sort, list_elem_of_fmap. split.
  - intros ([k z] & -> & Hkz). apply elem_of_map_to_list in Hkz. right. eauto.
  - intros [Hn|(_ & z & Hz)]; [by apply elem_of_nil in Hn|]. apply Z2 in Hz as [z' Hz'].
    exists (n, z'). split; [done|]. by apply elem_of_map_to_list.
Qed.

Lemma locationScope_inv (s : Snapshot) (nodeClass : HCloudNodeClass) :
  scope_inv (catalog_zones (Some s)) (network_zone nodeClass)
    (list_to_set (candidate_names (catalog_zones (Some s)) (spec_Locations (nc_Spec nodeClass))))
    (locationScope (Some s) nodeClass).
Proof.
  rewrite <- (union_empty_r_L (list_to_set _)). apply scope_loop_inv.
  split; simpl; [..|constructor]; try constructor;
    try (intros Hi; by apply elem_of_nil in Hi); intros [Hi _]; by apply elem_of_empty in Hi.
Qed.

(** ** Properties *)

(** The scope is the intersection it claims to be.  A name is considered when the
    operator lists it, or, with an empty list, when the catalog offers it; it is
    in scope exactly when the catalog offers it in a zone that is not known to
    differ from the private network's, once, with that zone; outside when the
    zones are known and differ; unknown when nothing supported is sold there. *)
Theorem location_scope_exact (s : Snapshot) (nodeClass : HCloudNodeClass) (n : string) :
  let sc := locationScope (Some s) nodeClass in
  let considered := n ∈ spec_Locations (nc_Spec nodeClass) \/
    (spec_Locations (nc_Spec nodeClass) = [] /\ exists z, offers s n z) in
  let nz := network_zone nodeClass in
  (n ∈ lst_Name <$> sc_inScope sc <->
     considered /\ exists z, catalog_zones (Some s) !! n = Some z /\ (z = "" \/ nz = "" \/ z = nz)) /\
  (n ∈ sc_outsideZone sc <->
     considered /\ exists z, catalog_zones (Some s) !! n = Some z /\ z <> "" /\ nz <> "" /\ z <> nz) /\
  (n ∈ sc_unknown sc <-> considered /\ forall z, ~ offers s n z) /\
  NoDup (lst_Name <$> sc_inScope sc).
Proof.
  intros sc considered nz. destruct (catalog_zones_spec s n) as [Z1 Z2].
  destruct (locationScope_inv s nodeClass) as [H1 H2 H3 H4 H5].
  destruct (judge_spec (catalog_zones (Some s)) nz n) as (J1 & J2 & J3).
  unfold considered. rewrite <- elem_of_candidate_names.
  setoid_rewrite elem_of_list_to_set in H1. setoid_rewrite elem_of_list_to_set in H3.
  setoid_rewrite elem_of_list_to_set in H4. split; [|split; [|split; [|done]]].
  - rewrite list_elem_of_fmap. split.
    + intros ([m z d] & -> & Hl). pose proof (proj1 (Forall_forall _ _) H2 _ Hl) as Hd. simpl in Hd. subst d.
      apply H1 in Hl as [Hc Hj]. simpl in *. split; [done|]. exists z. by apply J1.
    + intros (Hc & z & Hz). apply J1 in Hz. eexists. split; [|by apply H1]. done.
  - unfold sc. rewrite H3. unfold nz in J2. by rewrite J2.
  - unfold sc. rewrite H4. unfold nz in J3. rewrite J3. split; intros [Hc Hz]; (split; [done|]).
    + intros z Hof. apply Z2 in Hof as [z' Hz']. congruence.
    + destruct (catalog_zones (Some s) !! n) as [z|]; [|done]. destruct (Hz z). by apply Z1.
Qed.
End WithKube.
