(* ===== verification/NodeClaims.v ===== *)
(** [karpv1.NodeClaim], the object karpenter core asks the provider to realise,
    with the fields the provider reads and writes. *)

From S2P Require Import Prelude Kube.

(** [corev1.Taint]. *)
Record Taint := { taint_Key : string; taint_Value : string; taint_Effect : string }.

(** [NodeClassReference]. *)
Record NodeClassRef := { ref_Group : string; ref_Kind : string; ref_Name : string }.

Section WithKube.
Context `{KB : Kube}.

Record NodeClaim := {
  cl_Name : string;
  cl_UID : string;
  cl_Labels : gmap string string;
  cl_Annotations : gmap string string;
  cl_CreationTimestamp : time;
  cl_NodeClassRef : option NodeClassRef;
  cl_Requirements : list NodeSelectorRequirement;
  cl_Requests : ResourceList;
  cl_Taints : list Taint;
  cl_StartupTaints : list Taint;
  cl_ProviderID : string;
  cl_Capacity : ResourceList;
  cl_Allocatable : ResourceList;
  (** When the Rebooting condition last changed, if it is set. *)
  cl_RebootingAt : option time;
  (** Whether a Drifted condition is observed on the object. *)
  cl_Drifted : bool
}.
End WithKube.
