(* ===== verification/Kubeadm.v ===== *)
(** The kubeadm JoinConfiguration a node joins with.

    Models [internal/providers/bootstrap/kubeadm.go]: the configuration, its
    guards, and the kubelet flags with the text of their values.  The YAML
    encoder is the class [YamlMarshal]; maps are ranged over in any order.  The
    reservations rendered here are compared with those [Resources.Overhead] takes
    out of a node's capacity. *)

From Stdlib Require Import Ascii.
From S2P Require Import Prelude GoErrors Float64 GoText GoMaps Servers Kube Api Unavailable.
From S2P Require Import Resources InstanceTypes NodeClaims.

(** [sigs.k8s.io/yaml.Marshal] at a type. *)
Class YamlMarshal (A : Type) := yaml_Marshal : A -> result string.

(** ** The configuration *)

Record kubeletArg := { ka_Name : string; ka_Value : string }.

Record bootstrapTokenDiscovery := {
  btd_APIServerEndpoint : string;
  btd_Token : string;
  btd_CACertHashes : list string
}.

Record join_discovery := { jd_BootstrapToken : option bootstrapTokenDiscovery }.

Record nodeRegistration := {
  nr_Taints : list Taint;
  nr_KubeletExtraArgs : list kubeletArg
}.

Record joinConfiguration := {
  jc_APIVersion : string;
  jc_Kind : string;
  jc_Discovery : join_discovery;
  jc_NodeRegistration : nodeRegistration
}.

Definition UnregisteredTaint : Taint :=
  {| taint_Key := "karpenter.sh/unregistered"; taint_Value := ""; taint_Effect := "NoExecute" |}.

Section WithKube.
Context `{KB : Kube, MR : MapRange, YJ : YamlMarshal joinConfiguration}.

Record JoinInput := {
  ji_APIServerEndpoint : string;
  ji_Token : string;
  ji_CACertHashes : list string;
  ji_Taints : list Taint;
  ji_NodeLabels : gmap string string;
  ji_Kubelet : option KubeletConfiguration
}.

Definition resourceListArg (rl : ResourceList) : string := pairs_arg "=" q_String (map_range rl).
Definition evictionArg (m : gmap string string) : string := pairs_arg "<" id (map_range m).
Definition mapArg (m : gmap string string) : string := pairs_arg "=" id (map_range m).

(** The flags every node has. *)
Definition base_args (k : option KubeletConfiguration) : list kubeletArg :=
  [{| ka_Name := "cloud-provider"; ka_Value := "external" |};
   {| ka_Name := "kube-reserved"; ka_Value := resourceListArg (KubeReservedOrDefault k) |};
   {| ka_Name := "system-reserved"; ka_Value := resourceListArg (SystemReservedOrDefault k) |};
   {| ka_Name := "eviction-hard"; ka_Value := evictionArg (EvictionHardOrDefault k) |};
   {| ka_Name := "max-pods"; ka_Value := FormatInt (MaxPodsOrDefault k) |}].

(** The flags; [None] is the nil dereference of [k.ClusterDNS]. *)
Definition kubeletArgs (in_ : JoinInput) : option (list kubeletArg) :=
  let k := ji_Kubelet in_ in
  let args := base_args k in
  let args := if (size (ji_NodeLabels in_) =? 0)%nat then args
              else args ++ [{| ka_Name := "node-labels"; ka_Value := mapArg (ji_NodeLabels in_) |}] in
  match k with
  | None => None
  | Some k =>
      let args := match kl_ClusterDNS k with
                  | [] => args
                  | dns => args ++ [{| ka_Name := "cluster-dns"; ka_Value := Join dns "," |}]
                  end in
      Some (args ++ ((fun e => {| ka_Name := arg_Name e; ka_Value := arg_Value e |}) <$> kl_ExtraArgs k))
  end.

Definition join_config (in_ : JoinInput) (args : list kubeletArg) : joinConfiguration :=
  {| jc_APIVersion := "kubeadm.k8s.io/v1beta4";
     jc_Kind := "JoinConfiguration";
     jc_Discovery :=
       {| jd_BootstrapToken :=
            Some {| btd_APIServerEndpoint := ji_APIServerEndpoint in_; btd_Token := ji_Token in_;
                    btd_CACertHashes := ji_CACertHashes in_ |} |};
     jc_NodeRegistration :=
       {| nr_Taints := UnregisteredTaint :: ji_Taints in_; nr_KubeletExtraArgs := args |} |}.

(** [None] is the panic of [kubeletArgs]. *)
Definition renderJoinConfiguration (in_ : JoinInput) : option (result string) :=
  if (ji_APIServerEndpoint in_ =? "")%string
  then Some (Err (Errorf "apiServerEndpoint is required"))
  else if (ji_Token in_ =? "")%string then Some (Err (Errorf "token is required"))
  else match ji_CACertHashes in_ with
  | [] => Some (Err (Errorf ("caCertHashes is required: joining without a CA pin " +:+
                             "trusts any endpoint that answers")))
  | _ =>
      args ← kubeletArgs in_;
      Some match yaml_Marshal (join_config in_ args) with
           | Err err => Err (Wrapf "marshalling join configuration: " err)
           | Ok out => Ok out
           end
  end.

(** ** Lemmas *)

(** The values a list of flags gives a name. *)
Definition flag_values (args : list kubeletArg) (name : string) : list string :=
  ka_Value <$> filter (fun a => ka_Name a = name) args.

(** The flags the provider itself derives from the reservations. *)
Definition reservation_flags : list string :=
  ["cloud-provider"; "kube-reserved"; "system-reserved"; "eviction-hard"; "max-pods"].

Lemma flag_values_app (a b : list kubeletArg) (name : string) :
  flag_values (a ++ b) name = flag_values a name ++ flag_values b name.
Proof. unfold flag_values. by rewrite filter_app, fmap_app. Qed.

Lemma flag_values_extra (es : list KubeletArg) (name : string) :
  name ∉ arg_Name <$> es ->
  flag_values ((fun e => {| ka_Name := arg_Name e; ka_Value := arg_Value e |}) <$> es) name = [].
Proof.
  induction es as [|e es IH]; [done|]. intros [Hne Hni]%not_elem_of_cons.
  unfold flag_values. cbn [fmap list_fmap]. rewrite filter_cons_False by (cbn; congruence).
  by apply IH.
Qed.

(** The five flags the provider derives come first, and nothing else it renders
    goes by their names. *)
Lemma kubeletArgs_flags (in_ : JoinInput) (k : KubeletConfiguration) (args : list kubeletArg)
    (name : string) :
  ji_Kubelet in_ = Some k -> kubeletArgs in_ = Some args -> name ∈ reservation_flags ->
  name ∉ arg_Name <$> kl_ExtraArgs k ->
  flag_values args name = flag_values (base_args (Some k)) name.
Proof.
  intros Hk. unfold kubeletArgs. rewrite Hk. generalize (base_args (Some k)).
  intros base [= <-] Hname Hex.
  rewrite flag_values_app, flag_values_extra, app_nil_r by done.
  assert (forall l n v, n ∉ reservation_flags ->
    flag_values (l ++ [{| ka_Name := n; ka_Value := v |}]) name = flag_values l name) as Hdrop.
  { intros l n v Hn. rewrite flag_values_app. unfold flag_values at 2.
    rewrite filter_cons_False by (cbn; intros ->; done). apply app_nil_r. }
  assert (("cluster-dns" ∉ reservation_flags) /\ ("node-labels" ∉ reservation_flags)) as [Hd Hl]
    by (split; apply (bool_decide_unpack _); by vm_compute).
  destruct (kl_ClusterDNS k), (size (ji_NodeLabels in_) =? 0)%nat; by rewrite ?Hdrop.
Qed.

(** Quantities print to text that parses back to the same amount and holds no
    comma. *)
Class QuantityText `{!QuantityLaws KB} := {
  q_string_parse : forall q, exists q', ParseQuantity (q_String q) = Some q' /\ q_amount q' = q_amount q;
  q_string_plain : forall q, has_char "," (q_String q) = false
}.

(** A resource list as the kubelet reads it from the flag. *)
Definition read_quantities (s : string) : ResourceList := omap ParseQuantity (read_pairs "=" s).

(** A resource name or an eviction signal, free of both separators. *)
Definition plain_key (sep : ascii) (k : string) : Prop :=
  has_char sep k = false /\ has_char "," k = false.

#[export] Instance plain_key_dec (sep : ascii) (k : string) : Decision (plain_key sep k).
Proof. unfold plain_key. apply _. Defined.

Lemma read_resourceListArg `{QL : !QuantityLaws KB, QT : !QuantityText, ML : !MapRangeLaws MR}
    (rl : ResourceList) (name : string) :
  map_Forall (fun k _ => plain_key "=" k) rl ->
  amount_of (read_quantities (resourceListArg rl)) name = amount_of rl name.
Proof.
  intros Hp. unfold read_quantities, resourceListArg, amount_of.
  rewrite (read_pairs_arg _ _ rl); [|apply map_range_perm|].
  - rewrite lookup_omap, lookup_fmap. destruct (rl !! name) as [q|]; [|done]. cbn.
    destruct (q_string_parse q) as (q' & -> & Hq). cbn. by rewrite Hq.
  - eapply map_Forall_impl; [exact Hp|]. intros k v [H1 H2].
    split; [done|]. split; [done|]. split; [done|]. apply q_string_plain.
Qed.

Lemma read_evictionArg `{ML : !MapRangeLaws MR} (m : gmap string string) :
  map_Forall (fun k v => plain_key "<" k /\ has_char "," v = false) m ->
  read_pairs "<" (evictionArg m) = m.
Proof.
  intros Hp. unfold evictionArg. rewrite (read_pairs_arg _ _ m); [apply map_fmap_id|apply map_range_perm|].
  eapply map_Forall_impl; [exact Hp|]. intros k v [[H1 H2] Hv]. by split.
Qed.

(** ** Properties *)

(** A join is configured exactly when the endpoint, the token and at least one CA
    pin are there; the configuration then names all three, carries the
    unregistered taint ahead of the pool's own and the kubelet's flags, and each
    missing part is refused before anything is rendered. *)
Theorem join_exact (in_ : JoinInput) (out : string) :
  renderJoinConfiguration in_ = Some (Ok out) <->
  ji_APIServerEndpoint in_ <> "" /\ ji_Token in_ <> "" /\ ji_CACertHashes in_ <> [] /\
  exists args, kubeletArgs in_ = Some args /\ yaml_Marshal (join_config in_ args) = Ok out.
Proof.
  unfold renderJoinConfiguration.
  destruct (String.eqb_spec (ji_APIServerEndpoint in_) ""); [split; [done|by intros (? & _)]|].
  destruct (String.eqb_spec (ji_Token in_) ""); [split; [done|by intros (_ & ? & _)]|].
  destruct (ji_CACertHashes in_) as [|h hs]; [split; [done|by intros (_ & _ & ? & _)]|].
  destruct (kubeletArgs in_) as [args|]; cbn; [|split; [done|by intros (_ & _ & _ & ? & ? & _)]].
  split.
  - destruct (yaml_Marshal (join_config in_ args)) eqn:E; [|done]. intros [= <-]. eauto 6.
  - intros (_ & _ & _ & args' & [= <-] & ->). done.
Qed.

Section Reservations.
Context `{GT : GoText, IC : IntConv, QL : !QuantityLaws KB, QT : !QuantityText, ML : !MapRangeLaws MR}.

(** A kubelet configuration whose names hold no separator and whose extra flags
    leave the provider's own alone. *)
Record plain_kubelet (k : KubeletConfiguration) : Prop := {
  pk_kube : map_Forall (fun r _ => plain_key "=" r) (KubeReservedOrDefault (Some k));
  pk_system : map_Forall (fun r _ => plain_key "=" r) (SystemReservedOrDefault (Some k));
  pk_eviction : map_Forall (fun s v => plain_key "<" s /\ has_char "," v = false)
                  (EvictionHardOrDefault (Some k));
  pk_extra : forall f, f ∈ reservation_flags -> f ∉ arg_Name <$> kl_ExtraArgs k
}.

Lemma build_capacity now sts nodeClass ipv4 u opts it :
  it ∈ Build now sts nodeClass ipv4 u opts ->
  it_Overhead it = Overhead (Some (spec_Kubelet (nc_Spec nodeClass))) (it_Capacity it) /\
  it_Capacity it !! ResourcePods =
    Some (NewQuantity (MaxPodsOrDefault (Some (spec_Kubelet (nc_Spec nodeClass)))) DecimalSI).
Proof.
  intros (st & _ & Hb)%elem_of_Build. apply build_one_Some in Hb as (_ & _ & Hn).
  unfold newInstanceType in Hn. case_match; [done|]. injection Hn as <-. split; [done|].
  cbn [it_Capacity]. unfold Capacity. by simplify_map_eq.
Qed.

(** C21. The kubelet runs with what karpenter subtracts.  For every instance type
    built for a NodeClass and every node that joins with it, each reservation
    flag is given once, and what the kubelet reads from it is what the overhead
    of that instance type holds: the same amount of every reserved resource, the
    same eviction thresholds against the same capacity, and the pod limit that
    is the capacity's pods.  The names must be free of the separators and no
    extra flag may repeat one of the provider's. *)
Theorem kubelet_runs_with_what_is_subtracted now sts nodeClass ipv4 u opts it (in_ : JoinInput)
    (args : list kubeletArg)
    (Hit : it ∈ Build now sts nodeClass ipv4 u opts)
    (Hk : ji_Kubelet in_ = Some (spec_Kubelet (nc_Spec nodeClass)))
    (Hargs : kubeletArgs in_ = Some args)
    (Hp : plain_kubelet (spec_Kubelet (nc_Spec nodeClass))) :
  exists kube sys evict pods,
    flag_values args "kube-reserved" = [kube] /\
    flag_values args "system-reserved" = [sys] /\
    flag_values args "eviction-hard" = [evict] /\
    flag_values args "max-pods" = [FormatInt pods] /\
    (forall r, amount_of (read_quantities kube) r = amount_of (ov_KubeReserved (it_Overhead it)) r) /\
    (forall r, amount_of (read_quantities sys) r = amount_of (ov_SystemReserved (it_Overhead it)) r) /\
    evictionThreshold (read_pairs "<" evict) (it_Capacity it) = ov_EvictionThreshold (it_Overhead it) /\
    it_Capacity it !! ResourcePods = Some (NewQuantity pods DecimalSI).
Proof.
  apply build_capacity in Hit as [Hov Hpods]. destruct Hp as [Pk Ps Pe Px].
  set (k := spec_Kubelet (nc_Spec nodeClass)) in *.
  exists (resourceListArg (KubeReservedOrDefault (Some k))),
    (resourceListArg (SystemReservedOrDefault (Some k))),
    (evictionArg (EvictionHardOrDefault (Some k))), (MaxPodsOrDefault (Some k)).
  assert (forall f, f ∈ reservation_flags ->
    flag_values args f = flag_values (base_args (Some k)) f) as Hf.
  { intros f Hin. apply (kubeletArgs_flags in_); auto. }
  rewrite !Hf by (apply (bool_decide_unpack _); by vm_compute).
  do 4 (split; [done|]). rewrite Hov. split; [intros r; by apply read_resourceListArg|].
  split; [intros r; by apply read_resourceListArg|]. split; [|done].
  unfold Overhead. cbn [ov_EvictionThreshold]. by rewrite read_evictionArg.
Qed.

(** The labels of the NodeClaim reach the node: the flag is absent exactly when
    there are none, and otherwise reads back as the whole map. *)
Theorem node_labels_roundtrip (in_ : JoinInput) (args : list kubeletArg)
    (Hargs : kubeletArgs in_ = Some args)
    (Hp : map_Forall (fun k v => plain_key "=" k /\ has_char "," v = false) (ji_NodeLabels in_))
    (Hx : forall k, ji_Kubelet in_ = Some k -> "node-labels" ∉ arg_Name <$> kl_ExtraArgs k) :
  match flag_values args "node-labels" with
  | [] => ji_NodeLabels in_ = ∅
  | [v] => ji_NodeLabels in_ <> ∅ /\ read_pairs "=" v = ji_NodeLabels in_
  | _ => False
  end.
Proof.
  unfold kubeletArgs in Hargs. destruct (ji_Kubelet in_) as [k|] eqn:Ek; [|done].
  assert (forall l, flag_values (match kl_ClusterDNS k with [] => l | dns => l ++ [{| ka_Name :=
    "cluster-dns"; ka_Value := Join dns "," |}] end) "node-labels" = flag_values l "node-labels") as Hdns.
  { intros l. destruct (kl_ClusterDNS k); [done|]. rewrite flag_values_app. apply app_nil_r. }
  assert (flag_values (base_args (Some k)) "node-labels" = []) as Hbase by done.
  revert Hbase Hargs. generalize (base_args (Some k)). intros base Hbase [= <-].
  rewrite flag_values_app, flag_values_extra, app_nil_r by auto.
  rewrite Hdns. destruct (Nat.eqb_spec (size (ji_NodeLabels in_)) 0) as [Hs|Hs].
  - rewrite Hbase. by apply map_size_empty_iff.
  - rewrite flag_values_app, Hbase. change (flag_values [_] _) with [mapArg (ji_NodeLabels in_)]. rewrite app_nil_l.
    split; [intros He; by rewrite He in Hs|]. unfold mapArg.
    rewrite (read_pairs_arg _ _ (ji_NodeLabels in_)); [apply map_fmap_id|apply map_range_perm|].
    eapply map_Forall_impl; [exact Hp|]. intros k' v [[H1 H2] Hv]. by split.
Qed.
End Reservations.

(** Soft eviction is accepted, hashed and never rendered: no value of the two
    soft-eviction fields changes the join configuration. *)
Definition set_soft (k : KubeletConfiguration) (soft : gmap string string)
    (grace : gmap string duration) : KubeletConfiguration :=
  {| kl_KubeReserved := kl_KubeReserved k; kl_SystemReserved := kl_SystemReserved k;
     kl_EvictionHard := kl_EvictionHard k; kl_EvictionSoft := soft;
     kl_EvictionSoftGracePeriod := grace; kl_MaxPods := kl_MaxPods k;
     kl_ClusterDNS := kl_ClusterDNS k; kl_ExtraArgs := kl_ExtraArgs k |}.

Definition set_kubelet (in_ : JoinInput) (k : KubeletConfiguration) : JoinInput :=
  {| ji_APIServerEndpoint := ji_APIServerEndpoint in_; ji_Token := ji_Token in_;
     ji_CACertHashes := ji_CACertHashes in_; ji_Taints := ji_Taints in_;
     ji_NodeLabels := ji_NodeLabels in_; ji_Kubelet := Some k |}.

Theorem soft_eviction_never_rendered (in_ : JoinInput) (k : KubeletConfiguration)
    (soft : gmap string string) (grace : gmap string duration) :
  renderJoinConfiguration (set_kubelet in_ (set_soft k soft grace)) =
  renderJoinConfiguration (set_kubelet in_ k).
Proof. done. Qed.
End WithKube.

(** No iteration order shows in the flags. *)
Lemma kubeletArgs_order `{KB : Kube} (M1 M2 : MapRange) `{!MapRangeLaws M1, !MapRangeLaws M2}
    (in_ : JoinInput) : kubeletArgs (MR := M1) in_ = kubeletArgs (MR := M2) in_.
Proof.
  unfold kubeletArgs, base_args, resourceListArg, evictionArg, mapArg.
  rewrite !(pairs_arg_perm _ _ (@map_range M1 _ _) (@map_range M2 _ _)) by apply map_range_order.
  done.
Qed.

Lemma renderJoinConfiguration_order `{KB : Kube, YJ : YamlMarshal joinConfiguration}
    (M1 M2 : MapRange) `{!MapRangeLaws M1, !MapRangeLaws M2} (in_ : JoinInput) :
  renderJoinConfiguration (MR := M1) in_ = renderJoinConfiguration (MR := M2) in_.
Proof. unfold renderJoinConfiguration. by rewrite (kubeletArgs_order M1 M2). Qed.

(** ** Witnesses *)

Module KubeadmExample.
Import KubeExample CatalogExample.

#[export] Existing Instance some_order.

Lemma read_bits_print (p : positive) :
  read_bits (print_bits p) = Some p /\ has_char "," (print_bits p) = false.
Proof.
  induction p as [p [IH1 IH2]|p [IH1 IH2]|]; [| |done]; cbn [print_bits read_bits has_char];
    by rewrite IH1, IH2.
Qed.

#[export] Instance quantity_text : QuantityText (KB := kube).
Proof.
  split; intros q; cbn [q_String ParseQuantity kube q_amount quantity_laws].
  - exists q. split; [|done]. destruct q as [|p|p]; [done| |]; cbn;
      by rewrite (proj1 (read_bits_print p)).
  - destruct q as [|p|p]; [done| |]; cbn; apply read_bits_print.
Qed.

Definition join_input (k : KubeletConfiguration) : JoinInput :=
  {| ji_APIServerEndpoint := "10.1.0.2:6443"; ji_Token := "abcdef.0123456789abcdef";
     ji_CACertHashes := ["sha256:00"]; ji_Taints := [];
     ji_NodeLabels := {[ "karpenter.sh/nodepool" := "general"; "a" := "1" ]};
     ji_Kubelet := Some k |}.

Lemma plain_example : plain_kubelet kubelet.
Proof.
  split; [apply (bool_decide_unpack _); by vm_compute..|]. intros f _. apply not_elem_of_nil.
Qed.

Lemma kubelet_runs_with_what_is_subtracted_witness :
  exists it args kube,
    it ∈ types [] NewUnavailable /\ flag_values args "kube-reserved" = [kube] /\
    amount_of (read_quantities kube) ResourceCPU = amount_of (ov_KubeReserved (it_Overhead it)) ResourceCPU.
Proof.
  assert (exists it, it ∈ types [] NewUnavailable) as [it Hit].
  { assert (length (types [] NewUnavailable) = 2%nat) as Hl by by vm_compute.
    destruct (types [] NewUnavailable) as [|it l]; [done|]. exists it. by left. }
  assert (exists args, kubeletArgs (join_input kubelet) = Some args) as [args Hargs] by by eexists.
  destruct (kubelet_runs_with_what_is_subtracted 0 [cx23; cpx22] (nodeClass [] ∅) (f_ratio 50 100)
    NewUnavailable zero_options it (join_input kubelet) args Hit eq_refl Hargs plain_example)
    as (kube & _ & _ & _ & Hkube & _ & _ & _ & Hr & _).
  exists it, args, kube. exact (conj Hit (conj Hkube (Hr ResourceCPU))).
Defined.

Lemma node_labels_roundtrip_witness :
  exists args,
    match flag_values args "node-labels" with
    | [v] => read_pairs "=" v = {[ "karpenter.sh/nodepool" := "general"; "a" := "1" ]}
    | _ => False
    end.
Proof.
  assert (exists args, kubeletArgs (join_input kubelet) = Some args) as [args Hargs] by by eexists.
  exists args.
  pose proof (node_labels_roundtrip (join_input kubelet) args Hargs) as H.
  destruct (flag_values args "node-labels") as [|v [|? ?]].
  - exfalso. assert (ji_NodeLabels (join_input kubelet) = ∅) as He; [|done]. apply H.
    + apply (bool_decide_unpack _). by vm_compute.
    + intros k [= <-]. apply not_elem_of_nil.
  - apply H.
    + apply (bool_decide_unpack _). by vm_compute.
    + intros k [= <-]. apply not_elem_of_nil.
  - apply H.
    + apply (bool_decide_unpack _). by vm_compute.
    + intros k [= <-]. apply not_elem_of_nil.
Defined.

(** The flags of the default configuration, as the node gets them. *)
Example default_flags :
  (fun args => flag_values args "eviction-hard") <$> kubeletArgs (join_input kubelet) =
  Some ["imagefs.available<15%,imagefs.inodesFree<5%,memory.available<500Mi,nodefs.available<10%,nodefs.inodesFree<5%"].
Proof. by vm_compute. Qed.
End KubeadmExample.
