(* ===== verification/CloudInit.v ===== *)
(** The cloud-init document a node boots with.

    Models [internal/providers/bootstrap/cloudinit.go]: the document, its files
    and commands, and the size limit of Hetzner's user data.  The YAML encoder
    and compress/gzip are classes; maps are ranged over in any order. *)

From Stdlib Require Import Ascii.
From S2P Require Import Prelude GoErrors Float64 GoText GoMaps Servers Kube Api Unavailable.
From S2P Require Import Resources InstanceTypes NodeClaims Kubeadm.

Definition MaxUserDataBytes : Z := 32 * 1024.
Definition GzipThresholdBytes : Z := 24 * 1024.
Definition OSFamilyDebian : string := "Debian".

Definition str_len (s : string) : Z := Z.of_nat (String.length s).

(** A newline and a double quote. *)
Definition nl : string := String "010" "".
Definition dq : string := String (ascii_of_nat 34) "".

(** [gzip.NewWriter] over a buffer: [Write] of the document, then [Close] and
    what the buffer holds. *)
Class GzipWriter := {
  gzip_Write : string -> option error;
  gzip_Close : string -> result string
}.

(** ** The document *)

Record writeFile := {
  wf_Path : string;
  wf_Permissions : string;
  wf_Owner : string;
  wf_Content : string
}.

Record cloudConfig := {
  cc_PackageUpdate : bool;
  cc_PackageUpgrade : bool;
  cc_PackageRebootIfRequired : bool;
  cc_Packages : list string;
  cc_WriteFiles : list writeFile;
  cc_Runcmd : list string
}.

Definition system_file (path content : string) : writeFile :=
  {| wf_Path := path; wf_Permissions := "0644"; wf_Owner := ""; wf_Content := content |}.

(** ** Helpers *)

Fixpoint dedupe_loop (seen : gset string) (in_ : list string) : list string :=
  match in_ with
  | [] => []
  | s :: in_ =>
      if (s =? "")%string || bool_decide (s ∈ seen) then dedupe_loop seen in_
      else s :: dedupe_loop ({[ s ]} ∪ seen) in_
  end.

Definition dedupe (in_ : list string) : list string := dedupe_loop ∅ in_.

Definition minorVersion `{GoText} (version : string) : result string :=
  match Split version "." with
  | major :: minor :: _ => Ok (major +:+ "." +:+ minor)
  | _ => Err (Errorf ("kubernetesVersion " +:+ Quote version +:+ " is not major.minor.patch"))
  end.

Definition heredoc_delim : string := "KARPENTER_EOF".

Definition appendHeredoc (path content : string) : string :=
  "cat >> " +:+ path +:+ " << '" +:+ heredoc_delim +:+ "'" +:+ nl +:+ content +:+ nl +:+ heredoc_delim.

Definition default_sysctls : gmap string string :=
  {[ "net.bridge.bridge-nf-call-iptables" := "1";
     "net.ipv4.ip_forward" := "1";
     "net.bridge.bridge-nf-call-ip6tables" := "1";
     "fs.inotify.max_user_watches" := "524288";
     "fs.inotify.max_user_instances" := "8192" ]}.

Definition sysctlContent `{MapRange} (extra : gmap string string) : string :=
  let values := maps_Copy default_sysctls extra in
  let keys := sort_strings (fst <$> map_range values) in
  foldl (fun b k => b +:+ k +:+ " = " +:+ default "" (values !! k) +:+ nl) "" keys.

Definition modulesContent (extra : list string) : string :=
  Join (dedupe ("br_netfilter" :: extra)) nl +:+ nl.

Definition originsContent `{GoText} (origins : list string) : string :=
  foldl (fun b o => b +:+ "        " +:+ Quote o +:+ ";" +:+ nl)
    ("// Additional origins to auto-patch." +:+ nl +:+ "Unattended-Upgrade::Origins-Pattern {" +:+ nl)
    origins +:+ "};" +:+ nl.

Definition containerd_pin (pin : string) : string :=
  "# Bound containerd.io to a major version. unattended-upgrades patches" +:+ nl +:+
  "# freely within it but cannot silently cross a major boundary: that changes" +:+ nl +:+
  "# the CRI plugin configuration shape and breaks any additional runtime" +:+ nl +:+
  "# handler wired into it. Raise deliberately." +:+ nl +:+
  "Package: containerd.io" +:+ nl +:+
  "Pin: version " +:+ pin +:+ nl +:+
  "Pin-Priority: 1001" +:+ nl.

Definition kernels_content : string :=
  "// Auto-purge superseded kernels so old linux-image-* do not fill /boot." +:+ nl +:+
  "Unattended-Upgrade::Remove-Unused-Kernel-Packages " +:+ dq +:+ "true" +:+ dq +:+ ";" +:+ nl.

(** ** Commands *)

Definition install_command (pkgVersion : string) : string :=
  "apt-get install -y -o Dpkg::Options::=" +:+ dq +:+ "--force-confold" +:+ dq +:+
  " containerd.io kubelet=" +:+ pkgVersion +:+ " kubeadm=" +:+ pkgVersion +:+
  " kubectl=" +:+ pkgVersion.

Definition hold_command : string := "apt-mark hold kubelet kubeadm kubectl".
Definition join_command : string := "kubeadm join --config /etc/kubernetes/kubeadm-join.yaml".

(** The repositories, keys and modules, up to the package index. *)
Definition repository_commands (minor : string) : list string :=
  ["sysctl --system";
   "modprobe br_netfilter";
   "mkdir -p /etc/apt/keyrings";
   "curl -fsSL https://pkgs.k8s.io/core:/stable:/v" +:+ minor +:+ "/deb/Release.key " +:+
     "| gpg --dearmor -o /etc/apt/keyrings/kubernetes-apt-keyring.gpg";
   "echo 'deb [signed-by=/etc/apt/keyrings/kubernetes-apt-keyring.gpg] " +:+
     "https://pkgs.k8s.io/core:/stable:/v" +:+ minor +:+
     "/deb/ /' > /etc/apt/sources.list.d/kubernetes.list";
   "curl -fsSL https://download.docker.com/linux/debian/gpg | gpg --dearmor -o /etc/apt/keyrings/docker.gpg";
   "echo " +:+ dq +:+
     "deb [arch=$(dpkg --print-architecture) signed-by=/etc/apt/keyrings/docker.gpg] " +:+
     "https://download.docker.com/linux/debian $(. /etc/os-release && echo \" +:+ dq +:+
     "$VERSION_CODENAME\" +:+ dq +:+ ") stable" +:+ dq +:+ " " +:+
     "> /etc/apt/sources.list.d/docker.list";
   "apt-get update"].

Section WithKube.
Context `{KB : Kube}.

(** The container runtime, after the packages are held. *)
Definition runtime_commands (boot : BootstrapSpec) : list string :=
  (if UnattendedUpgradesEnabled (Some (bs_UnattendedUpgrades boot))
   then ["dpkg-reconfigure -f noninteractive unattended-upgrades"] else []) ++
  ["mkdir -p /etc/containerd"; "containerd config default > /etc/containerd/config.toml"] ++
  (if SystemdCgroupEnabled (Some (bs_Containerd boot))
   then ["sed -i 's/SystemdCgroup = false/SystemdCgroup = true/' /etc/containerd/config.toml"]
   else []) ++
  (let extra := TrimSpace (cd_ExtraConfig (bs_Containerd boot)) in
   if (extra =? "")%string then [] else [appendHeredoc "/etc/containerd/config.toml" extra]).

Definition buildRuncmd (spec : HCloudNodeClassSpec) (minor pkgVersion : string) : list string :=
  let boot := spec_Bootstrap spec in
  repository_commands minor ++ [install_command pkgVersion; hold_command] ++
  runtime_commands boot ++ ["systemctl restart containerd"; "systemctl enable kubelet"] ++
  bs_PreJoinCommands boot ++ [join_command] ++ bs_PostJoinCommands boot.

(** ** Files *)

Definition join_path : string := "/etc/kubernetes/kubeadm-join.yaml".

Definition join_file (joinYAML : string) : writeFile :=
  {| wf_Path := join_path; wf_Permissions := "0600"; wf_Owner := ""; wf_Content := joinYAML |}.

Definition upgrade_files `{GoText} (uu : UnattendedUpgradesSpec) : list writeFile :=
  if UnattendedUpgradesEnabled (Some uu) then
    match uu_ExtraOrigins uu with
    | [] => []
    | origins => [system_file "/etc/apt/apt.conf.d/52unattended-upgrades-extra.conf" (originsContent origins)]
    end ++
    (if RemoveUnusedKernelsEnabled (Some uu)
     then [system_file "/etc/apt/apt.conf.d/52unattended-upgrades-kernels.conf" kernels_content] else [])
  else [].

Definition extra_file (f : File) : writeFile :=
  {| wf_Path := file_Path f; wf_Permissions := file_Permissions f; wf_Owner := file_Owner f;
     wf_Content := file_Content f |}.

Definition write_files `{GoText, MapRange} (boot : BootstrapSpec) (joinYAML : string) : list writeFile :=
  [system_file "/etc/sysctl.d/99-k8s.conf" (sysctlContent (bs_Sysctls boot));
   system_file "/etc/modules-load.d/k8s.conf" (modulesContent (bs_KernelModules boot));
   system_file "/etc/apt/preferences.d/containerd"
     (containerd_pin (AptPinOrDefault (Some (bs_Containerd boot))));
   system_file "/etc/default/kubelet" ("KUBELET_EXTRA_ARGS=--cloud-provider=external" +:+ nl);
   join_file joinYAML] ++
  upgrade_files (bs_UnattendedUpgrades boot) ++
  (extra_file <$> bs_ExtraFiles boot).

Definition base_packages : list string :=
  ["apt-transport-https"; "curl"; "gnupg"; "ca-certificates"; "unattended-upgrades";
   "containernetworking-plugins"; "nfs-common"].

Definition cloud_config `{GoText, MapRange} (spec : HCloudNodeClassSpec)
    (joinYAML minor pkgVersion : string) : cloudConfig :=
  let boot := spec_Bootstrap spec in
  let upgrade := PackageUpgradeOnBootEnabled (Some boot) in
  {| cc_PackageUpdate := true;
     cc_PackageUpgrade := upgrade;
     cc_PackageRebootIfRequired := upgrade;
     cc_Packages := dedupe (base_packages ++ bs_ExtraPackages boot);
     cc_WriteFiles := write_files boot joinYAML;
     cc_Runcmd := buildRuncmd spec minor pkgVersion |}.

(** ** Rendering *)

Definition maybeCompress `{GzipWriter} (doc : string) : result string :=
  if str_len doc <=? GzipThresholdBytes then
    if MaxUserDataBytes <? str_len doc
    then Err (Errorf ("userData is " +:+ FormatInt (str_len doc) +:+ " bytes, over the " +:+
                      FormatInt MaxUserDataBytes +:+ " byte limit"))
    else Ok doc
  else
    match gzip_Write doc with
    | Some err => Err (Wrapf "compressing userData: " err)
    | None =>
        match gzip_Close doc with
        | Err err => Err (Wrapf "compressing userData: " err)
        | Ok buf =>
            if MaxUserDataBytes <? str_len buf
            then Err (Errorf ("userData is " +:+ FormatInt (str_len buf) +:+
                              " bytes compressed, over the " +:+ FormatInt MaxUserDataBytes +:+
                              " byte limit"))
            else Ok buf
        end
    end.

Record Input := {
  in_NodeClass : option HCloudNodeClass;
  in_Join : JoinInput
}.

Context `{GT : GoText, MR : MapRange, GZ : GzipWriter}.
Context `{YJ : YamlMarshal joinConfiguration, YC : YamlMarshal cloudConfig}.

(** What follows the guards: the document, encoded and kept within the limit. *)
Definition render_document (spec : HCloudNodeClassSpec) (joinYAML : string) : result string :=
  let boot := spec_Bootstrap spec in
  match minorVersion (bs_KubernetesVersion boot) with
  | Err err => Err err
  | Ok minor =>
      let pkgVersion := bs_KubernetesVersion boot +:+ "-" +:+ PackageRevisionOrDefault (Some boot) in
      match yaml_Marshal (cloud_config spec joinYAML minor pkgVersion) with
      | Err err => Err (Wrapf "marshalling cloud-config: " err)
      | Ok doc => maybeCompress ("#cloud-config" +:+ nl +:+ doc)
      end
  end.

(** [Render]; [None] is the panic of a nil kubelet configuration. *)
Definition Render (in_ : Input) : option (result string) :=
  match in_NodeClass in_ with
  | None => Some (Err (Errorf "nodeClass is required"))
  | Some nodeClass =>
      let spec := nc_Spec nodeClass in
      let boot := spec_Bootstrap spec in
      if negb (bs_OSFamily boot =? "")%string && negb (bs_OSFamily boot =? OSFamilyDebian)%string
      then Some (Err (Errorf ("unsupported osFamily " +:+ Quote (bs_OSFamily boot))))
      else
        r ← renderJoinConfiguration (in_Join in_);
        Some match r with
             | Err err => Err err
             | Ok joinYAML => render_document spec joinYAML
             end
  end.

(** ** Lemmas *)

Lemma elem_of_dedupe_loop (seen : gset string) (l : list string) (x : string) :
  x ∈ dedupe_loop seen l <-> x <> "" /\ (x ∉ seen) /\ x ∈ l.
Proof.
  revert seen. induction l as [|s l IH]; intros seen; cbn [dedupe_loop]; [set_solver|].
  destruct (String.eqb_spec s ""); cbn [orb]; [rewrite IH; set_solver|].
  case_bool_decide; [rewrite IH; set_solver|].
  rewrite !elem_of_cons, IH. destruct (decide (x = s)); set_solver.
Qed.

Lemma NoDup_dedupe_loop (seen : gset string) (l : list string) : NoDup (dedupe_loop seen l).
Proof.
  revert seen. induction l as [|s l IH]; intros seen; cbn [dedupe_loop]; [constructor|].
  case_match; [done|]. constructor; [|done]. rewrite elem_of_dedupe_loop. set_solver.
Qed.

Lemma dedupe_loop_sublist (seen : gset string) (l : list string) : dedupe_loop seen l `sublist_of` l.
Proof.
  revert seen. induction l as [|s l IH]; intros seen; cbn [dedupe_loop]; [constructor|].
  case_match; [by apply sublist_cons|by apply sublist_skip].
Qed.

Lemma maybeCompress_Ok (doc out : string) :
  maybeCompress doc = Ok out <->
  (str_len doc <= GzipThresholdBytes /\ out = doc) \/
  (GzipThresholdBytes < str_len doc /\ gzip_Write doc = None /\ gzip_Close doc = Ok out /\
   str_len out <= MaxUserDataBytes).
Proof.
  unfold maybeCompress. unfold GzipThresholdBytes, MaxUserDataBytes.
  destruct (Z.leb_spec (str_len doc) (24 * 1024)) as [Hs|Hs].
  - destruct (Z.ltb_spec (32 * 1024) (str_len doc)); [lia|]. split; [intros [= <-]; auto|].
    intros [[_ ->]|[? _]]; [done|lia].
  - destruct (gzip_Write doc) as [e|]; [split; [done|intros [[? _]|(_ & ? & _)]; [lia|done]]|].
    destruct (gzip_Close doc) as [buf|e]; [|split; [done|intros [[? _]|(_ & _ & ? & _)]; [lia|done]]].
    destruct (Z.ltb_spec (32 * 1024) (str_len buf)) as [Hb|Hb].
    + split; [done|]. intros [[? _]|(_ & _ & [= <-] & ?)]; lia.
    + split; [intros [= <-]; auto 6|]. intros [[? _]|(_ & _ & [= <-] & ?)]; [lia|done].
Qed.

(** The parts a rendered document is made of. *)
Record rendered (in_ : Input) (nodeClass : HCloudNodeClass) (joinYAML minor doc out : string) : Prop := {
  rn_class : in_NodeClass in_ = Some nodeClass;
  rn_family : bs_OSFamily (spec_Bootstrap (nc_Spec nodeClass)) = "" \/
              bs_OSFamily (spec_Bootstrap (nc_Spec nodeClass)) = OSFamilyDebian;
  rn_join : renderJoinConfiguration (in_Join in_) = Some (Ok joinYAML);
  rn_minor : minorVersion (bs_KubernetesVersion (spec_Bootstrap (nc_Spec nodeClass))) = Ok minor;
  rn_doc : yaml_Marshal (cloud_config (nc_Spec nodeClass) joinYAML minor
    (bs_KubernetesVersion (spec_Bootstrap (nc_Spec nodeClass)) +:+ "-" +:+
     PackageRevisionOrDefault (Some (spec_Bootstrap (nc_Spec nodeClass))))) = Ok doc;
  rn_out : maybeCompress ("#cloud-config" +:+ nl +:+ doc) = Ok out
}.

Lemma Render_Ok (in_ : Input) (out : string) :
  Render in_ = Some (Ok out) <->
  exists nodeClass joinYAML minor doc, rendered in_ nodeClass joinYAML minor doc out.
Proof.
  unfold Render, render_document. split.
  - destruct (in_NodeClass in_) as [nc|] eqn:Ec; [|done].
    set (boot := spec_Bootstrap (nc_Spec nc)).
    destruct (negb (bs_OSFamily boot =? "")%string && _) eqn:Eo; [done|].
    destruct (renderJoinConfiguration (in_Join in_)) as [[y|e]|] eqn:Ej; cbn [mbind option_bind]; [|done..].
    destruct (minorVersion (bs_KubernetesVersion boot)) as [minor|e] eqn:Em; [|done].
    destruct (yaml_Marshal (cloud_config _ _ _ _)) as [doc|e] eqn:Ey; [|done].
    intros [= Ho]. exists nc, y, minor, doc. split; try done.
    apply andb_false_iff in Eo as [Eo|Eo]; apply negb_false_iff, String.eqb_eq in Eo; auto.
  - intros (nc & y & minor & doc & [-> Hf -> Hm Hd Ho]). cbn [mbind option_bind].
    rewrite Hm, Hd, Ho. by destruct Hf as [-> | ->].
Qed.

Lemma upgrade_files_paths (uu : UnattendedUpgradesSpec) :
  Forall (fun f => wf_Path f <> join_path) (upgrade_files uu).
Proof.
  unfold upgrade_files.
  destruct (UnattendedUpgradesEnabled (Some uu)), (uu_ExtraOrigins uu),
    (RemoveUnusedKernelsEnabled (Some uu)); by repeat constructor.
Qed.

(** ** Properties *)


(** C22. A node is never told to join something it cannot verify.  Whatever is
    rendered, the join configuration in it carries, as its bootstrap-token
    discovery, exactly the endpoint, the token and the CA pins it was given, none
    of them empty, and leads its taints with the unregistered one.  It is the
    content of one file of the document, mode 0600, at the very path the document's
    join command reads, and no other file of the provider's own is at that path;
    files of the operator come after it. *)
Theorem rendered_join_is_pinned (in_ : Input) (out : string) (Hr : Render in_ = Some (Ok out)) :
  exists nodeClass joinYAML minor doc cfg cc, rendered in_ nodeClass joinYAML minor doc out /\
    yaml_Marshal cfg = Ok joinYAML /\
    (ji_APIServerEndpoint (in_Join in_) <> "" /\ ji_Token (in_Join in_) <> "" /\
     ji_CACertHashes (in_Join in_) <> []) /\
    jd_BootstrapToken (jc_Discovery cfg) =
      Some {| btd_APIServerEndpoint := ji_APIServerEndpoint (in_Join in_);
              btd_Token := ji_Token (in_Join in_); btd_CACertHashes := ji_CACertHashes (in_Join in_) |} /\
    nr_Taints (jc_NodeRegistration cfg) = UnregisteredTaint :: ji_Taints (in_Join in_) /\
    yaml_Marshal cc = Ok doc /\
    exists before f after,
      cc_WriteFiles cc = before ++ [f] ++ after ++
        (extra_file <$> bs_ExtraFiles (spec_Bootstrap (nc_Spec nodeClass))) /\
      wf_Content f = joinYAML /\ wf_Permissions f = "0600" /\
      ("kubeadm join --config " +:+ wf_Path f) ∈ cc_Runcmd cc /\
      Forall (fun g => wf_Path g <> wf_Path f) (before ++ after).
Proof.
  apply Render_Ok in Hr as (nc & y & minor & doc & Hr).
  pose proof (proj1 (join_exact _ _) (rn_join _ _ _ _ _ _ Hr)) as (He & Ht & Hh & args & Ha & Hy).
  eexists nc, y, minor, doc, (join_config (in_Join in_) args), _. split; [done|]. split; [done|].
  split; [done|]. split; [done|]. split; [done|]. split; [apply (rn_doc _ _ _ _ _ _ Hr)|].
  eexists [_; _; _; _], (join_file y), (upgrade_files _). split; [done|]. split; [done|]. split; [done|].
  split.
  - cbn [cc_Runcmd cloud_config]. unfold buildRuncmd. change (_ +:+ wf_Path (join_file y)) with join_command.
    rewrite !elem_of_app, list_elem_of_singleton. tauto.
  - do 4 (constructor; [done|]). apply upgrade_files_paths.
Qed.

(** The document depends on the join configuration, and with it on the token,
    in one place only: the content of the join file, which nobody but root may
    read.  Packages, commands and every other file are the same for any other
    token. *)
Theorem token_only_in_join_file (spec : HCloudNodeClassSpec) (y1 y2 minor pkgVersion : string) :
  let c1 := cloud_config spec y1 minor pkgVersion in
  let c2 := cloud_config spec y2 minor pkgVersion in
  cc_Packages c1 = cc_Packages c2 /\ cc_Runcmd c1 = cc_Runcmd c2 /\
  exists before after,
    cc_WriteFiles c1 = before ++ [join_file y1] ++ after /\
    cc_WriteFiles c2 = before ++ [join_file y2] ++ after /\
    wf_Permissions (join_file y1) = "0600".
Proof. split; [done|]. split; [done|]. eexists [_; _; _; _], _. done. Qed.

(** The order a node comes up in: the package index is read and the pinned
    packages are installed and held before anything else runs, containerd and the
    kubelet are in place before the operator's pre-join commands, the join comes
    right after those and nothing joins earlier, and the post-join commands end
    it. *)
Theorem runcmd_order (spec : HCloudNodeClassSpec) (minor pkgVersion : string) :
  exists repositories runtime,
    buildRuncmd spec minor pkgVersion =
      repositories ++ ["apt-get update"; install_command pkgVersion; hold_command] ++ runtime ++
      ["systemctl restart containerd"; "systemctl enable kubelet"] ++
      bs_PreJoinCommands (spec_Bootstrap spec) ++ [join_command] ++
      bs_PostJoinCommands (spec_Bootstrap spec) /\
    join_command ∉ repositories ++ runtime.
Proof.
  exists (take 7 (repository_commands minor)), (runtime_commands (spec_Bootstrap spec)).
  split; [done|]. unfold repository_commands, runtime_commands. cbn [take].
  rewrite !elem_of_app, !elem_of_cons. intros Hj.
  repeat match goal with
  | H : _ \/ _ |- _ => destruct H as [H|H]
  | H : _ ∈ [] |- _ => by apply elem_of_nil in H
  | H : _ ∈ (if ?b then _ else _) |- _ => destruct b
  | H : _ ∈ [_] |- _ => apply list_elem_of_singleton in H
  | H : _ = _ |- _ => discriminate H
  end.
Qed.

(** What a shell makes of a here-document: the lines up to the delimiter are its
    text, the lines after it are commands. *)
Fixpoint heredoc_read (lines : list string) : list string * list string :=
  match lines with
  | [] => ([], [])
  | l :: lines =>
      if decide (l = heredoc_delim) then ([], lines)
      else prod_map (cons l) id (heredoc_read lines)
  end.

Definition shell_heredoc (cmd : string) : list string * list string :=
  heredoc_read (tail (Split cmd "010")).

Lemma heredoc_read_app (pre post : list string) :
  heredoc_delim ∉ pre -> heredoc_read (pre ++ heredoc_delim :: post) = (pre, post).
Proof.
  induction pre as [|l pre IH]; cbn [app heredoc_read].
  - intros _. by rewrite decide_True.
  - intros [Hl Hp]%not_elem_of_cons. rewrite decide_False by done. by rewrite IH.
Qed.

(** The containerd configuration an operator supplies is appended as text and
    never run, provided none of its lines is the delimiter; if one is, the shell
    takes that line as the end and runs what follows. *)
Theorem heredoc_contained (path content : string) (Hp : has_char "010" path = false) :
  (heredoc_delim ∉ Split content "010" ->
   shell_heredoc (appendHeredoc path content) = (Split content "010", [])) /\
  (forall pre post, Split content "010" = pre ++ heredoc_delim :: post -> heredoc_delim ∉ pre ->
   shell_heredoc (appendHeredoc path content) = (pre, post ++ [heredoc_delim])).
Proof.
  assert (tail (Split (appendHeredoc path content) "010") = Split content "010" ++ [heredoc_delim])
    as Hs.
  { unfold appendHeredoc. rewrite <- !append_assoc_s. rewrite append_assoc_s.
    change (nl +:+ heredoc_delim) with (String "010" heredoc_delim). rewrite Split_app.
    rewrite append_assoc_s. change (nl +:+ content) with (String "010" content).
    rewrite Split_first; [by rewrite (Split_whole heredoc_delim)|].
    by rewrite !has_char_append, Hp. }
  unfold shell_heredoc. rewrite Hs. split.
  - intros Hd. by apply heredoc_read_app.
  - intros pre post -> Hpre. rewrite <- app_assoc. cbn [app]. by apply heredoc_read_app.
Qed.

(** [utf8.ValidString]. *)
Fixpoint utf8_valid (s : string) : bool :=
  let within (lo hi : N) (a : ascii) := (lo <=? N_of_ascii a)%N && (N_of_ascii a <=? hi)%N in
  let cont := within 128%N 191%N in
  match s with
  | EmptyString => true
  | String a s1 =>
      if within 0%N 127%N a then utf8_valid s1
      else match s1 with
      | EmptyString => false
      | String b s2 =>
          if within 194%N 223%N a then cont b && utf8_valid s2
          else match s2 with
          | EmptyString => false
          | String c s3 =>
              if within 224%N 239%N a then
                within (if within 224%N 224%N a then 160%N else 128%N)
                       (if within 237%N 237%N a then 159%N else 191%N) b && cont c && utf8_valid s3
              else match s3 with
              | EmptyString => false
              | String d s4 =>
                  within 240%N 244%N a &&
                  within (if within 240%N 240%N a then 144%N else 128%N)
                         (if within 244%N 244%N a then 143%N else 191%N) b &&
                  cont c && cont d && utf8_valid s4
              end
          end
      end
  end.

(** C29. Compressed user data is not text: gzip's second byte (RFC 1952) is no
    UTF-8, so a document over the threshold leaves [Render] as a string the JSON
    request it travels in cannot carry unchanged. *)
Theorem compressed_user_data_is_not_text (in_ : Input) (nodeClass : HCloudNodeClass)
    (joinYAML minor doc out : string)
    (Hmagic : forall d b, gzip_Close d = Ok b ->
       exists r, b = String (ascii_of_nat 31) (String (ascii_of_nat 139) r))
    (Hr : rendered in_ nodeClass joinYAML minor doc out)
    (Hlong : GzipThresholdBytes < str_len ("#cloud-config" +:+ nl +:+ doc)) :
  Render in_ = Some (Ok out) /\ utf8_valid out = false.
Proof.
  split; [by apply Render_Ok; eexists _, _, _, _|].
  apply rn_out, maybeCompress_Ok in Hr as [[Hl _]|(_ & _ & Hz & _)]; [lia|].
  destruct (Hmagic _ _ Hz) as [r ->]. by destruct r as [|? [|? [|? ?]]].
Qed.

(** The packages are the base ones and the operator's, each once, in the order
    first named, the empty name left out. *)
Theorem packages_deduped (spec : HCloudNodeClassSpec) (joinYAML minor pkgVersion : string) :
  let ps := cc_Packages (cloud_config spec joinYAML minor pkgVersion) in
  let wanted := base_packages ++ bs_ExtraPackages (spec_Bootstrap spec) in
  NoDup ps /\ ps `sublist_of` wanted /\ (forall p, p ∈ ps <-> p <> "" /\ p ∈ wanted).
Proof.
  split; [apply NoDup_dedupe_loop|]. split; [apply dedupe_loop_sublist|].
  intros p. cbn [cc_Packages cloud_config]. unfold dedupe. rewrite elem_of_dedupe_loop.
  set_solver.
Qed.

(** ** What the drift hash does not see *)

Definition set_pre_join (b : BootstrapSpec) (cmds : list string) : BootstrapSpec :=
  {| bs_OSFamily := bs_OSFamily b; bs_Mode := bs_Mode b;
     bs_KubernetesVersion := bs_KubernetesVersion b; bs_PackageRevision := bs_PackageRevision b;
     bs_APIServerEndpoint := bs_APIServerEndpoint b; bs_CACertHashes := bs_CACertHashes b;
     bs_Containerd := bs_Containerd b; bs_UnattendedUpgrades := bs_UnattendedUpgrades b;
     bs_Sysctls := bs_Sysctls b; bs_KernelModules := bs_KernelModules b;
     bs_PackageUpgradeOnBoot := bs_PackageUpgradeOnBoot b; bs_ExtraPackages := bs_ExtraPackages b;
     bs_ExtraFiles := bs_ExtraFiles b; bs_PreJoinCommands := cmds;
     bs_PostJoinCommands := bs_PostJoinCommands b; bs_Revision := bs_Revision b |}.

Definition set_bootstrap (s : HCloudNodeClassSpec) (b : BootstrapSpec) : HCloudNodeClassSpec :=
  {| spec_ImageSelector := spec_ImageSelector s; spec_ImageDriftPolicy := spec_ImageDriftPolicy s;
     spec_MaxNodeAge := spec_MaxNodeAge s; spec_Locations := spec_Locations s;
     spec_NetworkSelector := spec_NetworkSelector s;
     spec_FirewallSelectors := spec_FirewallSelectors s;
     spec_SSHKeySelectors := spec_SSHKeySelectors s; spec_PlacementGroup := spec_PlacementGroup s;
     spec_PublicIPv4 := spec_PublicIPv4 s; spec_PublicIPv6 := spec_PublicIPv6 s;
     spec_ServerLabels := spec_ServerLabels s; spec_Kubelet := spec_Kubelet s; spec_Bootstrap := b |}.

(** Reordering the pre-join commands changes what every node runs and not the
    hash that decides whether a node is out of date: with slices hashed as sets
    (the option the source sets), a permutation is invisible to drift. *)
Theorem reordered_commands_never_drift `{SH : !SpecHash} (s : HCloudNodeClassSpec)
    (cmds cmds' : list string) (minor pkgVersion : string)
    (Hsets : forall s b l l', l ≡ₚ l' ->
       hash_structure (hashed_spec (set_bootstrap s (set_pre_join b l))) =
       hash_structure (hashed_spec (set_bootstrap s (set_pre_join b l'))))
    (Hperm : cmds ≡ₚ cmds') (Hne : cmds <> cmds') :
  let s1 := set_bootstrap s (set_pre_join (spec_Bootstrap s) cmds) in
  let s2 := set_bootstrap s (set_pre_join (spec_Bootstrap s) cmds') in
  hash_structure (hashed_spec s1) = hash_structure (hashed_spec s2) /\
  buildRuncmd s1 minor pkgVersion <> buildRuncmd s2 minor pkgVersion.
Proof.
  split; [by apply Hsets|]. unfold buildRuncmd. cbn [spec_Bootstrap set_bootstrap bs_PreJoinCommands
    set_pre_join bs_PostJoinCommands].
  change (runtime_commands (set_pre_join ?b ?l)) with (runtime_commands b).
  intros Heq. repeat apply app_inv_head in Heq. apply app_inv_tail in Heq. done.
Qed.
End WithKube.

(** ** Determinism *)

Section Order.
Context `{KB : Kube, GT : GoText, GZ : GzipWriter}.
Context `{YJ : YamlMarshal joinConfiguration, YC : YamlMarshal cloudConfig}.
Context (M1 M2 : MapRange) {L1 : MapRangeLaws M1} {L2 : MapRangeLaws M2}.

Lemma sysctlContent_order (extra : gmap string string) :
  sysctlContent (H := M1) extra = sysctlContent (H := M2) extra.
Proof using L1 L2.
  unfold sysctlContent. rewrite !maps_Copy_union. f_equal. apply sort_strings_perm.
  by rewrite (map_range_order (M1 := M1) (M2 := M2)).
Qed.

(** C28. The same input gives byte for byte the same user data, whatever order Go
    ranges over its maps in: two renderings under any two iteration orders are
    equal, errors included, so an unchanged NodeClass never looks changed. *)
Theorem render_ignores_map_order (in_ : Input) :
  Render (MR := M1) in_ = Render (MR := M2) in_.
Proof using L1 L2.
  unfold Render, render_document, cloud_config, write_files.
  rewrite (renderJoinConfiguration_order M1 M2).
  destruct (in_NodeClass in_) as [nc|]; [|done]. case_match; [done|].
  destruct (renderJoinConfiguration (in_Join in_)) as [[y|e]|]; [|done..]. cbn [mbind option_bind].
  by rewrite sysctlContent_order.
Qed.
End Order.

(** ** Witnesses *)

Module CloudInitExample.
Import KubeExample CatalogExample KubeadmExample.

(** The other end of the map first. *)
Definition reverse_order : MapRange := fun V m => reverse (map_to_list m).

#[export] Instance reverse_order_laws : MapRangeLaws reverse_order.
Proof. intros V m. apply reverse_Permutation. Qed.

(** Encoders that keep the parts the examples look at, and a compressor that
    leaves gzip's header. *)
#[export] Instance yaml_join : YamlMarshal joinConfiguration := fun c =>
  Ok (default "" (btd_Token <$> jd_BootstrapToken (jc_Discovery c))).
#[export] Instance yaml_config : YamlMarshal cloudConfig := fun c => Ok (Join (cc_Runcmd c) nl).
#[export] Instance gzip_header : GzipWriter := {
  gzip_Write _ := None;
  gzip_Close _ := Ok (String (ascii_of_nat 31) (String (ascii_of_nat 139) ""))
}.

Definition input : Input :=
  {| in_NodeClass := Some (nodeClass [] ∅); in_Join := join_input kubelet |}.

Lemma input_renders : exists out, Render input = Some (Ok out).
Proof. eexists. by vm_compute. Qed.


Lemma rendered_join_is_pinned_witness :
  exists joinYAML (cfg : joinConfiguration) bt, yaml_Marshal cfg = Ok joinYAML /\
    jd_BootstrapToken (jc_Discovery cfg) = Some bt /\
    btd_CACertHashes bt = ji_CACertHashes (in_Join input) /\ ji_CACertHashes (in_Join input) <> [].
Proof.
  destruct input_renders as [out Hr].
  destruct (rendered_join_is_pinned input out Hr)
    as (nc & y & minor & doc & cfg & cc & _ & Hy & (_ & _ & Hh) & Hd & _).
  exists y, cfg. eexists. split; [exact Hy|]. split; [exact Hd|]. exact (conj eq_refl Hh).
Defined.

(** An operator's TOML stays text; with the delimiter in it, what follows runs. *)
Lemma heredoc_contained_witness :
  shell_heredoc (appendHeredoc "/etc/containerd/config.toml" ("# $(id)" +:+ nl +:+ "[plugins]")) =
    (["# $(id)"; "[plugins]"], []) /\
  shell_heredoc (appendHeredoc "/etc/containerd/config.toml"
    ("a" +:+ nl +:+ "KARPENTER_EOF" +:+ nl +:+ "reboot")) = (["a"], ["reboot"; "KARPENTER_EOF"]).
Proof.
  split.
  - apply (proj1 (heredoc_contained "/etc/containerd/config.toml"
      ("# $(id)" +:+ nl +:+ "[plugins]") eq_refl)).
    apply (bool_decide_unpack _). by vm_compute.
  - apply (proj2 (heredoc_contained "/etc/containerd/config.toml"
      ("a" +:+ nl +:+ "KARPENTER_EOF" +:+ nl +:+ "reboot") eq_refl) ["a"] ["reboot"]); [done|].
    apply (bool_decide_unpack _). by vm_compute.
Defined.

Section Long.
(** A document of 25,000 bytes. *)
Definition long_doc : string := Pos.iter (String "x") "" 25000.
#[local] Instance yaml_long : YamlMarshal cloudConfig := fun _ => Ok long_doc.

Lemma compressed_user_data_is_not_text_witness :
  exists out, Render (YC := yaml_long) input = Some (Ok out) /\ utf8_valid out = false.
Proof.
  exists (String (ascii_of_nat 31) (String (ascii_of_nat 139) "")).
  assert (GzipThresholdBytes < str_len ("#cloud-config" +:+ nl +:+ long_doc)) as Hlong by by vm_compute.
  apply (compressed_user_data_is_not_text input (nodeClass [] ∅) "abcdef.0123456789abcdef" "1.34" long_doc).
  - intros d b [= <-]. by eexists.
  - split; [done|by right|by vm_compute|done|done|]. apply maybeCompress_Ok. by right.
  - exact Hlong.
Defined.
End Long.

Lemma reordered_commands_never_drift_witness :
  let s := spec [] ∅ in
  buildRuncmd (set_bootstrap s (set_pre_join (spec_Bootstrap s) ["a"; "b"])) "1.34" "1.34.7-1.1" <>
  buildRuncmd (set_bootstrap s (set_pre_join (spec_Bootstrap s) ["b"; "a"])) "1.34" "1.34.7-1.1".
Proof.
  apply (reordered_commands_never_drift (SH := fun _ => "h") (spec [] ∅) ["a"; "b"] ["b"; "a"]
    "1.34" "1.34.7-1.1"); [done|apply Permutation_swap|done].
Defined.

Lemma render_ignores_map_order_witness :
  Render (MR := some_order) input = Render (MR := reverse_order) input.
Proof. exact (render_ignores_map_order some_order reverse_order input). Defined.

Example sysctl_override :
  sysctlContent {[ "net.ipv4.ip_forward" := "0"; "vm.swappiness" := "0" ]} =
  "fs.inotify.max_user_instances = 8192" +:+ nl +:+ "fs.inotify.max_user_watches = 524288" +:+ nl +:+
  "net.bridge.bridge-nf-call-ip6tables = 1" +:+ nl +:+ "net.bridge.bridge-nf-call-iptables = 1" +:+ nl +:+
  "net.ipv4.ip_forward = 0" +:+ nl +:+ "vm.swappiness = 0" +:+ nl.
Proof. by vm_compute. Qed.
End CloudInitExample.
