(* ===== verification/Token.v ===== *)
(** Join tokens: one short-lived kubeadm bootstrap token per NodeClaim.

    Models [internal/providers/bootstrap/token.go].  Randomness, the rendering of
    a time and the Kubernetes client are classes over the world. *)

From Stdlib Require Import Ascii.
From S2P Require Import Prelude GoErrors Float64 GoText Servers Kube Api NodeClaims.

Definition TokenNamespace : string := "kube-system".
Definition DefaultTokenTTL : duration := 30 * minute.
Definition tokenIDLength : nat := 6.
Definition tokenSecretLength : nat := 16.
Definition tokenAlphabet : string := "abcdefghijklmnopqrstuvwxyz0123456789".

Record OwnerReference := {
  own_APIVersion : string; own_Kind : string; own_Name : string; own_UID : string
}.

Record Secret := {
  sec_Namespace : string;
  sec_Name : string;
  sec_Labels : gmap string string;
  sec_OwnerReferences : list OwnerReference;
  sec_Type : string;
  sec_StringData : gmap string string
}.

(** [TokenMinter]; its client and its clock are the world's. *)
Record TokenMinter := { tm_ttl : duration }.

Definition NewTokenMinter : TokenMinter := {| tm_ttl := DefaultTokenTTL |}.
Definition NewTokenMinterWithOptions (ttl : duration) : TokenMinter := {| tm_ttl := ttl |}.

Class TokenWorld (W : Type) := {
  (** [rand.Int(rand.Reader, max)]. *)
  rand_Int : Z -> W -> result Z * W;
  (** [t.UTC().Format(time.RFC3339)]. *)
  rfc3339 : time -> string;
  kube_CreateSecret : Secret -> W -> option error * W;
  kube_DeleteSecret : string -> string -> W -> option error * W
}.

Definition token_secret_name (id : string) : string := "bootstrap-token-" +:+ id.

(** [TokenID]: the id half of an "id.secret" token, by position. *)
Definition TokenID (token : string) : string :=
  if (String.length token <=? tokenIDLength)%nat then ""
  else match String.get tokenIDLength token with
       | Some a => if decide (a = "."%char) then String.substring 0 tokenIDLength token else ""
       | None => ""
       end.

Section WithKube.
Context `{KB : Kube}.
Context {W : Type} `{TW : TokenWorld W, CK : Clock W}.

(** [randomString]: [n] letters of the alphabet, each drawn on its own; an index
    outside the alphabet would panic and is kept out by [rand.Int]. *)
Fixpoint randomString (n : nat) (w : W) : result string * W :=
  match n with
  | O => (Ok "", w)
  | S n =>
      match rand_Int (Z.of_nat (String.length tokenAlphabet)) w with
      | (Err err, w) => (Err (Wrapf "generating token: " err), w)
      | (Ok idx, w) =>
          match String.get (Z.to_nat idx) tokenAlphabet with
          | None => (Err (Errorf "index out of range"), w)
          | Some a =>
              match randomString n w with
              | (Err err, w) => (Err err, w)
              | (Ok s, w) => (Ok (String a s), w)
              end
          end
      end
  end.

(** The Secret kubeadm's token consists of. *)
Definition token_object (nodeClaim : NodeClaim) (clusterName id secret expiry : string) : Secret :=
  {| sec_Namespace := TokenNamespace;
     sec_Name := token_secret_name id;
     sec_Labels := {[ "karpenter.sh/managed-by" := clusterName;
                      "karpenter.itsh.dev/nodeclaim" := cl_Name nodeClaim ]};
     sec_OwnerReferences := [{| own_APIVersion := "karpenter.sh/v1"; own_Kind := "NodeClaim";
                                own_Name := cl_Name nodeClaim; own_UID := cl_UID nodeClaim |}];
     sec_Type := "bootstrap.kubernetes.io/token";
     sec_StringData :=
       {[ "token-id" := id; "token-secret" := secret; "expiration" := expiry;
          "description" := "karpenter " +:+ cl_Name nodeClaim;
          "usage-bootstrap-authentication" := "true";
          "usage-bootstrap-signing" := "true";
          "auth-extra-groups" := "system:bootstrappers:kubeadm:default-node-token" ]} |}.

Definition Mint (ttl : duration) (nodeClaim : option NodeClaim) (clusterName : string) (w : W)
    : result string * W :=
  match nodeClaim with
  | None => (Err (Errorf "a named NodeClaim is required to own the token"), w)
  | Some nodeClaim =>
      if (cl_Name nodeClaim =? "")%string
      then (Err (Errorf "a named NodeClaim is required to own the token"), w)
      else if (cl_UID nodeClaim =? "")%string
      then (Err (Errorf ("NodeClaim " +:+ cl_Name nodeClaim +:+
                         " has no UID; the token would not be garbage collected")), w)
      else
        match randomString tokenIDLength w with
        | (Err err, w) => (Err err, w)
        | (Ok id, w) =>
            match randomString tokenSecretLength w with
            | (Err err, w) => (Err err, w)
            | (Ok secret, w) =>
                let expiry := rfc3339 (time_add (world_now w) ttl) in
                match kube_CreateSecret (token_object nodeClaim clusterName id secret expiry) w with
                | (Some err, w) => (Err (Wrapf "creating bootstrap token: " err), w)
                | (None, w) => (Ok (id +:+ "." +:+ secret), w)
                end
            end
        end
  end.

Definition Revoke (tokenID : string) (w : W) : option error * W :=
  let '(err, w) := kube_DeleteSecret TokenNamespace (token_secret_name tokenID) w in
  (Wrapf "deleting bootstrap token: " <$> err, w).

(** ** Lemmas *)

Fixpoint in_alphabet (s : string) : Prop :=
  match s with
  | EmptyString => True
  | String a s' => (exists i, String.get i tokenAlphabet = Some a) /\ in_alphabet s'
  end.

Lemma randomString_ok (n : nat) (w w' : W) (s : string) :
  randomString n w = (Ok s, w') -> String.length s = n /\ in_alphabet s.
Proof.
  revert w w' s. induction n as [|n IH]; intros w w' s; cbn [randomString];
    [intros [= <- _]; done|].
  destruct (rand_Int _ w) as [[idx|e] w1]; [|done].
  destruct (String.get (Z.to_nat idx) tokenAlphabet) as [a|] eqn:Ea; [|done].
  destruct (randomString n w1) as [[t|e] w2] eqn:Er; [|done]. intros [= <- _].
  destruct (IH w1 w2 t Er) as [Hl Ha]. cbn [String.length in_alphabet].
  split; [congruence|]. split; [by exists (Z.to_nat idx)|done].
Qed.

Lemma TokenID_split (id secret : string) :
  String.length id = tokenIDLength -> TokenID (id +:+ "." +:+ secret) = id.
Proof.
  intros Hl.
  do 6 (destruct id as [|? id]; [done|]). destruct id; [|done]. clear Hl.
  unfold TokenID. rewrite !append_cons, !append_nil_l. done.
Qed.

(** What a successful mint did. *)
Lemma Mint_ok (ttl : duration) (nodeClaim : NodeClaim) (clusterName token : string) (w w' : W) :
  Mint ttl (Some nodeClaim) clusterName w = (Ok token, w') ->
  cl_Name nodeClaim <> "" /\ cl_UID nodeClaim <> "" /\
  exists id secret w0 w1,
    randomString tokenIDLength w = (Ok id, w0) /\ randomString tokenSecretLength w0 = (Ok secret, w1) /\
    token = id +:+ "." +:+ secret /\
    kube_CreateSecret (token_object nodeClaim clusterName id secret (rfc3339 (world_now w1 + ttl))) w1 =
      (None, w').
Proof.
  unfold Mint. destruct (String.eqb_spec (cl_Name nodeClaim) "") as [|Hn]; [done|].
  destruct (String.eqb_spec (cl_UID nodeClaim) "") as [|Hu]; [done|].
  destruct (randomString tokenIDLength w) as [[id|e] w0] eqn:E1; [|done].
  destruct (randomString tokenSecretLength w0) as [[secret|e] w1] eqn:E2; [|done].
  destruct (kube_CreateSecret _ w1) as [[e|] w2] eqn:E3; [done|]. intros [= <- <-].
  split; [done|]. split; [done|]. exists id, secret, w0, w1. by split_and!.
Qed.

(** ** Properties *)

(** A minted token is one kubeadm accepts and one that cannot outlive its
    NodeClaim unnoticed: it reads as six and sixteen letters of the alphabet,
    [TokenID] recovers the id under which its Secret was created, and that Secret
    is owned by the NodeClaim, by name and non-empty UID, expires after the TTL,
    and authenticates only as a bootstrapper. *)
Theorem mint_spec (ttl : duration) (nodeClaim : NodeClaim) (clusterName token : string) (w w' : W)
    (Hm : Mint ttl (Some nodeClaim) clusterName w = (Ok token, w')) :
  exists id secret w1,
    token = id +:+ "." +:+ secret /\ TokenID token = id /\
    String.length id = 6%nat /\ String.length secret = 16%nat /\
    in_alphabet id /\ in_alphabet secret /\
    let obj := token_object nodeClaim clusterName id secret (rfc3339 (world_now w1 + ttl)) in
    kube_CreateSecret obj w1 = (None, w') /\
    sec_Name obj = token_secret_name (TokenID token) /\
    (exists o, sec_OwnerReferences obj = [o] /\ own_Name o = cl_Name nodeClaim /\
       own_UID o = cl_UID nodeClaim /\ own_UID o <> "" /\ own_Name o <> "").
Proof.
  apply Mint_ok in Hm as (Hn & Hu & id & secret & w0 & w1 & E1 & E2 & -> & E3).
  apply randomString_ok in E1 as [L1 A1]. apply randomString_ok in E2 as [L2 A2].
  exists id, secret, w1. rewrite (TokenID_split id secret L1).
  do 6 (split; [done|]). cbv zeta. split; [exact E3|]. split; [done|].
  eexists. split; [reflexivity|]. done.
Qed.

(** A NodeClaim that could not own its token gets none, and no Secret is
    written. *)
Theorem mint_refuses_unowned (ttl : duration) (nodeClaim : NodeClaim) (clusterName : string) (w : W)
    (Hno : cl_Name nodeClaim = "" \/ cl_UID nodeClaim = "") :
  exists e, Mint ttl (Some nodeClaim) clusterName w = (Err e, w).
Proof.
  unfold Mint. destruct (String.eqb_spec (cl_Name nodeClaim) ""); [eauto|].
  destruct (String.eqb_spec (cl_UID nodeClaim) ""); [eauto|]. naive_solver.
Qed.
End WithKube.

Section Witnesses.
Import KubeExample.

(** A world that counts the draws and keeps the Secrets written. *)
#[local] Instance counting : TokenWorld (nat * list Secret) := {
  rand_Int max w := (Ok (Z.of_nat w.1 mod max), (S w.1, w.2));
  rfc3339 t := pretty t;
  kube_CreateSecret s w := (None, (w.1, w.2 ++ [s]));
  kube_DeleteSecret _ _ w := (None, w)
}.
#[local] Instance stopped : Clock (nat * list Secret) := fun _ => 0.

Definition claim_with_uid (uid : string) : NodeClaim :=
  {| cl_Name := "default-x7k2p"; cl_UID := uid; cl_Labels := ∅; cl_Annotations := ∅;
     cl_CreationTimestamp := 0; cl_NodeClassRef := None; cl_Requirements := []; cl_Requests := ∅;
     cl_Taints := []; cl_StartupTaints := []; cl_ProviderID := ""; cl_Capacity := ∅;
     cl_Allocatable := ∅; cl_RebootingAt := None; cl_Drifted := false |}.

Lemma mint_spec_witness :
  exists id secret, "abcdef.ghijklmnopqrstuv" = id +:+ "." +:+ secret /\
    TokenID "abcdef.ghijklmnopqrstuv" = id /\ in_alphabet id /\ in_alphabet secret.
Proof.
  set (run := Mint DefaultTokenTTL (Some (claim_with_uid "uid-1")) "prod" (0%nat, [])).
  assert (run.1 = Ok "abcdef.ghijklmnopqrstuv") as Hok by by vm_compute.
  assert (run = (Ok "abcdef.ghijklmnopqrstuv", run.2)) as Hrun
    by (rewrite <- Hok; apply surjective_pairing).
  destruct (mint_spec DefaultTokenTTL (claim_with_uid "uid-1") "prod" "abcdef.ghijklmnopqrstuv"
    (0%nat, []) run.2 Hrun)
    as (id & secret & w1 & Ht & Hi & _ & _ & A1 & A2 & _).
  exists id, secret. exact (conj Ht (conj Hi (conj A1 A2))).
Defined.

Lemma mint_refuses_unowned_witness :
  exists e, Mint DefaultTokenTTL (Some (claim_with_uid "")) "prod" (0%nat, []) = (Err e, (0%nat, [])).
Proof. apply mint_refuses_unowned. by right. Defined.
End Witnesses.
