(* ===== verification/KubeClient.v ===== *)
(** The Kubernetes API as the controllers and the cloud provider call it.

    controller-runtime's client is not part of the repository: its calls are a
    class over the world, each answering and changing it as it likes.  [NotFound]
    answers are [KubeStatus KubeNotFound], which [IgnoreNotFound] recognises. *)

From S2P Require Import Prelude GoErrors Kube Api NodeClaims.

Section WithKube.
Context `{KB : Kube}.

Class KubeClient (W : Type) := {
  (** [Get] of a cluster-scoped HCloudNodeClass by name. *)
  kube_GetNodeClass : string -> W -> result HCloudNodeClass * W;
  (** [List] of every NodeClaim, and of those that reference a NodeClass. *)
  kube_ListNodeClaims : W -> result (list NodeClaim) * W;
  kube_ListNodeClaimsFor : HCloudNodeClass -> W -> result (list NodeClaim) * W;
  (** [Patch] with the difference between a stored object and its new value. *)
  kube_PatchNodeClass : HCloudNodeClass -> HCloudNodeClass -> W -> option error * W;
  kube_PatchNodeClaim : NodeClaim -> NodeClaim -> W -> option error * W
}.
End WithKube.

(** [client.IgnoreNotFound]. *)
Definition IgnoreNotFound `{KE : KarpErrors} (err : option error) : option error :=
  match err with
  | Some e =>
      match errors_as (fun e => match e with KubeStatus KubeNotFound _ => Some tt | _ => None end) e with
      | Some _ => None
      | None => Some e
      end
  | None => None
  end.

(** [multierr.Combine]: nothing, the one error, or all of them joined. *)
Definition multierr_Combine (errs : list (option error)) : option error :=
  match omap id errs with
  | [] => None
  | [e] => Some e
  | es => Some (Joined es)
  end.

Lemma multierr_Combine_None (errs : list (option error)) :
  multierr_Combine errs = None <-> Forall (fun e => e = None) errs.
Proof.
  unfold multierr_Combine. induction errs as [|[e|] errs IH]; simpl.
  - split; [constructor|done].
  - split; [intros H; by repeat case_match|]. intros H. by inversion H.
  - rewrite IH, Forall_cons. naive_solver.
Qed.

(** [lo.Assign]: the second map's entries win. *)
Definition lo_Assign (m updates : gmap string string) : gmap string string := updates ∪ m.

Lemma lo_Assign_new (m u : gmap string string) (k v : string) :
  u !! k = Some v -> lo_Assign m u !! k = Some v.
Proof. apply lookup_union_Some_l. Qed.

Lemma lo_Assign_old (m u : gmap string string) (k : string) :
  u !! k = None -> lo_Assign m u !! k = m !! k.
Proof. apply lookup_union_r. Qed.
