(* ===== verification/NodeClassStatus.v ===== *)
(** The resolvers of the NodeClass controller: every selector looked up, every
    outcome a condition.

    Models, of [internal/controllers/nodeclass], [resolve.go] ([configFailure],
    [noteUnreachable], [failureMessage]) and the sub-reconcilers of [image.go],
    [network.go], [firewall.go], [sshkey.go], [placementgroup.go] and
    [bootstrap.go].  A sub-reconciler works on the in-memory object; the result is
    the requeue delay or the error.  Validation, termination and the parent
    reconciler are in [NodeClassController]. *)

From S2P Require Import Prelude GoErrors Float64 GoText Servers Discovery Kube Api Unavailable.
From S2P Require Import Resources InstanceTypes Catalog LocationScope NodeClaims KubeClient.

(** ** Conditions and delays *)

Definition ConditionTypeImageReady : string := "ImageReady".
Definition ConditionTypeNetworkReady : string := "NetworkReady".
Definition ConditionTypeFirewallsReady : string := "FirewallsReady".
Definition ConditionTypeSSHKeysReady : string := "SSHKeysReady".
Definition ConditionTypePlacementGroupReady : string := "PlacementGroupReady".
Definition ConditionTypeBootstrapDiscoveryReady : string := "BootstrapDiscoveryReady".
Definition ConditionTypeValidationSucceeded : string := "ValidationSucceeded".

Definition requiredConditions : list string :=
  [ConditionTypeImageReady; ConditionTypeNetworkReady; ConditionTypeFirewallsReady;
   ConditionTypeSSHKeysReady; ConditionTypePlacementGroupReady;
   ConditionTypeBootstrapDiscoveryReady].

Definition resolvedRequeue : duration := 5 * minute.
Definition misconfiguredRequeue : duration := minute.
Definition conflictRequeue : duration := second.
Definition terminationBlockedRequeue : duration := 10 * minute.

Definition reasonNotFound : string := "NotFound".
Definition reasonInvalidConfiguration : string := "InvalidConfiguration".
Definition reasonCredentialRejected : string := "CredentialRejected".
Definition reasonDependenciesNotReady : string := "DependenciesNotReady".
Definition reasonCatalogNotFetched : string := "CatalogNotFetched".
Definition reasonCatalogEmpty : string := "CatalogEmpty".

Definition PlacementGroupMaxServers : Z := 10.
Definition PlacementGroupWarnServers : Z := PlacementGroupMaxServers - 2.

(** ** Resolved resources *)

Record Image := {
  img_ID : Z; img_Name : string; img_Description : string; img_Architecture : string;
  img_Created : string
}.
Record Network := { net_ID : Z; net_Name : string; net_IPRange : string; net_Zone : string }.
Record Firewall := { fw_ID : Z; fw_Name : string }.
Record SSHKey := { key_ID : Z; key_Name : string; key_Fingerprint : string }.
Record PlacementGroup := { pg_ID : Z; pg_Name : string; pg_Type : string; pg_ServerCount : Z }.

Class ResourceAPI (W : Type) := {
  res_Image : string -> option Z -> string -> W -> result Image * W;
  res_Network : string -> option Z -> W -> result Network * W;
  res_Firewall : string -> option Z -> W -> result Firewall * W;
  res_SSHKey : string -> option Z -> W -> result SSHKey * W;
  res_PlacementGroup : string -> option Z -> W -> result PlacementGroup * W
}.

(** [Discovery]: the slice of the join-parameter discovery the controller needs. *)
Class DiscoveryAPI (W : Type) := {
  disc_Refresh : W -> option error * W;
  disc_Resolve : string -> list string -> W -> result (string * list string)
}.

(** What the controller counts on: a resolution is complete. *)
Class DiscoveryLaws (W : Type) `{DiscoveryAPI W} :=
  disc_Resolve_complete : forall eo ho w e hs,
    disc_Resolve eo ho w = Ok (e, hs) -> e <> "" /\ hs <> [].

(** The implementation of the interface: the discovery cache as a part of the
    world, which keeps the promise. *)
Section DiscoveryInstance.
Context `{GT : GoText, KE : KarpErrors, JL : JoinLibrary} {W : Type} `{CI : ClusterInfoReader W}.

#[export] Instance discovery_api : DiscoveryAPI (discovery * W) := {
  disc_Refresh dw := let '(err, d, w) := Discovery.Refresh dw.1 dw.2 in (err, (d, w));
  disc_Resolve eo ho dw := Discovery.Resolve dw.1 eo ho
}.

#[export] Instance discovery_laws : DiscoveryLaws (discovery * W).
Proof. intros eo ho [d w] e hs. apply resolve_ok. Qed.
End DiscoveryInstance.

(** karpenter's [events.Event], with the involved object by its name, and the list
    rendering of [pretty.Slice]. *)
Record kube_event := {
  ev_InvolvedObject : string;
  ev_Type : string;
  ev_Reason : string;
  ev_Message : string;
  ev_DedupeValues : list string
}.
Class PrettySlice := pretty_Slice : list string -> Z -> string.

(** The state of the firewall and SSH key loops: what resolved, what is missing,
    and the most severe reason with its cause. *)
Record sel_loop (A : Type) := {
  sl_resolved : list A; sl_missing : list string; sl_reason : string; sl_cause : option error;
  sl_failClosed : bool
}.

Arguments sl_resolved {A} _.
Arguments sl_missing {A} _.
Arguments sl_reason {A} _.
Arguments sl_cause {A} _.
Arguments sl_failClosed {A} _.

Section WithKube.
Context `{KB : Kube, GT : GoText, KE : KarpErrors, ET : ErrorText}.

(** ** Failures *)

Definition describeSelector (name : string) (id : option Z) : string :=
  match id with
  | Some id => "id " +:+ FormatInt id
  | None => "name " +:+ Quote name
  end.

(** The reason suffix of a permanent configuration failure; [None] is a failure
    worth retrying. *)
Definition configFailure (err : error) : option string :=
  if IsNotFound (Some err) then Some reasonNotFound
  else match Classify (Some err) with
       | ClassConfig => Some reasonInvalidConfiguration
       | ClassFatal => Some reasonCredentialRejected
       | _ => None
       end.

Definition failureMessage (what reason : string) (err : error) : string :=
  if (reason =? reasonCredentialRejected)%string
  then "the Hetzner API rejected this controller's credential while resolving " +:+ what +:+ ": " +:+
       error_text err +:+
       ". The token is wrong, revoked, or read-only; the selector is not at fault"
  else "resolving " +:+ what +:+ ": " +:+ error_text err.

(** ** The object under reconciliation *)

Definition set_status (nc : HCloudNodeClass) (s : HCloudNodeClassStatus) : HCloudNodeClass :=
  {| nc_Name := nc_Name nc; nc_UID := nc_UID nc; nc_Generation := nc_Generation nc;
     nc_DeletionTimestamp := nc_DeletionTimestamp nc; nc_Finalizers := nc_Finalizers nc;
     nc_Annotations := nc_Annotations nc; nc_Spec := nc_Spec nc; nc_Status := s |}.

Definition set_conditions (nc : HCloudNodeClass) (c : Conditions) : HCloudNodeClass :=
  let s := nc_Status nc in
  set_status nc
    {| status_Image := status_Image s; status_Network := status_Network s;
       status_Firewalls := status_Firewalls s; status_SSHKeys := status_SSHKeys s;
       status_PlacementGroup := status_PlacementGroup s; status_Locations := status_Locations s;
       status_APIServerEndpoint := status_APIServerEndpoint s;
       status_CACertHashes := status_CACertHashes s; status_Conditions := c |}.

Definition set_image (nc : HCloudNodeClass) (i : option ImageStatus) : HCloudNodeClass :=
  let s := nc_Status nc in
  set_status nc
    {| status_Image := i; status_Network := status_Network s;
       status_Firewalls := status_Firewalls s; status_SSHKeys := status_SSHKeys s;
       status_PlacementGroup := status_PlacementGroup s; status_Locations := status_Locations s;
       status_APIServerEndpoint := status_APIServerEndpoint s;
       status_CACertHashes := status_CACertHashes s; status_Conditions := status_Conditions s |}.

Definition set_network (nc : HCloudNodeClass) (n : option NetworkStatus) : HCloudNodeClass :=
  let s := nc_Status nc in
  set_status nc
    {| status_Image := status_Image s; status_Network := n;
       status_Firewalls := status_Firewalls s; status_SSHKeys := status_SSHKeys s;
       status_PlacementGroup := status_PlacementGroup s; status_Locations := status_Locations s;
       status_APIServerEndpoint := status_APIServerEndpoint s;
       status_CACertHashes := status_CACertHashes s; status_Conditions := status_Conditions s |}.

Definition set_firewalls (nc : HCloudNodeClass) (l : list FirewallStatus) : HCloudNodeClass :=
  let s := nc_Status nc in
  set_status nc
    {| status_Image := status_Image s; status_Network := status_Network s;
       status_Firewalls := l; status_SSHKeys := status_SSHKeys s;
       status_PlacementGroup := status_PlacementGroup s; status_Locations := status_Locations s;
       status_APIServerEndpoint := status_APIServerEndpoint s;
       status_CACertHashes := status_CACertHashes s; status_Conditions := status_Conditions s |}.

Definition set_sshkeys (nc : HCloudNodeClass) (l : list SSHKeyStatus) : HCloudNodeClass :=
  let s := nc_Status nc in
  set_status nc
    {| status_Image := status_Image s; status_Network := status_Network s;
       status_Firewalls := status_Firewalls s; status_SSHKeys := l;
       status_PlacementGroup := status_PlacementGroup s; status_Locations := status_Locations s;
       status_APIServerEndpoint := status_APIServerEndpoint s;
       status_CACertHashes := status_CACertHashes s; status_Conditions := status_Conditions s |}.

Definition set_placement_group (nc : HCloudNodeClass) (p : option PlacementGroupStatus)
    : HCloudNodeClass :=
  let s := nc_Status nc in
  set_status nc
    {| status_Image := status_Image s; status_Network := status_Network s;
       status_Firewalls := status_Firewalls s; status_SSHKeys := status_SSHKeys s;
       status_PlacementGroup := p; status_Locations := status_Locations s;
       status_APIServerEndpoint := status_APIServerEndpoint s;
       status_CACertHashes := status_CACertHashes s; status_Conditions := status_Conditions s |}.

Definition set_locations (nc : HCloudNodeClass) (l : list LocationStatus) : HCloudNodeClass :=
  let s := nc_Status nc in
  set_status nc
    {| status_Image := status_Image s; status_Network := status_Network s;
       status_Firewalls := status_Firewalls s; status_SSHKeys := status_SSHKeys s;
       status_PlacementGroup := status_PlacementGroup s; status_Locations := l;
       status_APIServerEndpoint := status_APIServerEndpoint s;
       status_CACertHashes := status_CACertHashes s; status_Conditions := status_Conditions s |}.

Definition set_join (nc : HCloudNodeClass) (endpoint : string) (hashes : list string)
    : HCloudNodeClass :=
  let s := nc_Status nc in
  set_status nc
    {| status_Image := status_Image s; status_Network := status_Network s;
       status_Firewalls := status_Firewalls s; status_SSHKeys := status_SSHKeys s;
       status_PlacementGroup := status_PlacementGroup s; status_Locations := status_Locations s;
       status_APIServerEndpoint := endpoint; status_CACertHashes := hashes;
       status_Conditions := status_Conditions s |}.

(** [StatusConditions()]: initialises what is absent, on the object. *)
Definition StatusConditions (nc : HCloudNodeClass) : HCloudNodeClass :=
  set_conditions nc (CondInit (status_Conditions (nc_Status nc)) (nc_Generation nc)).

Definition cond_get (nc : HCloudNodeClass) (t : string) : option condition :=
  CondGet (status_Conditions (nc_Status nc)) t.

(** [SetTrue], [SetTrueWithReason], [SetFalse], [SetUnknownWithReason] on the set
    [StatusConditions] returns. *)
Definition SetTrue (nc : HCloudNodeClass) (t : string) : HCloudNodeClass :=
  let nc := StatusConditions nc in
  set_conditions nc (CondSetTrue (status_Conditions (nc_Status nc)) (nc_Generation nc) t).

Definition SetCond (nc : HCloudNodeClass) (t : string) (s : cond_status) (reason message : string)
    : HCloudNodeClass :=
  let nc := StatusConditions nc in
  set_conditions nc (CondSet (status_Conditions (nc_Status nc)) (nc_Generation nc) t s reason message).

Definition is_unknown (c : option condition) : bool :=
  match c with Some c => bool_decide (cond_Status c = CondUnknown) | None => true end.

Definition is_false (c : option condition) : bool :=
  match c with Some c => bool_decide (cond_Status c = CondFalse) | None => false end.

Definition noteUnreachable (nc : HCloudNodeClass) (t kind : string) (err : error)
    : HCloudNodeClass :=
  let nc := StatusConditions nc in
  if negb (is_unknown (cond_get nc t)) then nc
  else SetCond nc t CondUnknown (kind +:+ "Unreachable")
         ("the Hetzner API could not be reached to resolve the " +:+ kind +:+ ", retrying: " +:+
          error_text err).

(** ** The sub-reconcilers *)

Section Sub.
Context {W : Type} `{RA : ResourceAPI W, DA : DiscoveryAPI W}.

(** Requeue delay or error, the object, and the world. *)
Definition reconciled : Type := (result duration * HCloudNodeClass * W)%type.

Definition reconcile_Image (nc : HCloudNodeClass) (w : W) : reconciled :=
  let sel := spec_ImageSelector (nc_Spec nc) in
  match res_Image (sel_Name sel) (sel_ID sel) SupportedArchitecture w with
  | (Err err, w) =>
      match configFailure err with
      | Some reason =>
          (Ok misconfiguredRequeue,
           SetCond (set_image nc None) ConditionTypeImageReady CondFalse ("Image" +:+ reason)
             (failureMessage ("imageSelector " +:+ describeSelector (sel_Name sel) (sel_ID sel)) reason err),
           w)
      | None =>
          (Err (Wrapf "resolving image, " err), noteUnreachable nc ConditionTypeImageReady "Image" err, w)
      end
  | (Ok img, w) =>
      (Ok resolvedRequeue,
       SetTrue (set_image nc (Some {| ist_ID := img_ID img; ist_Name := img_Name img;
                                      ist_Description := img_Description img;
                                      ist_Architecture := img_Architecture img;
                                      ist_Created := img_Created img |})) ConditionTypeImageReady, w)
  end.

Definition reconcile_Network (nc : HCloudNodeClass) (w : W) : reconciled :=
  match spec_NetworkSelector (nc_Spec nc) with
  | None => (Ok resolvedRequeue, SetTrue (set_network nc None) ConditionTypeNetworkReady, w)
  | Some sel =>
      match res_Network (sel_Name sel) (sel_ID sel) w with
      | (Err err, w) =>
          match configFailure err with
          | Some reason =>
              (Ok misconfiguredRequeue,
               SetCond (set_network nc None) ConditionTypeNetworkReady CondFalse ("Network" +:+ reason)
                 (failureMessage ("networkSelector " +:+ describeSelector (sel_Name sel) (sel_ID sel))
                    reason err), w)
          | None =>
              (Err (Wrapf "resolving network, " err),
               noteUnreachable nc ConditionTypeNetworkReady "Network" err, w)
          end
      | (Ok net, w) =>
          if (net_Zone net =? "")%string then
            (Ok misconfiguredRequeue,
             SetCond (set_network nc None) ConditionTypeNetworkReady CondFalse "NetworkHasNoSubnet"
               ("network " +:+ describeSelector (sel_Name sel) (sel_ID sel) +:+
                " has no subnet, so it has no network zone and no server can attach to it"), w)
          else
            (Ok resolvedRequeue,
             SetTrue (set_network nc (Some {| nst_ID := net_ID net; nst_Name := net_Name net;
                                              nst_IPRange := net_IPRange net; nst_Zone := net_Zone net |}))
               ConditionTypeNetworkReady, w)
      end
  end.

Definition sel_start {A} : sel_loop A :=
  {| sl_resolved := []; sl_missing := []; sl_reason := ""; sl_cause := None; sl_failClosed := false |}.

(** The loop over the selectors of a kind: [inl err] is a transient failure,
    which ends it at once. *)
Fixpoint resolve_selectors {R A} (get : string -> option Z -> W -> result R * W) (mk : R -> A)
    (sels : list SelectorTerm) (st : sel_loop A) (w : W) : (error + sel_loop A) * W :=
  match sels with
  | [] => (inr st, w)
  | sel :: rest =>
      match get (sel_Name sel) (sel_ID sel) w with
      | (Err err, w) =>
          match configFailure err with
          | None => (inl err, w)
          | Some r =>
              let worse := (sl_reason st =? "")%string ||
                (negb (r =? reasonNotFound)%string && (sl_reason st =? reasonNotFound)%string) in
              resolve_selectors get mk rest
                {| sl_resolved := sl_resolved st;
                   sl_missing := sl_missing st ++ [describeSelector (sel_Name sel) (sel_ID sel)];
                   sl_reason := if worse then r else sl_reason st;
                   sl_cause := if worse then Some err else sl_cause st;
                   sl_failClosed := sl_failClosed st || negb (r =? reasonNotFound)%string |} w
          end
      | (Ok x, w) =>
          resolve_selectors get mk rest
            {| sl_resolved := sl_resolved st ++ [mk x]; sl_missing := sl_missing st;
               sl_reason := sl_reason st; sl_cause := sl_cause st;
               sl_failClosed := sl_failClosed st |} w
      end
  end.

(** The message of a closed failure; a missing selector always leaves a cause. *)
Definition missing_message {A} (what : string) (st : sel_loop A) : string :=
  match sl_cause st with
  | Some cause => failureMessage (what +:+ " " +:+ Join (sl_missing st) ", ") (sl_reason st) cause
  | None => ""
  end.

Definition reconcile_Firewalls (nc : HCloudNodeClass) (w : W) : reconciled :=
  match spec_FirewallSelectors (nc_Spec nc) with
  | [] => (Ok resolvedRequeue, SetTrue (set_firewalls nc []) ConditionTypeFirewallsReady, w)
  | sels =>
      match resolve_selectors res_Firewall
              (fun fw => {| fst_ID := fw_ID fw; fst_Name := fw_Name fw |}) sels sel_start w with
      | (inl err, w) =>
          (Err (Wrapf "resolving firewall, " err),
           noteUnreachable nc ConditionTypeFirewallsReady "Firewalls" err, w)
      | (inr st, w) =>
          match sl_missing st with
          | _ :: _ =>
              (Ok misconfiguredRequeue,
               SetCond (set_firewalls nc []) ConditionTypeFirewallsReady CondFalse
                 ("Firewall" +:+ sl_reason st) (missing_message "firewallSelectors" st), w)
          | [] =>
              (Ok resolvedRequeue,
               SetTrue (set_firewalls nc (sl_resolved st)) ConditionTypeFirewallsReady, w)
          end
      end
  end.

(** ** Events *)

Definition LocationsNarrowedEvent (nc : HCloudNodeClass) (message : string) : kube_event :=
  {| ev_InvolvedObject := nc_Name nc; ev_Type := "Warning"; ev_Reason := "LocationsNarrowed";
     ev_Message := message; ev_DedupeValues := [nc_UID nc] |}.

Definition SSHKeysNarrowedEvent (nc : HCloudNodeClass) (message : string) : kube_event :=
  {| ev_InvolvedObject := nc_Name nc; ev_Type := "Warning"; ev_Reason := "SSHKeysNarrowed";
     ev_Message := message; ev_DedupeValues := [nc_UID nc] |}.

Definition WaitingOnNodeClaimTerminationEvent `{PrettySlice} (nc : HCloudNodeClass)
    (names : list string) : kube_event :=
  {| ev_InvolvedObject := nc_Name nc; ev_Type := "Normal";
     ev_Reason := "WaitingOnNodeClaimTermination";
     ev_Message := "Waiting on NodeClaim termination for " +:+ pretty_Slice names 5;
     ev_DedupeValues := [nc_UID nc] |}.

(** A narrowed set: True under a reason of its own, and its event on transition
    only. *)
Definition narrowed (mk : HCloudNodeClass -> string -> kube_event) (nc : HCloudNodeClass)
    (t reason message : string) : HCloudNodeClass * list kube_event :=
  let firstTime :=
    match cond_get (StatusConditions nc) t with
    | None => true
    | Some prev => negb (cond_Reason prev =? reason)%string || negb (cond_Message prev =? message)%string
    end in
  (SetCond nc t CondTrue reason message,
   if firstTime then [mk nc message] else []).

Definition reconcile_SSHKeys (nc : HCloudNodeClass) (w : W) : reconciled * list kube_event :=
  match spec_SSHKeySelectors (nc_Spec nc) with
  | [] => ((Ok resolvedRequeue, SetTrue (set_sshkeys nc []) ConditionTypeSSHKeysReady, w), [])
  | sels =>
      match resolve_selectors res_SSHKey
              (fun k => {| kst_ID := key_ID k; kst_Name := key_Name k; kst_Fingerprint := key_Fingerprint k |})
              sels sel_start w with
      | (inl err, w) =>
          ((Err (Wrapf "resolving ssh key, " err),
            noteUnreachable nc ConditionTypeSSHKeysReady "SSHKeys" err, w), [])
      | (inr st, w) =>
          if sl_failClosed st then
            ((Ok misconfiguredRequeue,
              SetCond (set_sshkeys nc []) ConditionTypeSSHKeysReady CondFalse
                ("SSHKey" +:+ sl_reason st) (missing_message "sshKeySelectors" st), w), [])
          else
            let nc := set_sshkeys nc (sl_resolved st) in
            match sl_missing st with
            | _ :: _ =>
                let '(nc, evs) := narrowed SSHKeysNarrowedEvent nc ConditionTypeSSHKeysReady "SSHKeysNarrowed"
                  ("continuing without sshKeySelectors " +:+ Join (sl_missing st) ", " +:+
                   ", which no longer exist in the Hetzner project; " +:+
                   "nodes built from now on will not accept those keys") in
                ((Ok resolvedRequeue, nc, w), evs)
            | [] => ((Ok resolvedRequeue, SetTrue nc ConditionTypeSSHKeysReady, w), [])
            end
      end
  end.

Definition reconcile_PlacementGroup (nc : HCloudNodeClass) (w : W) : reconciled :=
  match spec_PlacementGroup (nc_Spec nc) with
  | None => (Ok resolvedRequeue, SetTrue (set_placement_group nc None) ConditionTypePlacementGroupReady, w)
  | Some sel =>
      match res_PlacementGroup (sel_Name sel) (sel_ID sel) w with
      | (Err err, w) =>
          match configFailure err with
          | Some reason =>
              (Ok misconfiguredRequeue,
               SetCond (set_placement_group nc None) ConditionTypePlacementGroupReady CondFalse
                 ("PlacementGroup" +:+ reason)
                 (failureMessage ("placementGroup " +:+ describeSelector (sel_Name sel) (sel_ID sel))
                    reason err), w)
          | None =>
              (Err (Wrapf "resolving placement group, " err),
               noteUnreachable nc ConditionTypePlacementGroupReady "PlacementGroup" err, w)
          end
      | (Ok pg, w) =>
          let nc := set_placement_group nc
            (Some {| pst_ID := pg_ID pg; pst_Name := pg_Name pg; pst_Type := pg_Type pg;
                     pst_ServerCount := pg_ServerCount pg |}) in
          (Ok resolvedRequeue,
           if PlacementGroupMaxServers <=? pg_ServerCount pg then
             SetCond nc ConditionTypePlacementGroupReady CondTrue "PlacementGroupAtCapacity"
               ("placement group is at Hetzner's limit of " +:+ FormatInt PlacementGroupMaxServers +:+
                " servers; the next create fails with placement_error, which is " +:+
                "indistinguishable from a stockout")
           else if PlacementGroupWarnServers <=? pg_ServerCount pg then
             SetCond nc ConditionTypePlacementGroupReady CondTrue "PlacementGroupNearCapacity"
               ("placement group is within " +:+
                FormatInt (PlacementGroupMaxServers - PlacementGroupWarnServers) +:+
                " servers of Hetzner's limit of " +:+ FormatInt PlacementGroupMaxServers +:+
                "; at the limit creates fail with placement_error, which is " +:+
                "indistinguishable from a stockout")
           else SetTrue nc ConditionTypePlacementGroupReady, w)
      end
  end.

Definition invalidHashes (hashes : list string) : list string :=
  filter (fun h => ValidHash h = false) hashes.

Definition reconcile_BootstrapDiscovery (nc : HCloudNodeClass) (w : W) : reconciled :=
  let b := spec_Bootstrap (nc_Spec nc) in
  let misconfigured reason message w : reconciled :=
    (Ok misconfiguredRequeue,
     SetCond (set_join nc "" []) ConditionTypeBootstrapDiscoveryReady CondFalse reason message, w) in
  let resolve w : reconciled :=
    match disc_Resolve (bs_APIServerEndpoint b) (bs_CACertHashes b) w with
    | Err err => misconfigured "JoinParametersIncomplete" (error_text err) w
    | Ok (endpoint, hashes) =>
        match invalidHashes hashes with
        | [] => (Ok resolvedRequeue,
                 SetTrue (set_join nc endpoint hashes) ConditionTypeBootstrapDiscoveryReady, w)
        | bad => misconfigured "InvalidCACertHash"
                   ("CA pins are not in sha256:<64 hex> form: " +:+ Join bad ", ") w
        end
    end in
  if (bs_APIServerEndpoint b =? "")%string || match bs_CACertHashes b with [] => true | _ => false end
  then
    match disc_Refresh w with
    | (Some err, w) =>
        if negb (is_config_error err) then
          (Err (Wrapf "reading cluster-info, " err),
           noteUnreachable nc ConditionTypeBootstrapDiscoveryReady "ClusterInfo" err, w)
        else misconfigured "ClusterInfoUnavailable"
               ("reading the join parameters from " +:+ ClusterInfoNamespace +:+ "/" +:+
                ClusterInfoName +:+ ": " +:+ error_text err) w
    | (None, w) => resolve w
    end
  else resolve w.
End Sub.
End WithKube.
