(* ===== verification/ResourceClient.v ===== *)
(** The resource adapter: what a NodeClass selects, looked up at Hetzner.

    Models [resourceClient] of [internal/hcloudapi/resources.go]: [lookup] and
    the five resolvers.  hcloud-go is a class over the world, which reports a miss
    as nil without an error; [resource_client] is the instance of [ResourceAPI]
    the NodeClass controller runs on. *)

From S2P Require Import Prelude GoErrors Float64 GoText Servers Redact Discovery Kube Api.
From S2P Require Import Unavailable Resources InstanceTypes Catalog LocationScope NodeClaims.
From S2P Require Import KubeClient NodeClassStatus.

(** ** The SDK's objects *)

Record sdk_image := {
  si_ID : Z; si_Name : string; si_Description : string; si_Architecture : string; si_Created : time
}.
(** A network's range, nil or not, and the zones of its subnets. *)
Record sdk_network := {
  sn_ID : Z; sn_Name : string; sn_IPRange : option string; sn_SubnetZones : list string
}.
Record sdk_placement_group := {
  sg_ID : Z; sg_Name : string; sg_Type : string; sg_Servers : list Z
}.

Class HcloudResources (W : Type) := {
  sdk_ImageByID : Z -> W -> result (option sdk_image) * W;
  sdk_ImageByNameAndArchitecture : string -> string -> W -> result (option sdk_image) * W;
  sdk_NetworkByID : Z -> W -> result (option sdk_network) * W;
  sdk_NetworkByName : string -> W -> result (option sdk_network) * W;
  sdk_FirewallByID : Z -> W -> result (option Firewall) * W;
  sdk_FirewallByName : string -> W -> result (option Firewall) * W;
  sdk_SSHKeyByID : Z -> W -> result (option SSHKey) * W;
  sdk_SSHKeyByName : string -> W -> result (option SSHKey) * W;
  sdk_PlacementGroupByID : Z -> W -> result (option sdk_placement_group) * W;
  sdk_PlacementGroupByName : string -> W -> result (option sdk_placement_group) * W;
  (** [Created.UTC().Format("2006-01-02T15:04:05Z")]. *)
  format_utc : time -> string
}.

(** ** The adapter *)

Section Client.
Context `{GT : GoText, KE : KarpErrors, ET : ErrorText} (apiToken : option string).
Context {W : Type}.

Definition selector_text (name : string) (id : option Z) : string :=
  match id with Some id => FormatInt id | None => name end.

Definition lookup {T} (kind name : string) (id : option Z)
    (byID : Z -> W -> result (option T) * W) (byName : string -> W -> result (option T) * W) (w : W)
    : result T * W :=
  let sel := selector_text name id in
  match (match id with Some id => byID id w | None => byName name w end) with
  | (Err err, w) =>
      (Err (Wrapf ("resolving " +:+ kind +:+ " " +:+ Quote sel +:+ ": ") (redact apiToken err)), w)
  | (Ok None, w) => (Err (NotFoundError kind sel), w)
  | (Ok (Some found), w) => (Ok found, w)
  end.

(** Applied to what is found, past the early return of an error. *)
Definition found_as {T U} (f : T -> U) (rw : result T * W) : result U * W :=
  match rw with (Ok x, w) => (Ok (f x), w) | (Err e, w) => (Err e, w) end.

Context `{SDK : HcloudResources W}.

Definition client_Image (name : string) (id : option Z) (arch : string) : W -> result Image * W :=
  let hcloudArch := if (arch =? "arm")%string then "arm" else "x86" in
  fun w => found_as (fun i =>
    {| img_ID := si_ID i; img_Name := si_Name i; img_Description := si_Description i;
       img_Architecture := si_Architecture i; img_Created := format_utc (si_Created i) |})
    (lookup "image" name id sdk_ImageByID
       (fun name => sdk_ImageByNameAndArchitecture name hcloudArch) w).

Definition client_Network (name : string) (id : option Z) (w : W) : result Network * W :=
  found_as (fun n =>
    {| net_ID := sn_ID n; net_Name := sn_Name n; net_IPRange := default "" (sn_IPRange n);
       net_Zone := default "" (find (fun z => negb (z =? "")%string) (sn_SubnetZones n)) |})
    (lookup "network" name id sdk_NetworkByID sdk_NetworkByName w).

Definition client_Firewall (name : string) (id : option Z) (w : W) : result Firewall * W :=
  found_as (fun f => {| fw_ID := fw_ID f; fw_Name := fw_Name f |})
    (lookup "firewall" name id sdk_FirewallByID sdk_FirewallByName w).

Definition client_SSHKey (name : string) (id : option Z) (w : W) : result SSHKey * W :=
  found_as (fun k => {| key_ID := key_ID k; key_Name := key_Name k; key_Fingerprint := key_Fingerprint k |})
    (lookup "ssh key" name id sdk_SSHKeyByID sdk_SSHKeyByName w).

Definition client_PlacementGroup (name : string) (id : option Z) (w : W) : result PlacementGroup * W :=
  found_as (fun g => {| pg_ID := sg_ID g; pg_Name := sg_Name g; pg_Type := sg_Type g;
                        pg_ServerCount := Z.of_nat (length (sg_Servers g)) |})
    (lookup "placement group" name id sdk_PlacementGroupByID sdk_PlacementGroupByName w).

#[export] Instance resource_client : ResourceAPI W := {
  res_Image := client_Image;
  res_Network := client_Network;
  res_Firewall := client_Firewall;
  res_SSHKey := client_SSHKey;
  res_PlacementGroup := client_PlacementGroup
}.

(** ** Properties *)

(** A selector's failure reaches the NodeClass as what it is.  A miss is the one
    and only [NotFoundError], so it is configuration; a Hetzner error keeps its
    class through redaction and wrapping, so the split between what is reported
    and what is retried is the split of the error Hetzner sent.  An id, when
    given, decides alone. *)
Theorem lookup_failures_exact {T} (kind name : string) (id : option Z)
    (byID : Z -> W -> result (option T) * W) (byName : string -> W -> result (option T) * W) (w : W)
    (Hsdk : forall e, (match id with Some i => byID i w | None => byName name w end).1 = Err e ->
       IsNotFound (Some e) = false) :
  match (match id with Some i => byID i w | None => byName name w end).1 with
  | Ok (Some x) => (lookup kind name id byID byName w).1 = Ok x
  | Ok None =>
      exists e, (lookup kind name id byID byName w).1 = Err e /\ configFailure e = Some reasonNotFound
  | Err err =>
      exists e, (lookup kind name id byID byName w).1 = Err e /\
        IsNotFound (Some e) = false /\
        (is_Some (Code (Some err)) -> configFailure e = configFailure err)
  end.
Proof.
  unfold lookup. destruct (match id with Some i => byID i w | None => byName name w end) as [[[x|]|err] w'] eqn:E;
    cbn [fst] in *.
  - done.
  - eexists. split; [done|]. done.
  - eexists. split; [done|]. pose proof (Hsdk err eq_refl) as Hn.
    pose proof (redact_IsNotFound apiToken err Hn) as Hr. split; [by rewrite IsNotFound_wrap|].
    intros [c Hc]. unfold configFailure. rewrite IsNotFound_wrap, Hr, Hn, Classify_wrap.
    unfold Classify. by rewrite (redact_Code apiToken err c Hc), Hc.
Qed.
End Client.

(** ** Witness *)

Section Witnesses.
#[local] Instance quoting : GoText := {| ParseFloat _ := None; FormatG _ := ""; Quote s := s |}.
#[local] Instance unwraps : KarpErrors := fun _ => true.
#[local] Instance etext : ErrorText := fun _ => "forbidden".

(** A token without permission: the firewall is not reported as missing. *)
Lemma lookup_failures_exact_witness :
  let get : string -> unit -> result (option Firewall) * unit :=
    fun _ w => (Err (HcloudError CodeForbidden "forbidden" None), w) in
  exists e, (lookup None "firewall" "nodes" None (fun _ w => (Ok None, w)) get tt).1 = Err e /\
    configFailure e = Some reasonCredentialRejected.
Proof.
  intros get.
  destruct (lookup_failures_exact None "firewall" "nodes" None (fun _ w => (Ok None, w)) get tt)
    as (e & He & _ & Hc).
  - by intros e [= <-].
  - exists e. split; [exact He|]. rewrite Hc; [reflexivity|]. by eexists.
Defined.
End Witnesses.
