(* ===== verification/NodeClassController.v ===== *)
(** Validation, termination and the parent reconciler of the NodeClass
    controller.

    Models [validation.go] ([Validation.Reconcile], [dependenciesMessage]),
    [termination.go] ([Finalize]) and [controller.go] ([Reconcile],
    [waitingOnCatalog], [enqueueCatalogWaiters]) of
    [internal/controllers/nodeclass].  The sub-reconcilers are in
    [NodeClassStatus]. *)

From S2P Require Import Prelude GoErrors Float64 GoText Servers Discovery Kube Api Unavailable.
From S2P Require Import Resources InstanceTypes Catalog LocationScope NodeClaims KubeClient.
From S2P Require Import NodeClassStatus.

(** karpenter's [result.Min]: the delay a pass requeues after. *)
Class ResultMin := result_Min : list duration -> duration.

Section WithKube.
Context `{KB : Kube, GT : GoText, KE : KarpErrors, ET : ErrorText, PS : PrettySlice, RM : ResultMin}.

(** The status and metadata writes of the controller, both with an optimistic
    lock: a write goes through only if nobody changed the object since it was
    read, so what the API server writes back into it is what was sent. *)
Class StatusClient (W : Type) := {
  kube_PatchStatus : HCloudNodeClass -> HCloudNodeClass -> W -> option error * W;
  kube_PatchMetadata : HCloudNodeClass -> HCloudNodeClass -> W -> option error * W
}.

Class CatalogView (W : Type) := catalog_view : W -> option Snapshot.

(** ** Validation *)

Definition dependenciesMessage (failing : list string) : string := "awaiting " +:+ Join failing ", ".

(** The required conditions that are False, and those that are Unknown or were
    resolved against another generation. *)
Definition failed_conditions (nc : HCloudNodeClass) : list string :=
  filter (fun t => is_false (cond_get nc t) = true) requiredConditions.

Definition is_pending (nc : HCloudNodeClass) (t : string) : bool :=
  if is_false (cond_get nc t) then false
  else if is_unknown (cond_get nc t) then true
  else match cond_get nc t with
       | Some c => negb (cond_ObservedGeneration c =? nc_Generation nc)
       | None => true
       end.

Definition pending_conditions (nc : HCloudNodeClass) : list string :=
  filter (fun t => is_pending nc t = true) requiredConditions.

Definition reconcile_Validation (snapshot : option Snapshot) (nc : HCloudNodeClass)
    : result duration * HCloudNodeClass * list kube_event :=
  let nc := StatusConditions nc in
  let V := ConditionTypeValidationSucceeded in
  match failed_conditions nc with
  | _ :: _ as failed =>
      (Ok misconfiguredRequeue,
       SetCond (set_locations nc []) V CondFalse reasonDependenciesNotReady (dependenciesMessage failed), [])
  | [] =>
  match pending_conditions nc with
  | _ :: _ as pending =>
      (Ok misconfiguredRequeue,
       SetCond (set_locations nc []) V CondUnknown reasonDependenciesNotReady
         (dependenciesMessage pending), [])
  | [] =>
  let arch := match status_Image (nc_Status nc) with Some img => ist_Architecture img | None => "" end in
  if negb (arch =? "")%string && negb (arch =? SupportedArchitecture)%string then
    (Ok misconfiguredRequeue,
     SetCond (set_locations nc []) V CondFalse "ImageArchitectureUnsupported"
       ("image architecture " +:+ Quote arch +:+ " is not " +:+ Quote SupportedArchitecture +:+
        ", which is the only architecture this provider offers instance types for"), [])
  else
    let locations := locationScope snapshot nc in
    match snapshot with
    | None =>
        (Ok misconfiguredRequeue,
         SetCond (set_locations nc []) V CondUnknown reasonCatalogNotFetched
           "the Hetzner server type catalog has not been fetched yet", [])
    | Some _ =>
        if sc_catalogEmpty locations then
          (Ok misconfiguredRequeue,
           SetCond (set_locations nc []) V CondUnknown reasonCatalogEmpty
             "the Hetzner server type catalog reports no location offering any supported server type", [])
        else
          match sc_inScope locations with
          | [] =>
              let '(reason, message) := emptyFailure locations in
              (Ok misconfiguredRequeue, SetCond (set_locations nc []) V CondFalse reason message, [])
          | _ =>
              let nc := set_locations nc (sc_inScope locations) in
              let excluded := excludedMessage locations in
              if negb (excluded =? "")%string then
                let '(nc, evs) := narrowed LocationsNarrowedEvent nc V "LocationsNarrowed" excluded in
                (Ok resolvedRequeue, nc, evs)
              else (Ok resolvedRequeue, SetTrue nc V, [])
          end
    end
  end
  end.

(** Whether a NodeClass is parked on the catalog, from the conditions the object
    itself carries. *)
Definition waitingOnCatalog (nc : HCloudNodeClass) : bool :=
  match cond_get nc ConditionTypeValidationSucceeded with
  | None => true
  | Some c =>
      bool_decide (cond_Status c = CondUnknown) &&
      ((cond_Reason c =? reasonCatalogNotFetched)%string || (cond_Reason c =? reasonCatalogEmpty)%string)
  end.

(** The map function of the catalog wake-up, after its list. *)
Definition enqueueCatalogWaiters (classes : list HCloudNodeClass) : list string :=
  nc_Name <$> filter (fun nc => waitingOnCatalog nc = true) classes.

(** ** Termination *)

Definition set_finalizers (nc : HCloudNodeClass) (fs : list string) : HCloudNodeClass :=
  {| nc_Name := nc_Name nc; nc_UID := nc_UID nc; nc_Generation := nc_Generation nc;
     nc_DeletionTimestamp := nc_DeletionTimestamp nc; nc_Finalizers := fs;
     nc_Annotations := nc_Annotations nc; nc_Spec := nc_Spec nc; nc_Status := nc_Status nc |}.

Definition has_finalizer (nc : HCloudNodeClass) : bool :=
  bool_decide (TerminationFinalizer ∈ nc_Finalizers nc).

Definition is_conflict (err : error) : bool :=
  match kube_status err with Some KubeConflict => true | _ => false end.

Section Run.
Context {W : Type} `{KC : !KubeClient W, SC : !StatusClient W, RA : ResourceAPI W, DA : DiscoveryAPI W,
  CV : CatalogView W}.

Definition Finalize (nc : HCloudNodeClass) (w : W) : result duration * list kube_event * W :=
  if negb (has_finalizer nc) then (Ok 0, [], w)
  else
    match kube_ListNodeClaimsFor nc w with
    | (Err err, w) => (Err (Wrapf "listing nodeclaims using nodeclass, " err), [], w)
    | (Ok (_ :: _ as claims), w) =>
        (Ok terminationBlockedRequeue,
         [WaitingOnNodeClaimTerminationEvent nc (sort_strings (cl_Name <$> claims))], w)
    | (Ok [], w) =>
        let released := set_finalizers nc (filter (fun f => f <> TerminationFinalizer) (nc_Finalizers nc)) in
        match kube_PatchMetadata nc released w with
        | (Some err, w) =>
            if is_conflict err then (Ok conflictRequeue, [], w)
            else (match IgnoreNotFound (Some (Wrapf "removing termination finalizer, " err)) with
                  | Some e => Err e
                  | None => Ok 0
                  end, [], w)
        | (None, w) => (Ok 0, [], w)
        end
    end.

(** ** The parent reconciler *)

(** Every sub-reconciler, in order, each on the object the last one left. *)
Definition run_subs (nc : HCloudNodeClass) (w : W)
    : list (result duration) * HCloudNodeClass * list kube_event * W :=
  let '(r1, nc, w) := reconcile_Image nc w in
  let '(r2, nc, w) := reconcile_Network nc w in
  let '(r3, nc, w) := reconcile_Firewalls nc w in
  let '((r4, nc, w), ev4) := reconcile_SSHKeys nc w in
  let '(r5, nc, w) := reconcile_PlacementGroup nc w in
  let '(r6, nc, w) := reconcile_BootstrapDiscovery nc w in
  let '(r7, nc, ev7) := reconcile_Validation (catalog_view w) nc in
  ([r1; r2; r3; r4; r5; r6; r7], nc, ev4 ++ ev7, w).

(** The reconcilers as [NewController] lists them, and the loop over them. *)
Inductive reconciler :=
  | RImage | RNetwork | RFirewalls | RSSHKeys | RPlacementGroup | RBootstrapDiscovery | RValidation.

Record Controller := {
  c_reconcilers : list reconciler;
  c_catalogRefreshed : bool   (* whether there is a catalog to be woken by *)
}.

(** [catalogProvider] is whether one was given. *)
Definition NewController (catalogProvider : bool) : Controller :=
  {| c_reconcilers := [RImage; RNetwork; RFirewalls; RSSHKeys; RPlacementGroup; RBootstrapDiscovery;
                       RValidation];
     c_catalogRefreshed := catalogProvider |}.

Definition reconcile_one (r : reconciler) (nc : HCloudNodeClass) (w : W)
    : result duration * HCloudNodeClass * list kube_event * W :=
  let quiet (x : result duration * HCloudNodeClass * W) := let '(res, nc, w) := x in (res, nc, [], w) in
  match r with
  | RImage => quiet (reconcile_Image nc w)
  | RNetwork => quiet (reconcile_Network nc w)
  | RFirewalls => quiet (reconcile_Firewalls nc w)
  | RSSHKeys => let '((res, nc, w), evs) := reconcile_SSHKeys nc w in (res, nc, evs, w)
  | RPlacementGroup => quiet (reconcile_PlacementGroup nc w)
  | RBootstrapDiscovery => quiet (reconcile_BootstrapDiscovery nc w)
  | RValidation => let '(res, nc, evs) := reconcile_Validation (catalog_view w) nc in (res, nc, evs, w)
  end.

(** Every reconciler runs, also after one failed. *)
Fixpoint run_reconcilers (rs : list reconciler) (nc : HCloudNodeClass) (w : W)
    : list (result duration) * HCloudNodeClass * list kube_event * W :=
  match rs with
  | [] => ([], nc, [], w)
  | r :: rs =>
      let '(res, nc, evs, w) := reconcile_one r nc w in
      let '(ress, nc, evs', w) := run_reconcilers rs nc w in
      (res :: ress, nc, evs ++ evs', w)
  end.

Lemma run_subs_reconcilers (catalogProvider : bool) (nc : HCloudNodeClass) (w : W) :
  run_reconcilers (c_reconcilers (NewController catalogProvider)) nc w = run_subs nc w.
Proof.
  unfold run_subs. cbn [NewController c_reconcilers run_reconcilers reconcile_one].
  destruct (reconcile_Image nc w) as [[r1 nc1] w1].
  destruct (reconcile_Network nc1 w1) as [[r2 nc2] w2].
  destruct (reconcile_Firewalls nc2 w2) as [[r3 nc3] w3].
  destruct (reconcile_SSHKeys nc3 w3) as [[[r4 nc4] w4] ev4].
  destruct (reconcile_PlacementGroup nc4 w4) as [[r5 nc5] w5].
  destruct (reconcile_BootstrapDiscovery nc5 w5) as [[r6 nc6] w6].
  destruct (reconcile_Validation _ nc6) as [[r7 nc7] ev7]. cbn [app]. by rewrite app_nil_r.
Qed.

Definition result_err (r : result duration) : option error :=
  match r with Err e => Some e | Ok _ => None end.

(** The pass proper, once the finalizer is in place. *)
Definition reconcile_pass (nc : HCloudNodeClass) (w : W) : result duration * list kube_event * W :=
  let '(rs, nc', evs, w) := run_subs nc w in
  let errs := result_err <$> rs in
  let finish (errs : list (option error)) (w : W) :=
    (match multierr_Combine errs with
     | Some e => Err e
     | None => Ok (result_Min (omap (fun r => match r with Ok d => Some d | Err _ => None end) rs))
     end, evs, w) in
  let '(err, w) :=
    if decide (nc_Status nc = nc_Status nc') then (None, w) else kube_PatchStatus nc nc' w in
  match err with
  | None => finish errs w
  | Some e =>
      if is_conflict e && match multierr_Combine errs with None => true | _ => false end
      then (Ok conflictRequeue, evs, w)
      else finish (errs ++ [IgnoreNotFound (Some e)]) w
  end.

Definition Reconcile (nc : HCloudNodeClass) (w : W) : result duration * list kube_event * W :=
  if is_deleting nc then Finalize nc w
  else if has_finalizer nc then reconcile_pass nc w
  else
    let nc' := set_finalizers nc (nc_Finalizers nc ++ [TerminationFinalizer]) in
    let '(err, w) := kube_PatchMetadata nc nc' w in
    match IgnoreNotFound err, err with
    | Some _, Some e => if is_conflict e then (Ok conflictRequeue, [], w) else (Err e, [], w)
    | _, _ => reconcile_pass nc' w
    end.
End Run.
End WithKube.
