(* ===== verification/NodeClassProofs.v ===== *)
(** The NodeClass controller: what a resolution means.

    Properties of [NodeClassStatus] and [NodeClassController]: transient failures
    leave what was resolved alone, the firewalls fail closed, the SSH keys fail
    open exactly for keys that are gone, validation is exact, a class that reports
    itself valid is fully resolved in every state it can reach, and the finalizer
    is released only when nothing references the class. *)

From S2P Require Import Prelude GoErrors Float64 GoText Servers Discovery Kube Api Unavailable.
From S2P Require Import Resources InstanceTypes Catalog LocationScope NodeClaims KubeClient.
From S2P Require Import NodeClassStatus NodeClassController.

Section WithKube.
Context `{KB : Kube, GT : GoText, KE : KarpErrors, ET : ErrorText, PS : PrettySlice, RM : ResultMin}.
Context {CL : ConditionLaws KB}.

(** ** Conditions on the object *)

(** A condition is True for the current revision of the object. *)
Definition holds (nc : HCloudNodeClass) (t : string) : Prop :=
  exists x, cond_get nc t = Some x /\ cond_Status x = CondTrue /\
            cond_ObservedGeneration x = nc_Generation nc.

Lemma cond_get_init_inv (nc : HCloudNodeClass) (t : string) (x : condition) :
  t <> RootCondition -> cond_get (StatusConditions nc) t = Some x ->
  cond_get nc t = Some x \/ (cond_get nc t = None /\ cond_Status x = CondUnknown).
Proof using CL.
  unfold cond_get, StatusConditions. simpl. intros Ht Hx.
  destruct (CondGet (status_Conditions (nc_Status nc)) t) as [y|] eqn:E.
  - left. rewrite (cond_get_init _ _ _ _ Ht E) in Hx. done.
  - right. split; [done|]. by eapply cond_get_init_new.
Qed.

Lemma holds_init (nc : HCloudNodeClass) (t : string) :
  t <> RootCondition -> holds (StatusConditions nc) t <-> holds nc t.
Proof using CL.
  intros Ht. split; intros (x & Hx & Hs & Hg); exists x.
  - apply cond_get_init_inv in Hx as [Hx|[_ Hu]]; [done|congruence|done].
  - split; [|done]. by apply cond_get_init.
Qed.

Lemma cond_get_SetCond (nc : HCloudNodeClass) t s r m :
  cond_get (SetCond nc t s r m) t =
    Some {| cond_Status := s; cond_Reason := r; cond_Message := m;
            cond_ObservedGeneration := nc_Generation nc |}.
Proof using CL. apply cond_get_set. Qed.

Lemma cond_get_SetCond_ne (nc : HCloudNodeClass) t s r m t' :
  t' <> t -> t' <> RootCondition ->
  cond_get (SetCond nc t s r m) t' = cond_get (StatusConditions nc) t'.
Proof using CL. apply cond_get_set_ne. Qed.

Lemma cond_get_SetTrue (nc : HCloudNodeClass) t : exists r m,
  cond_get (SetTrue nc t) t =
    Some {| cond_Status := CondTrue; cond_Reason := r; cond_Message := m;
            cond_ObservedGeneration := nc_Generation nc |}.
Proof using CL. apply cond_get_true. Qed.

Lemma cond_get_SetTrue_ne (nc : HCloudNodeClass) t t' :
  t' <> t -> t' <> RootCondition ->
  cond_get (SetTrue nc t) t' = cond_get (StatusConditions nc) t'.
Proof using CL. apply cond_get_true_ne. Qed.

Lemma holds_SetCond (nc : HCloudNodeClass) t s r m t' :
  t' <> RootCondition ->
  holds (SetCond nc t s r m) t' <-> (t' = t /\ s = CondTrue) \/ (t' <> t /\ holds nc t').
Proof using CL.
  intros Hr. destruct (decide (t' = t)) as [->|Hne].
  - unfold holds. rewrite cond_get_SetCond. split.
    + intros (x & [= <-] & Hs & _). left. done.
    + intros [[_ ->]|[? _]]; [|done]. eexists. by split_and!.
  - rewrite <- (holds_init nc) by done. unfold holds. rewrite cond_get_SetCond_ne by done.
    change (nc_Generation (SetCond _ _ _ _ _)) with (nc_Generation (StatusConditions nc)). naive_solver.
Qed.

Lemma holds_SetTrue (nc : HCloudNodeClass) t t' :
  t' <> RootCondition -> holds (SetTrue nc t) t' <-> t' = t \/ (t' <> t /\ holds nc t').
Proof using CL.
  intros Hr. destruct (decide (t' = t)) as [->|Hne].
  - split; [by left|]. intros _. destruct (cond_get_SetTrue nc t) as (r & m & E).
    unfold holds. rewrite E. eexists. by split_and!.
  - rewrite <- (holds_init nc) by done. unfold holds. rewrite cond_get_SetTrue_ne by done.
    change (nc_Generation (SetTrue _ _)) with (nc_Generation (StatusConditions nc)). naive_solver.
Qed.

(** [noteUnreachable] changes a condition only when it was not known. *)
Lemma noteUnreachable_keeps (nc : HCloudNodeClass) t kind err t' x :
  t' <> RootCondition -> cond_get nc t' = Some x -> cond_Status x <> CondUnknown ->
  cond_get (noteUnreachable nc t kind err) t' = Some x.
Proof using CL.
  intros Hr Hx Hk. assert (cond_get (StatusConditions nc) t' = Some x) as Hi by (by apply cond_get_init).
  unfold noteUnreachable. destruct (is_unknown (cond_get (StatusConditions nc) t)) eqn:E; simpl; [|done].
  assert (t' <> t) as Hne.
  { intros ->. rewrite Hi in E. simpl in E. by apply bool_decide_eq_true in E. }
  rewrite cond_get_SetCond_ne by done. by apply cond_get_init.
Qed.

Lemma holds_noteUnreachable (nc : HCloudNodeClass) t kind err t' :
  t' <> RootCondition -> holds (noteUnreachable nc t kind err) t' <-> holds nc t'.
Proof using CL.
  intros Hr. split.
  - unfold noteUnreachable. destruct (is_unknown _); simpl.
    + rewrite holds_SetCond by done. intros [[_ ?]|[_ ?]]; [done|]. by apply holds_init.
    + by apply holds_init.
  - intros (x & Hx & Hs & Hg). exists x. split_and!; [|done|].
    + apply noteUnreachable_keeps; [done..|congruence].
    + unfold noteUnreachable. by destruct (is_unknown _).
Qed.

(** ** The sub-reconcilers *)

Section Sub.
Context {W : Type} `{RA : ResourceAPI W, DA : DiscoveryAPI W}.

(** The six that resolve something, in the order the controller runs them. *)
Definition resolvers : list (HCloudNodeClass -> W -> reconciled) :=
  [reconcile_Image; reconcile_Network; reconcile_Firewalls;
   fun nc w => (reconcile_SSHKeys nc w).1; reconcile_PlacementGroup; reconcile_BootstrapDiscovery].

Lemma resolver_error (sub : HCloudNodeClass -> W -> reconciled) nc w e nc' w' :
  sub ∈ resolvers -> sub nc w = (Err e, nc', w') ->
  exists t kind err, nc' = noteUnreachable nc t kind err.
Proof.
  intros Hsub. unfold resolvers in Hsub. rewrite !elem_of_cons, elem_of_nil in Hsub.
  destruct Hsub as [->|[->|[->|[->|[->|[->|[]]]]]]];
    unfold reconcile_Image, reconcile_Network, reconcile_Firewalls, reconcile_SSHKeys,
      reconcile_PlacementGroup, reconcile_BootstrapDiscovery, narrowed; cbv zeta; intros H;
    repeat (case_match; try discriminate H); simplify_eq/=; eauto.
Qed.

(** A resolver writes the status only. *)
Definition same_meta (nc nc' : HCloudNodeClass) : Prop :=
  nc_Spec nc' = nc_Spec nc /\ nc_Finalizers nc' = nc_Finalizers nc.

Lemma resolver_meta (sub : HCloudNodeClass -> W -> reconciled) nc w :
  sub ∈ resolvers -> same_meta nc (sub nc w).1.2.
Proof.
  assert (forall t k e, same_meta nc (noteUnreachable nc t k e)) as Hn.
  { intros t k e. unfold noteUnreachable. by destruct (is_unknown _). }
  intros Hsub. unfold resolvers in Hsub. rewrite !elem_of_cons, elem_of_nil in Hsub.
  destruct Hsub as [->|[->|[->|[->|[->|[->|[]]]]]]];
    unfold reconcile_Image, reconcile_Network, reconcile_Firewalls, reconcile_SSHKeys,
      reconcile_PlacementGroup, reconcile_BootstrapDiscovery, narrowed; cbv zeta;
    repeat case_match; first [apply Hn | split; reflexivity].
Qed.

(** How the selectors of a list are answered: in order, up to and including the
    first failure that says nothing about the selector. *)
Definition transient {R} (r : result R) : option error :=
  match r with
  | Err e => match configFailure e with None => Some e | Some _ => None end
  | Ok _ => None
  end.

Fixpoint ask {R} (get : string -> option Z -> W -> result R * W) (sels : list SelectorTerm) (w : W)
    : list (result R) * W :=
  match sels with
  | [] => ([], w)
  | sel :: rest =>
      let '(r, w) := get (sel_Name sel) (sel_ID sel) w in
      match transient r with
      | Some _ => ([r], w)
      | None => let '(rs, w) := ask get rest w in (r :: rs, w)
      end
  end.

Definition ok_value {R} (r : result R) : option R := match r with Ok x => Some x | Err _ => None end.

(** A failure other than a missing resource. *)
Definition refused {R} (r : result R) : bool :=
  match r with
  | Err e => bool_decide (configFailure e <> Some reasonNotFound)
  | Ok _ => false
  end.

Lemma configFailure_reason (e : error) (r : string) :
  configFailure e = Some r ->
  (r =? reasonNotFound)%string = negb (bool_decide (configFailure e <> Some reasonNotFound)).
Proof.
  intros ->. destruct (String.eqb_spec r reasonNotFound) as [->|Hr].
  - rewrite bool_decide_eq_false_2; [done|]. intros H. by apply H.
  - rewrite bool_decide_eq_true_2; [done|congruence].
Qed.

(** The loop against the answers. *)
Lemma resolve_selectors_ask {R A} get (mk : R -> A) sels st w :
  let '(rs, w1) := ask get sels w in
  let '(out, w') := resolve_selectors get mk sels st w in
  w' = w1 /\
  match head (omap transient rs) with
  | Some e => out = inl e
  | None =>
      exists st', out = inr st' /\
      sl_resolved st' = sl_resolved st ++ (mk <$> omap ok_value rs) /\
      sl_failClosed st' = (sl_failClosed st || existsb refused rs) /\
      (sl_missing st' = [] <-> sl_missing st = [] /\ forallb is_ok rs = true) /\
      length rs = length sels
  end.
Proof.
  revert st w. induction sels as [|sel sels IH]; intros st w; cbn [ask resolve_selectors].
  { split; [done|]. eexists. split; [done|]. simpl. rewrite app_nil_r, orb_false_r. naive_solver. }
  destruct (get (sel_Name sel) (sel_ID sel) w) as [[x|e] w1]; cbn [transient].
  - specialize (IH {| sl_resolved := sl_resolved st ++ [mk x]; sl_missing := sl_missing st;
      sl_reason := sl_reason st; sl_cause := sl_cause st; sl_failClosed := sl_failClosed st |} w1).
    destruct (ask get sels w1) as [rs w2], (resolve_selectors get mk sels _ w1) as [out w3].
    destruct IH as [-> IH]. split; [done|]. cbn [omap list_omap transient].
    destruct (head _) as [e|]; [done|]. destruct IH as (st' & -> & Hr & Hf & Hm & Hl).
    exists st'. split_and!; [done| |done| |cbn [length]; congruence].
    + rewrite Hr. simpl. by rewrite <- app_assoc.
    + done.
  - destruct (configFailure e) as [r|] eqn:E; [|cbn [omap list_omap transient]; by rewrite E].
    cbv zeta. set (st1 := Build_sel_loop _ _ _ _ _ _). specialize (IH st1 w1).
    destruct (ask get sels w1) as [rs w2], (resolve_selectors get mk sels st1 w1) as [out w3].
    destruct IH as [-> IH]. split; [done|]. cbn [omap list_omap transient]. rewrite E.
    destruct (head _) as [e'|]; [done|]. destruct IH as (st' & -> & Hr & Hf & Hm & Hl).
    exists st'. split_and!; [done|done| | |cbn [length]; congruence].
    + rewrite Hf. subst st1. cbn [sl_failClosed existsb refused].
      rewrite (configFailure_reason _ _ E), negb_involutive. by rewrite orb_assoc.
    + rewrite Hm. subst st1. cbn [sl_missing forallb is_ok]. split; [|naive_solver].
      intros [Hs _]. by destruct (sl_missing st).
Qed.

Lemma all_ok_length {R} (rs : list (result R)) :
  forallb is_ok rs = true -> length (omap ok_value rs) = length rs.
Proof. induction rs as [|[x|e] rs IH]; simpl; intros; [done|f_equal; auto|done]. Qed.

Lemma ok_values_length {R} (rs : list (result R)) : (length (omap ok_value rs) <= length rs)%nat.
Proof. induction rs as [|[x|e] rs IH]; [done|by apply le_n_S|by apply Nat.le_le_succ_r]. Qed.

Lemma resolve_selectors_length {R A} get (mk : R -> A) sels (w : W) st w' :
  resolve_selectors get mk sels sel_start w = (inr st, w') ->
  (length (sl_resolved st) <= length sels)%nat /\
  (sl_missing st = [] -> length (sl_resolved st) = length sels).
Proof.
  intros E. pose proof (resolve_selectors_ask get mk sels sel_start w) as Hask. rewrite E in Hask.
  destruct (ask get sels w) as [rs w1], Hask as [-> Hask].
  destruct (head _); [done|]. destruct Hask as (st' & [= <-] & Hr & _ & Hm & <-).
  rewrite Hr. simpl. rewrite length_fmap. split; [apply ok_values_length|].
  intros Hmiss. apply Hm in Hmiss as [_ ?]. by apply all_ok_length.
Qed.

(** ** Transient failures and the two selector lists *)

(** One resolver that errs changes nothing that was known. *)
Lemma resolver_error_keeps (sub : HCloudNodeClass -> W -> reconciled) nc w e nc' w' :
  sub ∈ resolvers -> sub nc w = (Err e, nc', w') ->
  (exists c, nc' = set_conditions nc c) /\
  forall t x, t <> RootCondition -> cond_get nc t = Some x -> cond_Status x <> CondUnknown ->
    cond_get nc' t = Some x.
Proof using CL.
  intros Hin Hsub. destruct (resolver_error sub nc w e nc' w' Hin Hsub) as (t & kind & err & ->). split.
  - unfold noteUnreachable. destruct (is_unknown _); simpl; by eexists.
  - intros t' x Ht Hx Hk. by apply noteUnreachable_keeps.
Qed.


(** SSH keys fail open for keys that are gone and closed for anything else.  With
    no transient failure, the class publishes exactly the keys that resolved and
    stays True, unless some selector failed for another reason than a missing key:
    then it publishes none and is False.  The order of the selectors decides
    nothing, since the test is whether such a failure occurs anywhere. *)
Theorem sshkeys_fail_open_only_on_missing (nc : HCloudNodeClass) (w : W) :
  let '(rs, w1) := ask res_SSHKey (spec_SSHKeySelectors (nc_Spec nc)) w in
  let '((r, nc', w'), _) := reconcile_SSHKeys nc w in
  w' = w1 /\
  match head (omap transient rs) with
  | Some e => r = Err (Wrapf "resolving ssh key, " e) /\
              status_SSHKeys (nc_Status nc') = status_SSHKeys (nc_Status nc)
  | None =>
      if existsb refused rs then
        r = Ok misconfiguredRequeue /\ status_SSHKeys (nc_Status nc') = [] /\
        exists x, cond_get nc' ConditionTypeSSHKeysReady = Some x /\ cond_Status x = CondFalse
      else
        r = Ok resolvedRequeue /\ holds nc' ConditionTypeSSHKeysReady /\
        kst_ID <$> status_SSHKeys (nc_Status nc') = key_ID <$> omap ok_value rs
  end.
Proof using CL.
  unfold reconcile_SSHKeys.
  destruct (spec_SSHKeySelectors (nc_Spec nc)) as [|sel sels] eqn:Es.
  { simpl. split_and!; try done. apply holds_SetTrue; [done|]. by left. }
  rewrite <- Es. pose proof (resolve_selectors_ask res_SSHKey
    (fun k => {| kst_ID := key_ID k; kst_Name := key_Name k; kst_Fingerprint := key_Fingerprint k |})
    (spec_SSHKeySelectors (nc_Spec nc)) sel_start w) as Hask.
  destruct (ask _ _ w) as [rs w1], (resolve_selectors _ _ _ _ w) as [out w'].
  destruct Hask as [-> Hask]. destruct (head _) as [e|].
  { subst out. split_and!; [done..|]. unfold noteUnreachable. by destruct (is_unknown _). }
  destruct Hask as (st & -> & Hr & Hf & Hm & Hl). cbn [sel_start sl_failClosed orb] in Hf.
  rewrite Hf. destruct (existsb refused rs) eqn:Eref.
  - split_and!; [done..|]. eexists. split; [apply cond_get_SetCond|done].
  - cbv zeta. unfold narrowed. destruct (sl_missing st) as [|m ms]; split_and!; try done.
    + apply holds_SetTrue; [done|]. by left.
    + simpl. rewrite Hr. simpl. by rewrite <- list_fmap_compose.
    + apply holds_SetCond; [done|]. by left.
    + simpl. rewrite Hr. simpl. by rewrite <- list_fmap_compose.
Qed.
End Sub.

(** ** Validation *)

Definition image_architecture (nc : HCloudNodeClass) : string :=
  match status_Image (nc_Status nc) with Some img => ist_Architecture img | None => "" end.

(** What a class needs to be valid, given the catalog. *)
Definition valid_class (snapshot : option Snapshot) (nc : HCloudNodeClass) : Prop :=
  Forall (holds nc) requiredConditions /\
  (image_architecture nc = "" \/ image_architecture nc = SupportedArchitecture) /\
  is_Some snapshot /\ sc_catalogEmpty (locationScope snapshot nc) = false /\
  sc_inScope (locationScope snapshot nc) <> [].

Lemma required_names (t : string) :
  t ∈ requiredConditions -> t <> RootCondition /\ t <> ConditionTypeValidationSucceeded.
Proof.
  intros Ht. unfold requiredConditions in Ht. rewrite !elem_of_cons, elem_of_nil in Ht.
  destruct Ht as [->|[->|[->|[->|[->|[->|[]]]]]]]; done.
Qed.

(** The three-way split of the required conditions. *)
Lemma all_required_hold (nc : HCloudNodeClass) :
  failed_conditions nc = [] -> pending_conditions nc = [] -> Forall (holds nc) requiredConditions.
Proof.
  intros Hf Hp. rewrite Forall_forall. intros t Ht.
  assert (is_false (cond_get nc t) <> true) as Ef.
  { intros E. assert (t ∈ failed_conditions nc) as Hin by (by apply list_elem_of_filter).
    rewrite Hf in Hin. by apply elem_of_nil in Hin. }
  assert (is_pending nc t <> true) as Ep.
  { intros E. assert (t ∈ pending_conditions nc) as Hin by (by apply list_elem_of_filter).
    rewrite Hp in Hin. by apply elem_of_nil in Hin. }
  apply not_true_is_false in Ef, Ep. unfold is_pending in Ep. rewrite Ef in Ep.
  unfold holds. destruct (cond_get nc t) as [x|]; simpl in *; [|done].
  destruct (cond_Status x) eqn:Es; simpl in *; [|done..]. exists x. split_and!; [done..|].
  by apply negb_false_iff, Z.eqb_eq in Ep.
Qed.

Lemma filter_none (f : string -> bool) (l : list string) :
  (forall t, t ∈ l -> f t = false) -> filter (fun t => f t = true) l = [].
Proof.
  intros Hf. destruct (filter _ l) as [|t ts] eqn:E; [done|].
  assert (t ∈ filter (fun t => f t = true) l) as Ht by (rewrite E; left).
  apply list_elem_of_filter in Ht as [Ht Hin]. rewrite (Hf t Hin) in Ht. done.
Qed.

Lemma required_hold_all (nc : HCloudNodeClass) :
  Forall (holds nc) requiredConditions -> failed_conditions nc = [] /\ pending_conditions nc = [].
Proof.
  intros Hall. rewrite Forall_forall in Hall. unfold failed_conditions, pending_conditions. split.
  - apply filter_none. intros t Ht. destruct (Hall t Ht) as (x & -> & Hs & _).
    simpl. by rewrite Hs.
  - apply filter_none. intros t Ht.
    destruct (Hall t Ht) as (x & Hx & Hs & Hg). unfold is_pending. rewrite Hx. simpl. rewrite Hs. simpl.
    by rewrite Hg, Z.eqb_refl.
Qed.

Lemma required_hold_init (nc : HCloudNodeClass) :
  Forall (holds (StatusConditions nc)) requiredConditions <-> Forall (holds nc) requiredConditions.
Proof using CL.
  rewrite !Forall_forall. split; intros H t Ht; specialize (H t Ht);
    by apply holds_init; [apply required_names|].
Qed.

(** What a validation leaves, by its verdict: the valid locations and a True
    condition, or none and a condition that is not True; nothing else changes. *)
Definition validated (snapshot : option Snapshot) (nc nc' : HCloudNodeClass) (ok : bool) : Prop :=
  (if ok then
     holds nc' ConditionTypeValidationSucceeded /\
     status_Locations (nc_Status nc') = sc_inScope (locationScope snapshot nc)
   else ~ holds nc' ConditionTypeValidationSucceeded /\ status_Locations (nc_Status nc') = []) /\
  (exists c l, nc' = set_conditions (set_locations nc l) c) /\
  forall t, t <> RootCondition -> t <> ConditionTypeValidationSucceeded ->
    holds nc' t <-> holds nc t.

(** Setting the condition on the object the pass works on. *)
Lemma validated_set (snapshot : option Snapshot) (nc : HCloudNodeClass) l (st : cond_status) r m :
  let nc' := SetCond (set_locations (StatusConditions nc) l) ConditionTypeValidationSucceeded st r m in
  l = (if bool_decide (st = CondTrue) then sc_inScope (locationScope snapshot nc) else []) ->
  validated snapshot nc nc' (bool_decide (st = CondTrue)).
Proof using CL.
  intros nc' Hl. split; [|split; [by eexists _, _|]].
  - destruct (bool_decide (st = CondTrue)) eqn:E; bool_hyps; (split; [|by rewrite <- Hl]).
    + apply holds_SetCond; [done|]. by left.
    + unfold nc'. rewrite holds_SetCond by done. naive_solver.
  - intros t Ht HV. unfold nc'. rewrite holds_SetCond by done.
    rewrite <- (holds_init nc) by done. naive_solver.
Qed.

Lemma validated_true (snapshot : option Snapshot) (nc : HCloudNodeClass) :
  validated snapshot nc
    (SetTrue (set_locations (StatusConditions nc) (sc_inScope (locationScope snapshot nc)))
       ConditionTypeValidationSucceeded) true.
Proof using CL.
  split; [|split; [by eexists _, _|]].
  - split; [|done]. apply holds_SetTrue; [done|]. by left.
  - intros t Ht HV. rewrite holds_SetTrue by done. rewrite <- (holds_init nc) by done. naive_solver.
Qed.

(** Every branch of the validation, against what a class needs. *)
Lemma validation_cases (snapshot : option Snapshot) (nc : HCloudNodeClass) :
  let '(_, nc', _) := reconcile_Validation snapshot nc in
  (valid_class snapshot nc /\ validated snapshot nc nc' true) \/
  (~ valid_class snapshot nc /\ validated snapshot nc nc' false).
Proof using CL.
  unfold reconcile_Validation. cbv zeta.
  destruct (failed_conditions (StatusConditions nc)) as [|f fs] eqn:Ef; cycle 1.
  { right. split; [|by apply validated_set].
    intros [Hall _]. apply required_hold_init, required_hold_all in Hall as [Hf _]. congruence. }
  destruct (pending_conditions (StatusConditions nc)) as [|q qs] eqn:Ep; cycle 1.
  { right. split; [|by apply validated_set].
    intros [Hall _]. apply required_hold_init, required_hold_all in Hall as [_ Hp]. congruence. }
  pose proof (proj1 (required_hold_init nc) (all_required_hold _ Ef Ep)) as Hall.
  change (match status_Image _ with Some img => _ | None => _ end) with (image_architecture nc).
  change (locationScope snapshot (StatusConditions nc)) with (locationScope snapshot nc).
  destruct (negb (image_architecture nc =? "")%string && _) eqn:Ea.
  { right. split; [|by apply validated_set]. bool_hyps. intros (_ & [Hx|Hx] & _); congruence. }
  destruct snapshot as [s|]; cycle 1.
  { right. split; [|by apply validated_set]. intros (_ & _ & [x Hx] & _). done. }
  destruct (sc_catalogEmpty (locationScope (Some s) nc)) eqn:Ec.
  { right. split; [|by apply validated_set]. intros (_ & _ & _ & H & _). congruence. }
  destruct (sc_inScope (locationScope (Some s) nc)) as [|l ls] eqn:El.
  { destruct (emptyFailure _) as [reason message]. right. split; [|by apply validated_set].
    intros (_ & _ & _ & _ & H). congruence. }
  assert (valid_class (Some s) nc) as Hv.
  { split_and!; [done| |done|done|congruence].
    destruct (String.eqb_spec (image_architecture nc) ""); [by left|].
    destruct (String.eqb_spec (image_architecture nc) SupportedArchitecture); [by right|done]. }
  rewrite <- El. destruct (negb (excludedMessage _ =? "")%string).
  - unfold narrowed. left. split; [done|]. by apply (validated_set (Some s) nc).
  - left. split; [done|]. apply validated_true.
Qed.

(** C32. Validation is exact.  After it, ValidationSucceeded is True for the current
    revision exactly when all six other conditions are, the image's architecture
    is unknown or supported, the catalog is there and offers something, and some
    location is in scope; the locations published are then exactly the scope, and
    none otherwise. *)
Theorem validation_exact (snapshot : option Snapshot) (nc : HCloudNodeClass) :
  let '(_, nc', _) := reconcile_Validation snapshot nc in
  (holds nc' ConditionTypeValidationSucceeded <-> valid_class snapshot nc) /\
  (valid_class snapshot nc -> status_Locations (nc_Status nc') = sc_inScope (locationScope snapshot nc)) /\
  (~ valid_class snapshot nc -> status_Locations (nc_Status nc') = []).
Proof using CL.
  pose proof (validation_cases snapshot nc) as Hc.
  destruct (reconcile_Validation snapshot nc) as [[r nc'] evs].
  destruct Hc as [(Hv & [[H1 H2] _])|(Hv & [[H1 H2] _])]; tauto.
Qed.

(** ** A pass in which some resolvers fail *)

Section Pass.
Context {W : Type} `{RA : ResourceAPI W, DA : DiscoveryAPI W, CV : CatalogView W}.

(** The part of the status a condition speaks of is the same. *)
Definition same_field (t : string) (nc nc' : HCloudNodeClass) : Prop :=
  let s := nc_Status nc in
  let s' := nc_Status nc' in
  (t = ConditionTypeImageReady -> status_Image s' = status_Image s) /\
  (t = ConditionTypeNetworkReady -> status_Network s' = status_Network s) /\
  (t = ConditionTypeFirewallsReady -> status_Firewalls s' = status_Firewalls s) /\
  (t = ConditionTypeSSHKeysReady -> status_SSHKeys s' = status_SSHKeys s) /\
  (t = ConditionTypePlacementGroupReady -> status_PlacementGroup s' = status_PlacementGroup s) /\
  (t = ConditionTypeBootstrapDiscoveryReady ->
     status_APIServerEndpoint s' = status_APIServerEndpoint s /\
     status_CACertHashes s' = status_CACertHashes s).

(** That part, and the condition itself if it was True or False. *)
Definition keeps (t : string) (nc nc' : HCloudNodeClass) : Prop :=
  same_field t nc nc' /\
  forall x, cond_get nc t = Some x -> cond_Status x <> CondUnknown -> cond_get nc' t = Some x.

(** Only what [t] speaks of may differ. *)
Definition only_touches (t : string) (nc nc' : HCloudNodeClass) : Prop :=
  same_meta nc nc' /\ forall t', t' <> t -> t' <> RootCondition -> keeps t' nc nc'.

Lemma keeps_trans (t : string) (nc1 nc2 nc3 : HCloudNodeClass) :
  keeps t nc1 nc2 -> keeps t nc2 nc3 -> keeps t nc1 nc3.
Proof.
  intros [F1 C1] [F2 C2]. split; [|by eauto]. unfold same_field in *.
  destruct F1 as (? & ? & ? & ? & ? & F1), F2 as (? & ? & ? & ? & ? & F2). cbv zeta.
  split_and!; intros Ht; [intuition congruence..|].
  destruct (F1 Ht) as [E1 E2], (F2 Ht) as [E3 E4]. split; congruence.
Qed.

(** A branch of a sub-reconciler: fields of its own, then its own condition. *)
Ltac touches :=
  split; [by split|];
  intros t' Hne Hroot; split;
  [ unfold same_field; cbv zeta; split_and!; intros Ht; first [by split | reflexivity | by destruct Hne]
  | intros x Hx _; first [rewrite cond_get_SetCond_ne by done | rewrite cond_get_SetTrue_ne by done | idtac];
    by repeat (apply cond_get_init; [done|]) ].

Lemma note_touches (nc : HCloudNodeClass) t kind err : only_touches t nc (noteUnreachable nc t kind err).
Proof using CL. unfold noteUnreachable. destruct (is_unknown _); cbn [negb]; touches. Qed.

(** Each resolver touches its own part of the status and no other. *)
Lemma resolver_touches (i : nat) (sub : HCloudNodeClass -> W -> reconciled) (t : string) nc w :
  resolvers !! i = Some sub -> requiredConditions !! i = Some t -> only_touches t nc (sub nc w).1.2.
Proof using CL.
  intros Hsub Ht. destruct i as [|[|[|[|[|[|i]]]]]]; cbn in Hsub, Ht; simplify_eq;
    unfold reconcile_Image, reconcile_Network, reconcile_Firewalls, reconcile_SSHKeys,
      reconcile_PlacementGroup, reconcile_BootstrapDiscovery, narrowed; cbv zeta;
    repeat case_match; simplify_eq/=; first [apply note_touches | touches].
Qed.

Lemma validation_touches (snapshot : option Snapshot) (nc : HCloudNodeClass) :
  only_touches ConditionTypeValidationSucceeded nc (reconcile_Validation snapshot nc).1.2 /\
  is_ok (reconcile_Validation snapshot nc).1.1 = true.
Proof using CL.
  unfold reconcile_Validation, narrowed. cbv zeta.
  repeat (case_match; simplify_eq/=); (split; [touches|done]).
Qed.

(** A resolver keeps what another one speaks of, and its own when it errs. *)
Lemma resolver_keeps (i : nat) (sub : HCloudNodeClass -> W -> reconciled) (own t : string) nc w :
  resolvers !! i = Some sub -> requiredConditions !! i = Some own -> t ∈ requiredConditions ->
  t <> own \/ is_ok (sub nc w).1.1 = false -> keeps t nc (sub nc w).1.2.
Proof using CL.
  intros Hsub Hown Ht [Hne|He].
  - apply (resolver_touches i sub own); [done..|]. by apply required_names.
  - destruct (sub nc w) as [[[d|e] nc'] w'] eqn:Es; [done|].
    destruct (resolver_error_keeps sub nc w e nc' w') as [[c ->] Hk]; [by eapply list_elem_of_lookup_2|done|].
    split; [by repeat split|]. intros x. apply Hk. by apply required_names.
Qed.

(** C33. A resolver that cannot reach its API loses nothing.  In a whole pass, whatever
    the other resolvers and the validation do before and after, one of the six
    resolvers that ends in an error leaves its part of the status as it was before
    the pass, and its condition too if that was True or False.  Validation itself
    never ends in an error, and no pass changes the spec or the finalizers.  The
    parts of the resolvers that did answer, the published locations and the
    validation's condition may change in the same pass. *)
Theorem transient_failure_changes_nothing (nc : HCloudNodeClass) (w : W) :
  let '(rs, nc', _, _) := run_subs nc w in
  same_meta nc nc' /\
  forall i e, rs !! i = Some (Err e) ->
    exists t, requiredConditions !! i = Some t /\ keeps t nc nc'.
Proof using CL.
  unfold run_subs.
  pose proof (fun t => resolver_keeps 0 _ _ t nc w eq_refl eq_refl) as K1.
  pose proof (resolver_touches 0 _ _ nc w eq_refl eq_refl) as [M1 _].
  destruct (reconcile_Image nc w) as [[r1 nc1] w1].
  pose proof (fun t => resolver_keeps 1 _ _ t nc1 w1 eq_refl eq_refl) as K2.
  pose proof (resolver_touches 1 _ _ nc1 w1 eq_refl eq_refl) as [M2 _].
  destruct (reconcile_Network nc1 w1) as [[r2 nc2] w2].
  pose proof (fun t => resolver_keeps 2 _ _ t nc2 w2 eq_refl eq_refl) as K3.
  pose proof (resolver_touches 2 _ _ nc2 w2 eq_refl eq_refl) as [M3 _].
  destruct (reconcile_Firewalls nc2 w2) as [[r3 nc3] w3].
  pose proof (fun t => resolver_keeps 3 _ _ t nc3 w3 eq_refl eq_refl) as K4.
  pose proof (resolver_touches 3 _ _ nc3 w3 eq_refl eq_refl) as [M4 _].
  cbv beta in K4, M4. destruct (reconcile_SSHKeys nc3 w3) as [[[r4 nc4] w4] ev4].
  pose proof (fun t => resolver_keeps 4 _ _ t nc4 w4 eq_refl eq_refl) as K5.
  pose proof (resolver_touches 4 _ _ nc4 w4 eq_refl eq_refl) as [M5 _].
  destruct (reconcile_PlacementGroup nc4 w4) as [[r5 nc5] w5].
  pose proof (fun t => resolver_keeps 5 _ _ t nc5 w5 eq_refl eq_refl) as K6.
  pose proof (resolver_touches 5 _ _ nc5 w5 eq_refl eq_refl) as [M6 _].
  destruct (reconcile_BootstrapDiscovery nc5 w5) as [[r6 nc6] w6].
  destruct (validation_touches (catalog_view w6) nc6) as [[M7 K7] Hok].
  destruct (reconcile_Validation (catalog_view w6) nc6) as [[r7 nc7] ev7]. cbn [fst snd] in *. split.
  { unfold same_meta in *. split_and!; intuition congruence. }
  assert (forall t, t ∈ requiredConditions ->
    (t <> ConditionTypeImageReady \/ is_ok r1 = false) ->
    (t <> ConditionTypeNetworkReady \/ is_ok r2 = false) ->
    (t <> ConditionTypeFirewallsReady \/ is_ok r3 = false) ->
    (t <> ConditionTypeSSHKeysReady \/ is_ok r4 = false) ->
    (t <> ConditionTypePlacementGroupReady \/ is_ok r5 = false) ->
    (t <> ConditionTypeBootstrapDiscoveryReady \/ is_ok r6 = false) -> keeps t nc nc7) as Hall.
  { intros t Ht H1 H2 H3 H4 H5 H6. destruct (required_names t Ht) as [Hr Hv].
    eapply keeps_trans; [by apply K1|]. eapply keeps_trans; [by apply K2|].
    eapply keeps_trans; [by apply K3|]. eapply keeps_trans; [by apply K4|].
    eapply keeps_trans; [by apply K5|]. eapply keeps_trans; [by apply K6|]. by apply K7. }
  intros i e Hi. destruct i as [|[|[|[|[|[|[|i]]]]]]]; cbn in Hi; simplify_eq/=;
    (eexists; split; [done|]; apply Hall; [by apply (bool_decide_eq_true_1 _)|..];
     first [by left | by right]).
Qed.
End Pass.
End WithKube.

(** ** A concrete project

    The world is whether Hetzner answers: it does with one resource of each kind,
    or it times out. *)

Module NodeClassExample.
Import KubeExample CatalogExample.

#[export] Instance unwraps : KarpErrors := fun _ => true.
#[export] Instance etext : ErrorText := fun _ => "timeout".
#[export] Instance slice : PrettySlice := fun l _ => Join l ", ".
#[export] Instance result_min : ResultMin := foldr Z.min (5 * minute).

Definition answer {A} (a : A) (w : bool) : result A * bool :=
  (if w then Ok a else Err (HcloudError CodeTimeout "timeout" None), w).

#[export] Instance resources : ResourceAPI bool := {|
  res_Image _ _ _ := answer {| img_ID := 7; img_Name := "debian-13"; img_Description := "";
                               img_Architecture := "x86"; img_Created := "" |};
  res_Network _ _ := answer {| net_ID := 9; net_Name := "k8s"; net_IPRange := "10.0.0.0/8";
                               net_Zone := "eu-central" |};
  res_Firewall _ _ := answer {| fw_ID := 3; fw_Name := "nodes" |};
  res_SSHKey _ _ := answer {| key_ID := 4; key_Name := "ops"; key_Fingerprint := "" |};
  res_PlacementGroup _ _ := answer {| pg_ID := 5; pg_Name := "spread"; pg_Type := "spread";
                                      pg_ServerCount := 1 |}
|}.

Definition pin : string :=
  "sha256:0123456789abcdef0123456789abcdef0123456789abcdef0123456789abcdef".

#[export] Instance discovery : DiscoveryAPI bool := {|
  disc_Refresh w := (None, w);
  disc_Resolve _ _ _ := Ok ("10.0.0.2:6443", [pin])
|}.

#[export] Instance discovery_ok : DiscoveryLaws bool.
Proof. by intros eo ho w e hs [= <- <-]. Qed.

#[export] Instance catalog : CatalogView bool := fun _ =>
  Some {| sn_Generation := 1; sn_ServerTypes := [cx23; cpx22]; sn_PrimaryIPv4Monthly := f_zero;
          sn_FetchedAt := 0 |}.

(** As created: no condition yet. *)
Definition created : HCloudNodeClass := set_conditions (nodeClass [] ∅) ∅.

(** The same class selecting a firewall and an SSH key. *)
Definition selecting : HCloudNodeClass :=
  let sel name := {| sel_Name := name; sel_ID := None |} in
  let s := nc_Spec created in
  {| nc_Name := "default"; nc_UID := "u"; nc_Generation := 1; nc_DeletionTimestamp := None;
     nc_Finalizers := []; nc_Annotations := ∅;
     nc_Spec :=
       {| spec_ImageSelector := spec_ImageSelector s; spec_ImageDriftPolicy := ""; spec_MaxNodeAge := None;
          spec_Locations := []; spec_NetworkSelector := spec_NetworkSelector s;
          spec_FirewallSelectors := [sel "nodes"]; spec_SSHKeySelectors := [sel "ops"];
          spec_PlacementGroup := None; spec_PublicIPv4 := None; spec_PublicIPv6 := None;
          spec_ServerLabels := ∅; spec_Kubelet := kubelet; spec_Bootstrap := bootstrap |};
     nc_Status := nc_Status created |}.

(** What the resolvers leave of a class. *)
Definition resolved (nc : HCloudNodeClass) (w : bool) : HCloudNodeClass :=
  foldl (fun nc (sub : HCloudNodeClass -> bool -> reconciled) => (sub nc w).1.2) nc resolvers.

Definition is_true (nc : HCloudNodeClass) (t : string) : bool :=
  match cond_get nc t with
  | Some c => bool_decide (cond_Status c = CondTrue) && (cond_ObservedGeneration c =? nc_Generation nc)
  | None => false
  end.

Lemma is_true_holds (nc : HCloudNodeClass) (t : string) : is_true nc t = true -> holds nc t.
Proof.
  unfold is_true, holds. destruct (cond_get nc t) as [c|]; [|done]. intros H. bool_hyps. by exists c.
Qed.
End NodeClassExample.

Section Witnesses.
Import KubeExample CatalogExample NodeClassExample.

(** A class whose ImageReady is True, in a pass in which the API times out. *)
Lemma transient_failure_changes_nothing_witness :
  let nc := (reconcile_Image created true).1.2 in
  let '(rs, nc', _, _) := run_subs nc false in
  (is_ok <$> rs !! 0%nat) = Some false /\ keeps ConditionTypeImageReady nc nc'.
Proof.
  intros nc. pose proof (transient_failure_changes_nothing nc false) as Hp.
  assert (is_ok <$> (run_subs nc false).1.1.1 !! 0%nat = Some false) as H0 by by vm_compute.
  destruct (run_subs nc false) as [[[rs nc'] evs] w']. destruct Hp as [_ Hp]. cbn [fst] in H0.
  split; [exact H0|]. destruct (rs !! 0%nat) as [[d|e]|] eqn:E; [done| |done].
  destruct (Hp 0%nat e E) as (t & Ht & Hk). injection Ht as <-. exact Hk.
Defined.


Lemma sshkeys_fail_open_only_on_missing_witness :
  let nc' := (reconcile_SSHKeys selecting true).1.1.2 in
  holds nc' ConditionTypeSSHKeysReady /\ kst_ID <$> status_SSHKeys (nc_Status nc') = [4].
Proof.
  intros nc'. pose proof (sshkeys_fail_open_only_on_missing selecting true) as H.
  change (true = true /\ Ok resolvedRequeue = Ok resolvedRequeue /\
    holds nc' ConditionTypeSSHKeysReady /\ kst_ID <$> status_SSHKeys (nc_Status nc') = [4]) in H.
  destruct H as (_ & _ & Hh & Hf). exact (conj Hh Hf).
Defined.

Lemma validation_exact_witness :
  let nc := resolved selecting true in
  valid_class (catalog_view true) nc /\
  status_Locations (nc_Status (reconcile_Validation (catalog_view true) nc).1.2) <> [].
Proof.
  intros nc. pose proof (validation_exact (catalog_view true) nc) as H.
  assert (holds (reconcile_Validation (catalog_view true) nc).1.2 ConditionTypeValidationSucceeded) as Hh
    by (apply is_true_holds; by vm_compute).
  destruct (reconcile_Validation (catalog_view true) nc) as [[r nc'] evs].
  destruct H as (Hv & Hl & _). apply Hv in Hh. split; [exact Hh|]. cbn [fst snd]. rewrite (Hl Hh).
  apply Hh.
Defined.
End Witnesses.
