(* ===== verification/NodeClassLife.v ===== *)
(** The life of a NodeClass: the states it can reach, and its finalizer.

    The invariant of the object under [Reconcile] of
    [internal/controllers/nodeclass/controller.go] and spec edits, proved by
    induction on how the object came about, and the writes a reconcile makes,
    with [Finalize] of [termination.go]. *)

From S2P Require Import Prelude GoErrors Float64 GoText Servers Discovery Kube Api Unavailable.
From S2P Require Import Resources InstanceTypes Catalog LocationScope NodeClaims KubeClient.
From S2P Require Import NodeClassStatus NodeClassController NodeClassProofs.

Section WithKube.
Context `{KB : Kube, GT : GoText, KE : KarpErrors, ET : ErrorText, PS : PrettySlice, RM : ResultMin}.
Context {CL : ConditionLaws KB}.

(** ** The life of a NodeClass *)

Section Life.
Context {W : Type} `{RA : ResourceAPI W, DA : DiscoveryAPI W, CV : CatalogView W}.
Context {DL : DiscoveryLaws W}.

(** A selector that may be absent is resolved when the status agrees with it. *)
Definition agrees {A B} (sel : option A) (st : option B) : Prop := is_Some sel <-> is_Some st.

(** What each True condition of a resolver stands for, at the current revision:
    the status speaks for the spec as it is now. *)
Definition means (nc : HCloudNodeClass) (t : string) : Prop :=
  let s := nc_Status nc in
  let spec := nc_Spec nc in
  (t = ConditionTypeImageReady -> is_Some (status_Image s)) /\
  (t = ConditionTypeNetworkReady ->
     agrees (spec_NetworkSelector spec) (status_Network s) /\
     forall n, status_Network s = Some n -> nst_Zone n <> "") /\
  (t = ConditionTypeFirewallsReady ->
     length (status_Firewalls s) = length (spec_FirewallSelectors spec)) /\
  (t = ConditionTypeSSHKeysReady ->
     (length (status_SSHKeys s) <= length (spec_SSHKeySelectors spec))%nat) /\
  (t = ConditionTypePlacementGroupReady ->
     agrees (spec_PlacementGroup spec) (status_PlacementGroup s)) /\
  (t = ConditionTypeBootstrapDiscoveryReady ->
     status_APIServerEndpoint s <> "" /\ status_CACertHashes s <> [] /\
     Forall (fun h => ValidHash h = true) (status_CACertHashes s)).

(** Every resolver's condition that is True means what it says, and no condition
    is True for a revision that does not exist yet. *)
Record life_inv (nc : HCloudNodeClass) : Prop := {
  li_means : forall t, t ∈ requiredConditions -> holds nc t -> means nc t;
  li_observed : forall t x, t <> RootCondition -> cond_get nc t = Some x ->
    cond_Status x = CondTrue -> cond_ObservedGeneration x <= nc_Generation nc
}.

(** [nc1] is [nc] with the fields that condition [t] speaks of replaced. *)
Record field_update (t : string) (nc nc1 : HCloudNodeClass) : Prop := {
  fu_generation : nc_Generation nc1 = nc_Generation nc;
  fu_conditions : status_Conditions (nc_Status nc1) = status_Conditions (nc_Status nc);
  fu_frame : forall t', t' <> t -> means nc t' -> means nc1 t'
}.

Ltac frame := split; [reflexivity..|]; unfold means; cbn; tauto.

Lemma update_image nc i : field_update ConditionTypeImageReady nc (set_image nc i).
Proof. frame. Qed.
Lemma update_network nc n : field_update ConditionTypeNetworkReady nc (set_network nc n).
Proof. frame. Qed.
Lemma update_firewalls nc l : field_update ConditionTypeFirewallsReady nc (set_firewalls nc l).
Proof. frame. Qed.
Lemma update_sshkeys nc l : field_update ConditionTypeSSHKeysReady nc (set_sshkeys nc l).
Proof. frame. Qed.
Lemma update_pg nc p : field_update ConditionTypePlacementGroupReady nc (set_placement_group nc p).
Proof. frame. Qed.
Lemma update_join nc e hs : field_update ConditionTypeBootstrapDiscoveryReady nc (set_join nc e hs).
Proof. frame. Qed.
Lemma update_locations nc l : field_update ConditionTypeValidationSucceeded nc (set_locations nc l).
Proof. frame. Qed.

Lemma update_holds t nc nc1 t' : field_update t nc nc1 -> holds nc1 t' <-> holds nc t'.
Proof. intros [Hg Hc _]. unfold holds, cond_get. by rewrite Hg, Hc. Qed.

(** The bound on what was observed, through initialisation and a write. *)
Lemma observed_init (nc : HCloudNodeClass) (t : string) (x : condition) :
  life_inv nc -> t <> RootCondition -> cond_get (StatusConditions nc) t = Some x ->
  cond_Status x = CondTrue -> cond_ObservedGeneration x <= nc_Generation nc.
Proof using CL.
  intros Hinv Ht Hx Hs. apply cond_get_init_inv in Hx as [Hx|[_ Hu]]; [|congruence|done].
  by eapply li_observed.
Qed.

Lemma inv_init (nc : HCloudNodeClass) : life_inv nc -> life_inv (StatusConditions nc).
Proof using CL.
  intros Hinv. split.
  - intros t Ht Hh. apply (li_means nc Hinv); [done|]. apply holds_init; [by apply required_names|done].
  - intros t x Ht Hx Hs. by apply (observed_init nc t x).
Qed.

Lemma inv_update_locations nc l : life_inv nc -> life_inv (set_locations nc l).
Proof.
  intros [Hm Ho]. split; [|exact Ho]. intros t Ht Hh. apply (update_locations nc l).
  - by apply required_names.
  - by apply Hm.
Qed.

Lemma inv_SetCond nc nc1 t s r m :
  life_inv nc -> field_update t nc nc1 -> (s = CondTrue -> means nc1 t) ->
  life_inv (SetCond nc1 t s r m).
Proof using CL.
  intros Hinv Hu Hown. split.
  - intros t' Ht' Hh. destruct (required_names t' Ht') as [Hr _].
    change (means nc1 t'). apply holds_SetCond in Hh as [[-> Hs]|[Hne Hh]]; [by apply Hown| |done].
    apply (fu_frame t nc nc1 Hu); [done|]. apply (li_means nc Hinv); [done|]. by rewrite <- (update_holds t nc nc1 t' Hu).
  - intros t' x Hr Hx Hs. destruct (decide (t' = t)) as [->|Hne].
    + rewrite cond_get_SetCond in Hx. by injection Hx as <-.
    + rewrite cond_get_SetCond_ne in Hx by done. destruct Hu as [Hg Hc _].
      change (cond_ObservedGeneration x <= nc_Generation nc1). rewrite Hg.
      apply (observed_init nc t' x); [done..| |done].
      unfold cond_get, StatusConditions in *. cbn in *. by rewrite <- Hg, <- Hc.
Qed.

Lemma inv_SetTrue nc nc1 t :
  life_inv nc -> field_update t nc nc1 -> means nc1 t -> life_inv (SetTrue nc1 t).
Proof using CL.
  intros Hinv Hu Hown. split.
  - intros t' Ht' Hh. destruct (required_names t' Ht') as [Hr _].
    change (means nc1 t'). apply holds_SetTrue in Hh as [->|[Hne Hh]]; [done| |done].
    apply (fu_frame t nc nc1 Hu); [done|]. apply (li_means nc Hinv); [done|]. by rewrite <- (update_holds t nc nc1 t' Hu).
  - intros t' x Hr Hx Hs. destruct (decide (t' = t)) as [->|Hne].
    + destruct (cond_get_SetTrue nc1 t) as (rr & mm & E). rewrite E in Hx. by injection Hx as <-.
    + rewrite cond_get_SetTrue_ne in Hx by done. destruct Hu as [Hg Hc _].
      change (cond_ObservedGeneration x <= nc_Generation nc1). rewrite Hg.
      apply (observed_init nc t' x); [done..| |done].
      unfold cond_get, StatusConditions in *. cbn in *. by rewrite <- Hg, <- Hc.
Qed.

Lemma update_refl t nc : field_update t nc nc.
Proof. by split. Qed.

Lemma inv_note nc t kind err : life_inv nc -> life_inv (noteUnreachable nc t kind err).
Proof using CL.
  intros Hinv. unfold noteUnreachable. destruct (is_unknown _); simpl; [|by apply inv_init].
  apply (inv_SetCond (StatusConditions nc)); [by apply inv_init|apply update_refl|done].
Qed.

(** *** Every resolver keeps the invariant *)

(** Closes the goal of a branch: the condition is written, or only noted. *)
Ltac inv_branch upd :=
  first
    [ apply inv_note; assumption
    | eapply inv_SetCond; [eassumption|apply upd|try discriminate]
    | eapply inv_SetTrue; [eassumption|apply upd|] ].

(** The clause of [means] a resolver owes; the other names differ. *)
Ltac own_clause := unfold means; split_and!; intros; try discriminate; cbn.

Lemma inv_Image nc w : life_inv nc -> life_inv (reconcile_Image nc w).1.2.
Proof using CL.
  intros Hinv. unfold reconcile_Image. cbv zeta. destruct (res_Image _ _ _ w) as [[img|e] w1].
  - inv_branch update_image. own_clause. done.
  - destruct (configFailure e); inv_branch update_image.
Qed.

Lemma inv_Network nc w : life_inv nc -> life_inv (reconcile_Network nc w).1.2.
Proof using CL.
  intros Hinv. unfold reconcile_Network. destruct (spec_NetworkSelector (nc_Spec nc)) as [sel|] eqn:Es.
  - destruct (res_Network _ _ w) as [[net|e] w1].
    + destruct (String.eqb_spec (net_Zone net) ""); inv_branch update_network.
      own_clause. unfold agrees. rewrite Es. naive_solver.
    + destruct (configFailure e); inv_branch update_network.
  - inv_branch update_network. own_clause. by rewrite Es.
Qed.

Lemma inv_Firewalls nc w : life_inv nc -> life_inv (reconcile_Firewalls nc w).1.2.
Proof using CL.
  intros Hinv. unfold reconcile_Firewalls.
  destruct (spec_FirewallSelectors (nc_Spec nc)) as [|sel sels] eqn:Es; rewrite <- ?Es.
  { inv_branch update_firewalls. own_clause. by rewrite Es. }
  destruct (resolve_selectors _ _ _ _ w) as [[e|st] w1] eqn:E; [inv_branch update_firewalls|].
  apply resolve_selectors_length in E as [_ Hl].
  destruct (sl_missing st) as [|m ms]; inv_branch update_firewalls. own_clause. by apply Hl.
Qed.

Lemma inv_SSHKeys nc w : life_inv nc -> life_inv (reconcile_SSHKeys nc w).1.1.2.
Proof using CL.
  intros Hinv. unfold reconcile_SSHKeys, narrowed.
  destruct (spec_SSHKeySelectors (nc_Spec nc)) as [|sel sels] eqn:Es; rewrite <- ?Es.
  { inv_branch update_sshkeys. own_clause. by rewrite Es. }
  destruct (resolve_selectors _ _ _ _ w) as [[e|st] w1] eqn:E; [inv_branch update_sshkeys|].
  apply resolve_selectors_length in E as [Hl _].
  destruct (sl_failClosed st); [inv_branch update_sshkeys|].
  destruct (sl_missing st) as [|m ms]; inv_branch update_sshkeys; try intros _; by own_clause.
Qed.

Lemma inv_PlacementGroup nc w : life_inv nc -> life_inv (reconcile_PlacementGroup nc w).1.2.
Proof using CL.
  intros Hinv. unfold reconcile_PlacementGroup. destruct (spec_PlacementGroup (nc_Spec nc)) as [sel|] eqn:Es.
  - destruct (res_PlacementGroup _ _ w) as [[pg|e] w1].
    + cbv zeta. destruct (_ <=? _); [|destruct (_ <=? _)]; inv_branch update_pg;
        try intros _; own_clause; unfold agrees; rewrite Es; naive_solver.
    + destruct (configFailure e); inv_branch update_pg.
  - inv_branch update_pg. own_clause. by rewrite Es.
Qed.

Lemma invalidHashes_nil (hs : list string) :
  invalidHashes hs = [] -> Forall (fun h => ValidHash h = true) hs.
Proof.
  unfold invalidHashes. induction hs as [|h hs IH]; [constructor|]. rewrite filter_cons.
  destruct (decide (ValidHash h = false)) as [|Hh]; [done|]. intros H. constructor; [|auto].
  by apply not_false_is_true.
Qed.

Lemma inv_BootstrapDiscovery nc w : life_inv nc -> life_inv (reconcile_BootstrapDiscovery nc w).1.2.
Proof using CL DL.
  intros Hinv. unfold reconcile_BootstrapDiscovery. cbv zeta.
  assert (forall w1, life_inv
    (match disc_Resolve (bs_APIServerEndpoint (spec_Bootstrap (nc_Spec nc)))
             (bs_CACertHashes (spec_Bootstrap (nc_Spec nc))) w1 with
     | Ok (endpoint, hashes) =>
         match invalidHashes hashes with
         | [] => (Ok resolvedRequeue,
                  SetTrue (set_join nc endpoint hashes) ConditionTypeBootstrapDiscoveryReady, w1)
         | (_ :: _) as bad =>
             (Ok misconfiguredRequeue,
              SetCond (set_join nc "" []) ConditionTypeBootstrapDiscoveryReady CondFalse
                "InvalidCACertHash" ("CA pins are not in sha256:<64 hex> form: " +:+ Join bad ", "), w1)
         end
     | Err err =>
         (Ok misconfiguredRequeue,
          SetCond (set_join nc "" []) ConditionTypeBootstrapDiscoveryReady CondFalse
            "JoinParametersIncomplete" (error_text err), w1)
     end : reconciled).1.2) as Hres.
  { intros w1. destruct (disc_Resolve _ _ w1) as [[e hs]|err] eqn:E; [|inv_branch update_join].
    apply disc_Resolve_complete in E as [He Hh].
    destruct (invalidHashes hs) as [|b bs] eqn:Ei; inv_branch update_join.
    own_clause. split_and!; [done..|]. by apply invalidHashes_nil. }
  destruct ((bs_APIServerEndpoint _ =? "")%string || _); [|apply Hres].
  destruct (disc_Refresh w) as [[err|] w1]; [|apply Hres].
  destruct (is_config_error err); inv_branch update_join.
Qed.

Lemma inv_Validation snapshot nc : life_inv nc -> life_inv (reconcile_Validation snapshot nc).1.2.
Proof using CL.
  intros Hinv%inv_init. unfold reconcile_Validation, narrowed. cbv zeta.
  repeat (case_match; simplify_eq/=); inv_branch update_locations; try intros _; by own_clause.
Qed.

(** *** The pass, and the states a class can reach *)

(** The object a pass of the controller leaves, whatever the world answers. *)
Definition pass (nc : HCloudNodeClass) (w : W) : HCloudNodeClass := (run_subs nc w).1.1.2.

Lemma pass_cases (nc : HCloudNodeClass) (w : W) :
  life_inv nc -> exists nc6 w6,
    life_inv nc6 /\ pass nc w = (reconcile_Validation (catalog_view w6) nc6).1.2.
Proof using CL DL.
  intros Hinv. unfold pass, run_subs.
  pose proof (inv_Image nc w Hinv) as H1. destruct (reconcile_Image nc w) as [[r1 nc1] w1].
  pose proof (inv_Network nc1 w1 H1) as H2. destruct (reconcile_Network nc1 w1) as [[r2 nc2] w2].
  pose proof (inv_Firewalls nc2 w2 H2) as H3. destruct (reconcile_Firewalls nc2 w2) as [[r3 nc3] w3].
  pose proof (inv_SSHKeys nc3 w3 H3) as H4. destruct (reconcile_SSHKeys nc3 w3) as [[[r4 nc4] w4] ev4].
  pose proof (inv_PlacementGroup nc4 w4 H4) as H5.
  destruct (reconcile_PlacementGroup nc4 w4) as [[r5 nc5] w5].
  pose proof (inv_BootstrapDiscovery nc5 w5 H5) as H6.
  destruct (reconcile_BootstrapDiscovery nc5 w5) as [[r6 nc6] w6].
  exists nc6, w6. split; [done|]. by destruct (reconcile_Validation _ nc6) as [[r7 nc7] ev7].
Qed.

(** An edit of the spec, which the API server counts as a new revision. *)
Definition edit (nc : HCloudNodeClass) (spec : HCloudNodeClassSpec) : HCloudNodeClass :=
  {| nc_Name := nc_Name nc; nc_UID := nc_UID nc; nc_Generation := nc_Generation nc + 1;
     nc_DeletionTimestamp := nc_DeletionTimestamp nc; nc_Finalizers := nc_Finalizers nc;
     nc_Annotations := nc_Annotations nc; nc_Spec := spec; nc_Status := nc_Status nc |}.

(** Created with no condition True, edited at will, reconciled against any world
    (a pass whose write is lost leaves the state it started from), finalized. *)
Inductive life : HCloudNodeClass -> Prop :=
  | life_created nc :
      (forall t x, t <> RootCondition -> cond_get nc t = Some x -> cond_Status x <> CondTrue) -> life nc
  | life_edited nc spec : life nc -> life (edit nc spec)
  | life_finalizers nc fs : life nc -> life (set_finalizers nc fs)
  | life_passed nc w : life nc -> life (pass nc w).

(** What a True ValidationSucceeded adds. *)
Definition valid_means (nc : HCloudNodeClass) : Prop :=
  Forall (holds nc) requiredConditions /\ status_Locations (nc_Status nc) <> [] /\
  (image_architecture nc = "" \/ image_architecture nc = SupportedArchitecture).

Lemma pass_valid (nc : HCloudNodeClass) (w : W) :
  life_inv nc ->
  life_inv (pass nc w) /\ (holds (pass nc w) ConditionTypeValidationSucceeded -> valid_means (pass nc w)).
Proof using CL DL.
  intros Hinv. destruct (pass_cases nc w Hinv) as (nc6 & w6 & H6 & ->).
  split; [by apply inv_Validation|]. pose proof (validation_cases (catalog_view w6) nc6) as Hc.
  destruct (reconcile_Validation (catalog_view w6) nc6) as [[r nc'] evs]. simpl.
  destruct Hc as [[(Hreq & Ha & _ & _ & Hs) [[Hh Hl] [(c & l & Hnc) Ho]]]|[_ [[Hh _] _]]]; [|done].
  intros _. split_and!; [|congruence|by subst nc'].
  rewrite Forall_forall in Hreq |- *. intros t Ht. destruct (required_names t Ht).
  by apply Ho; [..|apply Hreq].
Qed.

Lemma edit_holds (nc : HCloudNodeClass) spec t :
  life_inv nc -> t <> RootCondition -> ~ holds (edit nc spec) t.
Proof.
  intros Hinv Ht (x & Hx & Hs & Hg). pose proof (li_observed nc Hinv t x Ht Hx Hs). simpl in Hg. lia.
Qed.

(** C12. A class that reports itself valid is resolved.  In every state a NodeClass
    can reach, through any interleaving of spec edits, passes that succeed, fail
    or half fail, and an API that changes under it, a ValidationSucceeded that is
    True for the current revision means: all six resolvers' conditions are True
    for that revision too; the image is there and its architecture not a wrong
    one; a network and a placement group are resolved exactly when the spec
    selects them, the network with a zone; every selected firewall is there; the
    endpoint is there with at least one pin, all well formed; and some location
    is in scope. *)
Theorem valid_class_is_resolved (nc : HCloudNodeClass) :
  life nc -> holds nc ConditionTypeValidationSucceeded ->
  Forall (fun t => holds nc t /\ means nc t) requiredConditions /\
  status_Locations (nc_Status nc) <> [] /\
  (image_architecture nc = "" \/ image_architecture nc = SupportedArchitecture).
Proof using CL DL.
  intros Hlife. assert (life_inv nc /\
    (holds nc ConditionTypeValidationSucceeded -> valid_means nc)) as [Hinv Hv].
  { induction Hlife as [nc Hnew|nc spec _ [IH _]|nc fs _ [[IHm IHo] IHv]|nc w _ [IH _]].
    - assert (forall t, t <> RootCondition -> ~ holds nc t) as Hno.
      { intros t Ht (x & Hx & Hs & _). by apply (Hnew t x). }
      split; [split|].
      + intros t Ht Hh. by destruct (Hno t (proj1 (required_names t Ht))).
      + intros t x Ht Hx Hs. by destruct (Hnew t x Ht Hx).
      + intros Hh. by destruct (Hno ConditionTypeValidationSucceeded).
    - split; [split|].
      + intros t Ht Hh. by destruct (edit_holds nc spec t IH (proj1 (required_names t Ht))).
      + intros t x Ht Hx Hs. pose proof (li_observed nc IH t x Ht Hx Hs). simpl. lia.
      + intros Hh. by destruct (edit_holds nc spec ConditionTypeValidationSucceeded IH).
    - split; [by split|exact IHv].
    - by apply pass_valid. }
  intros Hh. destruct (Hv Hh) as (Hreq & Hl & Ha). split; [|done].
  rewrite Forall_forall in Hreq |- *. intros t Ht. split; [by apply Hreq|].
  apply (li_means nc Hinv); [done|by apply Hreq].
Qed.
End Life.

(** ** The finalizer *)

(** The writes of a reconcile, in order. *)
Inductive nc_write :=
  | WriteMetadata (stored new : HCloudNodeClass)
  | WriteStatus (stored new : HCloudNodeClass).

Section Finalizer.
Context {W : Type} `{KC : !KubeClient W, SC : !StatusClient W, RA : !ResourceAPI W,
  DA : !DiscoveryAPI W, CV : !CatalogView W}.

Definition lifted {A} (f : W -> A * W) (wt : W * list nc_write) : A * (W * list nc_write) :=
  let '(r, w) := f wt.1 in (r, (w, wt.2)).

Definition written {A} (p : nc_write) (f : W -> A * W) (wt : W * list nc_write)
    : A * (W * list nc_write) :=
  let '(r, w) := f wt.1 in (r, (w, wt.2 ++ [p])).

#[local] Instance traced_kube : KubeClient (W * list nc_write) := {
  kube_GetNodeClass n := lifted (kube_GetNodeClass n);
  kube_ListNodeClaims := lifted kube_ListNodeClaims;
  kube_ListNodeClaimsFor c := lifted (kube_ListNodeClaimsFor c);
  kube_PatchNodeClass a b := lifted (kube_PatchNodeClass a b);
  kube_PatchNodeClaim a b := lifted (kube_PatchNodeClaim a b)
}.
#[local] Instance traced_status : StatusClient (W * list nc_write) := {
  kube_PatchStatus a b := written (WriteStatus a b) (kube_PatchStatus a b);
  kube_PatchMetadata a b := written (WriteMetadata a b) (kube_PatchMetadata a b)
}.
#[local] Instance traced_resources : ResourceAPI (W * list nc_write) := {
  res_Image n i a := lifted (res_Image n i a);
  res_Network n i := lifted (res_Network n i);
  res_Firewall n i := lifted (res_Firewall n i);
  res_SSHKey n i := lifted (res_SSHKey n i);
  res_PlacementGroup n i := lifted (res_PlacementGroup n i)
}.
#[local] Instance traced_discovery : DiscoveryAPI (W * list nc_write) := {
  disc_Refresh := lifted disc_Refresh;
  disc_Resolve eo ho wt := disc_Resolve eo ho wt.1
}.
#[local] Instance traced_catalog : CatalogView (W * list nc_write) := fun wt => catalog_view wt.1.

Lemma resolve_selectors_trace {R A} get (mk : R -> A) sels st wt :
  (resolve_selectors (fun n i => lifted (get n i)) mk sels st wt).2.2 = wt.2.
Proof.
  revert st wt. induction sels as [|sel sels IH]; intros st wt; cbn [resolve_selectors]; [done|].
  unfold lifted at 1. destruct (get _ _ wt.1) as [[x|e] w1]; [by rewrite IH|].
  destruct (configFailure e); [by rewrite IH|done].
Qed.

(** Resolving writes nothing. *)
Lemma resolver_trace (sub : HCloudNodeClass -> W * list nc_write -> reconciled) nc wt :
  sub ∈ resolvers -> (sub nc wt).2.2 = wt.2.
Proof.
  intros Hsub. unfold resolvers in Hsub. rewrite !elem_of_cons, elem_of_nil in Hsub.
  destruct Hsub as [->|[->|[->|[->|[->|[->|[]]]]]]].
  - unfold reconcile_Image, res_Image, traced_resources, lifted. cbv zeta. by repeat case_match; simplify_eq/=.
  - unfold reconcile_Network, res_Network, traced_resources, lifted. by repeat case_match; simplify_eq/=.
  - unfold reconcile_Firewalls. destruct (spec_FirewallSelectors _); [done|].
    pose proof (resolve_selectors_trace res_Firewall
      (fun fw => {| fst_ID := fw_ID fw; fst_Name := fw_Name fw |})) as Ht. unfold res_Firewall at 1.
    unfold traced_resources. specialize (Ht (s :: l) sel_start wt).
    destruct (resolve_selectors _ _ _ _ wt) as [[e|st] wt']; [done|]. by destruct (sl_missing st).
  - unfold reconcile_SSHKeys. destruct (spec_SSHKeySelectors _); [done|].
    pose proof (resolve_selectors_trace res_SSHKey
      (fun k => {| kst_ID := key_ID k; kst_Name := key_Name k; kst_Fingerprint := key_Fingerprint k |})) as Ht.
    unfold res_SSHKey at 1, traced_resources. specialize (Ht (s :: l) sel_start wt).
    destruct (resolve_selectors _ _ _ _ wt) as [[e|st] wt']; [done|].
    destruct (sl_failClosed st); [done|]. cbv zeta. by destruct (sl_missing st).
  - unfold reconcile_PlacementGroup, res_PlacementGroup, traced_resources, lifted.
    by repeat case_match; simplify_eq/=.
  - unfold reconcile_BootstrapDiscovery, disc_Refresh, traced_discovery, lifted. cbv zeta.
    by repeat case_match; simplify_eq/=.
Qed.

Lemma run_subs_frame (nc : HCloudNodeClass) (wt : W * list nc_write) :
  let '(_, nc', _, wt') := run_subs nc wt in wt'.2 = wt.2 /\ same_meta nc nc'.
Proof using CL.
  unfold run_subs.
  assert (forall sub, sub ∈ resolvers -> forall nc0 wt0, wt0.2 = wt.2 -> same_meta nc nc0 ->
    (sub nc0 wt0).2.2 = wt.2 /\ same_meta nc (sub nc0 wt0).1.2) as Hs.
  { intros sub Hin nc0 wt0 Ht [M1 M2]. rewrite resolver_trace by done. split; [done|].
    destruct (resolver_meta sub nc0 wt0 Hin) as [M3 M4]. split; congruence. }
  assert (forall P : _ -> Prop, (forall sub, sub ∈ resolvers -> P sub) ->
    P reconcile_Image /\ P reconcile_Network /\ P reconcile_Firewalls /\
    P (fun nc w => (reconcile_SSHKeys nc w).1) /\ P reconcile_PlacementGroup /\
    P reconcile_BootstrapDiscovery) as Hall.
  { intros P HP. split_and!; apply HP; unfold resolvers; rewrite !elem_of_cons; tauto. }
  destruct (Hall _ Hs) as (S1 & S2 & S3 & S4 & S5 & S6). clear Hs Hall.
  destruct (S1 nc wt) as [T1 M1]; [done..|]. destruct (reconcile_Image nc wt) as [[r1 nc1] w1].
  destruct (S2 nc1 w1) as [T2 M2]; [done..|]. destruct (reconcile_Network nc1 w1) as [[r2 nc2] w2].
  destruct (S3 nc2 w2) as [T3 M3]; [done..|]. destruct (reconcile_Firewalls nc2 w2) as [[r3 nc3] w3].
  destruct (S4 nc3 w3) as [T4 M4]; [done..|]. destruct (reconcile_SSHKeys nc3 w3) as [[[r4 nc4] w4] ev4].
  destruct (S5 nc4 w4) as [T5 M5]; [done..|]. destruct (reconcile_PlacementGroup nc4 w4) as [[r5 nc5] w5].
  destruct (S6 nc5 w5) as [T6 M6]; [done..|].
  destruct (reconcile_BootstrapDiscovery nc5 w5) as [[r6 nc6] w6].
  pose proof (validation_cases (catalog_view w6) nc6) as Hv.
  destruct (reconcile_Validation _ nc6) as [[r7 nc7] ev7]. split; [done|].
  destruct Hv as [[_ (_ & (c & l & ->) & _)]|[_ (_ & (c & l & ->) & _)]]; exact M6.
Qed.

(** A metadata write touches nothing but the termination finalizer. *)
Definition only_finalizer (stored new : HCloudNodeClass) : Prop :=
  nc_Spec new = nc_Spec stored /\ nc_Status new = nc_Status stored /\
  forall f, f <> TerminationFinalizer -> f ∈ nc_Finalizers new <-> f ∈ nc_Finalizers stored.

(** What a pass writes: nothing, or one status, on the object it was given. *)
Definition pass_writes (nc : HCloudNodeClass) (l : list nc_write) : Prop :=
  l = [] \/ exists new, l = [WriteStatus nc new] /\ same_meta nc new.

(** The writes of a reconcile of [nc] that starts in the world [w], in order. *)
Inductive life_writes (nc : HCloudNodeClass) (w : W) : list nc_write -> Prop :=
  | WritesNothing : is_deleting nc = true -> life_writes nc w []
  | WritesRelease new :
      is_deleting nc = true -> has_finalizer nc = true -> (kube_ListNodeClaimsFor nc w).1 = Ok [] ->
      only_finalizer nc new -> has_finalizer new = false ->
      life_writes nc w [WriteMetadata nc new]
  | WritesStatus l :
      is_deleting nc = false -> has_finalizer nc = true -> pass_writes nc l -> life_writes nc w l
  | WritesFinalizer new l :
      is_deleting nc = false -> has_finalizer nc = false ->
      only_finalizer nc new -> has_finalizer new = true ->
      (IgnoreNotFound (kube_PatchMetadata nc new w).1 = None -> pass_writes new l) ->
      (IgnoreNotFound (kube_PatchMetadata nc new w).1 <> None -> l = []) ->
      life_writes nc w (WriteMetadata nc new :: l).

Lemma reconcile_pass_writes (nc : HCloudNodeClass) (wt : W * list nc_write) :
  exists l, (reconcile_pass nc wt).2.2 = wt.2 ++ l /\ pass_writes nc l.
Proof using CL.
  unfold reconcile_pass. pose proof (run_subs_frame nc wt) as Hs.
  destruct (run_subs nc wt) as [[[rs nc'] evs] wt1]. destruct Hs as [Ht Hm]. rewrite <- Ht.
  case_decide as Hsame.
  { exists []. rewrite app_nil_r. split; [done|]. by left. }
  exists [WriteStatus nc nc']. unfold kube_PatchStatus, traced_status, written.
  destruct (NodeClassController.kube_PatchStatus nc nc' wt1.1) as [[e|] w2]; cbn [fst snd].
  - split; [by destruct (is_conflict e && _)|]. right. by exists nc'.
  - split; [done|]. right. by exists nc'.
Qed.

Lemma add_finalizer (nc : HCloudNodeClass) :
  has_finalizer (set_finalizers nc (nc_Finalizers nc ++ [TerminationFinalizer])) = true.
Proof. apply bool_decide_eq_true_2. simpl. rewrite elem_of_app, list_elem_of_singleton. by right. Qed.

Lemma drop_finalizer (nc : HCloudNodeClass) (fs := filter (fun f => f <> TerminationFinalizer) (nc_Finalizers nc)) :
  has_finalizer (set_finalizers nc fs) = false /\
  forall f, f <> TerminationFinalizer -> f ∈ fs <-> f ∈ nc_Finalizers nc.
Proof.
  split.
  - apply bool_decide_eq_false_2. simpl. intros H. by apply list_elem_of_filter in H as [? _].
  - intros f Hf. unfold fs. rewrite list_elem_of_filter. tauto.
Qed.

(** C14. The finalizer orders a class's life.  The first thing a reconcile of a live
    class without the finalizer does is to ask for a metadata patch that adds it;
    only when that patch succeeded, or found the object gone, does anything else
    follow, and a patch refused otherwise leaves the world right there: nothing is
    resolved, nothing more is written.  Status is written at most once, to an
    object that had the finalizer or got it by that patch, and never to one being
    deleted.  The finalizer is removed only from a class being deleted, and only
    after a list that succeeded and found no NodeClaim using it; no metadata write
    touches another finalizer or the spec.  Conversely a class being deleted that
    nothing uses is released by that very reconcile. *)
Theorem finalizer_gate (nc : HCloudNodeClass) (w : W) :
  let '(_, (w', tr)) := Reconcile nc (w, []) in
  life_writes nc w tr /\
  (is_deleting nc = false -> has_finalizer nc = false -> exists new,
     head tr = Some (WriteMetadata nc new) /\
     (IgnoreNotFound (kube_PatchMetadata nc new w).1 <> None -> w' = (kube_PatchMetadata nc new w).2)) /\
  (is_deleting nc = true -> has_finalizer nc = true -> (kube_ListNodeClaimsFor nc w).1 = Ok [] ->
   exists new, tr = [WriteMetadata nc new] /\ has_finalizer new = false).
Proof using CL.
  unfold Reconcile. destruct (is_deleting nc) eqn:Hd.
  - unfold Finalize. destruct (has_finalizer nc) eqn:Hf; simpl; [|by split; [apply WritesNothing|]].
    unfold lifted. simpl. destruct (kube_ListNodeClaimsFor nc w) as [[[|c cs]|e] w1] eqn:El; simpl;
      [|by (split; [by apply WritesNothing|]; split; congruence)..].
    destruct (drop_finalizer nc) as [D1 D2]. unfold written. simpl.
    assert (life_writes nc w [WriteMetadata nc (set_finalizers nc
      (filter (fun f => f <> TerminationFinalizer) (nc_Finalizers nc)))]) as Hw.
    { apply WritesRelease; [done|done|by rewrite El|done|done]. }
    destruct (kube_PatchMetadata nc _ w1) as [[e|] w2]; [destruct (is_conflict e)|];
      (split; [exact Hw|]; split; [done|]; by eauto).
  - destruct (has_finalizer nc) eqn:Hf.
    { destruct (reconcile_pass_writes nc (w, [])) as (l & Hl & Hp).
      destruct (reconcile_pass nc (w, [])) as [r [w' tr]]. simpl in Hl. subst tr.
      split; [by apply WritesStatus|done]. }
    pose proof (add_finalizer nc) as Ha. set (nc' := set_finalizers nc _) in *.
    assert (only_finalizer nc nc') as Hof.
    { split; [done|]. split; [done|]. intros f Hne. simpl. rewrite elem_of_app, list_elem_of_singleton. tauto. }
    unfold kube_PatchMetadata at 1, traced_status, written. cbn [fst snd app].
    destruct (NodeClassController.kube_PatchMetadata nc nc' w) as [err w1] eqn:Ep.
    destruct (reconcile_pass_writes nc' (w1, [WriteMetadata nc nc'])) as (l & Hl & Hp).
    destruct (IgnoreNotFound err) as [e|] eqn:Ei.
    + destruct err as [e'|]; [|done].
      assert (life_writes nc w [WriteMetadata nc nc']) as Hw
        by (apply WritesFinalizer; try done; rewrite Ep; cbn [fst]; rewrite Ei; done).
      destruct (is_conflict e'); (split; [exact Hw|]; split; [|done]; intros _ _; exists nc'; by rewrite Ep).
    + destruct (reconcile_pass nc' (w1, [WriteMetadata nc nc'])) as [r [w' tr]]. simpl in Hl. subst tr.
      assert (life_writes nc w (WriteMetadata nc nc' :: l)) as Hw
        by (apply WritesFinalizer; try done; rewrite Ep; cbn [fst]; rewrite Ei; done).
      destruct err; (split; [exact Hw|]; split; [|done]; intros _ _; exists nc';
        (split; [done|]); rewrite Ep; cbn [fst]; rewrite Ei; by intros []).
Qed.
End Finalizer.
End WithKube.

(** ** Witness *)

Section Witnesses.
Import KubeExample CatalogExample NodeClassExample.

(** A class created, then reconciled against a project that answers. *)
Lemma valid_class_is_resolved_witness :
  let nc := pass created true in
  holds nc ConditionTypeValidationSucceeded /\
  Forall (fun t => holds nc t /\ means nc t) requiredConditions.
Proof.
  intros nc. assert (holds nc ConditionTypeValidationSucceeded) as Hv.
  { apply is_true_holds. by vm_compute. }
  split; [exact Hv|]. apply (valid_class_is_resolved (W := bool) nc); [|exact Hv].
  apply life_passed, life_created. intros t x _ Hx. exfalso. revert Hx. unfold cond_get. simpl.
  by rewrite lookup_empty.
Defined.

(** A cluster without NodeClaims that accepts every write. *)
#[local] Instance no_claims : KubeClient bool := {|
  kube_GetNodeClass _ w := (Err (KubeStatus KubeNotFound "not found"), w);
  kube_ListNodeClaims w := (Ok [], w);
  kube_ListNodeClaimsFor _ w := (Ok [], w);
  kube_PatchNodeClass _ _ w := (None, w);
  kube_PatchNodeClaim _ _ w := (None, w)
|}.
#[local] Instance accepting : StatusClient bool := {|
  kube_PatchStatus _ _ w := (None, w);
  kube_PatchMetadata _ _ w := (None, w)
|}.

Definition deleted_class : HCloudNodeClass :=
  {| nc_Name := "default"; nc_UID := "u"; nc_Generation := 1; nc_DeletionTimestamp := Some second;
     nc_Finalizers := ["other"; TerminationFinalizer]; nc_Annotations := ∅; nc_Spec := nc_Spec created;
     nc_Status := nc_Status created |}.

Lemma finalizer_gate_witness :
  exists new, (Reconcile (KC := traced_kube) (SC := traced_status) (RA := traced_resources)
    (DA := traced_discovery) (CV := traced_catalog) deleted_class (true, [])).2.2 =
    [WriteMetadata deleted_class new] /\ has_finalizer new = false.
Proof.
  pose proof (finalizer_gate (W := bool) deleted_class true) as Hg.
  destruct (Reconcile deleted_class (true, [])) as [r [w' tr]]. apply (proj2 (proj2 Hg) eq_refl eq_refl eq_refl).
Defined.
End Witnesses.
