(* ===== verification/CatalogWake.v ===== *)
(** What wakes a NodeClass: the catalog landing, and its last NodeClaim going.

    Models the rest of [internal/controllers/nodeclass/controller.go]: the watches
    [Register] installs, [pumpRefreshSignal] and [enqueueCatalogWaiters] with its
    list.  The catalog's one-slot channel, the pump goroutine, the watch channel
    and the work queue are one machine whose steps interleave freely; the
    refreshes are those of [Catalog].  Two history counters, of the snapshots that
    landed and of those the last fan-out had seen, say what must not get lost. *)

From Stdlib Require Import Wf_nat.
From S2P Require Import Prelude GoErrors Float64 GoText Servers Discovery Kube Api Unavailable.
From S2P Require Import Resources InstanceTypes Catalog LocationScope NodeClaims KubeClient.
From S2P Require Import NodeClassStatus NodeClassController NodeClassProofs.

(** ** The state of the catalog wake-up *)

Inductive pump := PumpWaiting | PumpHolding | PumpStopped.

Record wake (W : Type) := {
  wk_catalog : catalog;
  wk_pump : pump;
  wk_events : nat;             (* received by the watch, not yet handled *)
  wk_started : bool;           (* the manager runs, the watch reads its channel *)
  wk_cancelled : bool;         (* ctx.Done is closed *)
  wk_queue : gset string;      (* the work queue, a set of requests *)
  wk_landed : nat;
  wk_seen : nat;
  wk_world : W
}.

Arguments wk_catalog {W} _.
Arguments wk_pump {W} _.
Arguments wk_events {W} _.
Arguments wk_started {W} _.
Arguments wk_cancelled {W} _.
Arguments wk_queue {W} _.
Arguments wk_landed {W} _.
Arguments wk_seen {W} _.
Arguments wk_world {W} _.

Definition wake_init {W} (w : W) : wake W :=
  {| wk_catalog := NewCatalog; wk_pump := PumpWaiting; wk_events := 0; wk_started := false;
     wk_cancelled := false; wk_queue := ∅; wk_landed := 0; wk_seen := 0; wk_world := w |}.

Section WithKube.
Context `{KB : Kube, GT : GoText, KE : KarpErrors, ET : ErrorText, PS : PrettySlice, RM : ResultMin}.

(** ** The NodeClaim watch *)

Inductive watch_event := CreateEvent | UpdateEvent | DeleteEvent | GenericEvent.

(** The predicate: deletions only. *)
Definition claim_predicate (e : watch_event) : bool :=
  match e with DeleteEvent => true | CreateEvent | UpdateEvent | GenericEvent => false end.

Section Watch.
Context {W : Type} `{KC : !KubeClient W}.

(** The requests a NodeClaim maps to. *)
Definition claim_requests (nodeClaim : NodeClaim) (w : W) : list string * W :=
  match cl_NodeClassRef nodeClaim with
  | None => ([], w)
  | Some ref =>
      if negb (ref_Group ref =? Group)%string || negb (ref_Kind ref =? "HCloudNodeClass")%string
      then ([], w)
      else match kube_GetNodeClass (ref_Name ref) w with
           | (Err _, w) => ([], w)
           | (Ok nodeClass, w) => (if is_deleting nodeClass then [ref_Name ref] else [], w)
           end
  end.

Definition on_claim_event (e : watch_event) (nodeClaim : NodeClaim) (w : W) : list string * W :=
  if claim_predicate e then claim_requests nodeClaim w else ([], w).

(** A NodeClaim event wakes a class exactly when it is a deletion, the claim
    names a class of this provider, and that class reads back as terminating:
    the finalizer is looked at as soon as it could be released and no other
    event costs a pass. *)
Theorem claim_watch_exact (e : watch_event) (nodeClaim : NodeClaim) (w : W) (name : string) :
  name ∈ (on_claim_event e nodeClaim w).1 <->
  e = DeleteEvent /\ exists ref nodeClass,
    cl_NodeClassRef nodeClaim = Some ref /\ ref_Group ref = Group /\
    ref_Kind ref = "HCloudNodeClass" /\ ref_Name ref = name /\
    (kube_GetNodeClass name w).1 = Ok nodeClass /\ is_deleting nodeClass = true.
Proof.
  unfold on_claim_event, claim_requests. split.
  - destruct e; cbn [claim_predicate]; [by intros []%elem_of_nil..| |by intros []%elem_of_nil].
    destruct (cl_NodeClassRef nodeClaim) as [ref|]; [|by intros []%elem_of_nil].
    destruct (String.eqb_spec (ref_Group ref) Group) as [Hg|]; [|by intros []%elem_of_nil].
    destruct (String.eqb_spec (ref_Kind ref) "HCloudNodeClass") as [Hk|]; [|by intros []%elem_of_nil].
    cbn [negb orb]. destruct (kube_GetNodeClass (ref_Name ref) w) as [[nc|err] w'] eqn:Eg;
      [|by intros []%elem_of_nil].
    cbn [fst]. destruct (is_deleting nc) eqn:Ed; [|by intros []%elem_of_nil].
    intros ->%list_elem_of_singleton. split; [done|]. exists ref, nc. by rewrite Eg.
  - intros (-> & ref & nc & Hr & Hg & Hk & <- & Hget & Hd). cbn [claim_predicate].
    rewrite Hr, Hg, Hk, !String.eqb_refl. cbn [negb orb].
    destruct (kube_GetNodeClass (ref_Name ref) w) as [r w']. cbn [fst] in Hget. subst r.
    rewrite Hd. by left.
Qed.
End Watch.

(** ** The catalog wake-up *)

(** [List] of every HCloudNodeClass. *)
Class ClassLister (W : Type) := kube_ListNodeClasses : W -> result (list HCloudNodeClass) * W.

Section Machine.
Context {W : Type} `{CAT : CatalogAPI W, CK : Clock W, CL : ClassLister W}.

Definition set_pump (s : wake W) (p : catalog) (u : pump) (events : nat) : wake W :=
  {| wk_catalog := p; wk_pump := u; wk_events := events; wk_started := wk_started s;
     wk_cancelled := wk_cancelled s; wk_queue := wk_queue s; wk_landed := wk_landed s;
     wk_seen := wk_seen s; wk_world := wk_world s |}.

(** The refresh loop's tick; it counts when a snapshot landed. *)
Definition do_refresh (s : wake W) : wake W :=
  let '(err, p, w) := Refresh (wk_catalog s) (wk_world s) in
  {| wk_catalog := p; wk_pump := wk_pump s; wk_events := wk_events s; wk_started := wk_started s;
     wk_cancelled := wk_cancelled s; wk_queue := wk_queue s;
     wk_landed := match err with None => S (wk_landed s) | Some _ => wk_landed s end;
     wk_seen := wk_seen s; wk_world := w |}.

(** The map function of the watch: list, and enqueue who waits.  A failed list is
    logged and enqueues nothing. *)
Definition do_handle (s : wake W) (events : nat) : wake W :=
  let '(r, w) := kube_ListNodeClasses (wk_world s) in
  {| wk_catalog := wk_catalog s; wk_pump := wk_pump s; wk_events := events;
     wk_started := wk_started s; wk_cancelled := wk_cancelled s;
     wk_queue := match r with
                 | Ok classes => list_to_set (enqueueCatalogWaiters classes) ∪ wk_queue s
                 | Err _ => wk_queue s
                 end;
     wk_landed := wk_landed s; wk_seen := wk_landed s; wk_world := w |}.

(** What moves a wake-up along. *)
Inductive pump_step : wake W -> wake W -> Prop :=
  | PumpTake s p :
      wk_pump s = PumpWaiting -> take_refreshed (wk_catalog s) = Some p ->
      pump_step s (set_pump s p PumpHolding (wk_events s))
  | PumpSend s :
      wk_pump s = PumpHolding -> wk_started s = true ->
      pump_step s (set_pump s (wk_catalog s) PumpWaiting (S (wk_events s)))
  | PumpHandle s n : wk_events s = S n -> pump_step s (do_handle s n).

(** Everything that happens: the pump, refreshes, the manager starting, the
    context ending, workers taking requests, and the world changing on its own. *)
Inductive wake_step : wake W -> wake W -> Prop :=
  | WakePump s s' : pump_step s s' -> wake_step s s'
  | WakeRefresh s : wake_step s (do_refresh s)
  | WakeStart s :
      wake_step s {| wk_catalog := wk_catalog s; wk_pump := wk_pump s; wk_events := wk_events s;
        wk_started := true; wk_cancelled := wk_cancelled s; wk_queue := wk_queue s;
        wk_landed := wk_landed s; wk_seen := wk_seen s; wk_world := wk_world s |}
  | WakeCancel s :
      wake_step s {| wk_catalog := wk_catalog s; wk_pump := wk_pump s; wk_events := wk_events s;
        wk_started := wk_started s; wk_cancelled := true; wk_queue := wk_queue s;
        wk_landed := wk_landed s; wk_seen := wk_seen s; wk_world := wk_world s |}
  | WakeStop s :
      wk_cancelled s = true -> wake_step s (set_pump s (wk_catalog s) PumpStopped (wk_events s))
  | WakeOther s queue w :
      wake_step s {| wk_catalog := wk_catalog s; wk_pump := wk_pump s; wk_events := wk_events s;
        wk_started := wk_started s; wk_cancelled := wk_cancelled s; wk_queue := queue;
        wk_landed := wk_landed s; wk_seen := wk_seen s; wk_world := w |}.

(** ** The invariant: a snapshot not yet fanned out has its signal on the way *)

Definition on_the_way (s : wake W) : Prop :=
  cat_refreshed (wk_catalog s) = true \/ wk_pump s = PumpHolding \/ (0 < wk_events s)%nat.

Record wake_inv (s : wake W) : Prop := {
  wi_order : (wk_seen s <= wk_landed s)%nat;
  wi_stopped : wk_pump s = PumpStopped -> wk_cancelled s = true;
  wi_signal : wk_cancelled s = false -> (wk_seen s < wk_landed s)%nat -> on_the_way s
}.

Lemma wake_inv_init (w : W) : wake_inv (wake_init w).
Proof. split; cbn; [lia|done|lia]. Qed.

Lemma pump_step_inv (s s' : wake W) : pump_step s s' -> wake_inv s -> wake_inv s'.
Proof.
  unfold on_the_way. destruct 1 as [s p Hp Ht|s Hp Hst|s n He]; intros [Ho Hst' Hs].
  - split; cbn; [done|done|]. by right; left.
  - split; cbn; [done|done|]. intros _ _. right; right. cbn. lia.
  - unfold do_handle. destruct (kube_ListNodeClasses (wk_world s)) as [r w]. split; cbn; [done|done|lia].
Qed.

Lemma wake_step_inv (s s' : wake W) : wake_step s s' -> wake_inv s -> wake_inv s'.
Proof.
  destruct 1 as [s s' Hp|s|s|s|s Hc|s q w]; intros Hi; [by eapply pump_step_inv| |..].
  - destruct Hi as [Ho Hst Hs]. unfold do_refresh, Refresh.
    destruct (api_ServerTypes (wk_world s)) as [[sts|err] w].
    + destruct (api_PrimaryIPv4MonthlyNet w) as [ip w']. split; cbn; [lia|done|]. by left.
    + by split.
  - destruct Hi as [Ho Hst Hs]. by split.
  - destruct Hi as [Ho Hst Hs]. by split.
  - destruct Hi as [Ho Hst Hs]. split; cbn; [done|done|congruence].
  - destruct Hi as [Ho Hst Hs]. by split.
Qed.

Lemma wake_reachable (w : W) (s : wake W) : rtc wake_step (wake_init w) s -> wake_inv s.
Proof.
  intros Hr. generalize (wake_inv_init w). induction Hr as [s|x y z Hs _ IH]; [done|].
  intros Hx. by eapply IH, wake_step_inv.
Qed.

(** Stages a signal still has to go through. *)
Definition work_left (s : wake W) : nat :=
  (if cat_refreshed (wk_catalog s) then 3 else 0) +
  match wk_pump s with PumpHolding => 2 | _ => 0 end + wk_events s.

Lemma pump_step_work (s s' : wake W) : pump_step s s' -> (work_left s' < work_left s)%nat.
Proof.
  unfold work_left. destruct 1 as [s p Hp Ht|s Hp Hst|s n He].
  - unfold take_refreshed in Ht. rewrite Hp. destruct (cat_refreshed (wk_catalog s)); [|done].
    injection Ht as <-. cbn. lia.
  - rewrite Hp. cbn. lia.
  - rewrite He. unfold do_handle. destruct (kube_ListNodeClasses (wk_world s)). cbn. lia.
Qed.

Lemma pump_stuck (s : wake W) :
  wk_started s = true -> wk_pump s <> PumpStopped -> (forall s', ~ pump_step s s') -> ~ on_the_way s.
Proof.
  intros Hst Hns Hstuck. assert (wk_events s = 0%nat) as He.
  { destruct (wk_events s) eqn:E; [done|]. by destruct (Hstuck _ (PumpHandle s _ E)). }
  assert (wk_pump s = PumpWaiting) as Hp.
  { destruct (wk_pump s) eqn:E; [done| |done]. by destruct (Hstuck _ (PumpSend s E Hst)). }
  unfold on_the_way. rewrite He, Hp. intros [Hr|[Hr|Hr]]; [|done|lia].
  eapply Hstuck. apply PumpTake; [done|]. unfold take_refreshed. by rewrite Hr.
Qed.

Lemma pump_run_flags (s s' : wake W) :
  rtc pump_step s s' -> wk_started s' = wk_started s /\ wk_cancelled s' = wk_cancelled s /\
    wk_landed s' = wk_landed s.
Proof.
  induction 1 as [s|s y z Hs _ IH]; [done|].
  cut (wk_started y = wk_started s /\ wk_cancelled y = wk_cancelled s /\ wk_landed y = wk_landed s).
  { intros (<- & <- & <-). exact IH. }
  destruct Hs as [s p Hp Ht|s Hp Hst|s n He]; [done|done|].
  unfold do_handle. by destruct (kube_ListNodeClasses (wk_world s)).
Qed.

(** C25. No wake-up is lost.  Whatever refreshes, starts and other events came
    before, and however they interleaved with the pump: as long as the manager
    has started and its context has not ended, the pump comes to rest after
    finitely many steps of its own, and when it rests every snapshot that ever
    landed has been followed by a listing of the NodeClasses for those that wait.
    If that listing fails it enqueues no one, and they wait for their requeue. *)
Theorem wakeups_settle (w : W) (s : wake W)
    (Hreach : rtc wake_step (wake_init w) s)
    (Hstarted : wk_started s = true) (Hctx : wk_cancelled s = false) :
  Acc (flip pump_step) s /\
  (forall s', rtc pump_step s s' -> (forall s'', ~ pump_step s' s'') ->
     wk_seen s' = wk_landed s' /\ wk_landed s' = wk_landed s).
Proof.
  split.
  - apply (well_founded_lt_compat _ work_left). intros a b Hab. by apply pump_step_work.
  - intros s' Hrun Hrest. destruct (pump_run_flags s s' Hrun) as (H1 & H2 & H3).
    assert (wake_inv s') as [Ho Hst Hs].
    { apply (wake_reachable w). etransitivity; [exact Hreach|].
      eapply rtc_subrel; [|exact Hrun]. intros x y. apply WakePump. }
    split; [|done]. assert (~ on_the_way s') as Hno.
    { apply pump_stuck; [congruence| |done]. intros Hp. apply Hst in Hp. congruence. }
    destruct (decide (wk_seen s' < wk_landed s')%nat) as [Hlt|]; [|lia].
    destruct Hno. apply Hs; [congruence|done].
Qed.

(** A fan-out enqueues exactly the classes that wait on the catalog: those never
    reconciled and those parked for the want of it. *)
Theorem fan_out_exact (s : wake W) (n : nat) (classes : list HCloudNodeClass) (name : string)
    (Hl : (kube_ListNodeClasses (wk_world s)).1 = Ok classes) :
  name ∈ wk_queue (do_handle s n) <->
  name ∈ wk_queue s \/ exists nc, nc ∈ classes /\ nc_Name nc = name /\ waitingOnCatalog nc = true.
Proof.
  unfold do_handle. destruct (kube_ListNodeClasses (wk_world s)) as [r w]. cbn [fst] in Hl. subst r.
  cbn [wk_queue]. unfold enqueueCatalogWaiters.
  rewrite elem_of_union, elem_of_list_to_set, list_elem_of_fmap.
  setoid_rewrite list_elem_of_filter. naive_solver.
Qed.
End Machine.

(** ** Who is parked *)

Section Parked.
Context {CL : ConditionLaws KB}.

Lemma waiting_SetCond (nc : HCloudNodeClass) (st : cond_status) (r m : string) :
  waitingOnCatalog (SetCond nc ConditionTypeValidationSucceeded st r m) =
  bool_decide (st = CondUnknown) &&
  ((r =? reasonCatalogNotFetched)%string || (r =? reasonCatalogEmpty)%string).
Proof using CL. unfold waitingOnCatalog. by rewrite cond_get_SetCond. Qed.

(** What a validation leaves parked on the catalog, and when it wants to run again. *)
Lemma validation_parks (snapshot : option Snapshot) (nc : HCloudNodeClass) :
  let '(r, nc', _) := reconcile_Validation snapshot nc in
  (waitingOnCatalog nc' = true <->
   Forall (holds nc) requiredConditions /\
   (image_architecture nc = "" \/ image_architecture nc = SupportedArchitecture) /\
   (snapshot = None \/ sc_catalogEmpty (locationScope snapshot nc) = true)) /\
  (waitingOnCatalog nc' = true -> r = Ok misconfiguredRequeue).
Proof using CL.
  unfold reconcile_Validation. cbv zeta.
  destruct (failed_conditions (StatusConditions nc)) as [|f fs] eqn:Ef; cycle 1.
  { rewrite waiting_SetCond. split; [|done]. split; [done|]. intros (Hall & _).
    apply required_hold_init, required_hold_all in Hall as [Hf _]. congruence. }
  destruct (pending_conditions (StatusConditions nc)) as [|q qs] eqn:Ep; cycle 1.
  { rewrite waiting_SetCond. split; [|done]. split; [done|]. intros (Hall & _).
    apply required_hold_init, required_hold_all in Hall as [_ Hp]. congruence. }
  pose proof (proj1 (required_hold_init nc) (all_required_hold _ Ef Ep)) as Hall.
  change (match status_Image _ with Some img => _ | None => _ end) with (image_architecture nc).
  change (locationScope snapshot (StatusConditions nc)) with (locationScope snapshot nc).
  destruct (negb (image_architecture nc =? "")%string && _) eqn:Ea.
  { rewrite waiting_SetCond. split; [|done]. split; [done|]. bool_hyps.
    intros (_ & [Hx|Hx] & _); congruence. }
  assert (image_architecture nc = "" \/ image_architecture nc = SupportedArchitecture) as Harch.
  { destruct (String.eqb_spec (image_architecture nc) ""); [by left|].
    destruct (String.eqb_spec (image_architecture nc) SupportedArchitecture); [by right|done]. }
  destruct snapshot as [s|]; [|rewrite waiting_SetCond; naive_solver].
  destruct (sc_catalogEmpty (locationScope (Some s) nc)) eqn:Ec;
    [rewrite waiting_SetCond; naive_solver|].
  assert (forall (nc' : HCloudNodeClass) (d : duration), waitingOnCatalog nc' = false ->
    (waitingOnCatalog nc' = true <-> Forall (holds nc) requiredConditions /\
      (image_architecture nc = "" \/ image_architecture nc = SupportedArchitecture) /\
      (Some s = None \/ false = true)) /\
    (waitingOnCatalog nc' = true -> Ok d = Ok misconfiguredRequeue)) as Hnot.
  { intros nc' d Hw. rewrite Hw. naive_solver. }
  destruct (sc_inScope (locationScope (Some s) nc)) as [|l ls].
  { destruct (emptyFailure _) as [reason message]. apply Hnot. by rewrite waiting_SetCond. }
  destruct (negb (excludedMessage _ =? "")%string); apply Hnot.
  - cbn [narrowed]. by rewrite waiting_SetCond.
  - unfold waitingOnCatalog.
    destruct (cond_get_SetTrue (set_locations (StatusConditions nc) (l :: ls))
      ConditionTypeValidationSucceeded) as (r & m & ->). done.
Qed.

(** Every delay a sub-reconciler asks for is one or five minutes. *)
Definition delays (r : result duration) : Prop :=
  forall d, r = Ok d -> d = resolvedRequeue \/ d = misconfiguredRequeue.

Section Passes.
Context {W : Type} `{KC : !KubeClient W, SC : !StatusClient W, RA : ResourceAPI W, DA : DiscoveryAPI W,
  CV : CatalogView W}.

Lemma resolver_delays (sub : HCloudNodeClass -> W -> reconciled) nc w :
  sub ∈ resolvers -> delays (sub nc w).1.1.
Proof.
  intros Hsub d. unfold resolvers in Hsub. rewrite !elem_of_cons, elem_of_nil in Hsub.
  destruct Hsub as [->|[->|[->|[->|[->|[->|[]]]]]]];
    unfold reconcile_Image, reconcile_Network, reconcile_Firewalls, reconcile_SSHKeys,
      reconcile_PlacementGroup, reconcile_BootstrapDiscovery, narrowed; cbv zeta;
    repeat case_match; simplify_eq/=; intros; simplify_eq; auto.
Qed.

Lemma validation_delays (snapshot : option Snapshot) (nc : HCloudNodeClass) :
  delays (reconcile_Validation snapshot nc).1.1.
Proof.
  intros d. unfold reconcile_Validation, narrowed. cbv zeta.
  repeat (case_match; simplify_eq/=); intros; simplify_eq; auto.
Qed.

(** A pass ends with the validation, on the object the resolvers left. *)
Lemma run_subs_last (nc : HCloudNodeClass) (w : W) :
  let '(rs, nc', _, w') := run_subs nc w in
  Forall delays rs /\
  exists nc6 r7 evs, r7 ∈ rs /\ reconcile_Validation (catalog_view w') nc6 = (r7, nc', evs).
Proof.
  assert (forall P : _ -> Prop, (forall sub, sub ∈ resolvers -> P sub) ->
    P reconcile_Image /\ P reconcile_Network /\ P reconcile_Firewalls /\
    P (fun nc w => (reconcile_SSHKeys nc w).1) /\ P reconcile_PlacementGroup /\
    P reconcile_BootstrapDiscovery) as Hall.
  { intros P HP. split_and!; apply HP; unfold resolvers; rewrite !elem_of_cons; tauto. }
  destruct (Hall (fun sub => forall nc w, delays (sub nc w).1.1)) as (D1 & D2 & D3 & D4 & D5 & D6);
    [intros sub Hin nc0 w0; by apply resolver_delays|]. clear Hall.
  unfold run_subs.
  specialize (D1 nc w). destruct (reconcile_Image nc w) as [[r1 nc1] w1].
  specialize (D2 nc1 w1). destruct (reconcile_Network nc1 w1) as [[r2 nc2] w2].
  specialize (D3 nc2 w2). destruct (reconcile_Firewalls nc2 w2) as [[r3 nc3] w3].
  specialize (D4 nc3 w3). cbv beta in D4. destruct (reconcile_SSHKeys nc3 w3) as [[[r4 nc4] w4] ev4].
  specialize (D5 nc4 w4). destruct (reconcile_PlacementGroup nc4 w4) as [[r5 nc5] w5].
  specialize (D6 nc5 w5). destruct (reconcile_BootstrapDiscovery nc5 w5) as [[r6 nc6] w6].
  pose proof (validation_delays (catalog_view w6) nc6) as D7.
  destruct (reconcile_Validation (catalog_view w6) nc6) as [[r7 nc7] ev7] eqn:E7.
  cbn [fst snd] in *. split; [rewrite !Forall_cons, Forall_nil; tauto|]. exists nc6, r7, ev7. split; [|done]. set_solver.
Qed.

Lemma failed_or_none (rs : list (result duration)) :
  (exists e, Err e ∈ rs) \/ Forall (fun x => x = None) (result_err <$> rs).
Proof.
  induction rs as [|[d|e] rs IH]; [by right| |left; exists e; by left].
  destruct IH as [[e He]|IH]; [left; exists e; by right|right; by constructor].
Qed.

(** [result.Min]: the soonest of the delays that ask to come back at all. *)
Definition soonest_delay : Prop := forall ds d,
  Forall (fun x => 0 <= x) ds -> d ∈ ds -> 0 < d -> 0 < result_Min ds <= d.

(** C26. A class is parked on the catalog by a validation exactly when the catalog is
    all that is missing: the six other conditions hold, the image is of a supported
    architecture, and there is no snapshot or one without any usable location.  A
    pass that leaves a class parked does not lose it, also when a fan-out missed
    it: it asks to come back after more than nothing and at most a minute, given
    that result.Min picks the soonest delay, or it ends in an error, which the
    controller retries with back-off, and then because a resolver failed or the
    status could not be written. *)
Theorem parked_exactly_for_the_catalog (Hmin : soonest_delay) :
  (forall snapshot nc, let '(_, nc', _) := reconcile_Validation snapshot nc in
     waitingOnCatalog nc' = true <->
     Forall (holds nc) requiredConditions /\
     (image_architecture nc = "" \/ image_architecture nc = SupportedArchitecture) /\
     (snapshot = None \/ sc_catalogEmpty (locationScope snapshot nc) = true)) /\
  (forall nc w, let '(rs, nc', _, w') := run_subs nc w in
     waitingOnCatalog nc' = true ->
     match (reconcile_pass nc w).1.1 with
     | Ok d => 0 < d <= minute
     | Err _ => (exists e, Err e ∈ rs) \/ exists e, (kube_PatchStatus nc nc' w').1 = Some e
     end).
Proof using CL.
  split.
  { intros snapshot nc. pose proof (validation_parks snapshot nc) as Hv.
    by destruct (reconcile_Validation snapshot nc) as [[r nc'] evs], Hv. }
  intros nc w. unfold reconcile_pass. pose proof (run_subs_last nc w) as Hr.
  destruct (run_subs nc w) as [[[rs nc'] evs] w']. intros Hw.
  destruct Hr as (Hd & nc6 & r7 & evs7 & Hin & Hval).
  pose proof (validation_parks (catalog_view w') nc6) as Hv. rewrite Hval in Hv. destruct Hv as [_ Hv].
  specialize (Hv Hw). subst r7.
  set (ds := omap (fun r => match r with Ok d => Some d | Err _ => None end) rs).
  assert (0 < result_Min ds <= minute) as Hsoon.
  { apply (Hmin ds minute); [|apply list_elem_of_omap; by eexists|done].
    apply Forall_forall. intros d Hx. apply list_elem_of_omap in Hx as ([d'|e] & Hx & E); [|done].
    injection E as ->. rewrite Forall_forall in Hd. by destruct (Hd _ Hx d eq_refl) as [-> | ->]. }
  assert (forall e, multierr_Combine (result_err <$> rs) = Some e -> exists e', Err e' ∈ rs) as Herr.
  { intros e He. destruct (failed_or_none rs) as [?|Hno]; [done|].
    apply multierr_Combine_None in Hno. congruence. }
  case_decide as Hs.
  - destruct (multierr_Combine (result_err <$> rs)) eqn:E; cbn; [left; by eapply Herr|exact Hsoon].
  - destruct (kube_PatchStatus nc nc' w') as [[e|] w2] eqn:Ep.
    + destruct (is_conflict e && _); [by cbn|]. destruct (multierr_Combine (_ ++ _)); cbn; [|exact Hsoon].
      right. by eexists.
    + destruct (multierr_Combine (result_err <$> rs)) eqn:E; cbn; [left; by eapply Herr|exact Hsoon].
Qed.
End Passes.
End Parked.
End WithKube.

(** ** Witnesses *)

Section Witnesses.
Import KubeExample CatalogExample NodeClassExample.

(** A catalog that answers, and a cluster of one class that was never
    reconciled. *)
#[local] Instance answering : CatalogAPI nat := {
  api_ServerTypes n := (Ok [cx23; cpx22], S n);
  api_PrimaryIPv4MonthlyNet n := (Ok (f_ratio 50 100), n)
}.
#[local] Instance ticking : Clock nat := fun n => Z.of_nat n * second.
#[local] Instance one_class : ClassLister nat := fun n => (Ok [created], n).

Definition start (s : wake nat) : wake nat :=
  {| wk_catalog := wk_catalog s; wk_pump := wk_pump s; wk_events := wk_events s;
     wk_started := true; wk_cancelled := wk_cancelled s; wk_queue := wk_queue s;
     wk_landed := wk_landed s; wk_seen := wk_seen s; wk_world := wk_world s |}.

(** The first snapshot lands before the manager starts. *)
Definition landed : wake nat := start (do_refresh (wake_init 0%nat)).

Definition taken := default NewCatalog (take_refreshed (wk_catalog landed)).
Definition handled : wake nat := do_handle (set_pump landed taken PumpWaiting 1) 0.

Lemma handled_run : rtc pump_step landed handled.
Proof.
  eapply rtc_l; [by apply (PumpTake landed taken)|].
  eapply rtc_l; [by apply PumpSend|].
  eapply rtc_l; [by apply PumpHandle|]. apply rtc_refl.
Qed.

Lemma handled_rests (s : wake nat) : ~ pump_step handled s.
Proof. intros Hs. remember handled as h eqn:Eh. destruct Hs as [h p _ Ht|h Hp _|h n He]; by subst h. Qed.

Lemma wakeups_settle_witness :
  wk_landed landed = 1%nat /\ wk_seen landed = 0%nat /\ wk_seen handled = wk_landed handled.
Proof.
  split; [done|]. split; [done|].
  apply (proj2 (wakeups_settle 0%nat landed
    ltac:(eapply rtc_l; [apply WakeRefresh|]; eapply rtc_l; [apply WakeStart|]; apply rtc_refl)
    eq_refl eq_refl) handled handled_run handled_rests).
Defined.

Lemma fan_out_exact_witness : nc_Name created ∈ wk_queue (do_handle landed 0).
Proof.
  apply (fan_out_exact (CL := one_class) landed 0 [created] (nc_Name created)); [reflexivity|].
  right. exists created. split; [by left|]. split; [done|]. by vm_compute.
Defined.

(** The soonest delay, and no write that fails. *)
Definition positive (ds : list duration) : list duration := filter (fun d => 0 < d) ds.
#[local] Instance soonest : ResultMin := fun ds =>
  match positive ds with [] => 0 | d :: ds => foldr Z.min d ds end.
#[local] Instance writing : StatusClient bool := {|
  kube_PatchStatus _ _ w := (None, w);
  kube_PatchMetadata _ _ w := (None, w)
|}.

Lemma soonest_law : soonest_delay (RM := soonest).
Proof.
  intros ds d _ Hin Hd. unfold result_Min, soonest.
  assert (d ∈ positive ds) as Hf by (by apply list_elem_of_filter).
  assert (Forall (fun d => 0 < d) (positive ds)) as Hp
    by (apply Forall_forall; intros x Hx; by apply list_elem_of_filter in Hx as [? _]).
  destruct (positive ds) as [|x l]; [by apply elem_of_nil in Hf|].
  apply Forall_cons in Hp as [Hx Hl]. revert d Hin Hd Hf.
  assert (0 < foldr Z.min x l /\ Forall (fun y => foldr Z.min x l <= y) (x :: l)) as [Hlo Hall].
  { induction Hl as [|y l Hy Hl IH]; cbn [foldr].
    { split; [done|]. apply Forall_singleton. lia. }
    destruct IH as [IH1 IH2]. apply Forall_cons in IH2 as [IH2 IH3]. split; [lia|].
    constructor; [lia|]. constructor; [lia|]. eapply Forall_impl; [exact IH3|]. intros z Hz. cbv beta in *. lia. }
  intros d _ _ Hin. split; [done|]. rewrite Forall_forall in Hall. by apply Hall.
Qed.

(** A class whose dependencies are resolved while no catalog has landed. *)
#[local] Instance not_fetched : CatalogView bool := fun _ => None.

Lemma parked_exactly_for_the_catalog_witness :
  let '(_, nc', _, _) := run_subs (CV := not_fetched) selecting true in
  waitingOnCatalog nc' = true /\
  exists d, (reconcile_pass (RM := soonest) (CV := not_fetched) selecting true).1.1 = Ok d /\ 0 < d <= minute.
Proof.
  destruct (parked_exactly_for_the_catalog (RM := soonest) (SC := writing) (CV := not_fetched) soonest_law)
    as [_ Hp].
  specialize (Hp selecting true).
  assert (waitingOnCatalog (run_subs (CV := not_fetched) selecting true).1.1.2 = true) as Hw by by vm_compute.
  assert (is_ok (reconcile_pass (RM := soonest) (SC := writing) (CV := not_fetched) selecting true).1.1 = true)
    as Ho by by vm_compute.
  destruct (run_subs (CV := not_fetched) selecting true) as [[[rs nc'] evs] w']. split; [exact Hw|].
  specialize (Hp Hw). destruct (reconcile_pass _ _).1.1 as [d|e]; [|done]. by exists d.
Defined.
End Witnesses.
