(* ===== verification/Drift.v ===== *)
(** Drift: whether a running server still is what its NodeClass would produce.

    Models the pure part of [internal/cloudprovider/drift.go]:
    [nodeClassHashDrift], [nodeAgeDrift], [serverDrift] and [sameSet].  A reason
    is a string, [""] meaning none; logging is left out. *)

From S2P Require Import Prelude GoErrors Float64 GoText Servers Kube Api NodeClaims.

Definition NodeClassDrift : string := "NodeClassDrift".
Definition LocationDrift : string := "LocationDrift".
Definition NetworkDrift : string := "NetworkDrift".
Definition FirewallDrift : string := "FirewallDrift".
Definition PlacementGroupDrift : string := "PlacementGroupDrift".
Definition PublicNetDrift : string := "PublicNetDrift".
Definition ImageDrift : string := "ImageDrift".
Definition NodeAgeDrift : string := "NodeAgeDrift".

(** ** Sets of ids *)

(** [slices.Sorted]. *)
Definition sort_ids (l : list Z) : list Z := stable_sort Z.ltb l.

(** [slices.Compact]: runs of equal elements become one. *)
Fixpoint compact (l : list Z) : list Z :=
  match l with
  | x :: ((y :: _) as l') => if x =? y then compact l' else x :: compact l'
  | _ => l
  end.

Definition sameSet (a b : list Z) : bool :=
  bool_decide (compact (sort_ids a) = compact (sort_ids b)).

Section WithKube.
Context `{KB : Kube}.

Definition nodeClassHashDrift (nodeClass : HCloudNodeClass) (nodeClaim : NodeClaim) : string :=
  let classVersion := map_get (nc_Annotations nodeClass) AnnotationHashVersion in
  let claimVersion := map_get (cl_Annotations nodeClaim) AnnotationHashVersion in
  if negb (classVersion =? HashVersion)%string || negb (claimVersion =? HashVersion)%string then ""
  else
    match nc_Annotations nodeClass !! AnnotationHash with
    | None => ""
    | Some classHash =>
        match cl_Annotations nodeClaim !! AnnotationHash with
        | None => ""
        | Some claimHash => if negb (classHash =? claimHash)%string then NodeClassDrift else ""
        end
    end.

Definition nodeAgeDrift (now : time) (nodeClass : HCloudNodeClass) (nodeClaim : NodeClaim)
    : string :=
  match spec_MaxNodeAge (nc_Spec nodeClass) with
  | None => ""
  | Some maxAge =>
      if time_is_zero (cl_CreationTimestamp nodeClaim) then ""
      else if maxAge <? time_sub now (cl_CreationTimestamp nodeClaim) then NodeAgeDrift
      else ""
  end.

(** The checks of [serverDrift], each [true] when it finds drift. *)
Definition location_drifted (nodeClass : HCloudNodeClass) (srv : Server) : bool :=
  let locs := status_Locations (nc_Status nodeClass) in
  match spec_Locations (nc_Spec nodeClass), locs with
  | _ :: _, _ :: _ =>
      negb (srv_Location srv =? "")%string &&
      negb (existsb (fun l => (lst_Name l =? srv_Location srv)%string) locs)
  | _, _ => false
  end.

Definition network_drifted (nodeClass : HCloudNodeClass) (srv : Server) : bool :=
  match status_Network (nc_Status nodeClass) with
  | None => match srv_NetworkIDs srv with [] => false | _ => true end
  | Some net =>
      if nst_ID net =? 0 then false
      else negb (bool_decide (nst_ID net ∈ srv_NetworkIDs srv))
  end.

Definition wanted_placement_group (nodeClass : HCloudNodeClass) : Z :=
  match status_PlacementGroup (nc_Status nodeClass) with Some pg => pst_ID pg | None => 0 end.

Definition image_drifted (nodeClass : HCloudNodeClass) (srv : Server) : bool :=
  match status_Image (nc_Status nodeClass) with
  | None => false
  | Some img =>
      negb (ist_ID img =? 0) && negb (srv_ImageID srv =? 0) && negb (ist_ID img =? srv_ImageID srv)
  end.

Definition serverDrift (nodeClass : HCloudNodeClass) (srv : Server) : string :=
  let spec := nc_Spec nodeClass in
  if location_drifted nodeClass srv then LocationDrift
  else if network_drifted nodeClass srv then NetworkDrift
  else if negb (sameSet (fst_ID <$> status_Firewalls (nc_Status nodeClass)) (srv_FirewallIDs srv))
  then FirewallDrift
  else if negb (wanted_placement_group nodeClass =? srv_PlacementGroupID srv)
  then PlacementGroupDrift
  else if negb (Bool.eqb (PublicIPv4Enabled (Some spec)) (srv_HasPublicIPv4 srv)) ||
          negb (Bool.eqb (PublicIPv6Enabled (Some spec)) (srv_HasPublicIPv6 srv))
  then PublicNetDrift
  else if (ImageDriftPolicyOrDefault (Some spec) =? ImageDriftPolicyReplace)%string &&
          image_drifted nodeClass srv
  then ImageDrift
  else "".

(** ** Lemmas: sets *)

Lemma Zltb_strict_weak : strict_weak Z.ltb (fun _ => True).
Proof. split; intros; lia. Qed.

Lemma elem_of_compact (x : Z) (l : list Z) : x ∈ compact l <-> x ∈ l.
Proof.
  induction l as [|y l IH]; [done|]. destruct l as [|z l]; [done|].
  change (compact (y :: z :: l)) with (if y =? z then compact (z :: l) else y :: compact (z :: l)).
  destruct (Z.eqb_spec y z) as [->|]; set_solver.
Qed.

Lemma compact_head (y : Z) (l : list Z) : exists r, compact (y :: l) = y :: r.
Proof.
  revert y. induction l as [|z l IH]; intros y; [by exists []|].
  change (compact (y :: z :: l)) with (if y =? z then compact (z :: l) else y :: compact (z :: l)).
  destruct (Z.eqb_spec y z) as [->|]; [apply IH|eauto].
Qed.

Lemma compact_sorted (l : list Z) : StronglySorted Z.le l -> StronglySorted Z.lt (compact l).
Proof.
  induction 1 as [|y l Hs IH Hy]; [constructor|]. destruct l as [|z l]; [repeat constructor|].
  change (compact (y :: z :: l)) with (if y =? z then compact (z :: l) else y :: compact (z :: l)).
  destruct (Z.eqb_spec y z) as [->|Hne]; [done|]. constructor; [done|].
  rewrite Forall_forall in Hy |- *. intros x Hx. rewrite elem_of_compact in Hx.
  assert (z <= x).
  { apply elem_of_cons in Hx as [->|Hx]; [lia|]. inversion Hs as [|? ? ? Hz]; subst.
    rewrite Forall_forall in Hz. by apply Hz. }
  assert (y <= z) by (apply Hy; set_solver). lia.
Qed.

Lemma sort_ids_sorted (l : list Z) : StronglySorted Z.le (sort_ids l).
Proof.
  eapply StronglySorted_weaken; cycle 1.
  - apply (stable_sort_sorted _ _ Zltb_strict_weak). by apply Forall_true.
  - intros x y. unfold not_greater. lia.
Qed.

Lemma strictly_sorted_NoDup (l : list Z) : StronglySorted Z.lt l -> NoDup l.
Proof.
  induction 1 as [|x l Hs IH Hx]; constructor; [|done].
  intros Hin. rewrite Forall_forall in Hx. specialize (Hx x Hin). lia.
Qed.

Lemma compact_sort_ext (a b : list Z) :
  (forall x, x ∈ a <-> x ∈ b) -> compact (sort_ids a) = compact (sort_ids b).
Proof.
  intros H. apply (StronglySorted_unique_strong Z.lt).
  - intros x y _ _. lia.
  - apply compact_sorted, sort_ids_sorted.
  - apply compact_sorted, sort_ids_sorted.
  - apply NoDup_Permutation.
    + apply strictly_sorted_NoDup, compact_sorted, sort_ids_sorted.
    + apply strictly_sorted_NoDup, compact_sorted, sort_ids_sorted.
    + intros x. rewrite !elem_of_compact. unfold sort_ids. by rewrite !elem_of_stable_sort.
Qed.

Lemma sameSet_iff (a b : list Z) : sameSet a b = true <-> forall x, x ∈ a <-> x ∈ b.
Proof.
  unfold sameSet. rewrite bool_decide_eq_true. split; [|apply compact_sort_ext].
  intros H x. rewrite <- (elem_of_stable_sort Z.ltb x a), <- (elem_of_stable_sort Z.ltb x b).
  rewrite <- (elem_of_compact x (stable_sort Z.ltb a)), <- (elem_of_compact x (stable_sort Z.ltb b)).
  unfold sort_ids in H. by rewrite H.
Qed.

(** ** Properties *)

(** The sort-compact-compare routine decides equality of sets: same members,
    whatever order and however often they are listed. *)
Theorem same_set_is_set_equality (a b : list Z) :
  sameSet a b = true <-> forall x, x ∈ a <-> x ∈ b.
Proof. apply sameSet_iff. Qed.

(** A server that the NodeClass describes: the contract [serverDrift] checks. *)
Record conforms (nodeClass : HCloudNodeClass) (srv : Server) : Prop := {
  conf_location : spec_Locations (nc_Spec nodeClass) <> [] ->
    status_Locations (nc_Status nodeClass) <> [] -> srv_Location srv <> "" ->
    exists l, l ∈ status_Locations (nc_Status nodeClass) /\ lst_Name l = srv_Location srv;
  conf_no_network : status_Network (nc_Status nodeClass) = None -> srv_NetworkIDs srv = [];
  conf_network : forall net, status_Network (nc_Status nodeClass) = Some net ->
    nst_ID net <> 0 -> nst_ID net ∈ srv_NetworkIDs srv;
  conf_firewalls : forall id,
    (exists fw, fw ∈ status_Firewalls (nc_Status nodeClass) /\ fst_ID fw = id) <->
    id ∈ srv_FirewallIDs srv;
  conf_placement_group : wanted_placement_group nodeClass = srv_PlacementGroupID srv;
  conf_ipv4 : PublicIPv4Enabled (Some (nc_Spec nodeClass)) = srv_HasPublicIPv4 srv;
  conf_ipv6 : PublicIPv6Enabled (Some (nc_Spec nodeClass)) = srv_HasPublicIPv6 srv;
  conf_image : ImageDriftPolicyOrDefault (Some (nc_Spec nodeClass)) = ImageDriftPolicyReplace ->
    forall img, status_Image (nc_Status nodeClass) = Some img ->
    ist_ID img <> 0 -> srv_ImageID srv <> 0 -> ist_ID img = srv_ImageID srv
}.

Lemma location_drifted_false (nodeClass : HCloudNodeClass) (srv : Server) :
  location_drifted nodeClass srv = false <->
  (spec_Locations (nc_Spec nodeClass) <> [] ->
   status_Locations (nc_Status nodeClass) <> [] -> srv_Location srv <> "" ->
   exists l, l ∈ status_Locations (nc_Status nodeClass) /\ lst_Name l = srv_Location srv).
Proof.
  unfold location_drifted. destruct (spec_Locations _) as [|s ss]; [naive_solver|].
  destruct (status_Locations _) as [|l ls]; [naive_solver|].
  destruct (String.eqb_spec (srv_Location srv) "") as [E|E]; [naive_solver|].
  cbn [negb andb]. rewrite negb_false_iff, existsb_exists. split.
  - intros (x & Hx & Hn) _ _ _. exists x. split; [by apply list_elem_of_In|by apply String.eqb_eq].
  - intros H. destruct H as (x & Hx & Hn); [done..|]. exists x.
    split; [by apply list_elem_of_In|by apply String.eqb_eq].
Qed.

Lemma network_drifted_false (nodeClass : HCloudNodeClass) (srv : Server) :
  network_drifted nodeClass srv = false <->
  (status_Network (nc_Status nodeClass) = None -> srv_NetworkIDs srv = []) /\
  (forall net, status_Network (nc_Status nodeClass) = Some net ->
     nst_ID net <> 0 -> nst_ID net ∈ srv_NetworkIDs srv).
Proof.
  unfold network_drifted. destruct (status_Network _) as [net|].
  - destruct (Z.eqb_spec (nst_ID net) 0) as [E|E]; [naive_solver|].
    rewrite negb_false_iff, bool_decide_eq_true. naive_solver.
  - destruct (srv_NetworkIDs srv); naive_solver.
Qed.

Lemma image_drifted_false (nodeClass : HCloudNodeClass) (srv : Server) :
  image_drifted nodeClass srv = false <->
  forall img, status_Image (nc_Status nodeClass) = Some img ->
    ist_ID img <> 0 -> srv_ImageID srv <> 0 -> ist_ID img = srv_ImageID srv.
Proof.
  unfold image_drifted. destruct (status_Image _) as [img|]; [|naive_solver].
  destruct (Z.eqb_spec (ist_ID img) 0), (Z.eqb_spec (srv_ImageID srv) 0),
    (Z.eqb_spec (ist_ID img) (srv_ImageID srv)); naive_solver.
Qed.

Lemma firewalls_same (nodeClass : HCloudNodeClass) (srv : Server) :
  sameSet (fst_ID <$> status_Firewalls (nc_Status nodeClass)) (srv_FirewallIDs srv) = true <->
  forall id, (exists fw, fw ∈ status_Firewalls (nc_Status nodeClass) /\ fst_ID fw = id) <->
    id ∈ srv_FirewallIDs srv.
Proof.
  rewrite sameSet_iff. split; intros H id; specialize (H id); rewrite <- H, list_elem_of_fmap; naive_solver.
Qed.

Lemma serverDrift_none (nodeClass : HCloudNodeClass) (srv : Server) :
  serverDrift nodeClass srv = "" <-> conforms nodeClass srv.
Proof.
  unfold serverDrift. split.
  - intros H. repeat (case_match; [done|]). bool_hyps.
    rewrite location_drifted_false in *. rewrite network_drifted_false in *.
    rewrite firewalls_same in *. destruct H1 as [Hn1 Hn2].
    repeat match goal with E : Bool.eqb _ _ = true |- _ => apply Bool.eqb_prop in E end.
    split; try done. intros Hp. apply String.eqb_eq in Hp.
    apply image_drifted_false. match goal with E : _ && _ = false |- _ => by rewrite Hp in E end.
  - intros [H1 H2 H3 H4 H5 H6 H7 H8].
    rewrite (proj2 (location_drifted_false _ _) H1), (proj2 (network_drifted_false _ _) (conj H2 H3)).
    rewrite (proj2 (firewalls_same _ _) H4), H5, Z.eqb_refl, H6, H7, !Bool.eqb_reflx. cbn [negb orb].
    destruct (String.eqb_spec (ImageDriftPolicyOrDefault (Some (nc_Spec nodeClass)))
      ImageDriftPolicyReplace) as [E|E]; [|done].
    by rewrite (proj2 (image_drifted_false _ _) (H8 E)).
Qed.

(** [serverDrift] reports nothing exactly when the server conforms: located
    where the operator's list says, attached to the network, the firewalls as a
    set, the placement group and the public addresses the NodeClass resolves to,
    and on its image only under the Replace policy.  Unresolved ids and catalogs
    the operator did not narrow never count. *)
Theorem server_drift_exact (nodeClass : HCloudNodeClass) (srv : Server) :
  serverDrift nodeClass srv = "" <-> conforms nodeClass srv.
Proof. apply serverDrift_none. Qed.

(** Hash drift is judged only between equals: it is reported exactly when both
    sides carry the current hash version and two different hashes. *)
Theorem hash_drift_exact (nodeClass : HCloudNodeClass) (nodeClaim : NodeClaim) :
  nodeClassHashDrift nodeClass nodeClaim <> "" <->
  nc_Annotations nodeClass !! AnnotationHashVersion = Some HashVersion /\
  cl_Annotations nodeClaim !! AnnotationHashVersion = Some HashVersion /\
  exists h h', nc_Annotations nodeClass !! AnnotationHash = Some h /\
    cl_Annotations nodeClaim !! AnnotationHash = Some h' /\ h <> h'.
Proof.
  unfold nodeClassHashDrift, map_get.
  assert (forall m : gmap string string,
    (default "" (m !! AnnotationHashVersion) =? HashVersion)%string = true <->
    m !! AnnotationHashVersion = Some HashVersion) as Hv.
  { intros m. rewrite String.eqb_eq. destruct (m !! AnnotationHashVersion); simpl; [naive_solver|]. done. }
  rewrite <- !Hv. destruct (_ =? HashVersion)%string; [|naive_solver].
  destruct (_ =? HashVersion)%string; [|naive_solver]. simpl.
  destruct (nc_Annotations nodeClass !! AnnotationHash) as [h|]; [|naive_solver].
  destruct (cl_Annotations nodeClaim !! AnnotationHash) as [h'|]; [|naive_solver].
  destruct (String.eqb_spec h h'); naive_solver.
Qed.

(** Age drift is reported exactly when the NodeClass bounds the age, the claim
    has a creation time and is older than the bound, which must lie within a
    Duration. *)
Theorem age_drift_exact (now : time) (nodeClass : HCloudNodeClass) (nodeClaim : NodeClaim)
    (Hbound : forall d, spec_MaxNodeAge (nc_Spec nodeClass) = Some d -> min_int64 <= d < max_int64) :
  nodeAgeDrift now nodeClass nodeClaim = NodeAgeDrift <->
  exists d, spec_MaxNodeAge (nc_Spec nodeClass) = Some d /\ cl_CreationTimestamp nodeClaim <> 0 /\
    d < now - cl_CreationTimestamp nodeClaim.
Proof.
  unfold nodeAgeDrift, time_is_zero. destruct (spec_MaxNodeAge _) as [d|]; [|naive_solver].
  specialize (Hbound d eq_refl).
  destruct (Z.eqb_spec (cl_CreationTimestamp nodeClaim) 0); [naive_solver|].
  unfold time_sub, min_int64, max_int64 in *.
  destruct (Z.ltb_spec d (Z.max (- 2 ^ 63) (Z.min (2 ^ 63 - 1) (now - cl_CreationTimestamp nodeClaim)))).
  - split; [|done]. intros _. exists d. repeat split; [done|lia].
  - split; [done|]. intros (d' & [= <-] & _ & Hd). lia.
Qed.
End WithKube.
