(* ===== verification/Candidates.v ===== *)
(** Which (type, location) pairs a NodeClaim may be launched on, and in which
    order.

    Models [orderedCandidates], [resourcesFit], [findInstanceType] and
    [HasCandidates] of [internal/providers/instance/instance.go].  Core's
    [InstanceType.Allocatable] is a parameter. *)

From S2P Require Import Prelude GoErrors Float64 Servers Kube Api GoText Unavailable Resources.
From S2P Require Import InstanceTypes NodeClaims.

Section WithKube.
Context `{KB : Kube}.

(** [it.Allocatable()] of karpenter core. *)
Class CoreAllocatable := it_Allocatable : InstanceType -> ResourceList.
Context `{CA : CoreAllocatable}.

Record Candidate := {
  c_InstanceType : InstanceType;
  c_Location : string;
  c_Price : float64
}.

Definition resourcesFit (nodeClaim : NodeClaim) (it : InstanceType) : bool :=
  let allocatable := it_Allocatable it in
  forallb (fun nq : string * Quantity =>
    match allocatable !! nq.1 with
    | None => false
    | Some available => match q_Cmp available nq.2 with Lt => false | _ => true end
    end) (map_to_list (cl_Requests nodeClaim)).

(** One offering of a type that passed: available, compatible with the claim,
    and in one definite region. *)
Definition offering_candidate (reqs : Requirements) (it : InstanceType) (o : Offering)
    : option Candidate :=
  if negb (of_Available o) then None
  else if negb (IsCompatible reqs (of_Requirements o)) then None
  else
    let region := ReqGet (of_Requirements o) LabelTopologyRegion in
    if negb (ReqLen region =? 1) then None
    else
      l ← head (ReqValues region);
      Some {| c_InstanceType := it; c_Location := l; c_Price := of_Price o |}.

Definition type_candidates (nodeClaim : NodeClaim) (reqs : Requirements) (it : InstanceType)
    : list Candidate :=
  if negb (Intersects (it_Requirements it) reqs) then []
  else if negb (resourcesFit nodeClaim it) then []
  else omap (offering_candidate reqs it) (it_Offerings it).

(** Cheapest first, then type name, then location. *)
Definition candidate_less (a b : Candidate) : bool :=
  if negb (SpecFloat.SFeqb (c_Price a) (c_Price b)) then SpecFloat.SFltb (c_Price a) (c_Price b)
  else if negb (it_Name (c_InstanceType a) =? it_Name (c_InstanceType b))%string
  then (it_Name (c_InstanceType a) <? it_Name (c_InstanceType b))%string
  else (c_Location a <? c_Location b)%string.

Definition candidates (nodeClaim : NodeClaim) (instanceTypes : list InstanceType) : list Candidate :=
  let reqs := NewNodeSelectorRequirements (cl_Requirements nodeClaim) in
  instanceTypes ≫= type_candidates nodeClaim reqs.

Definition orderedCandidates (nodeClaim : NodeClaim) (instanceTypes : list InstanceType)
    : list Candidate :=
  stable_sort candidate_less (candidates nodeClaim instanceTypes).

Definition HasCandidates (nodeClaim : NodeClaim) (instanceTypes : list InstanceType) : bool :=
  match orderedCandidates nodeClaim instanceTypes with [] => false | _ => true end.

Definition findInstanceType (instanceTypes : list InstanceType) (name : string)
    : option InstanceType :=
  find (fun it => (it_Name it =? name)%string) instanceTypes.

(** ** Lemmas: the order *)

Definition priced (c : Candidate) : Prop := c_Price c <> SpecFloat.S754_nan.

Definition candidate_le (a b : Candidate) : Prop :=
  let n c := it_Name (c_InstanceType c) in
  key_lt (fkey (c_Price a)) (fkey (c_Price b)) \/
  (fkey (c_Price a) = fkey (c_Price b) /\
   ((n a <> n b /\ String.le (n a) (n b)) \/ (n a = n b /\ String.le (c_Location a) (c_Location b)))).

Lemma candidate_less_le (a b : Candidate) :
  priced a -> priced b -> candidate_less b a = false <-> candidate_le a b.
Proof.
  intros Ha Hb. unfold candidate_less, candidate_le.
  pose proof (SFeqb_key (c_Price b) (c_Price a) Hb Ha) as Heq.
  pose proof (SFltb_key (c_Price b) (c_Price a) Hb Ha) as Hlt.
  destruct (fkey (c_Price a)) as [[a1 a2] a3], (fkey (c_Price b)) as [[b1 b2] b3].
  destruct (SpecFloat.SFeqb _ _); simpl.
  - destruct Heq as [Heq _]. specialize (Heq eq_refl). injection Heq as -> -> ->.
    destruct (String.eqb_spec (it_Name (c_InstanceType b)) (it_Name (c_InstanceType a))) as [E|E];
      simpl; rewrite ltb_false_le; naive_solver lia.
  - assert ((b1, b2, b3) <> (a1, a2, a3)) as Hne by (intros E; by apply Heq in E).
    simpl in Hlt. rewrite <- not_true_iff_false, Hlt. split.
    + intros Hn. left. assert (b1 <> a1 \/ b2 <> a2 \/ b3 <> a3); [|lia].
      destruct (decide (b1 = a1)), (decide (b2 = a2)), (decide (b3 = a3)); try lia. congruence.
    + intros [Hk|[Hk _]]; [lia|]. congruence.
Qed.

Lemma candidate_le_trans (a b c : Candidate) :
  candidate_le a b -> candidate_le b c -> candidate_le a c.
Proof.
  unfold candidate_le.
  destruct (fkey (c_Price a)) as [[a1 a2] a3], (fkey (c_Price b)) as [[b1 b2] b3],
    (fkey (c_Price c)) as [[c1 c2] c3]. simpl.
  intros [H1|[[= -> -> ->] H1]] [H2|[[= -> -> ->] H2]]; [left; lia..|].
  right. split; [done|].
  destruct H1 as [[Hn Hl]|[Hn Hl]], H2 as [[Hn' Hl']|[Hn' Hl']].
  - left. split; [|eauto with hcloud]. intros E. apply Hn. rewrite <- E in Hl'.
    eauto with hcloud.
  - left. split; congruence.
  - left. split; congruence.
  - right. split; [congruence|eauto with hcloud].
Qed.

Lemma candidate_le_total (a b : Candidate) : candidate_le a b \/ candidate_le b a.
Proof.
  unfold candidate_le.
  destruct (fkey (c_Price a)) as [[a1 a2] a3], (fkey (c_Price b)) as [[b1 b2] b3]. simpl.
  destruct (decide ((a1, a2, a3) = (b1, b2, b3))) as [[= -> -> ->]|Hne].
  - destruct (decide (it_Name (c_InstanceType a) = it_Name (c_InstanceType b))) as [E|E].
    + destruct (str_le_total (c_Location a) (c_Location b)); naive_solver.
    + destruct (str_le_total (it_Name (c_InstanceType a)) (it_Name (c_InstanceType b)));
        naive_solver.
  - assert (b1 <> a1 \/ b2 <> a2 \/ b3 <> a3); [|lia].
    destruct (decide (b1 = a1)), (decide (b2 = a2)), (decide (b3 = a3)); try lia. congruence.
Qed.

Lemma candidate_less_strict_weak : strict_weak candidate_less priced.
Proof.
  split.
  - intros x y Hx Hy H. rewrite candidate_less_le by done.
    destruct (candidate_le_total x y) as [|Hyx]; [done|].
    apply candidate_less_le in Hyx; [congruence|done..].
  - intros x y z Hx Hy Hz. rewrite !candidate_less_le by done. apply candidate_le_trans.
Qed.

(** Two candidates that tie in the order are the same pair at the same price. *)
Lemma candidate_le_antisym (a b : Candidate) :
  candidate_le a b -> candidate_le b a ->
  it_Name (c_InstanceType a) = it_Name (c_InstanceType b) /\ c_Location a = c_Location b.
Proof.
  unfold candidate_le.
  destruct (fkey (c_Price a)) as [[a1 a2] a3], (fkey (c_Price b)) as [[b1 b2] b3]. simpl.
  intros [H1|[[= -> -> ->] H1]] [H2|[E H2]]; try (exfalso; lia).
  { injection E as -> -> ->. exfalso; lia. }
  destruct H1 as [[Hn Hl]|[Hn Hl]], H2 as [[Hn' Hl']|[Hn' Hl']].
  - destruct Hn. eauto with hcloud.
  - congruence.
  - congruence.
  - split; [done|eauto with hcloud].
Qed.

Lemma elem_of_candidates (nodeClaim : NodeClaim) (its : list InstanceType) (c : Candidate) :
  c ∈ candidates nodeClaim its <->
  exists it o, it ∈ its /\ o ∈ it_Offerings it /\
    Intersects (it_Requirements it)
      (NewNodeSelectorRequirements (cl_Requirements nodeClaim)) = true /\
    resourcesFit nodeClaim it = true /\
    offering_candidate (NewNodeSelectorRequirements (cl_Requirements nodeClaim)) it o = Some c.
Proof.
  unfold candidates. rewrite list_elem_of_bind. unfold type_candidates. split.
  - intros (it & Hc & Hit). repeat case_match; [by apply elem_of_nil in Hc..|]. bool_hyps.
    apply list_elem_of_omap in Hc as (o & Ho & Hoc). exists it, o. done.
  - intros (it & o & Hit & Ho & Hi & Hr & Hoc). exists it. rewrite Hi, Hr. simpl.
    split; [|done]. apply list_elem_of_omap. eauto.
Qed.

Lemma offering_candidate_Some (reqs : Requirements) (it : InstanceType) (o : Offering) (c : Candidate) :
  offering_candidate reqs it o = Some c ->
  of_Available o = true /\ IsCompatible reqs (of_Requirements o) = true /\
  ReqLen (ReqGet (of_Requirements o) LabelTopologyRegion) = 1 /\
  head (ReqValues (ReqGet (of_Requirements o) LabelTopologyRegion)) = Some (c_Location c) /\
  c_InstanceType c = it /\ c_Price c = of_Price o.
Proof.
  unfold offering_candidate. intros. repeat case_match; try done. bool_hyps.
  destruct (head _) as [l|]; by simplify_eq/=.
Qed.

(** No offering is priced NaN: what the order needs of the catalog. *)
Definition prices_ordered (its : list InstanceType) : Prop :=
  Forall (fun it => Forall (fun o => of_Price o <> SpecFloat.S754_nan) (it_Offerings it)) its.

Definition prices_orderedb (its : list InstanceType) : bool :=
  forallb (fun it => forallb (fun o => negb (f_is_nan (of_Price o))) (it_Offerings it)) its.

Lemma prices_orderedb_spec (its : list InstanceType) :
  prices_orderedb its = true -> prices_ordered its.
Proof.
  unfold prices_orderedb, prices_ordered. rewrite forallb_forall. intros Hf.
  apply Forall_forall. intros it Hit%list_elem_of_In. specialize (Hf it Hit).
  rewrite forallb_forall in Hf. apply Forall_forall. intros o Ho%list_elem_of_In.
  specialize (Hf o Ho). bool_hyps. by intros E; rewrite E in Hf.
Qed.

Lemma candidates_priced (nodeClaim : NodeClaim) (its : list InstanceType) :
  prices_ordered its -> Forall priced (candidates nodeClaim its).
Proof.
  intros Hp. apply Forall_forall. intros c Hc.
  apply elem_of_candidates in Hc as (it & o & Hit & Ho & _ & _ & Hoc).
  apply offering_candidate_Some in Hoc as (_ & _ & _ & _ & _ & Hpc).
  unfold priced. rewrite Hpc. unfold prices_ordered in Hp. rewrite Forall_forall in Hp.
  specialize (Hp it Hit). rewrite Forall_forall in Hp. by apply Hp.
Qed.

Lemma orderedCandidates_le_sorted (nodeClaim : NodeClaim) (its : list InstanceType) :
  prices_ordered its -> StronglySorted candidate_le (orderedCandidates nodeClaim its).
Proof.
  intros Hp. pose proof (candidates_priced nodeClaim its Hp) as Hc.
  pose proof (stable_sort_sorted _ _ candidate_less_strict_weak _ Hc) as Hs.
  assert (Forall priced (orderedCandidates nodeClaim its)) as Hc'
    by (unfold orderedCandidates; by rewrite stable_sort_perm).
  unfold orderedCandidates in *. induction Hs as [|x l Hs IH Hx]; constructor.
  - apply IH. by inversion Hc'.
  - apply Forall_cons in Hc' as [Hpx Hpl]. rewrite Forall_forall in Hx, Hpl |- *.
    intros y Hy. apply candidate_less_le; auto. by apply Hx.
Qed.

(** ** Properties *)

(** The candidates are exactly the offerings that satisfy the claim, each with
    its own location and price: available, of a type that intersects the
    claim's requirements and holds its requests, compatible at the offering
    level, and with one definite region; ordering neither drops nor adds one. *)
Theorem ordered_candidates_exact (nodeClaim : NodeClaim) (its : list InstanceType)
    (c : Candidate) :
  orderedCandidates nodeClaim its ≡ₚ candidates nodeClaim its /\
  (c ∈ orderedCandidates nodeClaim its <->
   exists it o, it ∈ its /\ o ∈ it_Offerings it /\
    Intersects (it_Requirements it)
      (NewNodeSelectorRequirements (cl_Requirements nodeClaim)) = true /\
    resourcesFit nodeClaim it = true /\
    offering_candidate (NewNodeSelectorRequirements (cl_Requirements nodeClaim)) it o = Some c).
Proof.
  unfold orderedCandidates. split; [apply stable_sort_perm|].
  rewrite elem_of_stable_sort. apply elem_of_candidates.
Qed.

(** Cheapest first: when no offering is priced NaN, the list is sorted by
    price, then type name, then location, so no candidate is strictly cheaper
    than one tried before it. *)
Theorem ordered_candidates_sorted (nodeClaim : NodeClaim) (its : list InstanceType)
    (Hp : prices_ordered its) :
  StronglySorted (fun a b => candidate_le a b /\ SpecFloat.SFltb (c_Price b) (c_Price a) = false)
    (orderedCandidates nodeClaim its).
Proof.
  pose proof (orderedCandidates_le_sorted nodeClaim its Hp) as Hs.
  assert (Forall priced (orderedCandidates nodeClaim its)) as Hc
    by (unfold orderedCandidates; rewrite stable_sort_perm; by apply candidates_priced).
  induction Hs as [|x l Hs IH Hx]; constructor.
  - apply IH. by inversion Hc.
  - apply Forall_cons in Hc as [Hpx Hpl]. rewrite Forall_forall in Hx, Hpl |- *.
    intros y Hy. split; [by apply Hx|]. apply not_true_iff_false.
    rewrite SFltb_key by (by auto; apply Hpl). specialize (Hx y Hy). unfold candidate_le in Hx.
    destruct (fkey (c_Price x)) as [[a1 a2] a3], (fkey (c_Price y)) as [[b1 b2] b3]. simpl in *.
    destruct Hx as [Hk|[[= -> -> ->] _]]; lia.
Qed.

(** The order is settled: whatever order the catalog lists the types in, the
    same candidates come out in the same sequence, as long as no two different
    candidates share a type name and a location. *)
Theorem ordered_candidates_deterministic (nodeClaim : NodeClaim) (its1 its2 : list InstanceType)
    (Hperm : its1 ≡ₚ its2) (Hp : prices_ordered its1)
    (Huniq : forall c1 c2, c1 ∈ candidates nodeClaim its1 -> c2 ∈ candidates nodeClaim its1 ->
       it_Name (c_InstanceType c1) = it_Name (c_InstanceType c2) ->
       c_Location c1 = c_Location c2 -> c1 = c2) :
  orderedCandidates nodeClaim its1 = orderedCandidates nodeClaim its2.
Proof.
  assert (prices_ordered its2) as Hp2 by (unfold prices_ordered in *; by rewrite <- Hperm).
  assert (candidates nodeClaim its1 ≡ₚ candidates nodeClaim its2) as Hc.
  { unfold candidates. by rewrite Hperm. }
  apply (StronglySorted_unique_strong candidate_le).
  - intros x y Hx Hy Hxy Hyx. unfold orderedCandidates in Hx, Hy.
    rewrite elem_of_stable_sort in Hx, Hy. rewrite <- Hc in Hy.
    destruct (candidate_le_antisym x y Hxy Hyx) as [E1 E2]. by apply Huniq.
  - by apply orderedCandidates_le_sorted.
  - by apply orderedCandidates_le_sorted.
  - unfold orderedCandidates. by rewrite !stable_sort_perm.
Qed.
End WithKube.

Section Witnesses.
Import KubeExample CatalogExample.
#[local] Instance alloc : CoreAllocatable := fun it => Allocatable (it_Capacity it) (it_Overhead it).

Definition example_claim : NodeClaim :=
  {| cl_Name := "default-x7k2p"; cl_UID := "uid-1"; cl_Labels := {[ NodePoolLabelKey := "default" ]};
     cl_Annotations := ∅; cl_CreationTimestamp := 0;
     cl_NodeClassRef := Some {| ref_Group := Group; ref_Kind := "HCloudNodeClass"; ref_Name := "default" |};
     cl_Requirements := [(CapacityTypeLabelKey, [CapacityTypeOnDemand])];
     cl_Requests := {[ ResourceCPU := NewQuantity 1 DecimalSI ]};
     cl_Taints := []; cl_StartupTaints := []; cl_ProviderID := ""; cl_Capacity := ∅;
     cl_Allocatable := ∅; cl_RebootingAt := None; cl_Drifted := false |}.

Lemma example_prices : prices_ordered (types [] NewUnavailable).
Proof. apply prices_orderedb_spec. by vm_compute. Qed.

Lemma ordered_candidates_sorted_witness :
  StronglySorted (fun a b => candidate_le a b /\ SpecFloat.SFltb (c_Price b) (c_Price a) = false)
    (orderedCandidates example_claim (types [] NewUnavailable)) /\
  (fun c => (it_Name (c_InstanceType c), c_Location c)) <$>
    orderedCandidates example_claim (types [] NewUnavailable) =
    [("cx23", "fsn1"); ("cx23", "nbg1"); ("cpx22", "ash"); ("cpx22", "nbg1")].
Proof. split; [apply ordered_candidates_sorted, example_prices|by vm_compute]. Defined.

Lemma ordered_candidates_deterministic_witness :
  orderedCandidates example_claim (types [] NewUnavailable) =
  orderedCandidates example_claim (reverse (types [] NewUnavailable)).
Proof.
  apply ordered_candidates_deterministic; [by rewrite reverse_Permutation|apply example_prices|].
  assert (NoDup ((fun c => (it_Name (c_InstanceType c), c_Location c)) <$>
    candidates example_claim (types [] NewUnavailable))) as Hnd
    by (apply (bool_decide_unpack _); by vm_compute).
  intros c1 c2 H1 H2 E1 E2. apply list_elem_of_lookup in H1 as [i Hi], H2 as [j Hj].
  assert (i = j) as ->; [|congruence].
  eapply NoDup_lookup; [done|..]; rewrite list_lookup_fmap.
  - by rewrite Hi.
  - rewrite Hj. simpl. by rewrite E1, E2.
Defined.
End Witnesses.
