(* ===== verification/ListCache.v ===== *)
(** The shared server listing: a TTL cache in front of one collapsed upstream
    call.

    Models [listCache] of [internal/providers/instance/list.go] twice: as the
    state machine its goroutines make of it (callers, the single flight, the
    upstream, invalidation, cancellation, in any interleaving), and as the
    sequential function an undisturbed caller sees, which the instance provider
    uses and which is shown to be a run of the machine.

    Of [golang.org/x/sync/singleflight] the machine uses what it documents of
    [DoChan]: one call of a key is in flight at a time, whoever asks meanwhile
    joins it, and its result goes to everyone who joined.  The provider asks for
    one key only, its own selector.  Of the upstream call it uses that it returns
    by the deadline of its context. *)

From S2P Require Import Prelude GoErrors.

Definition DefaultListTTL : duration := 30 * second.
Definition listTimeout : duration := 60 * second.

(** ** The cache *)

Record listCache (L : Type) := {
  lc_ttl : duration;
  lc_timeout : duration;
  lc_cached : option L;
  lc_fetchedAt : time
}.
Arguments lc_ttl {L} _.
Arguments lc_timeout {L} _.
Arguments lc_cached {L} _.
Arguments lc_fetchedAt {L} _.
Arguments Build_listCache {L} _ _ _ _.

Definition newListCache {L} (ttl : duration) : listCache L :=
  {| lc_ttl := if ttl <=? 0 then DefaultListTTL else ttl; lc_timeout := listTimeout;
     lc_cached := None; lc_fetchedAt := time_zero |}.

(** The freshness test of both checks: the cached listing, if it may be served. *)
Definition fresh {L} (now : time) (c : listCache L) : option L :=
  match lc_cached c with
  | Some l => if time_sub now (lc_fetchedAt c) <? lc_ttl c then Some l else None
  | None => None
  end.

Definition store {L} (now : time) (l : L) (c : listCache L) : listCache L :=
  {| lc_ttl := lc_ttl c; lc_timeout := lc_timeout c; lc_cached := Some l; lc_fetchedAt := now |}.

Definition invalidate {L} (c : listCache L) : listCache L :=
  {| lc_ttl := lc_ttl c; lc_timeout := lc_timeout c; lc_cached := None; lc_fetchedAt := time_zero |}.

(** [list] as one undisturbed caller runs it: [upstream] is the API call on the
    world, [now] the clock. *)
Definition list_seq {L W : Type} (clock : W -> time) (upstream : W -> result L * W)
    (c : listCache L) (w : W) : result L * listCache L * W :=
  match fresh (clock w) c with
  | Some l => (Ok l, c, w)
  | None =>
      match upstream w with
      | (Err e, w') => (Err e, c, w')
      | (Ok l, w') => (Ok l, store (clock w') l c, w')
      end
  end.

(** ** The machine *)

Section Machine.
Context {L : Type}.

(** A listing with the version of the upstream it reflects. *)
Abbreviation snap := (L * nat)%type.

Inductive flight :=
  | FlightStart                       (* DoChan started, before its re-check *)
  | FlightReading (deadline : time)   (* inside servers.List, under flightCtx *)
  | FlightGot (s : snap)              (* response in hand, not stored *)
  | FlightDone (r : result snap).     (* returned, not delivered *)

Record machine := {
  m_cache : listCache snap;
  m_now : time;
  m_upstream : L;
  m_version : nat;
  m_flight : option flight;
  m_missed : list nat;      (* past their own check, before DoChan *)
  m_waiting : list nat;     (* in the select *)
  m_returned : list (nat * result snap);
  m_reads : nat             (* upstream calls that ended, well or not *)
}.

Definition set_cache (m : machine) (c : listCache snap) : machine :=
  {| m_cache := c; m_now := m_now m; m_upstream := m_upstream m; m_version := m_version m;
     m_flight := m_flight m; m_missed := m_missed m; m_waiting := m_waiting m;
     m_returned := m_returned m; m_reads := m_reads m |}.

Definition set_flight (m : machine) (f : option flight) : machine :=
  {| m_cache := m_cache m; m_now := m_now m; m_upstream := m_upstream m;
     m_version := m_version m; m_flight := f; m_missed := m_missed m; m_waiting := m_waiting m;
     m_returned := m_returned m; m_reads := m_reads m |}.

Definition set_callers (m : machine) (missed waiting : list nat) : machine :=
  {| m_cache := m_cache m; m_now := m_now m; m_upstream := m_upstream m;
     m_version := m_version m; m_flight := m_flight m; m_missed := missed; m_waiting := waiting;
     m_returned := m_returned m; m_reads := m_reads m |}.

(** The upstream call ends, and the flight goes on as [f]. *)
Definition end_read (m : machine) (f : flight) : machine :=
  {| m_cache := m_cache m; m_now := m_now m; m_upstream := m_upstream m; m_version := m_version m;
     m_flight := Some f; m_missed := m_missed m; m_waiting := m_waiting m;
     m_returned := m_returned m; m_reads := S (m_reads m) |}.

(** What can happen next.  [ECall c]: a caller enters [list] and checks the cache;
    [EJoin c]: a caller that missed reaches [DoChan]; [ERecheck], [ERead], [EFail]
    (an error, the timeout or a recovered panic), [EStore] and [EDeliver]: the
    flight's steps; [ECancel c]: a waiter's context ends; [EInvalidate]:
    [invalidate]; [EChange l]: the project's servers change; [ETick d]: time
    passes, past the deadline of the upstream call only once that has ended. *)
Inductive event :=
  | ECall (c : nat) | EJoin (c : nat) | ERecheck | ERead | EFail (e : error) | EStore | EDeliver
  | ECancel (c : nat) | EInvalidate | EChange (l : L) | ETick (d : duration).

Definition return_to (m : machine) (waiting : list nat) (out : list (nat * result snap)) : machine :=
  {| m_cache := m_cache m; m_now := m_now m; m_upstream := m_upstream m;
     m_version := m_version m; m_flight := m_flight m; m_missed := m_missed m; m_waiting := waiting;
     m_returned := m_returned m ++ out; m_reads := m_reads m |}.

(** Time may reach [t]. *)
Definition may_reach (f : option flight) (t : time) : bool :=
  match f with Some (FlightReading deadline) => t <=? deadline | _ => true end.

(** One step, or [None] when the event cannot happen in this state. *)
Definition step (m : machine) (e : event) : option machine :=
  match e with
  | ECall c =>
      match fresh (m_now m) (m_cache m) with
      | Some s => Some (return_to m (m_waiting m) [(c, Ok s)])
      | None => Some (set_callers m (m_missed m ++ [c]) (m_waiting m))
      end
  | EJoin c =>
      if bool_decide (c ∈ m_missed m) then
        let m := set_callers m (filter (fun x => x <> c) (m_missed m)) (m_waiting m ++ [c]) in
        Some match m_flight m with
             | None => set_flight m (Some FlightStart)
             | Some _ => m
             end
      else None
  | ERecheck =>
      match m_flight m with
      | Some FlightStart =>
          Some (set_flight m (Some (match fresh (m_now m) (m_cache m) with
                                    | Some s => FlightDone (Ok s)
                                    | None => FlightReading (m_now m + lc_timeout (m_cache m))
                                    end)))
      | _ => None
      end
  | ERead =>
      match m_flight m with
      | Some (FlightReading _) => Some (end_read m (FlightGot (m_upstream m, m_version m)))
      | _ => None
      end
  | EFail err =>
      match m_flight m with
      | Some (FlightReading _) => Some (end_read m (FlightDone (Err err)))
      | _ => None
      end
  | EStore =>
      match m_flight m with
      | Some (FlightGot s) =>
          Some (set_flight (set_cache m (store (m_now m) s (m_cache m))) (Some (FlightDone (Ok s))))
      | _ => None
      end
  | EDeliver =>
      match m_flight m with
      | Some (FlightDone r) =>
          Some (return_to (set_flight m None) [] ((fun c => (c, r)) <$> m_waiting m))
      | _ => None
      end
  | ECancel c =>
      if bool_decide (c ∈ m_waiting m)
      then Some (return_to m (filter (fun x => x <> c) (m_waiting m))
                   [(c, Err (Errorf "context canceled"))])
      else None
  | EInvalidate => Some (set_cache m (invalidate (m_cache m)))
  | EChange l =>
      Some {| m_cache := m_cache m; m_now := m_now m; m_upstream := l; m_version := S (m_version m);
              m_flight := m_flight m; m_missed := m_missed m; m_waiting := m_waiting m;
              m_returned := m_returned m; m_reads := m_reads m |}
  | ETick d =>
      if (d <? 0) || negb (may_reach (m_flight m) (m_now m + d)) then None
      else Some {| m_cache := m_cache m; m_now := m_now m + d; m_upstream := m_upstream m;
                   m_version := m_version m; m_flight := m_flight m; m_missed := m_missed m;
                   m_waiting := m_waiting m; m_returned := m_returned m; m_reads := m_reads m |}
  end.

Fixpoint run (m : machine) (es : list event) : option machine :=
  match es with
  | [] => Some m
  | e :: es => step m e ≫= fun m' => run m' es
  end.

Definition init (ttl : duration) (now : time) (l : L) : machine :=
  {| m_cache := newListCache ttl; m_now := now; m_upstream := l; m_version := 0;
     m_flight := None; m_missed := []; m_waiting := []; m_returned := []; m_reads := 0 |}.

(** An invariant of the machine holds along every run. *)
Lemma run_invariant (P : machine -> Prop) :
  (forall m m' e, P m -> step m e = Some m' -> P m') ->
  forall es m m', P m -> run m es = Some m' -> P m'.
Proof.
  intros Hstep es. induction es as [|e es IH]; intros m m' Hm; simpl; [naive_solver|].
  destruct (step m e) as [m1|] eqn:E; simpl; [|done]. intros Hr.
  eapply IH; [|done]. by eapply Hstep.
Qed.

(** Case analysis on a step. *)
Ltac step_cases H :=
  unfold step in H; repeat (case_match; simplify_eq/=; try done); simplify_eq/=.





(** ** Lemmas: waiters and the flight *)

(** A waiter always has a flight to wait on. *)
Definition has_flight (m : machine) : Prop := m_waiting m <> [] -> is_Some (m_flight m).

Lemma has_flight_step (m m' : machine) (e : event) :
  has_flight m -> step m e = Some m' -> has_flight m'.
Proof.
  unfold has_flight. intros Hf. destruct e; intros H; step_cases H; eauto.
  intros Hne. apply Hf. intros E. apply Hne. by rewrite E.
Qed.

Lemma has_flight_init (ttl : duration) (now : time) (l : L) : has_flight (init ttl now l).
Proof. intros H. by destruct H. Qed.

(** The steps that bring a flight home, from whichever stage it is in. *)
Definition finish (f : option flight) (stale : bool) : list event :=
  match f with
  | None => []
  | Some FlightStart => if stale then [ERecheck; ERead; EStore; EDeliver] else [ERecheck; EDeliver]
  | Some (FlightReading _) => [ERead; EStore; EDeliver]
  | Some (FlightGot _) => [EStore; EDeliver]
  | Some (FlightDone _) => [EDeliver]
  end.

Definition is_stale (m : machine) : bool :=
  match fresh (m_now m) (m_cache m) with Some _ => false | None => true end.

Lemma run_app (m : machine) (es1 es2 : list event) :
  run m (es1 ++ es2) = run m es1 ≫= fun m' => run m' es2.
Proof.
  revert m. induction es1 as [|e es1 IH]; intros m; simpl; [done|].
  destruct (step m e); simpl; [apply IH|done].
Qed.

(** ** Lemmas: what a run costs *)

Definition is_invalidate (e : event) : bool := match e with EInvalidate => true | _ => false end.
Definition is_fail (e : event) : bool := match e with EFail _ => true | _ => false end.

(** How often an event of a kind happened. *)
Definition occurs (f : event -> bool) (es : list event) : Z := Z.of_nat (length (List.filter f es)).

Lemma occurs_snoc (f : event -> bool) (es : list event) (e : event) :
  occurs f (es ++ [e]) = occurs f es + (if f e then 1 else 0).
Proof.
  unfold occurs. rewrite List.filter_app, List.length_app. simpl. destruct (f e); simpl; lia.
Qed.

(** The listings stored so far: the calls that ended, less those that failed and
    the one whose response is still in hand. *)
Definition stored (failed : Z) (m : machine) : Z :=
  Z.of_nat (m_reads m) - failed -
  match m_flight m with Some (FlightGot _) => 1 | _ => 0 end.

(** A call has been let upstream and its listing is not stored yet. *)
Definition flying (m : machine) : Prop :=
  match m_flight m with Some (FlightReading _) | Some (FlightGot _) => True | _ => False end.

(** The account of a run that began at [t0], after [inv] invalidations and
    [failed] failures: a listing in the cache was stored when so much time had
    passed, and so had it when a call was let upstream. *)
Record paid (ttl : duration) (t0 : time) (inv failed : Z) (m : machine) : Prop := {
  pd_ttl : lc_ttl (m_cache m) = ttl;
  pd_clock : t0 <= m_now m;
  pd_cached : is_Some (lc_cached (m_cache m)) ->
    (stored failed m - inv - 1) * ttl <= lc_fetchedAt (m_cache m) - t0 /\
    lc_fetchedAt (m_cache m) <= m_now m;
  pd_empty : lc_cached (m_cache m) = None -> (stored failed m - inv) * ttl <= m_now m - t0;
  pd_flying : flying m ->
    (stored failed m - inv) * ttl <= m_now m - t0
}.

(** Not fresh means empty, or a whole TTL old. *)
Lemma not_fresh (now : time) (c : listCache snap) :
  min_int64 < lc_ttl c <= max_int64 -> fresh now c = None ->
  lc_cached c = None \/ is_Some (lc_cached c) /\ lc_ttl c <= now - lc_fetchedAt c.
Proof.
  intros Hr. unfold fresh. destruct (lc_cached c) as [l|]; [|by left].
  destruct (Z.ltb_spec (time_sub now (lc_fetchedAt c)) (lc_ttl c)) as [|Hge]; [done|].
  intros _. right. split; [done|]. apply time_sub_ge; [lia..|done].
Qed.

(** A call is let upstream only when it is paid for: by a TTL or by an invalidation. *)
Lemma recheck_pays (ttl : duration) (t0 : time) (inv failed : Z) (m : machine) :
  0 < ttl <= max_int64 -> paid ttl t0 inv failed m -> fresh (m_now m) (m_cache m) = None ->
  (stored failed m - inv) * ttl <= m_now m - t0.
Proof.
  intros Ht [P1 P2 P3 P4 _] Hf.
  destruct (not_fresh (m_now m) (m_cache m)) as [Hn|[Hs Hold]];
    [rewrite P1; unfold min_int64; lia|done|by apply P4|].
  destruct (P3 Hs) as [P _]. rewrite P1 in Hold. nia.
Qed.

(** Nothing the account speaks of changed. *)
Lemma paid_frame (ttl : duration) (t0 : time) (inv failed failed' : Z) (m m' : machine) :
  paid ttl t0 inv failed m ->
  m_cache m' = m_cache m -> m_now m' = m_now m -> stored failed' m' = stored failed m ->
  (flying m' -> flying m) -> paid ttl t0 inv failed' m'.
Proof. intros [P1 P2 P3 P4 P5] Ec En Es Hf. split; rewrite ?Ec, ?En, ?Es; auto. Qed.

Lemma paid_step (ttl : duration) (t0 : time) (inv failed : Z) (m m' : machine) (e : event) :
  0 < ttl <= max_int64 -> paid ttl t0 inv failed m -> step m e = Some m' ->
  paid ttl t0 (inv + if is_invalidate e then 1 else 0) (failed + if is_fail e then 1 else 0) m'.
Proof.
  intros Ht Hp Hs. pose proof (recheck_pays ttl t0 inv failed m Ht Hp) as Hpay.
  pose proof Hp as [P1 P2 P3 P4 P5].
  destruct e as [c|c| | |err| | |c| |l|d]; cbn [is_invalidate is_fail]; rewrite ?Z.add_0_r; unfold step in Hs.
  - destruct (fresh _ _); injection Hs as <-; by eapply paid_frame.
  - case_bool_decide; [|done]. injection Hs as <-. cbn [set_callers m_flight].
    destruct (m_flight m) as [f|] eqn:Ef; eapply paid_frame; try done.
    unfold stored. cbn. by rewrite Ef.
  - destruct (m_flight m) as [[| | |]|] eqn:Ef; try done. injection Hs as <-.
    assert (forall f, match f with FlightGot _ => False | _ => True end ->
      stored failed (set_flight m (Some f)) = stored failed m) as Es
      by (intros [] Hf; unfold stored; cbn; by rewrite ?Ef).
    destruct (fresh (m_now m) (m_cache m)) as [s|] eqn:F; [eapply paid_frame; [done..|by apply Es|done]|].
    split; rewrite ?(Es (FlightReading _) I); cbn [set_flight m_cache m_now]; auto.
  - destruct (m_flight m) as [[|dl| |]|] eqn:Ef; try done. injection Hs as <-.
    eapply paid_frame; try done; [unfold stored; cbn [end_read m_reads m_flight]; rewrite Ef; lia|].
    unfold flying. by rewrite Ef.
  - destruct (m_flight m) as [[|dl| |]|] eqn:Ef; try done. injection Hs as <-.
    eapply paid_frame; try done. unfold stored. cbn [end_read m_reads m_flight]. rewrite Ef. lia.
  - destruct (m_flight m) as [[| |s|]|] eqn:Ef; try done. injection Hs as <-.
    assert ((stored failed m - inv) * ttl <= m_now m - t0) as Hq by (apply P5; unfold flying; by rewrite Ef).
    split; cbn [set_flight set_cache store m_cache m_now lc_ttl lc_fetchedAt lc_cached]; try done.
    intros _. split; [|lia]. unfold stored in *. cbn [set_flight set_cache m_reads m_flight]. rewrite Ef in Hq. lia.
  - destruct (m_flight m) as [[| | |r]|] eqn:Ef; try done. injection Hs as <-.
    eapply paid_frame; try done. unfold stored. cbn. by rewrite Ef.
  - case_bool_decide; [|done]. injection Hs as <-. by eapply paid_frame.
  - injection Hs as <-. change (stored failed (set_cache m _)) with (stored failed m).
    assert ((stored failed m - inv - 1) * ttl <= m_now m - t0) as Hq.
    { destruct (lc_cached (m_cache m)) eqn:Ec; [destruct P3; [done|lia]|specialize (P4 eq_refl); nia]. }
    split; try done; change (stored failed (set_cache m _)) with (stored failed m); cbn [set_cache m_now].
    + by intros [].
    + intros _. lia.
    + intros _. lia.
  - injection Hs as <-. by eapply paid_frame.
  - destruct ((d <? 0) || _) eqn:Ed; [done|]. injection Hs as <-. apply orb_false_iff in Ed as [Ed _].
    apply Z.ltb_ge in Ed. split; cbn [m_cache m_now]; [done|lia|..].
    + intros Hc. destruct (P3 Hc). split; [done|lia].
    + intros Hc. specialize (P4 Hc). change (stored failed _) with (stored failed m). lia.
    + intros Hf. specialize (P5 Hf). change (stored failed _) with (stored failed m). lia.
Qed.

(** ** Properties *)

(** C36. What the listing costs.  Over any run, with callers, cancellations, changes of
    the project and time passing in any order, the number of upstream calls is at
    most one, plus one for each whole TTL that passed, plus one for each
    invalidation and each call that failed: callers that missed the cache
    together share a call, and one that missed it and comes too late for the flight
    is served by the re-check instead of a call of its own.  This is given
    singleflight's contract, that one call of a key is in flight at a time, and a
    TTL that is a Go duration. *)
Theorem listing_budget (ttl : duration) (t0 : time) (l : L) (es : list event) (m : machine)
    (Httl : ttl <= max_int64) (Hrun : run (init ttl t0 l) es = Some m) :
  let period := if ttl <=? 0 then DefaultListTTL else ttl in
  (Z.of_nat (m_reads m) - 1 - occurs is_invalidate es - occurs is_fail es) * period <= m_now m - t0.
Proof.
  intros period. assert (0 < period <= max_int64) as Hp.
  { unfold period. destruct (Z.leb_spec ttl 0); [by vm_compute|lia]. }
  assert (paid period t0 (occurs is_invalidate es) (occurs is_fail es) m) as [P1 P2 P3 P4 P5].
  { revert m Hrun. induction es as [|e es IH] using rev_ind; intros m Hrun.
    - injection Hrun as <-. split; [done|apply Z.le_refl|by intros []| |done].
      intros _. unfold stored, occurs, init. cbn [m_reads m_flight m_now List.filter length Z.of_nat]. lia.
    - rewrite run_app in Hrun. destruct (run (init ttl t0 l) es) as [m1|] eqn:E1; [|done].
      cbn in Hrun. destruct (step m1 e) as [m2|] eqn:E2; [|done]. injection Hrun as <-.
      rewrite !occurs_snoc. eapply paid_step; [done|by apply IH|done]. }
  unfold stored in *.
  destruct (m_flight m) as [[| |s|]|] eqn:Ef; rewrite ?Z.sub_0_r in *.
  3: { unfold flying in P5. rewrite Ef in P5. specialize (P5 I). nia. }
  all: destruct (lc_cached (m_cache m)); [destruct P3; [done|nia]|specialize (P4 eq_refl); nia].
Qed.

(** In any state reached from the start, the flight can be
    brought home in at most four steps, after which nobody waits and everyone
    who waited has an answer. *)
Theorem waiters_are_served (ttl : duration) (now : time) (l : L) (es : list event) (m : machine)
    (Hreach : run (init ttl now l) es = Some m) :
  exists m' r,
    run m (finish (m_flight m) (is_stale m)) = Some m' /\
    m_waiting m' = [] /\
    m_returned m' = m_returned m ++ ((fun c => (c, r)) <$> m_waiting m).
Proof.
  pose proof (run_invariant has_flight has_flight_step es _ _ (has_flight_init ttl now l) Hreach) as Hf.
  unfold has_flight, finish, is_stale in *. destruct (m_flight m) as [[| |s|r]|] eqn:E; simpl.
  - destruct (fresh (m_now m) (m_cache m)) eqn:F; simpl; rewrite E; simpl; rewrite F; simpl; eauto.
  - rewrite E. simpl. eauto.
  - rewrite E. simpl. eauto.
  - rewrite E. simpl. eauto.
  - exists m, (Err (Errorf "")). destruct (m_waiting m); [|destruct Hf; done].
    by rewrite app_nil_r.
Qed.


(** The sequential [list_seq] is what the machine does for a caller nobody
    disturbs: same answer, same cache afterwards, with the upstream call taking
    [d]. *)
Theorem list_seq_refines (m : machine) (i : nat) (d : duration)
    (Hidle : m_flight m = None) (Hnone : m_waiting m = []) (Hmissed : m_missed m = [])
    (Hd : 0 <= d <= lc_timeout (m_cache m))
    (e : option error) (r : result snap) (c' : listCache snap) (t' : time)
    (Hseq : list_seq (fun t => t)
       (fun t => (match e with
                  | None => Ok (m_upstream m, m_version m)
                  | Some err => Err err
                  end, t + d))
       (m_cache m) (m_now m) = (r, c', t')) :
  exists es m', run m (ECall i :: es) = Some m' /\ m_cache m' = c' /\ m_now m' = t' /\
    m_flight m' = None /\ m_waiting m' = [] /\ m_returned m' = m_returned m ++ [(i, r)].
Proof.
  unfold list_seq in Hseq. destruct (fresh (m_now m) (m_cache m)) as [s|] eqn:F.
  { exists [], (return_to m (m_waiting m) [(i, Ok s)]). simpl. rewrite F. by simplify_eq. }
  set (m1 := set_flight (set_callers m [] [i]) (Some (FlightReading (m_now m + lc_timeout (m_cache m))))).
  assert (run m [ECall i; EJoin i; ERecheck] = Some m1) as Hstart.
  { cbn [run step]. rewrite F. cbn [mbind option_bind]. cbn [run step set_callers m_missed m_waiting m_flight].
    rewrite Hmissed, Hnone, bool_decide_true by by left. rewrite Hidle. cbn [app mbind option_bind].
    rewrite filter_cons_False by naive_solver. rewrite filter_nil.
    cbn [run step set_flight set_callers m_flight m_now m_cache mbind option_bind]. by rewrite F. }
  assert (run m1 [ETick d] = Some (set_flight {| m_cache := m_cache m; m_now := m_now m + d;
    m_upstream := m_upstream m; m_version := m_version m; m_flight := None; m_missed := [];
    m_waiting := [i]; m_returned := m_returned m; m_reads := m_reads m |}
    (Some (FlightReading (m_now m + lc_timeout (m_cache m)))))) as Htick.
  { assert ((d <? 0) = false) as Hd1 by lia.
    assert ((m_now m + d <=? m_now m + lc_timeout (m_cache m)) = true) as Hd2 by lia.
    cbn -[Z.ltb Z.leb Z.add]. by rewrite Hd1, Hd2. }
  destruct e as [err|]; simplify_eq.
  - exists [EJoin i; ERecheck; ETick d; EFail err; EDeliver].
    change (ECall i :: _) with ([ECall i; EJoin i; ERecheck] ++ [ETick d] ++ [EFail err; EDeliver]).
    rewrite run_app, Hstart. cbn [mbind option_bind]. rewrite run_app, Htick.
    eexists. split; [reflexivity|]. by split_and!.
  - exists [EJoin i; ERecheck; ETick d; ERead; EStore; EDeliver].
    change (ECall i :: _) with ([ECall i; EJoin i; ERecheck] ++ [ETick d] ++ [ERead; EStore; EDeliver]).
    rewrite run_app, Hstart. cbn [mbind option_bind]. rewrite run_app, Htick.
    eexists. split; [reflexivity|]. by split_and!.
Qed.
End Machine.

(** A flight that straddles an invalidation writes back what it read before it:
    the next caller is served a listing older than the invalidation, from the
    cache, with no upstream read in between. *)
Theorem stale_listing_survives_invalidate :
  exists (es1 es2 : list (@event (list string))) m1 m2,
    run (init DefaultListTTL 1 []) es1 = Some m1 /\
    run m1 (EInvalidate :: es2 ++ [ECall 2]) = Some m2 /\
    m_upstream m1 = ["node-1"] /\ m_version m1 = 1%nat /\
    m_reads m2 = m_reads m1 /\
    last (m_returned m2) = Some (2%nat, Ok ([], 0%nat)).
Proof.
  eexists [ECall 1; EJoin 1; ERecheck; ERead; EChange ["node-1"]], [EStore; EDeliver], _, _.
  by vm_compute.
Qed.

(** Two callers miss the cold cache; the second reaches the group after the first's
    flight has ended: one call. *)
Definition late_joiner : list (@event (list string)) :=
  [ECall 1; ECall 2; EJoin 1; ERecheck; ERead; EStore; EDeliver; EJoin 2; ERecheck; EDeliver].
Definition late_joined : @machine (list string) :=
  default (init DefaultListTTL 1 ["a"]) (run (init DefaultListTTL 1 ["a"]) late_joiner).

Lemma listing_budget_witness :
  m_returned late_joined = [(1%nat, Ok (["a"], 0%nat)); (2%nat, Ok (["a"], 0%nat))] /\
  m_reads late_joined = 1%nat /\
  (Z.of_nat (m_reads late_joined) - 1 - occurs is_invalidate late_joiner - occurs is_fail late_joiner) *
    (if DefaultListTTL <=? 0 then DefaultListTTL else DefaultListTTL) <= m_now late_joined - 1.
Proof.
  split; [by vm_compute|]. split; [by vm_compute|].
  assert (run (init DefaultListTTL 1 ["a"]) late_joiner = Some late_joined) as Hr by by vm_compute.
  assert (DefaultListTTL <= max_int64) as Ht by by vm_compute.
  exact (listing_budget DefaultListTTL 1 ["a"] late_joiner late_joined Ht Hr).
Defined.

Lemma waiters_are_served_witness :
  exists m' r,
    run (default (init 0 0 ["a"]) (run (init DefaultListTTL 1 ["a"]) [ECall 1; EJoin 1; ERecheck]))
      [ERead; EStore; EDeliver] = Some m' /\
    m_waiting m' = [] /\ m_returned m' = (fun c => (c, r)) <$> [1%nat].
Proof.
  apply (waiters_are_served DefaultListTTL 1 ["a"] [ECall 1; EJoin 1; ERecheck]
    (default (init 0 0 ["a"]) (run (init DefaultListTTL 1 ["a"]) [ECall 1; EJoin 1; ERecheck]))).
  by vm_compute.
Defined.


Lemma list_seq_refines_witness :
  exists es m', run (init DefaultListTTL 1 ["a"]) (ECall 5 :: es) = Some m' /\
    m_cache m' = store 3 (["a"], 0%nat) (newListCache DefaultListTTL) /\ m_now m' = 3 /\
    m_flight m' = None /\ m_waiting m' = [] /\
    m_returned m' = [(5%nat, Ok (["a"], 0%nat))].
Proof.
  apply (list_seq_refines (init DefaultListTTL 1 ["a"]) 5 2 eq_refl eq_refl eq_refl
    ltac:(by vm_compute) None
    (Ok (["a"], 0%nat)) (store 3 (["a"], 0%nat) (newListCache DefaultListTTL)) 3).
  by vm_compute.
Defined.
