(* ===== verification/Sim.v ===== *)
(** A small concrete Hetzner project, on which the witnesses evaluate.

    It is not a model of any code of the repository: it instantiates the server
    API with a map of servers, a stock of (type, location) pairs that are sold
    out and a log of actions, so that hypotheses about API answers can be shown
    to hold on a concrete run. *)

From S2P Require Import Prelude GoErrors Float64 GoText Servers.

Record sim := {
  sim_servers : gmap Z Server;
  sim_next : Z;
  sim_now : time;
  sim_sold_out : list (string * string);
  sim_actions : gmap Z (list Action)
}.

Definition sim_tick (w : sim) : sim :=
  {| sim_servers := sim_servers w; sim_next := sim_next w; sim_now := sim_now w + second;
     sim_sold_out := sim_sold_out w; sim_actions := sim_actions w |}.

Definition sim_set (w : sim) (servers : gmap Z Server) (next : Z) : sim :=
  {| sim_servers := servers; sim_next := next; sim_now := sim_now w + second;
     sim_sold_out := sim_sold_out w; sim_actions := sim_actions w |}.

Definition sim_by_name (w : sim) (name : string) : option Server :=
  find (fun s => (srv_Name s =? name)%string) (map_to_list (sim_servers w)).*2.

Definition sim_create (r : CreateServerRequest) (w : sim) : result Server * sim :=
  match sim_by_name w (req_Name r) with
  | Some _ => (Err (HcloudError CodeUniqueness "server name is already used" None), sim_tick w)
  | None =>
      if bool_decide ((req_ServerType r, req_Location r) ∈ sim_sold_out w)
      then (Err (HcloudError CodeResourceUnavailable "unavailable" None), sim_tick w)
      else
        let s := {| srv_ID := sim_next w; srv_Name := req_Name r;
                    srv_ServerType := req_ServerType r; srv_Location := req_Location r;
                    srv_Status := "running"; srv_Labels := req_Labels r;
                    srv_ImageID := req_ImageID r; srv_Created := sim_now w;
                    srv_PrivateIPv4 := ""; srv_PublicIPv4 := "";
                    srv_NetworkIDs := req_NetworkIDs r; srv_FirewallIDs := req_FirewallIDs r;
                    srv_PlacementGroupID := default 0 (req_PlacementGroupID r);
                    srv_HasPublicIPv4 := req_PublicIPv4 r; srv_HasPublicIPv6 := req_PublicIPv6 r |} in
        (Ok s, sim_set w (<[ sim_next w := s ]> (sim_servers w)) (sim_next w + 1))
  end.

Definition sim_reset (id : Z) (w : sim) : option error * sim :=
  (None, {| sim_servers := sim_servers w; sim_next := sim_next w; sim_now := sim_now w + second;
            sim_sold_out := sim_sold_out w;
            sim_actions := <[ id := {| act_Command := "reset_server"; act_Status := "success";
                                       act_Started := sim_now w |}
                                     :: default [] (sim_actions w !! id) ]> (sim_actions w) |}).

#[export] Instance sim_api : Servers sim := {
  api_Create := sim_create;
  api_Delete id w := (None, sim_set w (delete id (sim_servers w)) (sim_next w));
  api_Get id w := (Ok (sim_servers w !! id), sim_tick w);
  api_GetByName name w := (Ok (sim_by_name w name), sim_tick w);
  api_List _ w := (Ok (Some <$> (map_to_list (sim_servers w)).*2), sim_tick w);
  api_Reset := sim_reset;
  api_RecentActions id w := (Ok (default [] (sim_actions w !! id)), sim_tick w)
}.

#[export] Instance sim_clock : Clock sim := sim_now.

(** A project where the cheapest pair is sold out, holding one server of the
    cluster [prod], which was reset at second 5, and one foreign server. *)
Definition foreign_server : Server :=
  {| srv_ID := 1; srv_Name := "control-plane-1"; srv_ServerType := "cx23"; srv_Location := "nbg1";
     srv_Status := "running"; srv_Labels := {[ "role" := "control-plane" ]};
     srv_ImageID := 9; srv_Created := 0; srv_PrivateIPv4 := "10.0.0.2"; srv_PublicIPv4 := "";
     srv_NetworkIDs := [7]; srv_FirewallIDs := []; srv_PlacementGroupID := 0;
     srv_HasPublicIPv4 := false; srv_HasPublicIPv6 := false |}.

Definition project : sim :=
  {| sim_servers := {[ 4711 := example_server; 1 := foreign_server ]};
     sim_next := 5000; sim_now := 10 * second;
     sim_sold_out := [("cx23", "fsn1")];
     sim_actions := {[ 4711 := [{| act_Command := "reset_server"; act_Status := "success";
                                   act_Started := 5 * second |}] ]} |}.

(** The same project before any server of the cluster exists. *)
Definition empty_project : sim :=
  {| sim_servers := {[ 1 := foreign_server ]}; sim_next := 5000; sim_now := 10 * second;
     sim_sold_out := [("cx23", "fsn1")]; sim_actions := ∅ |}.
