(* ===== verification/Instance.v ===== *)
(** The instance provider: servers created, adopted, listed, read, deleted and
    reset on behalf of NodeClaims.

    Models [internal/providers/instance/instance.go] ([Create], [adopt]),
    [request.go] ([baseRequest]), the provider methods of [list.go] ([List],
    [Get], [Delete]) and [reboot.go] ([Reboot], [rebootError]).  An operation is
    a function on the provider's state: the world behind the server API, the
    suppression cache, the listing cache and the metrics written.  Other actors
    change the world inside API calls; two operations of one provider interleave
    only through the listing cache, whose concurrency is in [ListCache]. *)

From S2P Require Import Prelude GoErrors Float64 GoText Servers Kube Api Unavailable Resources.
From S2P Require Import InstanceTypes NodeClaims Candidates ListCache.

Definition DefaultMaxCreateAttempts : nat := 8.

(** ** State *)

(** What an operation writes to the metrics of [internal/metrics]. *)
Inductive metric :=
  | LaunchDuration (serverType location outcome : string) (d : duration)
  | LaunchFailures (serverType location class : string)
  | UnknownErrorCodes (code : error_code)
  | OfferingUnavailable (serverType location : string) (code : error_code).

(** The fields [NewProvider] fixes; the rest of the Go struct is state. *)
Record Provider := { p_clusterName : string; p_maxAttempts : nat }.

Definition NewProvider (clusterName : string) : Provider :=
  {| p_clusterName := clusterName; p_maxAttempts := DefaultMaxCreateAttempts |}.

Record PState (W : Type) := {
  ps_world : W;
  ps_unavailable : Unavailable;
  ps_cache : listCache (list (option Server));
  ps_metrics : list metric
}.
Arguments ps_world {W} _.
Arguments ps_unavailable {W} _.
Arguments ps_cache {W} _.
Arguments ps_metrics {W} _.
Arguments Build_PState {W} _ _ _ _.

Definition init_state {W} (w : W) : PState W :=
  {| ps_world := w; ps_unavailable := NewUnavailable; ps_cache := newListCache DefaultListTTL;
     ps_metrics := [] |}.

(** ** The state monad of the provider's operations *)

Definition IO (W A : Type) : Type := PState W -> A * PState W.

Definition io_ret {W A} (a : A) : IO W A := fun st => (a, st).
Definition io_bind {W A B} (m : IO W A) (k : A -> IO W B) : IO W B :=
  fun st => let '(a, st') := m st in k a st'.

Notation "'do' x <- m ';' k" := (io_bind m (fun x => k))
  (at level 10, x pattern, m at level 100, k at level 200) : go_scope.
Notation "'do_' m ';' k" := (io_bind m (fun _ => k))
  (at level 10, m at level 100, k at level 200) : go_scope.
#[local] Open Scope go_scope.

Section State.
Context {W : Type} `{CK : Clock W}.

(** An API call on the world. *)
Definition call_api {A} (f : W -> A * W) : IO W A := fun st =>
  let '(a, w) := f (ps_world st) in
  (a, {| ps_world := w; ps_unavailable := ps_unavailable st; ps_cache := ps_cache st;
         ps_metrics := ps_metrics st |}).

Definition now : IO W time := fun st => (world_now (ps_world st), st).

Definition emit (m : metric) : IO W unit := fun st =>
  (tt, {| ps_world := ps_world st; ps_unavailable := ps_unavailable st; ps_cache := ps_cache st;
          ps_metrics := ps_metrics st ++ [m] |}).

Definition mark_unavailable (serverType location : string) (code : error_code) : IO W unit :=
  fun st =>
  (tt, {| ps_world := ps_world st;
          ps_unavailable := Mark (world_now (ps_world st)) (ps_unavailable st)
                              serverType location code;
          ps_cache := ps_cache st; ps_metrics := ps_metrics st |}).

Definition invalidate_cache : IO W unit := fun st =>
  (tt, {| ps_world := ps_world st; ps_unavailable := ps_unavailable st;
          ps_cache := invalidate (ps_cache st); ps_metrics := ps_metrics st |}).

(** [metrics.LaunchDuration...Observe(time.Since(started).Seconds())]. *)
Definition observe (serverType location outcome : string) (started : time) : IO W unit :=
  do t <- now; emit (LaunchDuration serverType location outcome (time_sub t started)).
End State.

(** ** Errors *)

Definition errNoClusterName : error :=
  Errorf "cluster name is empty, refusing to act on unowned servers".

Definition errNotManaged (s : Server) : error := NotManagedError (srv_Name s) (srv_ID s).

Section WithKube.
Context `{KB : Kube, CA : !CoreAllocatable, GT : GoText, KE : KarpErrors, ET : ErrorText}.
Context {W : Type} `{SV : Servers W, CK : Clock W}.

(** ** Creating *)

(** The labels the provider itself puts on a server: ownership, and the pool
    when there is one. *)
Definition own_labels (p : Provider) (nodeClaim : NodeClaim) : gmap string string :=
  let owned : gmap string string :=
    <[ LabelNodeClaim := cl_Name nodeClaim ]> {[ LabelManagedBy := p_clusterName p ]} in
  let pool := map_get (cl_Labels nodeClaim) NodePoolLabelKey in
  if (pool =? "")%string then owned else <[ LabelNodePool := pool ]> owned.

(** The labels of a request: the provider's own, then the operator's, none of
    which may be one of the two ownership labels. *)
Definition request_labels (p : Provider) (nodeClass : HCloudNodeClass) (nodeClaim : NodeClaim)
    : gmap string string :=
  map_fold (fun k v labels =>
    if (k =? LabelManagedBy)%string || (k =? LabelNodeClaim)%string then labels
    else <[ k := v ]> labels)
    (own_labels p nodeClaim) (spec_ServerLabels (nc_Spec nodeClass)).

(** Everything about a create that does not depend on the candidate; type and
    location are filled in per attempt. *)
Definition baseRequest (p : Provider) (nodeClass : HCloudNodeClass) (nodeClaim : NodeClaim)
    (userData : string) : result CreateServerRequest :=
  let status := nc_Status nodeClass in
  let no_image := Err (Errorf ("nodeClass " +:+ Quote (nc_Name nodeClass) +:+
                               " has no resolved image")) in
  match status_Image status with
  | None => no_image
  | Some image =>
      if ist_ID image =? 0 then no_image
      else if (p_clusterName p =? "")%string
      then Err (Errorf "cluster name is empty, refusing to create an unowned server")
      else Ok {|
        req_Name := cl_Name nodeClaim;
        req_ServerType := "";
        req_Location := "";
        req_ImageID := ist_ID image;
        req_SSHKeyIDs := kst_ID <$> status_SSHKeys status;
        req_NetworkIDs :=
          match status_Network status with
          | Some net => if nst_ID net =? 0 then [] else [nst_ID net]
          | None => []
          end;
        req_FirewallIDs := fst_ID <$> status_Firewalls status;
        req_PlacementGroupID :=
          match status_PlacementGroup status with
          | Some pg => if pst_ID pg =? 0 then None else Some (pst_ID pg)
          | None => None
          end;
        req_UserData := userData;
        req_Labels := request_labels p nodeClass nodeClaim;
        req_PublicIPv4 := PublicIPv4Enabled (Some (nc_Spec nodeClass));
        req_PublicIPv6 := PublicIPv6Enabled (Some (nc_Spec nodeClass)) |}
  end.

(** [adopt]: the server of that name, if it carries both of our labels. *)
Definition adopt (p : Provider) (name : string) (nodeClaim : NodeClaim) : IO W (result Server) :=
  do r <- call_api (api_GetByName name);
  io_ret
    match r with
    | Err e => Err e
    | Ok None => Err (Errorf ("server " +:+ Quote name +:+ " reported as duplicate but not found"))
    | Ok (Some srv) =>
        if negb (IsManagedBy (Some srv) (p_clusterName p)) ||
           negb (map_get (srv_Labels srv) LabelNodeClaim =? cl_Name nodeClaim)%string
        then Err (Errorf ("server " +:+ Quote name +:+ " exists but is not ours to adopt"))
        else Ok srv
    end.

(** The request with the candidate's type and location. *)
Definition for_candidate (r : CreateServerRequest) (c : Candidate) : CreateServerRequest :=
  {| req_Name := req_Name r; req_ServerType := it_Name (c_InstanceType c);
     req_Location := c_Location c; req_ImageID := req_ImageID r;
     req_SSHKeyIDs := req_SSHKeyIDs r; req_NetworkIDs := req_NetworkIDs r;
     req_FirewallIDs := req_FirewallIDs r; req_PlacementGroupID := req_PlacementGroupID r;
     req_UserData := req_UserData r; req_Labels := req_Labels r;
     req_PublicIPv4 := req_PublicIPv4 r; req_PublicIPv6 := req_PublicIPv6 r |}.

(** What [Create] returns: the server and, when known, its instance type. *)
Definition created : Type := result (Server * option InstanceType).

(** A request the API refused for what it says: adopt on a duplicate name,
    otherwise fail the NodeClaim. *)
Definition config_failure (p : Provider) (nodeClaim : NodeClaim) (instanceTypes : list InstanceType)
    (started : time) (r : CreateServerRequest) (err : error) : IO W created :=
  let failed :=
    do_ observe (req_ServerType r) (req_Location r) "failed" started;
    io_ret (Err (KarpError (CreateError "CreateFailed" (error_text err)) err)) in
  if decide (code_or_empty (Some err) = CodeUniqueness) then
    do adopted <- adopt p (req_Name r) nodeClaim;
    match adopted with
    | Err _ => failed
    | Ok srv =>
        do_ invalidate_cache;
        do_ observe (srv_ServerType srv) (srv_Location srv) "adopted" started;
        io_ret (Ok (srv, findInstanceType instanceTypes (srv_ServerType srv)))
    end
  else failed.

(** One iteration of the create loop: [inl err] falls through to the next
    candidate, [inr] returns. *)
Definition create_attempt (p : Provider) (nodeClaim : NodeClaim)
    (instanceTypes : list InstanceType) (started : time) (base : CreateServerRequest)
    (c : Candidate) : IO W (error + created) :=
  let r := for_candidate base c in
  let st := it_Name (c_InstanceType c) in
  let l := c_Location c in
  do out <- call_api (api_Create r);
  match out with
  | Ok srv =>
      do_ observe st l "succeeded" started;
      do_ invalidate_cache;
      io_ret (inr (Ok (srv, Some (c_InstanceType c))))
  | Err err =>
      let class := Classify (Some err) in
      let code := code_or_empty (Some err) in
      do_ emit (LaunchFailures st l (class_string class));
      do_ (if negb (bool_decide (code = no_code)) && negb (IsKnownCode (Some err))
           then emit (UnknownErrorCodes code) else io_ret tt);
      match class with
      | ClassCapacity =>
          do_ mark_unavailable st l code;
          do_ emit (OfferingUnavailable st l code);
          io_ret (inl err)
      | ClassConfig =>
          do out <- config_failure p nodeClaim instanceTypes started r err;
          io_ret (inr out)
      | ClassQuota =>
          do_ observe st l "quota" started;
          io_ret (inr (Err (KarpError InsufficientCapacity err)))
      | ClassFatal =>
          do_ observe st l "credential" started;
          io_ret (inr (Err (KarpError (CreateError "CredentialRejected" (error_text err)) err)))
      | _ =>
          do_ observe st l "transient" started;
          io_ret (inr (Err (Wrapf "creating server, " err)))
      end
  end.

(** The loop over the candidates an attempt remains for; [last] is the previous
    candidate and its error.  There is none only when no attempt is allowed,
    where [candidates[attempts-1]] panics; [NewProvider] allows eight. *)
Fixpoint create_loop (p : Provider) (nodeClaim : NodeClaim) (instanceTypes : list InstanceType)
    (started : time) (base : CreateServerRequest) (exhausted : error -> error)
    (last : option (Candidate * error)) (cs : list Candidate) : IO W created :=
  match cs with
  | [] =>
      match last with
      | Some (c, err) =>
          do_ observe (it_Name (c_InstanceType c)) (c_Location c) "exhausted" started;
          io_ret (Err (KarpError InsufficientCapacity (exhausted err)))
      | None => io_ret (Err (Errorf "index out of range"))
      end
  | c :: cs' =>
      do out <- create_attempt p nodeClaim instanceTypes started base c;
      match out with
      | inr res => io_ret res
      | inl err => create_loop p nodeClaim instanceTypes started base exhausted (Some (c, err)) cs'
      end
  end.

Definition no_candidates : error :=
  KarpError InsufficientCapacity
    (Errorf ("no instance type in this NodeClaim's requirements is offered in any location " +:+
             "the NodeClass allows")).

Definition Create (p : Provider) (nodeClass : HCloudNodeClass) (nodeClaim : NodeClaim)
    (instanceTypes : list InstanceType) (userData : string) : IO W created :=
  let candidates := orderedCandidates nodeClaim instanceTypes in
  match candidates with
  | [] => io_ret (Err no_candidates)
  | _ =>
      match baseRequest p nodeClass nodeClaim userData with
      | Err e => io_ret (Err e)
      | Ok req =>
          let attempts := Nat.min (length candidates) (p_maxAttempts p) in
          do started <- now;
          create_loop p nodeClaim instanceTypes started req
            (Wrapf ("no capacity after " +:+ FormatInt (Z.of_nat attempts) +:+ " attempts across " +:+
                    FormatInt (Z.of_nat (length candidates)) +:+ " candidates, last error: "))
            None (take attempts candidates)
      end
  end.

(** ** Reading *)

Definition cached_list (p : Provider) : IO W (result (list (option Server))) := fun st =>
  let '(r, c, w) := list_seq world_now (api_List (ManagedBySelector (p_clusterName p)))
                      (ps_cache st) (ps_world st) in
  (r, {| ps_world := w; ps_unavailable := ps_unavailable st; ps_cache := c;
         ps_metrics := ps_metrics st |}).

(** The entries of a listing this cluster owns. *)
Definition owned_servers (p : Provider) (servers : list (option Server)) : list Server :=
  omap (fun s => if IsManagedBy s (p_clusterName p) then s else None) servers.

Definition List (p : Provider) : IO W (result (list Server)) :=
  if (p_clusterName p =? "")%string then io_ret (Err errNoClusterName)
  else
    do r <- cached_list p;
    io_ret (let* servers := r in Ok (owned_servers p servers)).

Definition find_server (id : Z) (servers : list (option Server)) : option Server :=
  head (omap (fun s => srv ← s; if srv_ID srv =? id then Some srv else None) servers).

(** [nil] for what is gone or not this cluster's. *)
Definition visible (p : Provider) (srv : option Server) : option Server :=
  if IsManagedBy srv (p_clusterName p) then srv else None.

Definition Get (p : Provider) (providerID : string) : IO W (result (option Server)) :=
  if (p_clusterName p =? "")%string then io_ret (Err errNoClusterName)
  else
    match ServerIDFromProviderID providerID with
    | Err e => io_ret (Err e)
    | Ok id =>
        do r <- cached_list p;
        match r with
        | Err e => io_ret (Err e)
        | Ok servers =>
            match find_server id servers with
            | Some srv => io_ret (Ok (visible p (Some srv)))
            | None =>
                do r <- call_api (api_Get id);
                io_ret (let* srv := r in Ok (visible p srv))
            end
        end
    end.

(** ** Deleting *)

Definition Delete (p : Provider) (providerID : string) : IO W (option error) :=
  match ServerIDFromProviderID providerID with
  | Err e => io_ret (Some e)
  | Ok id =>
      do r <- call_api (api_Get id);
      match r with
      | Err e => io_ret (Some e)
      | Ok None => io_ret (Some (NotFoundError "server" providerID))
      | Ok (Some srv) =>
          if negb (IsManagedBy (Some srv) (p_clusterName p))
          then io_ret (Some (errNotManaged srv))
          else
            do err <- call_api (api_Delete id);
            match err with
            | Some e => io_ret (Some e)
            | None => do_ invalidate_cache; io_ret None
            end
      end
  end.

(** ** Rebooting *)

Definition commandReset : string := "reset_server".

Definition heldDown (command : string) : bool :=
  bool_decide (command ∈ ["stop_server"; "shutdown_server"; "enable_rescue"]).

Definition NewNodeRebootFailedError (e : error) : error := KarpError NodeRebootFailed e.

Definition rebootError (err : error) : error :=
  if decide (Classify (Some err) = ClassFatal) then NewNodeRebootFailedError err else err.

(** The scan of a server's recent actions: the command that holds it down, if
    one comes, and otherwise whether a reset was already issued. *)
Fixpoint scan_actions (requestedAt : time) (actions : list Action) (issued : bool)
    : string + bool :=
  match actions with
  | [] => inr issued
  | a :: rest =>
      if (act_Status a =? "error")%string then scan_actions requestedAt rest issued
      else if heldDown (act_Command a) then inl (act_Command a)
      else if (act_Command a =? commandReset)%string && negb (time_is_zero requestedAt) &&
              negb (time_before (act_Started a) requestedAt)
      then scan_actions requestedAt rest true
      else scan_actions requestedAt rest issued
  end.

(** [server %q (id %d)]. *)
Definition named (srv : Server) : string :=
  "server " +:+ Quote (srv_Name srv) +:+ " (id " +:+ FormatInt (srv_ID srv) +:+ ")".

Definition Reboot (p : Provider) (providerID nodeClaimName : string) (requestedAt : time)
    : IO W (option error) :=
  let refuse text := io_ret (Some (NewNodeRebootFailedError (Errorf text))) in
  match ServerIDFromProviderID providerID with
  | Err e => io_ret (Some (NewNodeRebootFailedError e))
  | Ok id =>
      do r <- call_api (api_Get id);
      match r with
      | Err e => io_ret (Some (rebootError e))
      | Ok None => io_ret (Some (NotFoundError "server" providerID))
      | Ok (Some srv) =>
          if negb (IsManagedBy (Some srv) (p_clusterName p))
          then io_ret (Some (NewNodeRebootFailedError (errNotManaged srv)))
          else if negb (map_get (srv_Labels srv) LabelNodeClaim =? nodeClaimName)%string
          then refuse (named srv +:+ " does not belong to nodeclaim " +:+ Quote nodeClaimName +:+
                       "; refusing to reset it")
          else
            do r <- call_api (api_RecentActions id);
            match r with
            | Err e => io_ret (Some (rebootError e))
            | Ok actions =>
                match scan_actions requestedAt actions false with
                | inl command =>
                    refuse (named srv +:+ " has a " +:+ command +:+
                            " action karpenter did not issue; refusing to reset it")
                | inr true => io_ret None
                | inr false =>
                    if (srv_Status srv =? "off")%string
                    then refuse (named srv +:+ " is off; refusing to power it on")
                    else
                      do err <- call_api (api_Reset id);
                      io_ret (rebootError <$> err)
                end
            end
      end
  end.
End WithKube.
