(* ===== verification/InstanceTraces.v ===== *)
(** What the instance provider's operations do: their calls on the server API,
    their results and the state they leave.

    Every theorem is stated over an arbitrary Hetzner (any instance of the
    server API, answering as it likes and changing between calls) with the trace
    of calls recorded.  The create loop is shown to be a walk over the ordered
    candidates, Delete and Reboot to follow their gates, and every history of
    operations to touch only this cluster's servers. *)

From S2P Require Import Prelude GoErrors Float64 GoText Servers Kube Api Unavailable Resources.
From S2P Require Import InstanceTypes NodeClaims Candidates ListCache Sim Instance.

#[local] Open Scope go_scope.

(** ** What an operation does to the world: its calls, in order *)

Section Traces.
Context `{KB : Kube, CA : !CoreAllocatable, GT : GoText, KE : KarpErrors, ET : ErrorText}.
Context {W : Type} `{SV : Servers W, CK : Clock W}.

Abbreviation TState := (PState (W * list call)).

Definition trace (st : TState) : list call := (ps_world st).2.

(** [m] run from [st] makes the calls [new]. *)
Definition calls_made {A} (m : IO (W * list call) A) (st : TState) (new : list call) : Prop :=
  trace (m st).2 = trace st ++ new.

(** The server is this cluster's: it carries the cluster's non-empty label. *)
Definition owned (cluster : string) (srv : Server) : Prop :=
  cluster <> "" /\ srv_Labels srv !! LabelManagedBy = Some cluster.

Lemma IsManagedBy_owned (cluster : string) (srv : Server) :
  IsManagedBy (Some srv) cluster = true <-> owned cluster srv.
Proof. rewrite IsManagedBy_spec. unfold owned. naive_solver. Qed.

(** A server whose name was taken is adopted only with both labels. *)
Definition adoptable (p : Provider) (nodeClaim : NodeClaim) (srv : Server) : Prop :=
  owned (p_clusterName p) srv /\ map_get (srv_Labels srv) LabelNodeClaim = cl_Name nodeClaim.

(** The requests of the create calls in a trace, with their answers. *)
Definition creates (t : list call) : list (CreateServerRequest * result Server) :=
  omap (fun c => match c with CCreate r out => Some (r, out) | _ => None end) t.

(** One iteration of the create loop, branch by branch: the calls it makes, what
    it returns and the state it leaves. *)
Inductive attempt_case (p : Provider) (nodeClaim : NodeClaim) (its : list InstanceType)
    (base : CreateServerRequest) (c : Candidate) (st st' : TState)
    : list call -> error + created -> Prop :=
  | AttemptCreated srv :
      ps_unavailable st' = ps_unavailable st -> lc_cached (ps_cache st') = None ->
      attempt_case p nodeClaim its base c st st' [CCreate (for_candidate base c) (Ok srv)]
        (inr (Ok (srv, Some (c_InstanceType c))))
  | AttemptCapacity err :
      api_Create (for_candidate base c) (ps_world st).1 = (Err err, (ps_world st').1) ->
      Classify (Some err) = ClassCapacity ->
      ps_unavailable st' = Mark (world_now (ps_world st')) (ps_unavailable st)
        (it_Name (c_InstanceType c)) (c_Location c) (code_or_empty (Some err)) ->
      ps_cache st' = ps_cache st ->
      attempt_case p nodeClaim its base c st st' [CCreate (for_candidate base c) (Err err)] (inl err)
  | AttemptAdopted err srv :
      Classify (Some err) = ClassConfig -> Code (Some err) = Some CodeUniqueness ->
      adoptable p nodeClaim srv ->
      ps_unavailable st' = ps_unavailable st -> lc_cached (ps_cache st') = None ->
      attempt_case p nodeClaim its base c st st'
        [CCreate (for_candidate base c) (Err err); CGetByName (req_Name base) (Ok (Some srv))]
        (inr (Ok (srv, findInstanceType its (srv_ServerType srv))))
  | AttemptNotAdopted err got :
      Classify (Some err) = ClassConfig -> Code (Some err) = Some CodeUniqueness ->
      (forall srv, got = Ok (Some srv) -> ~ adoptable p nodeClaim srv) ->
      ps_unavailable st' = ps_unavailable st -> ps_cache st' = ps_cache st ->
      attempt_case p nodeClaim its base c st st'
        [CCreate (for_candidate base c) (Err err); CGetByName (req_Name base) got]
        (inr (Err (KarpError (CreateError "CreateFailed" (error_text err)) err)))
  | AttemptRejected err reason :
      (Classify (Some err) = ClassConfig /\ Code (Some err) <> Some CodeUniqueness /\
       reason = "CreateFailed" \/
       Classify (Some err) = ClassFatal /\ reason = "CredentialRejected") ->
      ps_unavailable st' = ps_unavailable st -> ps_cache st' = ps_cache st ->
      attempt_case p nodeClaim its base c st st' [CCreate (for_candidate base c) (Err err)]
        (inr (Err (KarpError (CreateError reason (error_text err)) err)))
  | AttemptQuota err :
      Classify (Some err) = ClassQuota ->
      ps_unavailable st' = ps_unavailable st -> ps_cache st' = ps_cache st ->
      attempt_case p nodeClaim its base c st st' [CCreate (for_candidate base c) (Err err)]
        (inr (Err (KarpError InsufficientCapacity err)))
  | AttemptTransient err :
      Classify (Some err) = ClassTransient ->
      ps_unavailable st' = ps_unavailable st -> ps_cache st' = ps_cache st ->
      attempt_case p nodeClaim its base c st st' [CCreate (for_candidate base c) (Err err)]
        (inr (Err (Wrapf "creating server, " err))).

(** Runs the monad of a hypothesis or goal up to its next undecided call. *)
Ltac run_io :=
  repeat (unfold io_bind, io_ret, call_api, observe, now, emit, mark_unavailable, invalidate_cache,
            traced_call, calls_made, trace in *; cbn [negb fst snd ps_world ps_unavailable ps_cache
            ps_metrics api_Create api_Delete api_Get api_GetByName api_List api_Reset
            api_RecentActions traced] in *).

Lemma code_or_empty_uniqueness (err : error) :
  code_or_empty (Some err) = CodeUniqueness <-> Code (Some err) = Some CodeUniqueness.
Proof. unfold code_or_empty. destruct (Code (Some err)); simpl; split; naive_solver. Qed.

Lemma adoptableb (p : Provider) (nodeClaim : NodeClaim) (srv : Server) :
  negb (IsManagedBy (Some srv) (p_clusterName p)) ||
    negb (map_get (srv_Labels srv) LabelNodeClaim =? cl_Name nodeClaim)%string = false <->
  adoptable p nodeClaim srv.
Proof.
  unfold adoptable. rewrite orb_false_iff, !negb_false_iff, IsManagedBy_owned, String.eqb_eq. done.
Qed.

Lemma create_attempt_case (p : Provider) (nodeClaim : NodeClaim) (its : list InstanceType)
    (started : time) (base : CreateServerRequest) (c : Candidate) (st : TState) :
  exists new,
    calls_made (create_attempt p nodeClaim its started base c) st new /\
    attempt_case p nodeClaim its base c st (create_attempt p nodeClaim its started base c st).2
      new (create_attempt p nodeClaim its started base c st).1 /\
    exists out w, creates new = [(for_candidate base c, out)] /\
      api_Create (for_candidate base c) (ps_world st).1 = (out, w).
Proof.
  unfold create_attempt. run_io. destruct (api_Create _ _) as [[srv|err] w] eqn:Ecall; run_io.
  { eexists. split; [done|]. split; [by constructor|by eauto]. }
  destruct (negb _ && negb _); run_io.
  all: destruct (Classify (Some err)) eqn:EC; run_io.
  all: try (by destruct (Classify_not_none err)).
  all: try (eexists; split; [done|]; split; [constructor; auto; done|by eauto]).
  all: unfold config_failure, adopt; case_decide as Hcode; [rewrite code_or_empty_uniqueness in Hcode|];
    run_io.
  all: try (destruct (api_GetByName _ _) as [[[srv|]|e] w']; run_io).
  all: try (destruct (negb (IsManagedBy _ _) || _) eqn:Ha; run_io).
  all: change (req_Name (for_candidate base c)) with (req_Name base).
  all: eexists; split; [by rewrite <- ?app_assoc|]; split; [|by eauto].
  all: first
    [ apply AttemptAdopted with (err := err); [done..|by apply adoptableb|done|done]
    | apply AttemptNotAdopted; [done..|intros srv' E; simplify_eq|done|done];
      rewrite <- adoptableb; congruence
    | apply AttemptRejected; [left; rewrite <- code_or_empty_uniqueness; done|done|done] ].
Qed.

(** ** The create loop as a walk *)

Definition failed_call (base : CreateServerRequest) (ce : Candidate * error) : call :=
  CCreate (for_candidate base ce.1) (Err ce.2).

Definition is_capacity (ce : Candidate * error) : Prop := Classify (Some ce.2) = ClassCapacity.

(** The creates sent one after another from a world, each with its answer and the
    clock's reading right after it. *)
Inductive answers (w : W) : list (CreateServerRequest * result Server * time) -> W -> Prop :=
  | answers_nil : answers w [] w
  | answers_cons r out w1 log w2 :
      api_Create r w = (out, w1) -> answers w1 log w2 ->
      answers w ((r, out, world_now w1) :: log) w2.

(** The suppression an answered create calls for: of its type in its location,
    under its code, at the time of the answer, when it was refused for capacity. *)
Definition capacity_mark (a : CreateServerRequest * result Server * time) : option (time * u_op) :=
  match a.1.2 with
  | Err e => if decide (Classify (Some e) = ClassCapacity)
             then Some (a.2, OpMark (req_ServerType a.1.1) (req_Location a.1.1) (code_or_empty (Some e)))
             else None
  | Ok _ => None
  end.


(** The candidates [failed] were tried in order, each failed for capacity and
    was suppressed at the time it failed, and nothing else happened. *)
Record fell_through (base : CreateServerRequest) (failed : list (Candidate * error)) (st mid : TState) : Prop := {
  ft_capacity : Forall is_capacity failed;
  ft_marks : exists log, answers (ps_world st).1 log (ps_world mid).1 /\
    log.*1 = (fun ce => (for_candidate base ce.1, Err ce.2)) <$> failed /\
    ps_unavailable mid = u_run (omap capacity_mark log) (ps_unavailable st);
  ft_cache : ps_cache mid = ps_cache st
}.

(** What [Create] may do with the candidates [cs]: fall through some of them and
    return on the next, or fall through all of them. *)
Inductive create_walk (p : Provider) (nodeClaim : NodeClaim) (its : list InstanceType)
    (base : CreateServerRequest) (exhausted : error -> error)
    (last_failed : option (Candidate * error)) (cs : list Candidate) (st st' : TState)
    : list call -> created -> Prop :=
  | WalkReturned failed c rest mid new res :
      cs = failed.*1 ++ c :: rest -> fell_through base failed st mid ->
      attempt_case p nodeClaim its base c mid st' new (inr res) ->
      (exists out w, creates new = [(for_candidate base c, out)] /\
         api_Create (for_candidate base c) (ps_world mid).1 = (out, w)) ->
      create_walk p nodeClaim its base exhausted last_failed cs st st'
        ((failed_call base <$> failed) ++ new) res
  | WalkExhausted failed c err :
      cs = failed.*1 -> fell_through base failed st st' ->
      default last_failed (Some <$> last failed) = Some (c, err) ->
      create_walk p nodeClaim its base exhausted last_failed cs st st'
        (failed_call base <$> failed) (Err (KarpError InsufficientCapacity (exhausted err))).

Lemma fell_through_nil (base : CreateServerRequest) (st st' : TState) :
  ps_world st' = ps_world st -> ps_unavailable st' = ps_unavailable st -> ps_cache st' = ps_cache st ->
  fell_through base [] st st'.
Proof. intros Hw Hu Hc. split; [constructor| |done]. exists []. rewrite Hw. by repeat constructor. Qed.

Lemma fell_through_cons (base : CreateServerRequest) (c : Candidate) (err : error) failed
    (st mid1 mid2 : TState) :
  api_Create (for_candidate base c) (ps_world st).1 = (Err err, (ps_world mid1).1) ->
  Classify (Some err) = ClassCapacity ->
  ps_unavailable mid1 = Mark (world_now (ps_world mid1)) (ps_unavailable st)
    (it_Name (c_InstanceType c)) (c_Location c) (code_or_empty (Some err)) ->
  ps_cache mid1 = ps_cache st ->
  fell_through base failed mid1 mid2 -> fell_through base ((c, err) :: failed) st mid2.
Proof.
  intros Hcall Hcl Hu Hc [H1 (log & Hlog & Hl & H2) H3]. split; [by constructor| |congruence].
  eexists. split; [by eapply answers_cons|]. split; [by rewrite fmap_cons, Hl|].
  cbn [omap list_omap capacity_mark fst snd]. rewrite decide_True by done.
  unfold u_run in *. simpl. by rewrite H2, Hu.
Qed.

Lemma calls_made_app {A B} (m : IO (W * list call) A) (k : A -> IO (W * list call) B)
    (st : TState) (new1 new2 : list call) :
  calls_made m st new1 -> calls_made (k (m st).1) (m st).2 new2 ->
  calls_made (io_bind m k) st (new1 ++ new2).
Proof.
  unfold calls_made, io_bind. destruct (m st) as [a st1]. simpl. intros H1 H2.
  by rewrite H2, H1, app_assoc.
Qed.

Lemma create_loop_walk (p : Provider) (nodeClaim : NodeClaim) (its : list InstanceType)
    (started : time) (base : CreateServerRequest) (exhausted : error -> error)
    (cs : list Candidate) (last_failed : option (Candidate * error)) (st : TState) :
  cs <> [] \/ last_failed <> None ->
  let m := create_loop p nodeClaim its started base exhausted last_failed cs in
  exists new, calls_made m st new /\
    create_walk p nodeClaim its base exhausted last_failed cs st (m st).2 new (m st).1.
Proof.
  revert last_failed st. induction cs as [|c cs IH]; intros last_failed st Hne; simpl.
  { destruct last_failed as [[c err]|]; [|naive_solver]. exists []. split.
    - run_io. by rewrite app_nil_r.
    - apply (WalkExhausted _ _ _ _ _ _ _ _ _ [] c err); [done| |done]. by apply fell_through_nil. }
  destruct (create_attempt_case p nodeClaim its started base c st) as (new & Hcalls & Hcase & Hans).
  unfold io_bind at 2 3.
  destruct (create_attempt p nodeClaim its started base c st) as [[err|res] st1] eqn:E; simpl in Hcase.
  - destruct (IH (Some (c, err)) st1) as (new' & Hcalls' & Hwalk); [by right|].
    exists (new ++ new'). split; [apply calls_made_app; [done|]; by rewrite E|].
    inversion Hcase as [|err' Hcall Hcl Hu Hc| | | | |]; subst; simpl.
    destruct Hwalk as [failed c' rest mid new'' res -> Hft Hat Ha|failed c' err'' -> Hft Hlast].
    + apply (WalkReturned _ _ _ _ _ _ _ _ _ ((c, err) :: failed) c' rest mid); [done| |done..].
      by eapply fell_through_cons.
    + apply (WalkExhausted _ _ _ _ _ _ _ _ _ ((c, err) :: failed) c' err''); [done| |].
      * by eapply fell_through_cons.
      * destruct failed as [|x failed]; [done|]. rewrite last_cons_cons. simpl in *.
        by destruct (last (x :: failed)) eqn:El; [|by apply last_None in El].
  - exists (new ++ []). split; [apply calls_made_app; [done|]; rewrite E; run_io; by rewrite app_nil_r|].
    rewrite app_nil_r. apply (WalkReturned _ _ _ _ _ _ _ _ _ [] c cs st); [done| |done..].
    by apply fell_through_nil.
Qed.

Lemma baseRequest_Ok (p : Provider) (nodeClass : HCloudNodeClass) (nodeClaim : NodeClaim)
    (userData : string) (r : CreateServerRequest) :
  baseRequest p nodeClass nodeClaim userData = Ok r ->
  p_clusterName p <> "" /\ req_Labels r = request_labels p nodeClass nodeClaim /\
  req_ImageID r <> 0 /\ ist_ID <$> status_Image (nc_Status nodeClass) = Some (req_ImageID r) /\
  req_Name r = cl_Name nodeClaim.
Proof.
  unfold baseRequest. intros H. destruct (status_Image _) as [i|]; [|done].
  case_match; [done|]. case_match; [done|]. bool_hyps. by simplify_eq/=.
Qed.

(** [Create] runs the walk over the first attempts' worth of candidates, once it
    has candidates and a request. *)
Lemma Create_walk (p : Provider) (nodeClass : HCloudNodeClass) (nodeClaim : NodeClaim)
    (its : list InstanceType) (userData : string) (st : TState) :
  (0 < p_maxAttempts p)%nat ->
  let m := Create p nodeClass nodeClaim its userData in
  let cs := orderedCandidates nodeClaim its in
  (cs = [] /\ m st = (Err no_candidates, st)) \/
  (exists e, cs <> [] /\ baseRequest p nodeClass nodeClaim userData = Err e /\ m st = (Err e, st)) \/
  (exists base text new, cs <> [] /\ baseRequest p nodeClass nodeClaim userData = Ok base /\
    calls_made m st new /\
    create_walk p nodeClaim its base (Wrapf text) None (take (p_maxAttempts p) cs) st
      (m st).2 new (m st).1).
Proof.
  intros Hmax m cs. subst m. unfold Create. fold cs.
  destruct cs as [|c cs'] eqn:Ecs; [by left|right].
  destruct (baseRequest p nodeClass nodeClaim userData) as [base|e] eqn:Eb; [right|left; eauto].
  rewrite <- Ecs. unfold now, io_bind, calls_made.
  set (started := world_now (ps_world st)).
  set (text := "no capacity after " +:+ _).
  assert (take (length cs `min` p_maxAttempts p) cs = take (p_maxAttempts p) cs) as ->.
  { rewrite Nat.min_comm, <- firstn_firstn, firstn_all. done. }
  destruct (create_loop_walk p nodeClaim its started base (Wrapf text) (take (p_maxAttempts p) cs) None st)
    as (new & H1 & H2).
  { left. destruct (p_maxAttempts p); [lia|]. by rewrite Ecs. }
  exists base, text, new. by rewrite Ecs in *.
Qed.

Lemma creates_failed (base : CreateServerRequest) (failed : list (Candidate * error)) :
  creates (failed_call base <$> failed) =
  (fun ce => (for_candidate base ce.1, Err ce.2)) <$> failed.
Proof. induction failed as [|[c e] l IH]; [done|]. simpl. f_equal. apply IH. Qed.

Lemma creates_attempt p nodeClaim its base c (st st' : TState) new res :
  attempt_case p nodeClaim its base c st st' new res ->
  exists out, creates new = [(for_candidate base c, out)].
Proof. intros H; destruct H; eexists; done. Qed.

Lemma creates_app (t1 t2 : list call) : creates (t1 ++ t2) = creates t1 ++ creates t2.
Proof. unfold creates. apply omap_app. Qed.

(** An attempt that returns was not refused for capacity and suppresses nothing. *)
Lemma attempt_returns p nodeClaim its base c (st st' : TState) new res :
  attempt_case p nodeClaim its base c st st' new (inr res) ->
  ps_unavailable st' = ps_unavailable st /\
  forall r e, (r, Err e) ∈ creates new -> Classify (Some e) <> ClassCapacity.
Proof.
  intros H; inversion H; subst; (split; [done|]); intros r e Hin; cbn in Hin;
    apply list_elem_of_singleton in Hin; naive_solver congruence.
Qed.

(** The last create call of a walk and its answer decide the result. *)
Definition decided_by (p : Provider) (nodeClaim : NodeClaim) (its : list InstanceType)
    (c : Candidate) (out : result Server) (new : list call) (res : created) : Prop :=
  match out with
  | Ok srv => res = Ok (srv, Some (c_InstanceType c))
  | Err err =>
      match Classify (Some err) with
      | ClassCapacity => exists text, res = Err (KarpError InsufficientCapacity (Wrapf text err))
      | ClassQuota => res = Err (KarpError InsufficientCapacity err)
      | ClassTransient => res = Err (Wrapf "creating server, " err)
      | ClassFatal => res = Err (KarpError (CreateError "CredentialRejected" (error_text err)) err)
      | ClassConfig =>
          let failed := Err (KarpError (CreateError "CreateFailed" (error_text err)) err) in
          if decide (Code (Some err) = Some CodeUniqueness)
          then exists got, last new = Some (CGetByName (cl_Name nodeClaim) got) /\
            (forall srv, got = Ok (Some srv) -> adoptable p nodeClaim srv ->
               res = Ok (srv, findInstanceType its (srv_ServerType srv))) /\
            ((forall srv, got = Ok (Some srv) -> ~ adoptable p nodeClaim srv) -> res = failed)
          else (exists r, last new = Some (CCreate r (Err err))) /\ res = failed
      | ClassNone => False
      end
  end.

Lemma decided_by_attempt p nodeClaim its base c (st st' : TState) pre new res :
  req_Name base = cl_Name nodeClaim ->
  attempt_case p nodeClaim its base c st st' new (inr res) ->
  exists out, creates new = [(for_candidate base c, out)] /\
    decided_by p nodeClaim its c out (pre ++ new) res.
Proof.
  intros Hn H. inversion H; subst; eexists; (split; [done|]); unfold decided_by; rewrite <- ?Hn.
  all: try match goal with Hc : Classify _ = _ |- _ => rewrite Hc end; try done.
  - rewrite decide_True by done. exists (Ok (Some srv)). rewrite last_app. split; [done|]. split.
    + by intros srv' [= <-].
    + intros Hno. by destruct (Hno srv eq_refl).
  - rewrite decide_True by done. exists got. rewrite last_app. split; [done|]. split; [|done].
    intros srv -> Ha. naive_solver.
  - match goal with Hr : _ \/ _ |- _ => destruct Hr as [(-> & Hno & ->)|[-> ->]] end; [|done].
    rewrite decide_False by done. split; [|done]. eexists. by rewrite last_app.
Qed.

(** ** Request labels *)

Lemma ownership_fold (base labels : gmap string string) (k : string) :
  map_fold (fun k v acc =>
    if (k =? LabelManagedBy)%string || (k =? LabelNodeClaim)%string then acc
    else <[ k := v ]> acc) base labels !! k =
  if (k =? LabelManagedBy)%string || (k =? LabelNodeClaim)%string then base !! k
  else match labels !! k with Some v => Some v | None => base !! k end.
Proof.
  revert k. apply (map_fold_weak_ind (fun acc m => forall k, acc !! k =
    if (k =? LabelManagedBy)%string || (k =? LabelNodeClaim)%string then base !! k
    else match m !! k with Some v => Some v | None => base !! k end)).
  - intros k. by destruct (_ || _).
  - intros i v m acc Hi IH k. destruct (decide (i = k)) as [->|Hne].
    + destruct (_ || _) eqn:E; [by rewrite IH, E|]. by rewrite !lookup_insert_eq.
    + rewrite (lookup_insert_ne m) by done.
      destruct ((i =? _)%string || _); [done|]. by rewrite lookup_insert_ne.
Qed.

Lemma own_labels_lookup (p : Provider) (nodeClaim : NodeClaim) :
  let pool := map_get (cl_Labels nodeClaim) NodePoolLabelKey in
  own_labels p nodeClaim !! LabelManagedBy = Some (p_clusterName p) /\
  own_labels p nodeClaim !! LabelNodeClaim = Some (cl_Name nodeClaim) /\
  (pool <> "" -> own_labels p nodeClaim !! LabelNodePool = Some pool).
Proof.
  intros pool. unfold own_labels. fold pool.
  destruct (String.eqb_spec pool "") as [E|E]; [done|].
  rewrite lookup_insert_eq. done.
Qed.

Lemma failed_capacity (base : CreateServerRequest) (failed : list (Candidate * error))
    (i : nat) (r : CreateServerRequest) (out : result Server) :
  Forall is_capacity failed -> creates (failed_call base <$> failed) !! i = Some (r, out) ->
  exists e, out = Err e /\ Classify (Some e) = ClassCapacity.
Proof.
  intros Hf. rewrite creates_failed, list_lookup_fmap.
  destruct (failed !! i) as [ce|] eqn:Ei; [|done]. intros [= <- <-]. exists ce.2.
  split; [done|]. apply (Forall_lookup_1 _ _ _ _ Hf Ei).
Qed.

Lemma create_walk_prefix p nodeClaim its base exh lf cs (st st' : TState) new res :
  create_walk p nodeClaim its base exh lf cs st st' new res ->
  exists k, (k <= length cs)%nat /\ (creates new).*1 = for_candidate base <$> take k cs /\
    (forall i r out, creates new !! i = Some (r, out) -> (S i < k)%nat ->
       exists e, out = Err e /\ Classify (Some e) = ClassCapacity) /\
    (forall r e, last (creates new) = Some (r, Err e) -> Classify (Some e) = ClassCapacity ->
       k = length cs) /\
    (cs <> [] \/ lf = None -> (0 < k)%nat).
Proof.
  destruct 1 as [failed c rest mid new res -> Hft Hat _|failed c err -> Hft Hlast].
  - destruct (creates_attempt _ _ _ _ _ _ _ _ _ Hat) as [out Hout].
    exists (S (length failed)). rewrite length_app, length_fmap. simpl.
    rewrite creates_app, Hout. repeat split; [lia| | | |lia].
    + rewrite take_app_ge by (rewrite length_fmap; lia). rewrite length_fmap.
      replace (S (length failed) - length failed)%nat with 1%nat by lia.
      rewrite !fmap_app, creates_failed, <- !list_fmap_compose. done.
    + intros i r o Hi Hk. rewrite lookup_app_l in Hi.
      * eapply failed_capacity; [apply Hft|done].
      * rewrite creates_failed, length_fmap. lia.
    + intros r e Hl Hcap. exfalso. rewrite last_app in Hl. cbn in Hl. injection Hl as <- ->.
      destruct (attempt_returns _ _ _ _ _ _ _ _ _ Hat) as [_ Hno].
      apply (Hno (for_candidate base c) e); [rewrite Hout; by left|done].
  - exists (length failed). rewrite length_fmap. split; [lia|]; split; [|split; [|split; [done|]]].
    + rewrite creates_failed, take_ge by (rewrite length_fmap; lia).
      by rewrite <- !list_fmap_compose.
    + intros i r o Hi _. eapply failed_capacity; [apply Hft|done].
    + intros [Hne|Hn]; destruct failed; simpl in *; [done|lia|congruence|lia].
Qed.

Lemma create_walk_decided p nodeClaim its base text cs (st st' : TState) new res :
  req_Name base = cl_Name nodeClaim ->
  create_walk p nodeClaim its base (Wrapf text) None cs st st' new res ->
  exists c out, c ∈ cs /\ last (creates new) = Some (for_candidate base c, out) /\
    decided_by p nodeClaim its c out new res.
Proof.
  intros Hn. destruct 1 as [failed c rest mid new res -> Hft Hat _|failed c err -> Hft Hlast].
  - destruct (decided_by_attempt _ _ _ _ _ _ _ (failed_call base <$> failed) _ _ Hn Hat)
      as (out & Hout & Hd).
    exists c, out. split; [set_solver|]. split; [|done]. by rewrite creates_app, Hout, last_app.
  - destruct (last failed) as [ce|] eqn:El; simpl in Hlast; [|done]. injection Hlast as ->.
    exists c, (Err err). split; [|split].
    + apply last_Some in El as [l ->]. rewrite fmap_app. set_solver.
    + rewrite creates_failed, fmap_last, El. done.
    + unfold decided_by. apply last_Some in El as [l ->].
      destruct Hft as [Hf _ _]. apply Forall_app in Hf as [_ Hf]. apply Forall_cons in Hf as [-> _].
      by exists text.
Qed.


Lemma new_provider_attempts (cluster : string) : (0 < p_maxAttempts (NewProvider cluster))%nat.
Proof. unfold NewProvider, DefaultMaxCreateAttempts. simpl. lia. Qed.

Lemma calls_made_none {A} (m : IO (W * list call) A) (st : TState) (a : A) :
  m st = (a, st) -> calls_made m st [].
Proof. intros H. unfold calls_made. by rewrite H, app_nil_r. Qed.

#[local] Hint Resolve new_provider_attempts calls_made_none : hcloud.

(** ** Properties: creating *)

Lemma baseRequest_owned (p : Provider) nodeClass nodeClaim userData r :
  baseRequest p nodeClass nodeClaim userData = Ok r ->
  p_clusterName p <> "" /\ req_Labels r !! LabelManagedBy = Some (p_clusterName p).
Proof.
  intros Hr. destruct (baseRequest_Ok p nodeClass nodeClaim userData r Hr) as (Hc & -> & _).
  split; [done|]. unfold request_labels. rewrite ownership_fold. apply own_labels_lookup.
Qed.

(** The request a create sends: ownership labels no operator label can
    override, the operator's other labels and the pool beneath them, and every
    id from the NodeClass status.  A NodeClass without a resolved image, or a
    provider without a cluster name, builds no request. *)
Theorem request_ownership (p : Provider) (nodeClass : HCloudNodeClass) (nodeClaim : NodeClaim)
    (userData : string) (r : CreateServerRequest)
    (Hr : baseRequest p nodeClass nodeClaim userData = Ok r) :
  p_clusterName p <> "" /\
  req_Labels r !! LabelManagedBy = Some (p_clusterName p) /\
  req_Labels r !! LabelNodeClaim = Some (cl_Name nodeClaim) /\
  (forall k v, k <> LabelManagedBy -> k <> LabelNodeClaim ->
     spec_ServerLabels (nc_Spec nodeClass) !! k = Some v -> req_Labels r !! k = Some v) /\
  (spec_ServerLabels (nc_Spec nodeClass) !! LabelNodePool = None ->
   map_get (cl_Labels nodeClaim) NodePoolLabelKey <> "" ->
   req_Labels r !! LabelNodePool = Some (map_get (cl_Labels nodeClaim) NodePoolLabelKey)) /\
  req_Name r = cl_Name nodeClaim /\
  req_ImageID r <> 0 /\ ist_ID <$> status_Image (nc_Status nodeClass) = Some (req_ImageID r).
Proof.
  destruct (baseRequest_Ok p nodeClass nodeClaim userData r Hr) as (Hc & -> & Hi & Him & Hn).
  unfold request_labels.
  destruct (own_labels_lookup p nodeClaim) as (Hm & Hl & Hpool).
  repeat split; try done.
  - rewrite ownership_fold. apply Hm.
  - rewrite ownership_fold. apply Hl.
  - intros k v H1 H2 E. rewrite ownership_fold, E.
    apply String.eqb_neq in H1, H2. by rewrite H1, H2.
  - intros E Hp. rewrite ownership_fold, E. by apply Hpool.
Qed.

(** What makes an offering one the claim may be launched on, at the offering's own
    price: available, in one definite region, of a type that meets the claim's
    requirements and holds its requests, and itself compatible with them. *)
Definition orderable (nodeClaim : NodeClaim) (its : list InstanceType) (c : Candidate) : Prop :=
  let reqs := NewNodeSelectorRequirements (cl_Requirements nodeClaim) in
  exists o, c_InstanceType c ∈ its /\ o ∈ it_Offerings (c_InstanceType c) /\
    Intersects (it_Requirements (c_InstanceType c)) reqs = true /\
    resourcesFit nodeClaim (c_InstanceType c) = true /\
    of_Available o = true /\ IsCompatible reqs (of_Requirements o) = true /\
    ReqLen (ReqGet (of_Requirements o) LabelTopologyRegion) = 1 /\
    head (ReqValues (ReqGet (of_Requirements o) LabelTopologyRegion)) = Some (c_Location c) /\
    c_Price c = of_Price o.

Lemma orderedCandidates_orderable (nodeClaim : NodeClaim) (its : list InstanceType) (c : Candidate) :
  c ∈ orderedCandidates nodeClaim its <-> orderable nodeClaim its c.
Proof.
  unfold orderedCandidates, orderable. rewrite elem_of_stable_sort, elem_of_candidates. split.
  - intros (it & o & Hit & Ho & Hi & Hr & Hc). apply offering_candidate_Some in Hc as (? & ? & ? & ? & <- & ?).
    by exists o.
  - intros (o & Hit & Ho & Hi & Hr & Ha & Hc & Hlen & Hl & Hp). exists (c_InstanceType c), o.
    do 4 (split; [done|]). unfold offering_candidate. rewrite Ha, Hc, Hlen, Hl. simpl. rewrite <- Hp.
    by destruct c.
Qed.

(** No dearer than: [b]'s price is not below [a]'s, and at one price the type's
    name and then the location decide. *)
Definition no_dearer (a b : Candidate) : Prop :=
  SpecFloat.SFltb (c_Price b) (c_Price a) = false /\ candidate_le a b.

Lemma orderedCandidates_no_dearer (nodeClaim : NodeClaim) (its : list InstanceType) :
  prices_ordered its -> StronglySorted no_dearer (orderedCandidates nodeClaim its).
Proof.
  intros Hp. pose proof (ordered_candidates_sorted nodeClaim its Hp) as Hs.
  induction Hs as [|x l Hs IH Hx]; constructor; [done|]. eapply Forall_impl; [exact Hx|]. by intros y [].
Qed.

(** C5. Create buys the cheapest server it can get.  When no offering is priced NaN,
    the offerings the claim may be launched on, exactly those that are available,
    compatible and of a fitting type, form one sequence in which no later one is
    cheaper than an earlier one (ties by type name, then location); the create
    calls made are the base request on the first [k] of them in that order, each
    with that offering's type and location.  [k] is at most eight and at least one
    when there is any; every call but the last was refused for capacity, and the
    last only when all of them, or all eight, were tried. *)
Theorem create_cheapest_first (cluster : string) (nodeClass : HCloudNodeClass)
    (nodeClaim : NodeClaim) (its : list InstanceType) (userData : string) (st : TState)
    (base : CreateServerRequest)
    (Hb : baseRequest (NewProvider cluster) nodeClass nodeClaim userData = Ok base)
    (Hp : prices_ordered its) :
  exists new cs k,
    (forall c, c ∈ cs <-> orderable nodeClaim its c) /\
    StronglySorted no_dearer cs /\
    calls_made (Create (NewProvider cluster) nodeClass nodeClaim its userData) st new /\
    (k <= Nat.min (length cs) 8)%nat /\ (cs <> [] -> (0 < k)%nat) /\
    (creates new).*1 = for_candidate base <$> take k cs /\
    (forall c, req_ServerType (for_candidate base c) = it_Name (c_InstanceType c) /\
       req_Location (for_candidate base c) = c_Location c) /\
    (forall i r out, creates new !! i = Some (r, out) -> (S i < k)%nat ->
       exists e, out = Err e /\ Classify (Some e) = ClassCapacity) /\
    (forall r e, last (creates new) = Some (r, Err e) -> Classify (Some e) = ClassCapacity ->
       k = Nat.min (length cs) 8).
Proof.
  set (cs := orderedCandidates nodeClaim its).
  assert (exists new k, calls_made (Create (NewProvider cluster) nodeClass nodeClaim its userData) st new /\
    (k <= Nat.min (length cs) 8)%nat /\ (cs <> [] -> (0 < k)%nat) /\
    (creates new).*1 = for_candidate base <$> take k cs /\
    (forall i r out, creates new !! i = Some (r, out) -> (S i < k)%nat ->
       exists e, out = Err e /\ Classify (Some e) = ClassCapacity) /\
    (forall r e, last (creates new) = Some (r, Err e) -> Classify (Some e) = ClassCapacity ->
       k = Nat.min (length cs) 8)) as (new & k & H1 & H2 & H3 & H4 & H5 & H6); cycle 1.
  { exists new, cs, k. split; [apply orderedCandidates_orderable|].
    split; [by apply orderedCandidates_no_dearer|]. by repeat split. }
  destruct (Create_walk (NewProvider cluster) nodeClass nodeClaim its userData st)
    as [[E HC]|[(e & _ & E & _)|(base' & exh & new & Hne & Eb & Hcalls & Hw)]];
    [auto with hcloud| |congruence|].
  { exists [], 0%nat. fold cs in E. rewrite E. repeat split; [by eauto with hcloud|lia|done..]. }
  rewrite Hb in Eb. injection Eb as <-. fold cs in Hw, Hne.
  destruct (create_walk_prefix _ _ _ _ _ _ _ _ _ _ _ Hw) as (k & Hk & Hc & Hcap & Hlast & Hpos).
  rewrite length_take in Hk, Hlast.
  change (p_maxAttempts (NewProvider cluster)) with 8%nat in *.
  exists new, k. repeat split; [done|lia|auto| |done|].
  - rewrite Hc, take_take. by rewrite Nat.min_l by lia.
  - intros r e Hl Hcl. rewrite (Hlast r e Hl Hcl). lia.
Qed.

(** C6. The last create call decides what Create returns: a created server with the
    candidate's own type; a capacity failure on the last allowed candidate or a
    quota refusal as insufficient capacity; a transient failure as a plain
    retryable error; a rejected credential or request as a create error; and
    for a duplicate name the server of that name is looked up, as the last call,
    and it is returned, with the type it really has, exactly when it carries both
    of our labels; a request refused for another reason, or a lookup that finds no
    such server, is a create error. *)
Theorem create_result (cluster : string) (nodeClass : HCloudNodeClass)
    (nodeClaim : NodeClaim) (its : list InstanceType) (userData : string) (st : TState)
    (base : CreateServerRequest)
    (Hb : baseRequest (NewProvider cluster) nodeClass nodeClaim userData = Ok base)
    (Hc : orderedCandidates nodeClaim its <> []) :
  let m := Create (NewProvider cluster) nodeClass nodeClaim its userData in
  exists new c out,
    calls_made m st new /\
    c ∈ orderedCandidates nodeClaim its /\
    last (creates new) = Some (for_candidate base c, out) /\
    decided_by (NewProvider cluster) nodeClaim its c out new (m st).1.
Proof.
  intros m. destruct (Create_walk (NewProvider cluster) nodeClass nodeClaim its userData st)
    as [[E HC]|[(e & _ & E & _)|(base' & exh & new & _ & Eb & Hcalls & Hw)]];
    [auto with hcloud|congruence|congruence|].
  pose proof (baseRequest_Ok _ _ _ _ _ Eb) as (_ & _ & _ & _ & Hn).
  destruct (create_walk_decided _ _ _ _ _ _ _ _ _ _ Hn Hw) as (c & out & Hin & Hl & Hd).
  rewrite Hb in Eb. injection Eb as <-.
  exists new, c, out. split; [done|]. split; [|done]. by apply elem_of_take in Hin as (? & ? & _); eapply list_elem_of_lookup_2.
Qed.


(** ** Properties: reading *)

Lemma cached_list_calls (p : Provider) (st : TState) :
  exists new, calls_made (cached_list p) st new /\
    (new = [] \/ exists out, new = [CList (ManagedBySelector (p_clusterName p)) out]).
Proof.
  unfold calls_made, cached_list, list_seq. destruct (fresh _ _); simpl.
  { exists []. rewrite app_nil_r. auto. }
  run_io. destruct (api_List _ _) as [[l|e] w]; eauto.
Qed.

Lemma visible_owned (p : Provider) (got : option Server) :
  match visible p got with
  | Some srv => got = Some srv /\ owned (p_clusterName p) srv
  | None => forall srv, got = Some srv -> ~ owned (p_clusterName p) srv
  end.
Proof.
  unfold visible. destruct (IsManagedBy got (p_clusterName p)) eqn:E.
  - apply IsManagedBy_spec in E as (Hc & srv & -> & Hl). done.
  - intros srv -> Ho. apply IsManagedBy_owned in Ho. congruence.
Qed.

(** Get hides what is not this cluster's and never reads absence from a listing
    as an answer: a server it returns carries the cluster's label, and it says
    "gone" only of an id the listing shows as someone else's, or after a point
    read of that id answered so. *)
Theorem get_answers (p : Provider) (pid : string) (st : TState) (out : option Server)
    (Hout : (Get p pid st).1 = Ok out) :
  exists id new,
    ServerIDFromProviderID pid = Ok id /\ calls_made (Get p pid) st new /\
    match out with
    | Some srv => owned (p_clusterName p) srv
    | None =>
        (exists listing srv, (cached_list p st).1 = Ok listing /\
           find_server id listing = Some srv /\ ~ owned (p_clusterName p) srv) \/
        (exists got, last new = Some (CGet id (Ok got)) /\
           forall srv, got = Some srv -> ~ owned (p_clusterName p) srv)
    end.
Proof.
  unfold Get, calls_made in *. destruct (p_clusterName p =? "")%string; [done|].
  destruct (ServerIDFromProviderID pid) as [id|e]; [|done]. exists id.
  unfold io_bind in *. destruct (cached_list_calls p st) as (new & Hnew & _). unfold calls_made in Hnew.
  destruct (cached_list p st) as [[l|e] st1] eqn:El; [|done]. simpl in Hnew.
  destruct (find_server id l) as [srv|] eqn:Ef.
  - exists new. simpl in *. injection Hout as <-. pose proof (visible_owned p (Some srv)) as Hv.
    destruct (visible p (Some srv)); [by destruct Hv|]. naive_solver.
  - run_io. destruct (api_Get id _) as [[got|e] w]; [|done]. simpl in *. injection Hout as <-.
    exists (new ++ [CGet id (Ok got)]). rewrite Hnew, <- app_assoc. split; [done|]. split; [done|].
    pose proof (visible_owned p got) as Hv. destruct (visible p got); [by destruct Hv|].
    right. exists got. by rewrite last_snoc.
Qed.

(** List returns exactly the listing's servers that carry this cluster's label,
    whatever the API's selector let through, and refuses to list at all without
    a cluster name. *)
Theorem list_owned (p : Provider) (st : TState) (servers : list Server)
    (Hl : (List p st).1 = Ok servers) :
  p_clusterName p <> "" /\
  exists listing, (cached_list p st).1 = Ok listing /\
    forall srv, srv ∈ servers <-> Some srv ∈ listing /\ owned (p_clusterName p) srv.
Proof.
  unfold List in Hl. destruct (String.eqb_spec (p_clusterName p) "") as [|Hc]; [done|].
  split; [done|]. unfold io_bind in Hl. destruct (cached_list p st) as [[l|e] st1]; [|done].
  simpl in Hl. injection Hl as <-. exists l. split; [done|]. intros srv.
  unfold owned_servers. rewrite list_elem_of_omap, <- IsManagedBy_owned. split.
  - intros (s & Hin & Hs). by destruct (IsManagedBy s _) eqn:E; simplify_eq.
  - intros [Hin Hm]. exists (Some srv). by rewrite Hm.
Qed.

(** ** Properties: deleting *)

(** What a deletion may do: nothing for a bad id; otherwise one live read, and a
    delete of that very id only when the read showed a server of this cluster. *)
Inductive delete_protocol (p : Provider) (pid : string) (cached : option (list (option Server)))
    : list call -> option error -> option (list (option Server)) -> Prop :=
  | DeleteBadID e : ServerIDFromProviderID pid = Err e ->
      delete_protocol p pid cached [] (Some e) cached
  | DeleteUnread id e : ServerIDFromProviderID pid = Ok id ->
      delete_protocol p pid cached [CGet id (Err e)] (Some e) cached
  | DeleteGone id : ServerIDFromProviderID pid = Ok id ->
      delete_protocol p pid cached [CGet id (Ok None)] (Some (NotFoundError "server" pid)) cached
  | DeleteForeign id srv : ServerIDFromProviderID pid = Ok id ->
      ~ owned (p_clusterName p) srv ->
      delete_protocol p pid cached [CGet id (Ok (Some srv))] (Some (errNotManaged srv)) cached
  | DeleteFailed id srv e : ServerIDFromProviderID pid = Ok id ->
      owned (p_clusterName p) srv ->
      delete_protocol p pid cached [CGet id (Ok (Some srv)); CDelete id (Some e)] (Some e) cached
  | DeleteDone id srv : ServerIDFromProviderID pid = Ok id ->
      owned (p_clusterName p) srv ->
      delete_protocol p pid cached [CGet id (Ok (Some srv)); CDelete id None] None None.

Lemma delete_follows (p : Provider) (pid : string) (st : TState) :
  exists new, calls_made (Delete p pid) st new /\
    delete_protocol p pid (lc_cached (ps_cache st)) new (Delete p pid st).1
      (lc_cached (ps_cache (Delete p pid st).2)).
Proof.
  unfold Delete. destruct (ServerIDFromProviderID pid) as [id|e] eqn:Eid; run_io.
  2: { exists []. rewrite app_nil_r. split; [done|]. by constructor. }
  destruct (api_Get id _) as [[[srv|]|e] w]; run_io; try (eexists; split; [done|]; by constructor).
  destruct (IsManagedBy (Some srv) (p_clusterName p)) eqn:Em; run_io.
  - apply IsManagedBy_owned in Em. destruct (api_Delete id w) as [[e|] w']; run_io;
      (eexists; split; [by rewrite <- app_assoc|]; by constructor).
  - eexists. split; [done|]. constructor; [done|]. rewrite <- IsManagedBy_owned. congruence.
Qed.

(** C8. Delete is the gate it claims to be: one live read of the parsed id comes
    before anything, the only server it ever deletes is the one just read and
    found to carry this cluster's label, a server that is gone is NotFound, a
    foreign one is refused, and the listing is dropped exactly when a server was
    deleted. *)
Theorem delete_refines_protocol (p : Provider) (pid : string) (st : TState) :
  exists new, calls_made (Delete p pid) st new /\
    delete_protocol p pid (lc_cached (ps_cache st)) new (Delete p pid st).1
      (lc_cached (ps_cache (Delete p pid st).2)).
Proof. apply delete_follows. Qed.

(** ** Properties: rebooting *)

(** An action that counts: one that did not fail. *)
Definition counts (a : Action) : Prop := act_Status a <> "error".

(** A reset started at or after the request. *)
Definition issued_since (requestedAt : time) (a : Action) : Prop :=
  counts a /\ act_Command a = commandReset /\ requestedAt <> 0 /\ requestedAt <= act_Started a.

Lemma scan_actions_held (t : time) (acts : list Action) (b : bool) (cmd : string) :
  scan_actions t acts b = inl cmd ->
  exists a, a ∈ acts /\ counts a /\ act_Command a = cmd /\ heldDown cmd = true.
Proof.
  revert b. induction acts as [|a acts IH]; intros b; simpl; [done|].
  destruct (String.eqb_spec (act_Status a) "error"); [intros H; apply IH in H; set_solver|].
  destruct (heldDown (act_Command a)) eqn:Eh; [intros; simplify_eq; set_solver|].
  destruct (_ && _); intros H; apply IH in H; set_solver.
Qed.

Lemma issued_since_dec (t : time) (a : Action) :
  counts a ->
  (act_Command a =? commandReset)%string && negb (time_is_zero t) && negb (time_before (act_Started a) t)
    = true <-> issued_since t a.
Proof.
  intros Hc. unfold issued_since, time_is_zero, time_before.
  rewrite !andb_true_iff, !negb_true_iff, String.eqb_eq, Z.eqb_neq, Z.ltb_ge. naive_solver.
Qed.

Lemma scan_actions_free (t : time) (acts : list Action) (b issued : bool) :
  scan_actions t acts b = inr issued ->
  (forall a, a ∈ acts -> counts a -> heldDown (act_Command a) = false) /\
  (issued = true <-> b = true \/ exists a, a ∈ acts /\ issued_since t a).
Proof.
  revert b. induction acts as [|a acts IH]; intros b; simpl.
  { intros [= ->]. split; [set_solver|]. split; [auto|]. intros [?|(a & Ha & _)]; set_solver. }
  assert (forall P : Action -> Prop, (exists x, x ∈ a :: acts /\ P x) <-> P a \/ exists x, x ∈ acts /\ P x)
    as Hcons by (intros P; set_solver).
  rewrite Hcons. destruct (String.eqb_spec (act_Status a) "error") as [He|He].
  { intros H. apply IH in H as [H1 H2].
    assert (~ counts a) by (intros Hc; by apply Hc).
    assert (~ issued_since t a) by (intros [Hc _]; done). set_solver. }
  destruct (heldDown (act_Command a)) eqn:Eh; [done|].
  pose proof (issued_since_dec t a He) as Hi. destruct (_ && _); intros H; apply IH in H as [H1 H2];
    (split; [set_solver|]); rewrite H2; naive_solver.
Qed.

Lemma reboot_follows (p : Provider) (pid name : string) (requestedAt : time)
    (st : TState) :
  exists new, calls_made (Reboot p pid name requestedAt) st new /\
    Forall (fun c => match c with CGet _ _ | CActions _ _ | CReset _ _ => True | _ => False end) new /\
    forall id out, CReset id out ∈ new ->
      ServerIDFromProviderID pid = Ok id /\
      exists srv acts,
        new = [CGet id (Ok (Some srv)); CActions id (Ok acts); CReset id out] /\
        owned (p_clusterName p) srv /\
        map_get (srv_Labels srv) LabelNodeClaim = name /\
        srv_Status srv <> "off" /\
        (forall a, a ∈ acts -> counts a ->
           heldDown (act_Command a) = false /\ ~ issued_since requestedAt a) /\
        (Reboot p pid name requestedAt st).1 = rebootError <$> out.
Proof.
  unfold Reboot. destruct (ServerIDFromProviderID pid) as [id|e] eqn:Eid; run_io.
  2: { exists []. rewrite app_nil_r. split; [done|]. split; [constructor|set_solver]. }
  destruct (api_Get id _) as [[[srv|]|e] w]; run_io; try (eexists; split; [done|]; split; [by repeat constructor|set_solver]).
  destruct (IsManagedBy (Some srv) (p_clusterName p)) eqn:Em; run_io;
    [|eexists; split; [done|]; split; [by repeat constructor|set_solver]].
  destruct (String.eqb_spec (map_get (srv_Labels srv) LabelNodeClaim) name) as [El|El]; run_io;
    [|eexists; split; [done|]; split; [by repeat constructor|set_solver]].
  destruct (api_RecentActions id w) as [[acts|e] w']; run_io;
    [|eexists; split; [by rewrite <- app_assoc|]; split; [by repeat constructor|set_solver]].
  destruct (scan_actions requestedAt acts false) as [cmd|[]] eqn:Es; run_io;
    try (eexists; split; [by rewrite <- app_assoc|]; split; [by repeat constructor|set_solver]).
  destruct (String.eqb_spec (srv_Status srv) "off") as [Eo|Eo]; run_io;
    [eexists; split; [by rewrite <- app_assoc|]; split; [by repeat constructor|set_solver]|].
  destruct (api_Reset id w') as [err w'']; run_io.
  eexists. split; [by rewrite <- !app_assoc|]. split; [by repeat constructor|]. intros id' out Hin.
  repeat (apply elem_of_cons in Hin as [E|Hin]; [simplify_eq|]); [|by apply elem_of_nil in Hin].
  split; [done|]. apply scan_actions_free in Es as [Hh Hi].
  apply IsManagedBy_owned in Em. exists srv, acts. do 4 (split; [done|]). split; [|done].
  intros a Ha Hca. split; [by apply Hh|]. naive_solver.
Qed.

(** C31. Reset is the last thing Reboot does, and only to a server it has just read
    live and found to be this cluster's, this NodeClaim's and not off, whose
    recent actions hold no stop, shutdown or rescue and no reset since the
    request. *)
Theorem reboot_resets_only_safely (p : Provider) (pid name : string) (requestedAt : time)
    (st : TState) :
  exists new, calls_made (Reboot p pid name requestedAt) st new /\
    forall id out, CReset id out ∈ new ->
      ServerIDFromProviderID pid = Ok id /\
      exists srv acts,
        new = [CGet id (Ok (Some srv)); CActions id (Ok acts); CReset id out] /\
        owned (p_clusterName p) srv /\
        map_get (srv_Labels srv) LabelNodeClaim = name /\
        srv_Status srv <> "off" /\
        (forall a, a ∈ acts -> counts a ->
           heldDown (act_Command a) = false /\ ~ issued_since requestedAt a) /\
        (Reboot p pid name requestedAt st).1 = rebootError <$> out.
Proof.
  destruct (reboot_follows p pid name requestedAt st) as (new & Hc & _ & H). by exists new.
Qed.

(** Asking again is harmless: when the server's actions show a reset since the
    request and nobody holding it down, Reboot succeeds without resetting. *)
Theorem reboot_issued_once (p : Provider) (pid name : string) (requestedAt : time)
    (st : TState) (id : Z) (srv : Server) (acts : list Action) (rest : list call) (a : Action)
    (Hcalls : calls_made (Reboot p pid name requestedAt) st
       (CGet id (Ok (Some srv)) :: CActions id (Ok acts) :: rest))
    (Ha : a ∈ acts) (Hissued : issued_since requestedAt a)
    (Hfree : forall b, b ∈ acts -> counts b -> heldDown (act_Command b) = false) :
  rest = [] /\ (Reboot p pid name requestedAt st).1 = None.
Proof.
  unfold Reboot in *. destruct (ServerIDFromProviderID pid) as [id'|e] eqn:Eid; run_io.
  2: { rewrite <- (app_nil_r (ps_world st).2) in Hcalls at 1. by apply app_inv_head in Hcalls. }
  destruct (api_Get id' _) as [[[srv'|]|e] w]; run_io; try (by apply app_inv_head in Hcalls).
  destruct (IsManagedBy (Some srv') (p_clusterName p)) eqn:Em; run_io;
    [|by apply app_inv_head in Hcalls].
  destruct (String.eqb_spec (map_get (srv_Labels srv') LabelNodeClaim) name) as [El|El]; run_io;
    [|by apply app_inv_head in Hcalls].
  destruct (api_RecentActions id' w) as [[acts'|e] w']; run_io;
    [|rewrite <- !app_assoc in Hcalls; by apply app_inv_head in Hcalls].
  assert (acts' = acts) as ->.
  { destruct (scan_actions requestedAt acts' false) as [cmd|[]]; [..|destruct (srv_Status srv' =? "off")%string];
      run_io; try destruct (api_Reset id' w') as [err w'']; run_io;
      rewrite <- !app_assoc in Hcalls; apply app_inv_head in Hcalls; by simplify_eq/=. }
  destruct (scan_actions requestedAt acts false) as [cmd|issued] eqn:Es.
  { apply scan_actions_held in Es as (b & Hb & Hcb & Heq & Hheld). rewrite <- Heq in Hheld.
    by rewrite (Hfree b Hb Hcb) in Hheld. }
  apply scan_actions_free in Es as [_ Hi]. assert (issued = true) as -> by (apply Hi; eauto).
  run_io. rewrite <- !app_assoc in Hcalls. apply app_inv_head in Hcalls. by simplify_eq/=.
Qed.

(** ** Properties: every history *)

Inductive op :=
  | OCreate (nodeClass : HCloudNodeClass) (nodeClaim : NodeClaim) (its : list InstanceType)
      (userData : string)
  | OList
  | OGet (pid : string)
  | ODelete (pid : string)
  | OReboot (pid name : string) (requestedAt : time).

Definition exec (p : Provider) (o : op) (st : TState) : TState :=
  match o with
  | OCreate nodeClass nodeClaim its userData => (Create p nodeClass nodeClaim its userData st).2
  | OList => (List p st).2
  | OGet pid => (Get p pid st).2
  | ODelete pid => (Delete p pid st).2
  | OReboot pid name t => (Reboot p pid name t st).2
  end.

Definition exec_all (p : Provider) (ops : list op) (st : TState) : TState :=
  foldl (fun st o => exec p o st) st ops.

(** Every call in the trace that changes or enumerates the project is accounted
    for: a delete directly follows a live read that showed the label, a reset
    follows such a read and a read of the actions, a create orders a labelled
    server, named after its NodeClaim, from a resolved image, a listing is confined to the label. *)
Definition call_guarded (cluster : string) (t : list call) (i : nat) (c : call) : Prop :=
  match c with
  | CCreate r _ =>
      cluster <> "" /\ req_Labels r !! LabelManagedBy = Some cluster /\
      req_Labels r !! LabelNodeClaim = Some (req_Name r) /\ req_ImageID r <> 0
  | CList sel _ => cluster <> "" /\ sel = ManagedBySelector cluster
  | CDelete id _ =>
      exists j srv, i = S j /\ t !! j = Some (CGet id (Ok (Some srv))) /\ owned cluster srv
  | CReset id _ =>
      exists j srv acts, i = S (S j) /\ t !! j = Some (CGet id (Ok (Some srv))) /\
        t !! S j = Some (CActions id (Ok acts)) /\ owned cluster srv
  | CGet _ _ | CGetByName _ _ | CActions _ _ => True
  end.

Definition guarded (cluster : string) (t : list call) : Prop :=
  forall i c, t !! i = Some c -> call_guarded cluster t i c.

Lemma guarded_app (cluster : string) (t1 t2 : list call) :
  guarded cluster t1 -> guarded cluster t2 -> guarded cluster (t1 ++ t2).
Proof.
  intros H1 H2 i c. rewrite lookup_app_Some. intros [Hi|[Hge Hi]].
  - specialize (H1 i c Hi). destruct c; try done; simpl in *.
    + destruct H1 as (j & srv & -> & Hj & Ho). exists j, srv. by rewrite (lookup_app_l_Some _ _ _ _ Hj).
    + destruct H1 as (j & srv & acts & -> & Hj & Ha & Ho). exists j, srv, acts.
      by rewrite (lookup_app_l_Some _ _ _ _ Hj), (lookup_app_l_Some _ _ _ _ Ha).
  - specialize (H2 _ c Hi). destruct c; try done; simpl in *.
    + destruct H2 as (j & srv & E & Hj & Ho). exists (length t1 + j)%nat, srv.
      split; [lia|]. split; [|done]. rewrite lookup_app_r by lia. rewrite <- Hj. f_equal. lia.
    + destruct H2 as (j & srv & acts & E & Hj & Ha & Ho). exists (length t1 + j)%nat, srv, acts.
      split; [lia|]. split; [|split; [|done]]; rewrite lookup_app_r by lia; [rewrite <- Hj|rewrite <- Ha];
        f_equal; lia.
Qed.

Lemma guarded_nil (cluster : string) : guarded cluster [].
Proof. intros i c Hi. done. Qed.

(** A trace all of whose calls are guarded whatever surrounds them. *)
Lemma guarded_each (cluster : string) (t : list call) :
  Forall (fun c => match c with
    | CDelete _ _ | CReset _ _ => False
    | _ => call_guarded cluster [] 0 c
    end) t -> guarded cluster t.
Proof.
  intros Hf i c Hi. eapply Forall_lookup_1 in Hi; [|exact Hf]. by destruct c.
Qed.

Lemma attempt_guarded p nodeClaim its base c (st st' : TState) new res :
  call_guarded (p_clusterName p) [] 0 (CCreate base (Err (Errorf ""))) ->
  attempt_case p nodeClaim its base c st st' new res -> guarded (p_clusterName p) new.
Proof. intros Hb H. apply guarded_each. destruct H; repeat constructor; apply Hb. Qed.

Lemma create_guarded (p : Provider) nodeClass nodeClaim its userData (st : TState) :
  (0 < p_maxAttempts p)%nat ->
  exists new, calls_made (Create p nodeClass nodeClaim its userData) st new /\
    guarded (p_clusterName p) new.
Proof.
  intros Hm. destruct (Create_walk p nodeClass nodeClaim its userData st)
    as [[E HC]|[(e & _ & E & HC)|(base & text & new & _ & Eb & Hcalls & Hw)]]; [done|..].
  1-2: exists []; split; [by eapply calls_made_none|apply guarded_nil].
  exists new. split; [done|].
  apply baseRequest_Ok in Eb as (Hc & Hl & Hi & _ & Hname).
  assert (call_guarded (p_clusterName p) [] 0 (CCreate base (Err (Errorf "")))) as Hb.
  { simpl. rewrite Hl, Hname. unfold request_labels. rewrite !ownership_fold.
    split; [done|]. split; [apply own_labels_lookup|]. split; [apply own_labels_lookup|done]. }
  assert (forall failed, guarded (p_clusterName p) (failed_call base <$> failed)) as Hf.
  { intros failed. apply guarded_each, Forall_fmap, Forall_true. intros ce. apply Hb. }
  destruct Hw; [|done]. apply guarded_app; [done|]. by eapply attempt_guarded.
Qed.

Lemma cached_list_guarded (p : Provider) (st : TState) :
  p_clusterName p <> "" ->
  exists new, calls_made (cached_list p) st new /\ guarded (p_clusterName p) new.
Proof.
  intros Hc. destruct (cached_list_calls p st) as (new & Hn & Hnew). exists new. split; [done|].
  apply guarded_each. destruct Hnew as [->|[out ->]]; repeat constructor. done.
Qed.

Lemma get_guarded (p : Provider) (pid : string) (st : TState) :
  exists new, calls_made (Get p pid) st new /\ guarded (p_clusterName p) new.
Proof.
  assert (forall A (r : A), exists new, calls_made (io_ret r) st new /\ guarded (p_clusterName p) new)
    as Hret by (intros A r; exists []; split; [by eapply calls_made_none|apply guarded_nil]).
  unfold Get. destruct (String.eqb_spec (p_clusterName p) "") as [|Hc]; [done|].
  destruct (ServerIDFromProviderID pid) as [id|e]; [|done].
  destruct (cached_list_guarded p st Hc) as (new & Hnew & Hg). unfold calls_made, io_bind in *.
  destruct (cached_list p st) as [[l|e] st1]; simpl in Hnew; [|by exists new].
  destruct (find_server id l); [by exists new|]. run_io. destruct (api_Get id _) as [got w]. run_io.
  rewrite Hnew. exists (new ++ [CGet id got]). split; [by rewrite <- app_assoc|].
  apply guarded_app; [done|]. apply guarded_each. by repeat constructor.
Qed.

Lemma delete_guarded (p : Provider) (pid : string) (st : TState) :
  exists new, calls_made (Delete p pid) st new /\ guarded (p_clusterName p) new.
Proof.
  destruct (delete_follows p pid st) as (new & Hn & Hp). exists new. split; [done|].
  destruct Hp; try (apply guarded_each; by repeat constructor).
  all: intros [|[|i]] c; simpl; intros Hi; simplify_eq; simpl; eauto.
Qed.

Lemma reboot_guarded (p : Provider) (pid name : string) (t : time) (st : TState) :
  exists new, calls_made (Reboot p pid name t) st new /\ guarded (p_clusterName p) new.
Proof.
  destruct (reboot_follows p pid name t st) as (new & Hn & Hf & Hr). exists new. split; [done|].
  intros i c Hi. pose proof (Forall_lookup_1 _ _ _ _ Hf Hi) as Hc. destruct c; try done.
  pose proof (list_elem_of_lookup_2 _ _ _ Hi) as Hin.
  destruct (Hr _ _ Hin) as (_ & srv & acts & -> & Ho & _).
  destruct i as [|[|[|i]]]; simplify_eq/=. by exists 0%nat, srv, acts.
Qed.

Lemma exec_guarded (p : Provider) (o : op) (st : TState) :
  (0 < p_maxAttempts p)%nat ->
  guarded (p_clusterName p) (trace st) -> guarded (p_clusterName p) (trace (exec p o st)).
Proof.
  intros Hm Hg.
  assert (exists new, trace (exec p o st) = trace st ++ new /\ guarded (p_clusterName p) new)
    as (new & -> & Hn); [|by apply guarded_app].
  destruct o; simpl.
  - by apply create_guarded.
  - unfold List. destruct (String.eqb_spec (p_clusterName p) "") as [|Hc].
    { exists []. rewrite app_nil_r. split; [done|apply guarded_nil]. }
    destruct (cached_list_guarded p st Hc) as (new & Hnew & Hgn). exists new.
    unfold calls_made, io_bind in *. by destruct (cached_list p st).
  - apply get_guarded.
  - apply delete_guarded.
  - apply reboot_guarded.
Qed.

Lemma exec_all_guarded (cluster : string) (ops : list op) (st : TState) :
  guarded cluster (trace st) ->
  guarded cluster (trace (exec_all (NewProvider cluster) ops st)).
Proof.
  revert st. induction ops as [|o ops IH]; intros st Hst; [done|]. apply IH.
  by apply (exec_guarded (NewProvider cluster)); [apply new_provider_attempts|].
Qed.

(** C1. The provider never destroys, resets or enumerates what is not its own.
    After any sequence of operations, whatever Hetzner answers and whoever else
    changes the project meanwhile, every delete in the trace directly follows a
    live read of that id showing this cluster's label, every reset follows such a
    read, every listing is confined to the label, and every create orders a
    server that carries it and the name of its NodeClaim; with an empty cluster name none of these calls
    occurs at all. *)
Theorem only_own_servers (cluster : string) (ops : list op) (w : W) :
  let t := trace (exec_all (NewProvider cluster) ops (init_state (w, []))) in
  guarded cluster t /\
  (cluster = "" -> Forall (fun c => match c with
     | CGet _ _ | CGetByName _ _ | CActions _ _ => True
     | _ => False
     end) t).
Proof.
  intros t. assert (guarded cluster t) as Hg by apply exec_all_guarded, guarded_nil.
  split; [done|]. intros ->. apply Forall_lookup. intros i c Hi. specialize (Hg i c Hi).
  destruct c; simpl in Hg; try done; unfold owned in *; naive_solver.
Qed.
End Traces.

(** ** Witnesses: concrete runs on the project of [Sim] *)

Section Witnesses.
Import KubeExample CatalogExample.
#[local] Instance alloc : CoreAllocatable := fun it => Allocatable (it_Capacity it) (it_Overhead it).
#[local] Instance unwraps : KarpErrors := fun _ => true.
#[local] Instance etext : ErrorText := fun _ => "error".

Definition prod : Provider := NewProvider "prod".
Definition started_with (w : sim) : PState (sim * list call) := init_state (w, []).

Lemma request_ownership_witness :
  exists r, baseRequest prod (nodeClass ["nbg1"] {[ LabelManagedBy := "evil"; "team" := "a" ]})
              example_claim "#cloud-config" = Ok r /\
    req_Labels r !! LabelManagedBy = Some "prod" /\ req_Labels r !! "team" = Some "a".
Proof.
  eexists. split; [done|].
  destruct (request_ownership prod (nodeClass ["nbg1"] {[ LabelManagedBy := "evil"; "team" := "a" ]})
    example_claim "#cloud-config" _ eq_refl) as (_ & Hm & _ & Hk & _).
  split; [exact Hm|]. by apply Hk.
Defined.

Definition example_base : CreateServerRequest :=
  match baseRequest prod (nodeClass ["nbg1"] ∅) example_claim "#cloud-config" with
  | Ok r => r
  | Err _ => {| req_Name := ""; req_ServerType := ""; req_Location := ""; req_ImageID := 0;
                req_SSHKeyIDs := []; req_NetworkIDs := []; req_FirewallIDs := [];
                req_PlacementGroupID := None; req_UserData := ""; req_Labels := ∅;
                req_PublicIPv4 := false; req_PublicIPv6 := false |}
  end.

Lemma create_cheapest_first_witness :
  let m := Create prod (nodeClass ["nbg1"] ∅) example_claim (types [] NewUnavailable) "#cloud-config" in
  ((fun ro => (req_ServerType ro.1, req_Location ro.1, is_ok ro.2)) <$>
     creates (trace (m (started_with empty_project)).2)) =
    [("cx23", "fsn1", false); ("cx23", "nbg1", true)] /\
  exists new cs k,
    (forall c, c ∈ cs <-> orderable example_claim (types [] NewUnavailable) c) /\
    StronglySorted no_dearer cs /\
    calls_made m (started_with empty_project) new /\ (0 < k <= 8)%nat /\
    (creates new).*1 = for_candidate example_base <$> take k cs.
Proof.
  split; [by vm_compute|].
  destruct (create_cheapest_first "prod" (nodeClass ["nbg1"] ∅) example_claim (types [] NewUnavailable)
    "#cloud-config" (started_with empty_project) example_base eq_refl example_prices)
    as (new & cs & k & Hcs & Hs & Hcalls & Hk & Hpos & Hc & _ & _ & Hlast).
  exists new, cs, k. do 3 (split; [done|]). split; [|done]. split; [|lia]. apply Hpos. intros ->.
  assert (length (orderedCandidates example_claim (types [] NewUnavailable)) = 4%nat) as Hne by by vm_compute.
  destruct (orderedCandidates example_claim (types [] NewUnavailable)) as [|c l] eqn:E; [done|].
  assert (c ∈ []) as Hin; [|by apply elem_of_nil in Hin].
  apply Hcs, orderedCandidates_orderable. rewrite E. by left.
Defined.

Lemma create_result_witness :
  let m := Create prod (nodeClass ["nbg1"] ∅) example_claim (types [] NewUnavailable) "#cloud-config" in
  exists new c out,
    calls_made m (started_with project) new /\
    c ∈ orderedCandidates example_claim (types [] NewUnavailable) /\
    last (creates new) = Some (for_candidate example_base c, out) /\
    decided_by prod example_claim (types [] NewUnavailable) c out new (m (started_with project)).1.
Proof.
  apply (create_result "prod" (nodeClass ["nbg1"] ∅) example_claim (types [] NewUnavailable)
    "#cloud-config" (started_with project) example_base eq_refl).
  intros E. apply (f_equal length) in E. by vm_compute in E.
Defined.

(** The duplicate name of [project] is adopted, with the server it names. *)
Example create_adopts :
  match (Create prod (nodeClass ["nbg1"] ∅) example_claim (types [] NewUnavailable) "#cloud-config"
           (started_with project)).1 with
  | Ok (srv, Some it) => srv_ID srv = 4711 /\ it_Name it = "cx23"
  | _ => False
  end.
Proof. by vm_compute. Qed.

Lemma get_answers_witness :
  (Get prod "hcloud://4711" (started_with project)).1 = Ok (Some example_server) /\
  owned "prod" example_server.
Proof.
  assert ((Get prod "hcloud://4711" (started_with project)).1 = Ok (Some example_server)) as H
    by by vm_compute.
  split; [exact H|].
  destruct (get_answers prod "hcloud://4711" (started_with project) (Some example_server) H)
    as (id & new & _ & _ & Ho). exact Ho.
Defined.

Lemma list_owned_witness :
  (List prod (started_with project)).1 = Ok [example_server] /\
  exists listing, (cached_list prod (started_with project)).1 = Ok listing /\
    Some example_server ∈ listing.
Proof.
  assert ((List prod (started_with project)).1 = Ok [example_server]) as H by by vm_compute.
  split; [exact H|].
  destruct (list_owned prod (started_with project) [example_server] H) as (_ & l & Hl & Hs).
  exists l. split; [exact Hl|]. by apply (Hs example_server), list_elem_of_here.
Defined.

Lemma reboot_issued_once_witness :
  (Reboot prod "hcloud://4711" "default-x7k2p" (3 * second) (started_with project)).1 = None.
Proof.
  set (a := {| act_Command := "reset_server"; act_Status := "success"; act_Started := 5 * second |}).
  apply (reboot_issued_once prod "hcloud://4711" "default-x7k2p" (3 * second) (started_with project)
    4711 example_server [a] [] a).
  - by vm_compute.
  - by apply list_elem_of_here.
  - by repeat split.
  - intros b Hb _. apply list_elem_of_singleton in Hb as ->. by vm_compute.
Defined.
End Witnesses.
