(* ===== verification/Fleet.v ===== *)
(** The fleet: what the instance provider does to the servers of its cluster.

    An abstract specification of the provider, [fleet_step]: a fleet is the
    servers of one cluster by id, with their names and labels; launching adds one
    server of the NodeClaim's or finds it there, deleting removes one, everything
    else changes nothing.  Errors are part of it: a launch that fails may have
    landed all the same, a deletion that fails may have happened.

    The refinement is proved over any Hetzner project that keeps to what its API
    documents ([HetznerLaws]): names are unique in the project, a create makes the
    server asked for, a read tells the truth.  Other actors may do what they like
    with servers that are not the cluster's; between two operations they may also
    remove the cluster's own. *)

From S2P Require Import Prelude GoErrors Float64 GoText Servers Kube Api Unavailable Resources.
From S2P Require Import InstanceTypes NodeClaims Candidates ListCache Sim Instance InstanceTraces.

(** What identifies a server in the project. *)
Record held := { hd_Name : string; hd_Labels : gmap string string }.

Definition held_of (s : Server) : held := {| hd_Name := srv_Name s; hd_Labels := srv_Labels s |}.
Definition requested (r : CreateServerRequest) : held :=
  {| hd_Name := req_Name r; hd_Labels := req_Labels r |}.

(** The servers that exist, by id. *)
Class Project (W : Type) := held_servers : W -> gmap Z held.

(** ** The specification *)

Abbreviation fleet_state := (gmap Z held).

(** A server of the cluster, launched for a NodeClaim. *)
Definition ours (cluster claim : string) (h : held) : Prop :=
  hd_Name h = claim /\ hd_Labels h !! LabelManagedBy = Some cluster /\
  map_get (hd_Labels h) LabelNodeClaim = claim.

#[export] Instance ours_dec (cluster claim : string) (h : held) : Decision (ours cluster claim h).
Proof. unfold ours. apply _. Defined.

Definition unnamed (F : fleet_state) (name : string) : Prop :=
  forall id h, F !! id = Some h -> hd_Name h <> name.

Inductive fleet_op := FLaunch (claim : string) | FDelete (id : Z) | FRead.
Inductive fleet_out := FServer (id : Z) | FDone | FError.

Inductive fleet_step (cluster : string) : fleet_op -> fleet_state -> fleet_out -> fleet_state -> Prop :=
  | fs_launched claim F id h :
      F !! id = None -> unnamed F claim -> ours cluster claim h ->
      fleet_step cluster (FLaunch claim) F (FServer id) (<[ id := h ]> F)
  | fs_adopted claim F id h :
      F !! id = Some h -> ours cluster claim h ->
      fleet_step cluster (FLaunch claim) F (FServer id) F
  | fs_not_launched claim F : fleet_step cluster (FLaunch claim) F FError F
  | fs_unreported claim F id h :
      F !! id = None -> unnamed F claim -> ours cluster claim h ->
      fleet_step cluster (FLaunch claim) F FError (<[ id := h ]> F)
  | fs_deleted id F h : F !! id = Some h -> fleet_step cluster (FDelete id) F FDone (delete id F)
  | fs_not_deleted id F : fleet_step cluster (FDelete id) F FError F
  | fs_maybe_deleted id F h :
      F !! id = Some h -> fleet_step cluster (FDelete id) F FError (delete id F)
  | fs_read F : fleet_step cluster FRead F FDone F.

(** One server per name. *)
Definition distinct (F : fleet_state) : Prop := forall i j hi hj,
  F !! i = Some hi -> F !! j = Some hj -> hd_Name hi = hd_Name hj -> i = j.

Lemma distinct_insert (F : fleet_state) (id : Z) (h : held) :
  F !! id = None -> unnamed F (hd_Name h) -> distinct F -> distinct (<[ id := h ]> F).
Proof.
  intros Hid Hn Hd i j hi hj Hi Hj He. rewrite lookup_insert_Some in Hi, Hj.
  destruct Hi as [[<- <-]|[Hi1 Hi2]], Hj as [[<- <-]|[Hj1 Hj2]]; [done| | |eauto].
  - by destruct (Hn j hj Hj2).
  - by destruct (Hn i hi Hi2).
Qed.

Lemma distinct_subseteq (F F' : fleet_state) : F' ⊆ F -> distinct F -> distinct F'.
Proof. intros Hs Hd i j hi hj Hi Hj. apply Hd; by eapply lookup_weaken. Qed.

Lemma fleet_step_distinct cluster o F out F' : fleet_step cluster o F out F' -> distinct F -> distinct F'.
Proof.
  intros Hs Hd. destruct Hs as [? ? ? h ? ? Ho| | |? ? ? h ? ? Ho| | | |]; try done.
  all: try (eapply distinct_subseteq; [apply delete_subseteq|done]).
  all: apply distinct_insert; [done| |done]; by rewrite (proj1 Ho).
Qed.

(** The NodeClaim a server says it was launched for. *)
Definition claim_of (h : held) : string := map_get (hd_Labels h) LabelNodeClaim.

(** Every server bears the name of its NodeClaim, and no two the same. *)
Definition accounted (F : fleet_state) : Prop :=
  map_Forall (fun _ h => hd_Name h = claim_of h) F /\ distinct F.

Definition one_per_claim (F : fleet_state) : Prop := forall i j hi hj,
  F !! i = Some hi -> F !! j = Some hj -> claim_of hi = claim_of hj -> i = j.

Lemma accounted_one_per_claim (F : fleet_state) : accounted F -> one_per_claim F.
Proof.
  intros [Hn Hd] i j hi hj Hi Hj He. apply (Hd i j hi hj Hi Hj).
  by rewrite (Hn i hi Hi), (Hn j hj Hj).
Qed.

Lemma accounted_subseteq (F F' : fleet_state) : F' ⊆ F -> accounted F -> accounted F'.
Proof.
  intros Hs [Hn Hd]. split; [|by eapply distinct_subseteq].
  intros i h Hi. eapply (Hn i h), lookup_weaken; done.
Qed.

Lemma fleet_step_accounted cluster o F out F' : fleet_step cluster o F out F' -> accounted F -> accounted F'.
Proof.
  intros Hs [Hn Hd]. split; [|by eapply fleet_step_distinct].
  destruct Hs as [? ? ? h ? ? Ho| | |? ? ? h ? ? Ho| | | |]; try done.
  all: try (apply map_Forall_delete; exact Hn).
  all: apply map_Forall_insert_2; [|exact Hn]; destruct Ho as (-> & _ & <-); reflexivity.
Qed.

(** ** What Hetzner documents *)

Section Fleet.
Context `{KB : Kube, CA : !CoreAllocatable, GT : GoText, KE : KarpErrors, ET : ErrorText}.
Context {W : Type} `{SV : Servers W, CK : Clock W, PJ : Project W} (cluster : string).

(** The servers of the cluster. *)
Definition fleet (w : W) : fleet_state :=
  filter (fun ih => hd_Labels ih.2 !! LabelManagedBy = Some cluster) (held_servers w).

(** A create that went through: the name was free in the whole project, and the
    server asked for is there now. *)
Definition lands (r : CreateServerRequest) (w : W) (id : Z) (w' : W) : Prop :=
  unnamed (held_servers w) (req_Name r) /\ fleet w !! id = None /\
  (req_Labels r !! LabelManagedBy = Some cluster -> fleet w' = <[ id := requested r ]> (fleet w)).

Class HetznerLaws : Prop := {
  law_created : forall r w s w', api_Create r w = (Ok s, w') -> lands r w (srv_ID s) w';
  law_refused : forall r w e w', api_Create r w = (Err e, w') ->
    fleet w' = fleet w \/ exists id, lands r w id w';
  law_duplicate : forall r w e w', api_Create r w = (Err e, w') ->
    Code (Some e) = Some CodeUniqueness -> fleet w' = fleet w;
  law_GetByName : forall name w,
    let '(out, w') := api_GetByName name w in
    fleet w' = fleet w /\
    match out with
    | Ok (Some s) => held_servers w !! srv_ID s = Some (held_of s) /\ srv_Name s = name /\
        forall id h, held_servers w !! id = Some h -> hd_Name h = name -> id = srv_ID s
    | Ok None => unnamed (held_servers w) name
    | Err _ => True
    end;
  law_Get : forall id w,
    let '(out, w') := api_Get id w in
    fleet w' = fleet w /\
    match out with
    | Ok (Some s) => held_servers w !! id = Some (held_of s)
    | Ok None => held_servers w !! id = None
    | Err _ => True
    end;
  law_Delete : forall id w,
    let '(err, w') := api_Delete id w in
    match err with
    | None => fleet w' = delete id (fleet w)
    | Some _ => fleet w' = fleet w \/ fleet w' = delete id (fleet w)
    end;
  law_List : forall sel w, fleet (api_List sel w).2 = fleet w;
  law_Reset : forall id w, fleet (api_Reset id w).2 = fleet w;
  law_RecentActions : forall id w, fleet (api_RecentActions id w).2 = fleet w
}.

Lemma fleet_lookup (w : W) (id : Z) (h : held) :
  fleet w !! id = Some h <->
  held_servers w !! id = Some h /\ hd_Labels h !! LabelManagedBy = Some cluster.
Proof. unfold fleet. by rewrite map_lookup_filter_Some. Qed.

Lemma unnamed_fleet (w : W) (name : string) : unnamed (held_servers w) name -> unnamed (fleet w) name.
Proof. intros Hn id h Hh. apply fleet_lookup in Hh as [Hh _]. eauto. Qed.

(** A server put under a new id and a new name has landed. *)
Lemma insert_lands (r : CreateServerRequest) (w : W) (id : Z) (w' : W) :
  unnamed (held_servers w) (req_Name r) -> held_servers w !! id = None ->
  held_servers w' = <[ id := requested r ]> (held_servers w) -> lands r w id w'.
Proof.
  intros Hn Hid Hw. split; [done|]. unfold fleet. split.
  - apply map_lookup_filter_None. by left.
  - intros Hm. by rewrite Hw, map_filter_insert_True.
Qed.

Context {HL : HetznerLaws}.

(** ** Creating *)

(** The fleet since a launch began: as it was, or with the claim's server. *)
Definition grown (claim : string) (F F' : fleet_state) : Prop :=
  F' = F \/ exists id h, F !! id = None /\ unnamed F claim /\ ours cluster claim h /\ F' = <[ id := h ]> F.

(** A request for the claim's server. *)
Definition for_claim (claim : string) (r : CreateServerRequest) : Prop :=
  ours cluster claim (requested r).

Lemma lands_grown (claim : string) (r : CreateServerRequest) (F : fleet_state) w id w' :
  for_claim claim r -> lands r w id w' -> grown claim F (fleet w) ->
  grown claim F (fleet w') /\ fleet w' !! id = Some (requested r).
Proof.
  intros Hr (Hn & Hid & Hf) Hg. pose proof Hr as (Hname & Hown & _). cbn in Hname.
  rewrite (Hf Hown). split; [|apply lookup_insert_eq]. apply unnamed_fleet in Hn. rewrite Hname in Hn.
  destruct Hg as [Hg|(i & h & _ & _ & Hh & Hg)].
  - rewrite Hg in *. right. by exists id, (requested r).
  - exfalso. apply (Hn i h); [|apply Hh]. rewrite Hg. apply lookup_insert_eq.
Qed.

(** A server is in the fleet, for the claim. *)
Definition serves (claim : string) (srv : Server) (w : W) : Prop :=
  exists h, fleet w !! srv_ID srv = Some h /\ ours cluster claim h.

Lemma adopt_fleet (p : Provider) (nodeClaim : NodeClaim) (st : PState W) :
  p_clusterName p = cluster ->
  let '(r, st') := adopt p (cl_Name nodeClaim) nodeClaim st in
  fleet (ps_world st') = fleet (ps_world st) /\
  forall srv, r = Ok srv -> serves (cl_Name nodeClaim) srv (ps_world st').
Proof using HL.
  intros Hp. unfold adopt, io_bind, call_api, io_ret.
  pose proof (law_GetByName (cl_Name nodeClaim) (ps_world st)) as Hl.
  destruct (api_GetByName (cl_Name nodeClaim) (ps_world st)) as [out w']. destruct Hl as [Hf Hout].
  cbn [ps_world]. split; [done|]. intros srv Hr. destruct out as [[s|]|e]; [|done|done].
  destruct (negb _ || negb _) eqn:Ea; [done|]. injection Hr as <-. apply adoptableb in Ea as [[_ Ho] Hc].
  rewrite Hp in Ho. destruct Hout as (Hs & Hname & _). exists (held_of s). rewrite Hf. split; [|done].
  by apply fleet_lookup.
Qed.

(** Runs the monad between two calls, none of which it makes. *)
Ltac run_local :=
  repeat (unfold io_bind, io_ret, call_api, observe, now, emit, mark_unavailable, invalidate_cache;
          cbn [fst snd ps_world]).

Lemma io_bind_eq {A B} (m : IO W A) (k : A -> IO W B) st a st' :
  m st = (a, st') -> io_bind m k st = k a st'.
Proof. unfold io_bind. by intros ->. Qed.

(** A step of a launch: the fleet stays grown, and a server returned serves. *)
Definition launches {A} (claim : string) (m : IO W A) (returned : A -> option Server) : Prop :=
  forall F st, grown claim F (fleet (ps_world st)) ->
    grown claim F (fleet (ps_world (m st).2)) /\
    forall srv, returned (m st).1 = Some srv -> serves claim srv (ps_world (m st).2).

Definition returned_server (res : created) : option Server :=
  match res with Ok (srv, _) => Some srv | Err _ => None end.

Lemma config_failure_launches (p : Provider) (nodeClaim : NodeClaim) its started r err :
  p_clusterName p = cluster -> req_Name r = cl_Name nodeClaim ->
  launches (cl_Name nodeClaim) (config_failure p nodeClaim its started r err) returned_server.
Proof using HL.
  intros Hp Hn F st Hg. unfold config_failure. rewrite Hn.
  case_decide; [|by run_local].
  pose proof (adopt_fleet p nodeClaim st Hp) as Ha.
  destruct (adopt p (cl_Name nodeClaim) nodeClaim st) as [r' st'] eqn:E.
  rewrite (io_bind_eq _ _ _ _ _ E). destruct Ha as [Hf Ha]. rewrite <- Hf in Hg.
  destruct r' as [srv|e]; run_local; (split; [done|]); [|done].
  intros srv' [= <-]. by apply Ha.
Qed.

Lemma create_attempt_launches (p : Provider) (nodeClaim : NodeClaim) its started base c :
  p_clusterName p = cluster -> for_claim (cl_Name nodeClaim) base ->
  launches (cl_Name nodeClaim) (create_attempt p nodeClaim its started base c)
    (fun out => match out with inl _ => None | inr res => returned_server res end).
Proof using HL.
  intros Hp Hb F st Hg. assert (for_claim (cl_Name nodeClaim) (for_candidate base c)) as Hr by done.
  unfold create_attempt.
  destruct (api_Create (for_candidate base c) (ps_world st)) as [out w'] eqn:Ec.
  erewrite io_bind_eq by (unfold call_api; by rewrite Ec). destruct out as [s|err].
  - pose proof (law_created _ _ _ _ Ec) as Hl. apply (lands_grown _ _ F _ _ _ Hr) in Hl as [Hg' Hl]; [|done].
    run_local. split; [done|]. intros srv [= <-]. by exists (requested (for_candidate base c)).
  - assert (grown (cl_Name nodeClaim) F (fleet w')) as Hg'.
    { destruct (law_refused _ _ _ _ Ec) as [->|[id Hl]]; [done|].
      by apply (lands_grown _ _ F _ _ _ Hr) in Hl as [Hg' _]. }
    erewrite io_bind_eq by reflexivity.
    destruct (negb _ && negb _); (erewrite io_bind_eq by reflexivity);
      destruct (Classify (Some err)); try by run_local.
    all: match goal with |- context [io_bind (config_failure _ _ _ _ _ _) _ ?st0] =>
      pose proof (config_failure_launches p nodeClaim its started (for_candidate base c) err Hp
        (proj1 Hr) F st0 Hg') as Hc;
      destruct (config_failure p nodeClaim its started _ err st0) as [res st1] eqn:E;
      rewrite (io_bind_eq _ _ _ _ _ E); exact Hc end.
Qed.

Lemma create_loop_launches (p : Provider) (nodeClaim : NodeClaim) its started base ex cs :
  p_clusterName p = cluster -> for_claim (cl_Name nodeClaim) base -> forall last,
  launches (cl_Name nodeClaim) (create_loop p nodeClaim its started base ex last cs) returned_server.
Proof using HL.
  intros Hp Hb. induction cs as [|c cs IH]; intros last F st Hg; cbn [create_loop].
  { destruct last as [[c e]|]; by run_local. }
  pose proof (create_attempt_launches p nodeClaim its started base c Hp Hb F st Hg) as Ha.
  destruct (create_attempt p nodeClaim its started base c st) as [out st'] eqn:E.
  rewrite (io_bind_eq _ _ _ _ _ E). destruct out as [e|res]; [|exact Ha]. apply IH, Ha.
Qed.

Lemma Create_launches (p : Provider) nodeClass (nodeClaim : NodeClaim) its userData :
  p_clusterName p = cluster ->
  launches (cl_Name nodeClaim) (Create p nodeClass nodeClaim its userData) returned_server.
Proof using HL.
  intros Hp F st Hg. unfold Create. destruct (orderedCandidates nodeClaim its); [done|].
  destruct (baseRequest p nodeClass nodeClaim userData) as [req|e] eqn:Eb; [|done].
  destruct (request_ownership p nodeClass nodeClaim userData req Eb) as (_ & Hm & Hn & _ & _ & Hname & _).
  erewrite io_bind_eq by reflexivity. apply create_loop_launches; [done| |done].
  split; [done|]. split; [cbn; congruence|]. cbn. unfold map_get. by rewrite Hn.
Qed.

(** ** Deleting and reading *)

Lemma Delete_fleet (p : Provider) (pid : string) (st : PState W) :
  p_clusterName p = cluster ->
  fleet_step cluster (FDelete (match ServerIDFromProviderID pid with Ok id => id | Err _ => 0 end))
    (fleet (ps_world st))
    (match (Delete p pid st).1 with None => FDone | Some _ => FError end)
    (fleet (ps_world (Delete p pid st).2)).
Proof using HL.
  intros Hp. unfold Delete. destruct (ServerIDFromProviderID pid) as [id|e]; [|constructor].
  pose proof (law_Get id (ps_world st)) as Hget. destruct (api_Get id (ps_world st)) as [out w'] eqn:Eg.
  destruct Hget as [Hf Hout]. erewrite io_bind_eq by (unfold call_api; by rewrite Eg).
  destruct out as [[srv|]|e]; try (cbn; rewrite Hf; constructor).
  destruct (negb (IsManagedBy (Some srv) (p_clusterName p))) eqn:Em; [cbn; rewrite Hf; constructor|].
  apply negb_false_iff, IsManagedBy_owned in Em as [_ Ho]. rewrite Hp in Ho.
  assert (fleet (ps_world st) !! id = Some (held_of srv)) as Hid by by apply fleet_lookup.
  cbn [ps_world]. pose proof (law_Delete id w') as Hdel. destruct (api_Delete id w') as [err w2] eqn:Ed.
  erewrite io_bind_eq by (unfold call_api; cbn [ps_world]; by rewrite Ed). rewrite Hf in Hdel.
  destruct err as [e|]; cbn.
  - destruct Hdel as [->| ->]; by econstructor.
  - rewrite Hdel. by econstructor.
Qed.

Lemma cached_list_fleet (p : Provider) (st : PState W) :
  fleet (ps_world (cached_list p st).2) = fleet (ps_world st).
Proof using HL.
  unfold cached_list, list_seq. destruct (fresh _ _); [done|].
  pose proof (law_List (ManagedBySelector (p_clusterName p)) (ps_world st)) as Hl.
  by destruct (api_List _ _) as [[l|e] w'].
Qed.

Lemma List_fleet (p : Provider) (st : PState W) : fleet (ps_world (List p st).2) = fleet (ps_world st).
Proof using HL.
  unfold List. destruct (_ =? "")%string; [done|]. pose proof (cached_list_fleet p st) as Hc.
  unfold io_bind. by destruct (cached_list p st).
Qed.

Lemma Get_fleet (p : Provider) (pid : string) (st : PState W) :
  fleet (ps_world (Get p pid st).2) = fleet (ps_world st).
Proof using HL.
  unfold Get. destruct (_ =? "")%string; [done|]. destruct (ServerIDFromProviderID pid) as [id|e]; [|done].
  pose proof (cached_list_fleet p st) as Hc. destruct (cached_list p st) as [[l|e] st'] eqn:E;
    rewrite (io_bind_eq _ _ _ _ _ E); [|done]. destruct (find_server id l); [done|].
  pose proof (law_Get id (ps_world st')) as Hg. unfold io_bind, call_api.
  destruct (api_Get id (ps_world st')) as [out w']. destruct Hg as [Hf _]. cbn in *. congruence.
Qed.

Lemma Reboot_fleet (p : Provider) (pid name : string) (t : time) (st : PState W) :
  fleet (ps_world (Reboot p pid name t st).2) = fleet (ps_world st).
Proof using HL.
  unfold Reboot. destruct (ServerIDFromProviderID pid) as [id|e]; [|done].
  pose proof (law_Get id (ps_world st)) as Hget. destruct (api_Get id (ps_world st)) as [out w'] eqn:Eg.
  destruct Hget as [Hf _]. erewrite io_bind_eq by (unfold call_api; by rewrite Eg).
  destruct out as [[srv|]|e]; [|done|done].
  destruct (negb _); [done|]. destruct (negb _); [done|].
  pose proof (law_RecentActions id w') as Ha. destruct (api_RecentActions id w') as [acts w2] eqn:Er.
  erewrite io_bind_eq by (unfold call_api; cbn [ps_world]; by rewrite Er). cbn [snd] in Ha.
  destruct acts as [acts|e]; [|cbn; congruence].
  destruct (scan_actions t acts false) as [cmd|[]]; [cbn; congruence..|].
  destruct (_ =? "off")%string; [cbn; congruence|].
  pose proof (law_Reset id w2) as Hr. unfold io_bind, call_api. cbn [ps_world].
  destruct (api_Reset id w2) as [err w3]. cbn in *. congruence.
Qed.

(** ** The refinement *)

(** An operation, and what it reports. *)
Definition run_op (p : Provider) (o : op) (st : PState W) : fleet_out * PState W :=
  match o with
  | OCreate nodeClass nodeClaim its userData =>
      let '(r, st) := Create p nodeClass nodeClaim its userData st in
      (match returned_server r with Some srv => FServer (srv_ID srv) | None => FError end, st)
  | OList => (FDone, (List p st).2)
  | OGet pid => (FDone, (Get p pid st).2)
  | ODelete pid =>
      let '(err, st) := Delete p pid st in (match err with None => FDone | Some _ => FError end, st)
  | OReboot pid name t => (FDone, (Reboot p pid name t st).2)
  end.

(** The operation of the specification it implements. *)
Definition abs_op (o : op) : fleet_op :=
  match o with
  | OCreate _ nodeClaim _ _ => FLaunch (cl_Name nodeClaim)
  | ODelete pid => FDelete (match ServerIDFromProviderID pid with Ok id => id | Err _ => 0 end)
  | OList | OGet _ | OReboot _ _ _ => FRead
  end.

Lemma run_op_refines (p : Provider) (o : op) (st : PState W) :
  p_clusterName p = cluster ->
  fleet_step cluster (abs_op o) (fleet (ps_world st)) (run_op p o st).1
    (fleet (ps_world (run_op p o st).2)).
Proof using HL.
  intros Hp. destruct o as [nodeClass nodeClaim its userData| |pid|pid|pid name t]; cbn [abs_op run_op].
  - pose proof (Create_launches p nodeClass nodeClaim its userData Hp (fleet (ps_world st)) st
      (or_introl eq_refl)) as [Hg Hs].
    destruct (Create p nodeClass nodeClaim its userData st) as [r st']. cbn [fst snd] in *.
    destruct (returned_server r) as [srv|] eqn:Er.
    + destruct (Hs srv eq_refl) as (h & Hh & Ho).
      destruct Hg as [Hg|(id & h' & Hid & Hn & Ho' & Hg)]; rewrite Hg in *; [by eapply fs_adopted|].
      apply lookup_insert_Some in Hh as [[<- _]|[_ Hh]]; [by apply fs_launched|].
      by destruct (Hn _ _ Hh (proj1 Ho)).
    + destruct Hg as [->|(id & h' & Hid & Hn & Ho' & ->)]; by constructor.
  - cbn [fst snd]. rewrite List_fleet. constructor.
  - cbn [fst snd]. rewrite Get_fleet. constructor.
  - pose proof (Delete_fleet p pid st Hp) as Hd. by destruct (Delete p pid st).
  - cbn [fst snd]. rewrite Reboot_fleet. constructor.
Qed.

(** The instance provider implements the fleet: whatever the project holds and
    however its calls turn out, each operation is a step of the specification.  A
    launch adds one server, of its NodeClaim and its cluster, or returns the one
    that is there, or fails, and then has added at most that one; a deletion
    removes the server it names, of this cluster, or fails; reads and reboots
    change nothing. *)
Theorem provider_refines_fleet (o : op) (st : PState W) :
  let '(out, st') := run_op (NewProvider cluster) o st in
  fleet_step cluster (abs_op o) (fleet (ps_world st)) out (fleet (ps_world st')).
Proof using HL.
  pose proof (run_op_refines (NewProvider cluster) o st eq_refl) as Hr. by destruct (run_op _ o st).
Qed.

(** A history: operations of the provider and, between them, anything by anyone
    else that does not make servers in the cluster's name. *)
Inductive fleet_event : PState W -> PState W -> Prop :=
  | ev_op o st : fleet_event st (run_op (NewProvider cluster) o st).2
  | ev_others st st' : fleet (ps_world st') ⊆ fleet (ps_world st) -> fleet_event st st'.

(** Never two servers for one NodeClaim.  Over any history, retries, lost
    answers, deletions by hand and restarts with empty caches included, every
    server of the cluster keeps the name of the NodeClaim on its label, and no two
    carry the label of the same one: no NodeClaim is paid for twice.  What Hetzner
    guarantees is that names are unique; that a name stands for a NodeClaim is the
    provider's doing. *)
Theorem one_server_per_claim (st st' : PState W)
    (Hrun : rtc fleet_event st st') (Hst : accounted (fleet (ps_world st))) :
  accounted (fleet (ps_world st')) /\ one_per_claim (fleet (ps_world st')).
Proof using HL.
  enough (accounted (fleet (ps_world st'))) by eauto using accounted_one_per_claim.
  induction Hrun as [st|st1 st2 st3 Hev _ IH]; [done|]. apply IH. destruct Hev as [o st|st st' Hs].
  - eapply fleet_step_accounted; [|exact Hst]. by apply run_op_refines.
  - by eapply accounted_subseteq.
Qed.

Lemma grown_present (claim : string) (F F' : fleet_state) (id : Z) (h : held) :
  F !! id = Some h -> ours cluster claim h -> grown claim F F' -> F' = F.
Proof. intros Hid Ho [->|(i & h' & _ & Hn & _)]; [done|]. by destruct (Hn id h Hid (proj1 Ho)). Qed.

Lemma Classify_uniqueness (e : error) : Code (Some e) = Some CodeUniqueness -> Classify (Some e) = ClassConfig.
Proof. unfold Classify. by intros ->. Qed.

Lemma adopt_present (p : Provider) (nodeClaim : NodeClaim) (st : PState W) id h :
  p_clusterName p = cluster -> cluster <> "" ->
  fleet (ps_world st) !! id = Some h -> ours cluster (cl_Name nodeClaim) h ->
  is_ok (api_GetByName (cl_Name nodeClaim) (ps_world st)).1 = true ->
  exists srv st', adopt p (cl_Name nodeClaim) nodeClaim st = (Ok srv, st').
Proof using HL.
  intros Hp Hne Hid (Hname & Hm & Hc) Hok. unfold adopt, io_bind, call_api, io_ret.
  pose proof (law_GetByName (cl_Name nodeClaim) (ps_world st)) as Hl. apply fleet_lookup in Hid as [Hid _].
  destruct (api_GetByName (cl_Name nodeClaim) (ps_world st)) as [[[s|]|e] w']; [| |done].
  - destruct Hl as (_ & Hs & _ & Huniq). rewrite <- (Huniq id h Hid Hname), Hid in Hs. injection Hs as ->.
    exists s. eexists. f_equal. rewrite (proj2 (adoptableb p nodeClaim s)); [done|]. split; [|done].
    by rewrite Hp.
  - destruct Hl as [_ Hn]. by destruct (Hn id h Hid).
Qed.

Lemma create_attempt_duplicate (p : Provider) (nodeClaim : NodeClaim) its started base c (st : PState W) id h e w1 :
  p_clusterName p = cluster -> cluster <> "" -> req_Name base = cl_Name nodeClaim ->
  fleet (ps_world st) !! id = Some h -> ours cluster (cl_Name nodeClaim) h ->
  api_Create (for_candidate base c) (ps_world st) = (Err e, w1) -> Code (Some e) = Some CodeUniqueness ->
  is_ok (api_GetByName (cl_Name nodeClaim) w1).1 = true ->
  exists srv it, (create_attempt p nodeClaim its started base c st).1 = inr (Ok (srv, it)).
Proof using HL.
  intros Hp Hne Hn Hid Ho Hc Hcode Hok. rewrite <- (law_duplicate _ _ _ _ Hc Hcode) in Hid.
  unfold create_attempt. erewrite io_bind_eq by (unfold call_api; by rewrite Hc).
  cbv beta iota zeta. erewrite io_bind_eq by reflexivity. rewrite (Classify_uniqueness e Hcode).
  destruct (negb _ && negb _); (erewrite io_bind_eq by reflexivity).
  all: unfold config_failure; cbn [req_Name for_candidate]; rewrite Hn;
    rewrite decide_True by (by apply code_or_empty_uniqueness).
  all: match goal with |- context [io_bind (io_bind (adopt _ _ _) _) _ ?st1] =>
    destruct (adopt_present p nodeClaim st1 id h Hp Hne Hid Ho Hok) as (srv & st2 & Ha);
    unfold io_bind at 2; unfold io_bind at 1; rewrite Ha; run_local; eauto end.
Qed.

(** C9. A launch whose answer was lost is recovered.  Once a server of the NodeClaim
    is in the fleet, Create never makes another, and what it returns is that
    server; and as soon as Hetzner reports the name as taken and answers the
    lookup, it does return it. *)
Theorem lost_launch_recovered nodeClass (nodeClaim : NodeClaim) its userData (st : PState W) id h
    (Hid : fleet (ps_world st) !! id = Some h) (Ho : ours cluster (cl_Name nodeClaim) h)
    (Hd : distinct (fleet (ps_world st))) :
  let '(r, st') := Create (NewProvider cluster) nodeClass nodeClaim its userData st in
  fleet (ps_world st') = fleet (ps_world st) /\
  (forall srv it, r = Ok (srv, it) -> srv_ID srv = id) /\
  (forall base c cs e w1,
     baseRequest (NewProvider cluster) nodeClass nodeClaim userData = Ok base ->
     orderedCandidates nodeClaim its = c :: cs ->
     api_Create (for_candidate base c) (ps_world st) = (Err e, w1) ->
     Code (Some e) = Some CodeUniqueness ->
     is_ok (api_GetByName (cl_Name nodeClaim) w1).1 = true ->
     exists srv it, r = Ok (srv, it)).
Proof using HL.
  pose proof (Create_launches (NewProvider cluster) nodeClass nodeClaim its userData eq_refl
    (fleet (ps_world st)) st (or_introl eq_refl)) as [Hg Hs].
  destruct (Create _ nodeClass nodeClaim its userData st) as [r st'] eqn:Ec. cbn [fst snd] in *.
  pose proof (grown_present _ _ _ _ _ Hid Ho Hg) as Hsame. split; [done|]. split.
  - intros srv it ->. destruct (Hs srv eq_refl) as (h' & Hh' & Ho'). rewrite Hsame in Hh'.
    eapply Hd; [done|done|]. destruct Ho, Ho'. congruence.
  - intros base c cs e w1 Hb Hcs Hc Hcode Hans.
    destruct (request_ownership _ _ _ _ _ Hb) as (Hne & _ & _ & _ & _ & Hname & _).
    unfold Create in Ec. rewrite Hcs, Hb in Ec. erewrite io_bind_eq in Ec by reflexivity.
    destruct (create_attempt_duplicate (NewProvider cluster) nodeClaim its (world_now (ps_world st)) base c st
      id h e w1 eq_refl Hne Hname Hid Ho Hc Hcode Hans) as (srv & it & Ha).
    exists srv, it. cbn [p_maxAttempts NewProvider length Nat.min DefaultMaxCreateAttempts take create_loop] in Ec.
    destruct (create_attempt _ nodeClaim its _ base c st) as [out st1] eqn:E.
    rewrite (io_bind_eq _ _ _ _ _ E) in Ec. cbn [fst] in Ha. subst out. by injection Ec as <- _.
Qed.
End Fleet.

(** ** Witnesses: a project that loses answers *)

Module FleetExample.
Import KubeExample CatalogExample.
#[export] Instance alloc : CoreAllocatable := fun it => Allocatable (it_Capacity it) (it_Overhead it).
#[export] Instance unwraps : KarpErrors := fun _ => true.
#[export] Instance etext : ErrorText := fun _ => "error".

(** The servers, and for how many more creates the answer is lost. *)
Definition project : Type := gmap Z held * nat.

#[export] Instance project_servers : Project project := fst.
#[export] Instance project_clock : Clock project := fun _ => 10 * minute.

Definition server_of (id : Z) (h : held) : Server :=
  {| srv_ID := id; srv_Name := hd_Name h; srv_ServerType := "cx23"; srv_Location := "nbg1";
     srv_Status := "running"; srv_Labels := hd_Labels h; srv_ImageID := 0; srv_Created := second;
     srv_PrivateIPv4 := ""; srv_PublicIPv4 := ""; srv_NetworkIDs := []; srv_FirewallIDs := [];
     srv_PlacementGroupID := 0; srv_HasPublicIPv4 := true; srv_HasPublicIPv6 := true |}.

Lemma held_of_server_of (id : Z) (h : held) : held_of (server_of id h) = h.
Proof. by destruct h. Qed.

(** The only server of a name, if it is the only one. *)
Definition the_named (name : string) (m : gmap Z held) : list (Z * held) :=
  filter (fun ih => hd_Name ih.2 = name) (map_to_list m).

Definition create (r : CreateServerRequest) (w : project) : result Server * project :=
  match the_named (req_Name r) w.1 with
  | [] =>
      let id := base.fresh (dom w.1) in
      let m := <[ id := requested r ]> w.1 in
      match w.2 with
      | O => (Ok (server_of id (requested r)), (m, O))
      | S n => (Err (HcloudError CodeTimeout "timeout" None), (m, n))
      end
  | _ => (Err (HcloudError CodeUniqueness "server name is already used" None), w)
  end.

#[export] Instance project_api : Servers project := {|
  api_Create := create;
  api_Delete id w := (None, (delete id w.1, w.2));
  api_Get id w := (Ok (server_of id <$> w.1 !! id), w);
  api_GetByName name w :=
    (match the_named name w.1 with
     | [] => Ok None
     | [(id, h)] => Ok (Some (server_of id h))
     | _ => Err (Errorf "ambiguous")
     end, w);
  api_List _ w := (Ok ((fun ih => Some (server_of ih.1 ih.2)) <$> map_to_list w.1), w);
  api_Reset _ w := (None, w);
  api_RecentActions _ w := (Ok [], w)
|}.

Lemma the_named_spec (name : string) (m : gmap Z held) (id : Z) (h : held) :
  (id, h) ∈ the_named name m <-> m !! id = Some h /\ hd_Name h = name.
Proof. unfold the_named. rewrite list_elem_of_filter, elem_of_map_to_list. cbn. tauto. Qed.

Lemma the_named_nil (name : string) (m : gmap Z held) : the_named name m = [] -> unnamed m name.
Proof.
  intros Hn id h Hid Hh. assert ((id, h) ∈ the_named name m) as Hin by by apply the_named_spec.
  rewrite Hn in Hin. by apply elem_of_nil in Hin.
Qed.

Lemma create_lands (r : CreateServerRequest) (m : gmap Z held) (n n' : nat) :
  the_named (req_Name r) m = [] ->
  lands "prod" r (m, n) (base.fresh (dom m)) (<[ base.fresh (dom m) := requested r ]> m, n').
Proof.
  intros Hn. apply insert_lands; [by apply the_named_nil|by apply not_elem_of_dom, is_fresh|done].
Qed.

#[export] Instance project_laws : HetznerLaws (W := project) "prod".
Proof.
  split; cbn [api_Create api_Delete api_Get api_GetByName api_List api_Reset api_RecentActions project_api].
  - intros r [m n] s w' Hc. unfold create in Hc. cbn [fst snd] in Hc.
    destruct (the_named _ m) eqn:En; [|done].
    destruct n as [|n]; [|done]. injection Hc as <- <-. by apply create_lands.
  - intros r [m n] e w' Hc. unfold create in Hc. cbn [fst snd] in Hc.
    destruct (the_named _ m) eqn:En; [|left; by injection Hc as _ <-].
    destruct n as [|n]; [done|]. injection Hc as _ <-. right. eexists. by apply create_lands.
  - intros r [m n] e w' Hc. unfold create in Hc. cbn [fst snd] in Hc.
    destruct (the_named _ m) eqn:En; [|by injection Hc as _ <-].
    destruct n as [|n]; [done|]. by injection Hc as <- _.
  - intros name [m n]. cbn [fst snd]. split; [done|]. unfold held_servers, project_servers. cbn [fst].
    destruct (the_named name m) as [|[id h] l] eqn:En; [by apply the_named_nil|]. destruct l; [|done].
    assert ((id, h) ∈ the_named name m) as Hin by (rewrite En; by left).
    apply the_named_spec in Hin as [Hid Hh]. rewrite held_of_server_of. split; [done|]. split; [done|].
    intros id' h' Hid' Hh'. assert ((id', h') ∈ the_named name m) as Hin by by apply the_named_spec.
    rewrite En in Hin. apply list_elem_of_singleton in Hin. by injection Hin as -> ->.
  - intros id [m n]. cbn [fst snd]. split; [done|]. unfold held_servers, project_servers. cbn [fst].
    destruct (m !! id) as [h|]; [|done]. cbn. by rewrite held_of_server_of.
  - intros id [m n]. cbn [fst snd]. apply map_filter_delete.
  - done.
  - done.
  - done.
Qed.

(** An empty project that loses the first answer. *)
Definition losing : PState project := init_state (∅, 1%nat).

Definition launch : op :=
  OCreate (nodeClass ["nbg1"] ∅) example_claim (types [] NewUnavailable) "#cloud-config".

(** The first launch fails and has landed; the second returns its server. *)
Definition first := run_op (NewProvider "prod") launch losing.
Definition second := run_op (NewProvider "prod") launch first.2.

Lemma distinct_empty : distinct ∅.
Proof. intros i j hi hj Hi. by rewrite lookup_empty in Hi. Qed.

Lemma accounted_empty : accounted ∅.
Proof. split; [apply map_Forall_empty|exact distinct_empty]. Qed.

Lemma provider_refines_fleet_witness :
  first.1 = FError /\ size (fleet "prod" (ps_world first.2)) = 1%nat /\
  (exists id, second.1 = FServer id) /\
  fleet_step "prod" (FLaunch (cl_Name example_claim)) (fleet "prod" (ps_world first.2)) second.1
    (fleet "prod" (ps_world second.2)).
Proof.
  split; [by vm_compute|]. split; [by vm_compute|]. split; [eexists; by vm_compute|].
  pose proof (provider_refines_fleet "prod" launch first.2) as Hr.
  unfold second. destruct (run_op (NewProvider "prod") launch first.2). exact Hr.
Defined.

Lemma one_server_per_claim_witness :
  accounted (fleet "prod" (ps_world second.2)) /\ one_per_claim (fleet "prod" (ps_world second.2)).
Proof.
  apply (one_server_per_claim "prod" losing second.2); [|exact accounted_empty].
  eapply rtc_l; [apply (ev_op "prod" launch losing)|]. apply rtc_once. apply (ev_op "prod" launch first.2).
Defined.

Lemma first_distinct : distinct (fleet "prod" (ps_world first.2)).
Proof.
  exact (fleet_step_distinct _ _ _ _ _ (run_op_refines "prod" (NewProvider "prod") launch losing eq_refl)
    distinct_empty).
Qed.

Lemma first_landed : exists id h,
  fleet "prod" (ps_world first.2) !! id = Some h /\ ours "prod" (cl_Name example_claim) h.
Proof.
  set (F := fleet "prod" (ps_world first.2)).
  assert (forallb (fun ih => bool_decide (ours "prod" (cl_Name example_claim) ih.2)) (map_to_list F) = true /\
          length (map_to_list F) = 1%nat) as [Ho Hl] by (split; by vm_compute).
  destruct (map_to_list F) as [|[id h] l] eqn:E; [done|]. exists id, h.
  rewrite <- elem_of_map_to_list, E. split; [by left|]. cbn [forallb snd] in Ho.
  apply andb_prop in Ho as [Ho _]. by apply bool_decide_eq_true in Ho.
Qed.

(** The second launch returns the server the first one made, and makes none. *)
Lemma lost_launch_recovered_witness :
  exists id srv it st',
    Create (NewProvider "prod") (nodeClass ["nbg1"] ∅) example_claim (types [] NewUnavailable) "#cloud-config"
      first.2 = (Ok (srv, it), st') /\
    srv_ID srv = id /\ fleet "prod" (ps_world st') = fleet "prod" (ps_world first.2).
Proof.
  destruct first_landed as (id & h & Hid & Ho).
  pose proof (lost_launch_recovered "prod" (nodeClass ["nbg1"] ∅) example_claim (types [] NewUnavailable)
    "#cloud-config" first.2 id h Hid Ho first_distinct) as Hr.
  assert (is_ok (Create (NewProvider "prod") (nodeClass ["nbg1"] ∅) example_claim (types [] NewUnavailable)
    "#cloud-config" first.2).1 = true) as Hok by by vm_compute.
  destruct (Create _ _ example_claim _ _ first.2) as [[[srv it]|e] st']; [|discriminate Hok].
  destruct Hr as (Hf & Hsrv & _). exists id, srv, it, st'.
  exact (conj eq_refl (conj (Hsrv srv it eq_refl) Hf)).
Defined.
End FleetExample.
