(* ===== verification/FleetClient.v ===== *)
(** The adapter keeps Hetzner's word: [ServerClient] under [Fleet].

    [Fleet] is proved against the [Servers] interface and [HetznerLaws]; here the
    interface is the adapter of [internal/hcloudapi/servers.go], and the laws are
    derived from what hcloud-go documents of its own calls ([SdkLaws]): a create
    that waits, cleans up and reads back still makes the server asked for or
    leaves at most that one behind, and an error keeps the code that decides
    whether it is adopted, through redaction and wrapping. *)

From S2P Require Import Prelude GoErrors Float64 GoText Servers Redact ServerClient Kube Api.
From S2P Require Import Unavailable Resources InstanceTypes NodeClaims Candidates ListCache Sim Instance.
From S2P Require Import InstanceTraces Fleet.

(** ** Codes in a tree of errors *)

Section Codes.
Context `{GT : GoText, KE : KarpErrors, ET : ErrorText}.

(** The node is one of hcloud-go's with this code, as a value or a pointer. *)
Definition carries (c : error_code) (err : error) : option () :=
  match hcloudNode err with
  | Some (NodeAPI c' _ _) | Some (NodeAction c' _ _) => if decide (c' = c) then Some () else None
  | None => None
  end.

Definition mentions (c : error_code) (err : error) : Prop := is_Some (errors_as (carries c) err).

(** What one search finds, a search that accepts the node finds too. *)
Lemma errors_as_found {A B} (f : error -> option A) (g : error -> option B) (a : A) (err : error) :
  (forall e, f e = Some a -> is_Some (g e)) -> errors_as f err = Some a -> is_Some (errors_as g err).
Proof.
  intros Hfg. revert err. fix IH 1. intros err Hf.
  destruct (g err) as [b|] eqn:Eg; [destruct err; cbn [errors_as]; rewrite Eg; eauto|].
  destruct (f err) as [a'|] eqn:Ef.
  { assert (a' = a) as -> by (destruct err; cbn [errors_as] in Hf; rewrite Ef in Hf; congruence).
    apply Hfg in Ef as [b Eb]. congruence. }
  destruct err as [| |es| | | | | | | | |]; cbn [errors_as] in *; rewrite Ef in Hf; rewrite Eg; try done.
  - by apply IH.
  - clear Ef Eg. induction es as [|e es IHes]; [done|].
    destruct (errors_as f e) as [a'|] eqn:E.
    + injection Hf as ->. destruct (IH e E) as [b ->]. eauto.
    + destruct (errors_as g e); [eauto|]. by apply IHes.
  - by apply IH.
  - destruct (karp_unwraps kind); [by apply IH|done].
Qed.

Lemma Code_mentions (c : error_code) (err : error) : Code (Some err) = Some c -> mentions c err.
Proof.
  unfold Code, mentions. intros Hc. destruct (errors_as as_hcloud_error err) as [c'|] eqn:E.
  - injection Hc as ->. revert E. apply errors_as_found. intros [] [= ->]. cbn. rewrite decide_True; eauto.
  - revert Hc. apply errors_as_found. intros [] [= ->]. cbn. rewrite decide_True; eauto.
Qed.

Lemma rebuilt_chain_mentions (apiToken : option string) (c : error_code) (err r : error) :
  rebuilt_chain apiToken err = Some r -> Code (Some r) = Some c -> mentions c err.
Proof.
  unfold mentions. induction err; cbn [rebuilt_chain]; unfold rebuild; simpl; intros H Hc; simplify_eq.
  all: try (cbn in Hc; injection Hc as ->; cbn; rewrite decide_True by done; eauto).
  all: cbn [errors_as]; auto.
  destruct (karp_unwraps kind); [auto|done].
Qed.

(** Redaction invents no code. *)
Lemma redact_mentions (apiToken : option string) (c : error_code) (err : error) :
  Code (Some (redact apiToken err)) = Some c -> mentions c err.
Proof.
  intros Hc. assert (Code (Some (default err (rebuilt_chain apiToken err))) = Some c) as He.
  { unfold redact in Hc. destruct (_ && _); [done|]. by destruct (Code (Some (default _ _))). }
  destruct (rebuilt_chain apiToken err) as [r|] eqn:E; cbn [default] in He.
  - by eapply rebuilt_chain_mentions.
  - by apply Code_mentions.
Qed.
End Codes.

(** ** What hcloud-go documents *)

Definition held_of_sdk (s : sdk_server) : held := {| hd_Name := sv_Name s; hd_Labels := sv_Labels s |}.

Section Laws.
Context `{GT : GoText, KE : KarpErrors, ET : ErrorText} (apiToken : option string).
Context {W : Type} `{SDK : HcloudServers W, PJ : Project W} (cluster : string).

Class SdkLaws : Prop := {
  sdk_law_created : forall r w res w', sdk_Create (createOpts r) w = (Ok res, w') ->
    match cr_Server res with
    | Some made => lands cluster r w (sv_ID made) w'
    | None => fleet cluster w' = fleet cluster w \/ exists id, lands cluster r w id w'
    end;
  sdk_law_refused : forall r w e w', sdk_Create (createOpts r) w = (Err e, w') ->
    fleet cluster w' = fleet cluster w \/ exists id, lands cluster r w id w';
  (** A taken name is refused by the request itself, which then makes nothing. *)
  sdk_law_duplicate : forall r w e w', sdk_Create (createOpts r) w = (Err e, w') ->
    mentions CodeUniqueness e -> fleet cluster w' = fleet cluster w;
  sdk_law_WaitFor : forall ctx actions w,
    let '(err, w') := sdk_WaitFor ctx actions w in
    fleet cluster w' = fleet cluster w /\ forall e, err = Some e -> ~ mentions CodeUniqueness e;
  sdk_law_GetByID : forall id w,
    let '(out, w') := sdk_GetByID id w in
    fleet cluster w' = fleet cluster w /\
    match out with
    | Ok (Some s) => sv_ID s = id /\ held_servers w !! id = Some (held_of_sdk s)
    | Ok None => held_servers w !! id = None
    | Err e => ~ mentions CodeUniqueness e
    end;
  sdk_law_GetByName : forall name w,
    let '(out, w') := sdk_GetByName name w in
    fleet cluster w' = fleet cluster w /\
    match out with
    | Ok (Some s) => held_servers w !! sv_ID s = Some (held_of_sdk s) /\ sv_Name s = name /\
        forall id h, held_servers w !! id = Some h -> hd_Name h = name -> id = sv_ID s
    | Ok None => unnamed (held_servers w) name
    | Err _ => True
    end;
  sdk_law_Delete : forall ctx id w,
    let '(err, w') := sdk_Delete ctx id w in
    match err with
    | None => fleet cluster w' = delete id (fleet cluster w)
    | Some _ => fleet cluster w' = fleet cluster w \/ fleet cluster w' = delete id (fleet cluster w)
    end;
  sdk_law_AllWithOpts : forall sel w, fleet cluster (sdk_AllWithOpts sel w).2 = fleet cluster w;
  sdk_law_Reset : forall id w, fleet cluster (sdk_Reset id w).2 = fleet cluster w;
  sdk_law_ListFor : forall id w, fleet cluster (sdk_ListFor id w).2 = fleet cluster w
}.

Context {SL : SdkLaws}.

(** ** The adapter *)

Lemma lands_same_fleet (r : CreateServerRequest) (w : W) (id : Z) (w1 w2 : W) :
  lands cluster r w id w1 -> fleet cluster w2 = fleet cluster w1 -> lands cluster r w id w2.
Proof. intros (Hn & Hid & Hf) He. split; [done|]. split; [done|]. intros Hm. rewrite He. auto. Qed.

(** What a cleanup leaves: nothing, or the server it could not delete. *)
Lemma cleaned (r : CreateServerRequest) (w : W) (id : Z) (w1 w2 : W) :
  lands cluster r w id w1 ->
  fleet cluster w2 = fleet cluster w1 \/ fleet cluster w2 = delete id (fleet cluster w1) ->
  fleet cluster w2 = fleet cluster w \/ exists id, lands cluster r w id w2.
Proof.
  intros Hl [He|He]; [right; exists id; by eapply lands_same_fleet|].
  destruct Hl as (Hn & Hid & Hf).
  destruct (decide (req_Labels r !! LabelManagedBy = Some cluster)) as [Hm|Hm].
  - left. rewrite He, (Hf Hm). by apply delete_insert_id.
  - right. exists id. by split.
Qed.

Lemma deleteQuietly_fleet (ctx : Context) (id : Z) (w : W) :
  fleet cluster (deleteQuietly ctx id w) = fleet cluster w \/
  fleet cluster (deleteQuietly ctx id w) = delete id (fleet cluster w).
Proof using SL.
  unfold deleteQuietly. pose proof (sdk_law_Delete (context_WithTimeout ctx (30 * second)) id w) as Hd.
  destruct (sdk_Delete _ id w) as [[e|] w']; cbn [snd]; auto.
Qed.

(** How a create of the adapter ends, for the fleet. *)
Lemma client_Create_fleet (s : serverClient) (r : CreateServerRequest) (w : W) :
  let '(out, w') := client_Create apiToken s r w in
  match out with
  | Ok srv => lands cluster r w (srv_ID srv) w'
  | Err e => (fleet cluster w' = fleet cluster w \/ exists id, lands cluster r w id w') /\
             (Code (Some e) = Some CodeUniqueness -> fleet cluster w' = fleet cluster w)
  end.
Proof using SL.
  unfold client_Create. destruct (sdk_Create (createOpts r) w) as [[res|err] w1] eqn:Ec.
  2: { split; [by eapply sdk_law_refused|]. rewrite Code_wrap. intros Hc. apply redact_mentions in Hc.
       by eapply sdk_law_duplicate. }
  pose proof (sdk_law_created _ _ _ _ Ec) as Hl. destruct (cr_Server res) as [made|]; [|split; [done|discriminate]].
  pose proof (sdk_law_WaitFor (context_WithTimeout caller_ctx (sc_timeout s))
    (cr_Action res :: cr_NextActions res) w1) as Hw. cbv zeta.
  destruct (sdk_WaitFor _ _ w1) as [[err|] w2]; destruct Hw as [Hf He].
  - apply (lands_same_fleet _ _ _ _ w2) in Hl; [|done].
    split; [eapply cleaned; [exact Hl|apply deleteQuietly_fleet]|].
    rewrite Code_wrap. intros Hc. apply redact_mentions in Hc. by destruct (He err eq_refl).
  - apply (lands_same_fleet _ _ _ _ w2) in Hl; [|done]. unfold client_Get.
    pose proof (sdk_law_GetByID (sv_ID made) w2) as Hg.
    destruct (sdk_GetByID _ w2) as [[[srv|]|err] w3]; destruct Hg as [Hf' Hg]; cbn [fmap option_fmap option_map];
      apply (lands_same_fleet _ _ _ _ w3) in Hl; try done.
    + cbn [serverFromHcloud srv_ID]. by rewrite (proj1 Hg).
    + split; [by right; exists (sv_ID made)|discriminate].
    + split; [by right; exists (sv_ID made)|]. rewrite Code_wrap. intros Hc. by apply redact_mentions in Hc.
Qed.

(** A refusal of the request for its name comes out as one. *)
Lemma client_Create_shows_taken (s : serverClient) (r : CreateServerRequest) (w w1 : W) (e : error) :
  sdk_Create (createOpts r) w = (Err e, w1) -> Code (Some e) = Some CodeUniqueness ->
  exists e', client_Create apiToken s r w = (Err e', w1) /\ Code (Some e') = Some CodeUniqueness.
Proof.
  intros Hc He. unfold client_Create. rewrite Hc. eexists. split; [done|].
  rewrite Code_wrap. by apply redact_Code.
Qed.

(** And nothing else does: the waits and the read back never say so. *)
Lemma client_Create_taken_only (s : serverClient) (r : CreateServerRequest) (w w1 : W) (e' : error) :
  client_Create apiToken s r w = (Err e', w1) -> Code (Some e') = Some CodeUniqueness ->
  fleet cluster w1 = fleet cluster w /\
  exists e, sdk_Create (createOpts r) w = (Err e, w1) /\ mentions CodeUniqueness e.
Proof using SL.
  intros Hc Hcode. pose proof (client_Create_fleet s r w) as Hf. rewrite Hc in Hf.
  split; [by apply Hf|]. clear Hf. unfold client_Create in Hc.
  destruct (sdk_Create (createOpts r) w) as [[res|err] w2].
  2: { injection Hc as <- <-. exists err. split; [done|]. rewrite Code_wrap in Hcode. by eapply redact_mentions. }
  exfalso. destruct (cr_Server res) as [made|]; [|by injection Hc as <- _].
  pose proof (sdk_law_WaitFor (context_WithTimeout caller_ctx (sc_timeout s))
    (cr_Action res :: cr_NextActions res) w2) as Hw. cbv zeta in Hc.
  destruct (sdk_WaitFor _ _ w2) as [[err|] w3]; destruct Hw as [_ He].
  - injection Hc as <- _. rewrite Code_wrap in Hcode. apply redact_mentions in Hcode. by destruct (He err eq_refl).
  - unfold client_Get in Hc. pose proof (sdk_law_GetByID (sv_ID made) w3) as Hg.
    destruct (sdk_GetByID _ w3) as [[[srv|]|err] w4]; destruct Hg as [_ Hg];
      cbn [fmap option_fmap option_map] in Hc; [done|injection Hc as <- _; done|injection Hc as <- _].
    rewrite Code_wrap in Hcode. by apply redact_mentions in Hcode.
Qed.

(** The adapter is a [Servers] that keeps to Hetzner's laws. *)
#[export] Instance adapter_laws (s : serverClient) :
  HetznerLaws (SV := server_client apiToken s) cluster.
Proof using SL.
  split; cbn [api_Create api_Delete api_Get api_GetByName api_List api_Reset api_RecentActions server_client].
  - intros r w srv w' Hc. pose proof (client_Create_fleet s r w) as Hl. by rewrite Hc in Hl.
  - intros r w e w' Hc. pose proof (client_Create_fleet s r w) as Hl. rewrite Hc in Hl. apply Hl.
  - intros r w e w' Hc. pose proof (client_Create_fleet s r w) as Hl. rewrite Hc in Hl. apply Hl.
  - intros name w. unfold client_GetByName. pose proof (sdk_law_GetByName name w) as Hl.
    by destruct (sdk_GetByName name w) as [[[srv|]|e] w'].
  - intros id w. unfold client_Get. pose proof (sdk_law_GetByID id w) as Hl.
    destruct (sdk_GetByID id w) as [[[srv|]|e] w']; destruct Hl as [Hf Hl]; split; try done. apply Hl.
  - intros id w. unfold client_Delete. pose proof (sdk_law_Delete caller_ctx id w) as Hl.
    by destruct (sdk_Delete caller_ctx id w) as [[e|] w'].
  - intros sel w. unfold client_List. rewrite <- (sdk_law_AllWithOpts sel w).
    by destruct (sdk_AllWithOpts sel w) as [[] ?].
  - intros id w. unfold client_Reset. rewrite <- (sdk_law_Reset id w). by destruct (sdk_Reset id w).
  - intros id w. unfold client_RecentActions. rewrite <- (sdk_law_ListFor id w).
    by destruct (sdk_ListFor id w) as [[] ?].
Qed.
End Laws.

(** ** The stack *)

Section Stack.
Context `{KB : Kube, CA : !CoreAllocatable, GT : GoText, KE : KarpErrors, ET : ErrorText}.
Context {W : Type} `{SDK : HcloudServers W, CK : Clock W, PJ : Project W} (cluster : string).

(** C2. Provider and adapter together implement the fleet.  Over any hcloud-go that
    does what it documents, whatever fails and whenever, each operation of the
    provider is one step of the specification: a launch adds one server, of its
    NodeClaim and its cluster, or returns the one that is there, or fails, and then
    has added at most that one, also when the create was made and failed its
    actions and its cleanup; a deletion removes the server it names, of this
    cluster, or fails; reads and reboots change nothing.  No redaction or wrapping
    in between hides a taken name: a create hcloud-go refuses with the uniqueness
    code reaches the provider with that code.  None fakes one: what reaches it with
    that code is a create hcloud-go itself refused with it, and which left the
    fleet as it was. *)
Theorem stack_refines_fleet (apiToken : option string) (timeout : duration) (o : op) (st : PState W)
    (SL : SdkLaws cluster) :
  let SV := server_client apiToken (NewServersWithTimeout timeout) in
  (let '(out, st') := run_op (SV := SV) (NewProvider cluster) o st in
   fleet_step cluster (abs_op o) (fleet cluster (ps_world st)) out (fleet cluster (ps_world st'))) /\
  (forall r w e w1, sdk_Create (createOpts r) w = (Err e, w1) -> Code (Some e) = Some CodeUniqueness ->
     exists e', api_Create (Servers := SV) r w = (Err e', w1) /\ Code (Some e') = Some CodeUniqueness) /\
  (forall r w e' w1, api_Create (Servers := SV) r w = (Err e', w1) -> Code (Some e') = Some CodeUniqueness ->
     fleet cluster w1 = fleet cluster w /\
     exists e, sdk_Create (createOpts r) w = (Err e, w1) /\ mentions CodeUniqueness e).
Proof.
  cbv zeta. split; [|split].
  - pose proof (adapter_laws apiToken cluster (NewServersWithTimeout timeout)) as HL.
    pose proof (run_op_refines (SV := server_client apiToken (NewServersWithTimeout timeout)) cluster
      (NewProvider cluster) o st eq_refl) as Hr.
    by destruct (run_op _ o st).
  - intros r w e w1. apply client_Create_shows_taken.
  - intros r w e' w1. by apply client_Create_taken_only.
Qed.
End Stack.

Module StackExample.
Import KubeExample CatalogExample.
#[export] Instance alloc : CoreAllocatable := fun it => Allocatable (it_Capacity it) (it_Overhead it).
#[export] Instance unwraps : KarpErrors := fun _ => true.
#[export] Instance etext : ErrorText := fun _ => "error".

(** A project whose next creates fail their actions; cleanups time out. *)
Record project := { pj_servers : gmap Z held; pj_failing : nat }.

#[export] Instance project_servers : Project project := pj_servers.
#[export] Instance project_clock : Clock project := fun _ => 0.

Definition sdk_of (id : Z) (h : held) : sdk_server :=
  {| sv_ID := id; sv_Name := hd_Name h; sv_Status := "running"; sv_Labels := hd_Labels h;
     sv_Created := 0; sv_ServerType := Some "cx23"; sv_Location := Some "nbg1"; sv_Image := None;
     sv_IPv4 := None; sv_IPv4ID := 0; sv_IPv6ID := 0; sv_PlacementGroup := None;
     sv_Firewalls := []; sv_PrivateNet := [] |}.

Definition timed_out : error := HcloudError CodeTimeout "timeout" None.

Definition create (o : ServerCreateOpts) (w : project) : result ServerCreateResult * project :=
  match FleetExample.the_named (co_Name o) (pj_servers w) with
  | [] =>
      let id := base.fresh (dom (pj_servers w)) in
      let h := {| hd_Name := co_Name o; hd_Labels := co_Labels o |} in
      (Ok {| cr_Server := Some (sdk_of id h); cr_Action := Some 1; cr_NextActions := [] |},
       {| pj_servers := <[ id := h ]> (pj_servers w); pj_failing := pj_failing w |})
  | _ => (Err (HcloudError CodeUniqueness "server name is already used" None), w)
  end.

#[export] Instance project_sdk : HcloudServers project := {|
  sdk_Create := create;
  sdk_WaitFor _ _ w :=
    match pj_failing w with
    | O => (None, w)
    | S n => (Some timed_out, {| pj_servers := pj_servers w; pj_failing := n |})
    end;
  sdk_Delete ctx id w :=
    if ctx_Inherits ctx
    then (None, {| pj_servers := delete id (pj_servers w); pj_failing := pj_failing w |})
    else (Some timed_out, w);
  sdk_Reset _ w := (None, w);
  sdk_ListFor _ w := (Ok [], w);
  sdk_GetByID id w := (Ok (sdk_of id <$> pj_servers w !! id), w);
  sdk_GetByName name w :=
    (match FleetExample.the_named name (pj_servers w) with
     | [] => Ok None
     | [(id, h)] => Ok (Some (sdk_of id h))
     | _ => Err (Errorf "ambiguous")
     end, w);
  sdk_AllWithOpts _ w := (Ok ((fun ih => Some (sdk_of ih.1 ih.2)) <$> map_to_list (pj_servers w)), w);
  sdk_IsError e c := bool_decide (Code (Some e) = Some c)
|}.

Lemma held_of_sdk_of (id : Z) (h : held) : held_of_sdk (sdk_of id h) = h.
Proof. by destruct h. Qed.

Lemma sdk_create_lands (r : CreateServerRequest) (m : gmap Z held) (n n' : nat) :
  FleetExample.the_named (req_Name r) m = [] ->
  lands "prod" r {| pj_servers := m; pj_failing := n |} (base.fresh (dom m))
    {| pj_servers := <[ base.fresh (dom m) := requested r ]> m; pj_failing := n' |}.
Proof.
  intros Hn.
  apply insert_lands; [by apply FleetExample.the_named_nil|by apply not_elem_of_dom, is_fresh|done].
Qed.

Lemma project_laws : SdkLaws (W := project) "prod".
Proof.
  split; cbn [sdk_Create sdk_WaitFor sdk_Delete sdk_Reset sdk_ListFor sdk_GetByID sdk_GetByName
    sdk_AllWithOpts project_sdk].
  - intros r [m n] res w' Hc. unfold create in Hc. cbn [pj_servers pj_failing] in Hc.
    destruct (FleetExample.the_named _ m) eqn:En; [|done]. injection Hc as <- <-. by apply sdk_create_lands.
  - intros r [m n] e w' Hc. unfold create in Hc. destruct (FleetExample.the_named _ _); [done|].
    injection Hc as _ <-. by left.
  - intros r [m n] e w' Hc. unfold create in Hc. destruct (FleetExample.the_named _ _); [done|].
    by injection Hc as _ <-.
  - intros ctx acts [m [|n]]; cbn; (split; [done|]); intros e [= <-]. intros [? ?]. done.
  - intros id [m n]. cbn. split; [done|]. destruct (m !! id) as [h|] eqn:E; cbn; [|done].
    split; [done|]. by rewrite held_of_sdk_of.
  - intros name [m n]. cbn. split; [done|].
    destruct (FleetExample.the_named name m) as [|[id h] l] eqn:En; [by apply FleetExample.the_named_nil|].
    destruct l; [|done].
    assert ((id, h) ∈ FleetExample.the_named name m) as Hin by (rewrite En; by left).
    apply FleetExample.the_named_spec in Hin as [Hid Hh]. rewrite held_of_sdk_of. split; [done|]. split; [done|].
    intros id' h' Hid' Hh'. assert ((id', h') ∈ FleetExample.the_named name m) as Hin by by apply FleetExample.the_named_spec.
    rewrite En in Hin. apply list_elem_of_singleton in Hin. by injection Hin as -> ->.
  - intros ctx id [m n]. destruct (ctx_Inherits ctx); [|by left]. apply map_filter_delete.
  - done.
  - done.
  - done.
Qed.

Definition losing : PState project := init_state {| pj_servers := ∅; pj_failing := 1 |}.

Definition run (st : PState project) : fleet_out * PState project :=
  run_op (SV := server_client None (NewServersWithTimeout 0)) (NewProvider "prod") FleetExample.launch st.

(** The first launch fails its actions and its cleanup; the second adopts. *)
Lemma stack_refines_fleet_witness :
  (run losing).1 = FError /\ size (fleet "prod" (ps_world (run losing).2)) = 1%nat /\
  (exists id, (run (run losing).2).1 = FServer id) /\
  fleet_step "prod" (FLaunch (cl_Name example_claim)) (fleet "prod" (ps_world losing)) (run losing).1
    (fleet "prod" (ps_world (run losing).2)).
Proof.
  split; [by vm_compute|]. split; [by vm_compute|]. split; [eexists; by vm_compute|].
  destruct (stack_refines_fleet "prod" None 0 FleetExample.launch losing project_laws) as [Hr _].
  revert Hr. cbv zeta. fold (run losing). by destruct (run losing).
Defined.
End StackExample.
