(* ===== verification/Metrics.v ===== *)
(** The provider's own Prometheus series.

    Models [internal/metrics/metrics.go]: the series, their labels and their
    registration; and shows what the launches of the instance provider are counted
    as. *)

From S2P Require Import Prelude GoErrors Float64 GoText Servers Redact Kube Api Unavailable.
From S2P Require Import Resources InstanceTypes NodeClaims Candidates ListCache Sim Instance.
From S2P Require Import InstanceTraces.
#[local] Open Scope go_scope.

Definition metrics_namespace : string := "karpenter".
Definition metrics_subsystem : string := "hcloud".

Inductive series_kind := SCounter | SGauge | SHistogram (buckets : list Z).

Record series := {
  s_Name : string;
  s_Help : string;
  s_Kind : series_kind;
  s_Labels : list string
}.

Definition LaunchFailures_series : series :=
  {| s_Name := "launch_failures_total";
     s_Help := "Server creates that failed, by server type, location and error class.";
     s_Kind := SCounter; s_Labels := ["server_type"; "location"; "reason"] |}.

Definition LaunchDuration_series : series :=
  {| s_Name := "launch_duration_seconds";
     s_Help := "Time from the first create attempt to a running server, including fall-through.";
     s_Kind := SHistogram [5; 10; 20; 30; 45; 60; 90; 120; 180; 300];
     s_Labels := ["server_type"; "location"; "result"] |}.

Definition OfferingUnavailable_series : series :=
  {| s_Name := "offering_unavailable";
     s_Help := "1 while a (server type, location) pair is suppressed after an observed capacity failure.";
     s_Kind := SGauge; s_Labels := ["server_type"; "location"; "code"] |}.

Definition OfferingAvailabilityFlag_series : series :=
  {| s_Name := "offering_published_available";
     s_Help := "Hetzner's published availability flag for a (server type, location) pair. " +:+
               "Advisory only; nothing gates on it.";
     s_Kind := SGauge; s_Labels := ["server_type"; "location"] |}.

Definition CatalogStale_series : series :=
  {| s_Name := "catalog_stale";
     s_Help := "1 when the most recent Hetzner catalog refresh failed. The last good snapshot is still served.";
     s_Kind := SGauge; s_Labels := [] |}.

Definition CatalogLastSuccess_series : series :=
  {| s_Name := "catalog_last_success_timestamp_seconds";
     s_Help := "Unix time of the last successful Hetzner catalog refresh.";
     s_Kind := SGauge; s_Labels := [] |}.

Definition UnknownErrorCodes_series : series :=
  {| s_Name := "unknown_error_codes_total";
     s_Help := "Hetzner error codes not recognised by the classifier, retried as transient.";
     s_Kind := SCounter; s_Labels := ["code"] |}.

Definition OrphansReaped_series : series :=
  {| s_Name := "orphaned_servers_reaped_total";
     s_Help := "Servers deleted because they carried this cluster's label but had no NodeClaim.";
     s_Kind := SCounter; s_Labels := [] |}.

(** What [init] registers, in order. *)
Definition registered : list series :=
  [LaunchFailures_series; LaunchDuration_series; OfferingUnavailable_series;
   OfferingAvailabilityFlag_series; CatalogStale_series; CatalogLastSuccess_series;
   UnknownErrorCodes_series; OrphansReaped_series].

(** The fully qualified name. *)
Definition fq_name (s : series) : string :=
  metrics_namespace +:+ "_" +:+ metrics_subsystem +:+ "_" +:+ s_Name s.

(** No two series share a name. *)
Lemma registered_names : NoDup (fq_name <$> registered).
Proof. apply (bool_decide_unpack _). by vm_compute. Qed.

(** ** What a launch is counted as *)





Section Accounting.
Context `{KB : Kube, CA : !CoreAllocatable, GT : GoText, KE : KarpErrors, ET : ErrorText}.
Context {W : Type} `{SV : Servers W, CK : Clock W}.








End Accounting.

Section Witnesses.
Import KubeExample CatalogExample.
#[local] Instance alloc : CoreAllocatable := fun it => Allocatable (it_Capacity it) (it_Overhead it).
#[local] Instance unwraps : KarpErrors := fun _ => true.
#[local] Instance etext : ErrorText := fun _ => "error".

End Witnesses.
