(* ===== verification/CloudProvider.v ===== *)
(** Karpenter's CloudProvider, implemented on the instance provider.

    Models [internal/cloudprovider/cloudprovider.go] and [IsDrifted] of
    [drift.go].  The catalog and the bootstrap renderer are the interfaces the
    source declares ([CatalogProvider], [Bootstrapper]); the Kubernetes client is
    [KubeClient]. *)

From S2P Require Import Prelude GoErrors Float64 GoText Servers Kube Api Unavailable Resources.
From S2P Require Import InstanceTypes Catalog NodeClaims KubeClient Drift Candidates ListCache.
From S2P Require Import Instance.
#[local] Open Scope go_scope.

Definition Name : string := "hcloud".

(** ** The interfaces *)

Class CatalogProvider (W : Type) := catalog_Get : W -> option Snapshot.

Class Bootstrapper `{Kube} (W : Type) :=
  Render : HCloudNodeClass -> NodeClaim -> W -> result string * W.

(** ** Repair policies *)

Inductive repair_action := ReplaceNode | RebootNode.

Record RepairPolicy := {
  rp_ConditionType : string;
  rp_ConditionStatus : string;
  rp_ReasonRegex : string;
  rp_TolerationDuration : duration;
  rp_TerminationGracePeriod : option duration;
  rp_Action : repair_action
}.

Definition RepairPolicies : list RepairPolicy :=
  [{| rp_ConditionType := "Ready"; rp_ConditionStatus := "False"; rp_ReasonRegex := "";
      rp_TolerationDuration := 30 * minute; rp_TerminationGracePeriod := Some 0;
      rp_Action := ReplaceNode |};
   {| rp_ConditionType := "Ready"; rp_ConditionStatus := "Unknown"; rp_ReasonRegex := ".*";
      rp_TolerationDuration := 10 * minute; rp_TerminationGracePeriod := Some 0;
      rp_Action := RebootNode |};
   {| rp_ConditionType := "Ready"; rp_ConditionStatus := "Unknown"; rp_ReasonRegex := ".*";
      rp_TolerationDuration := 30 * minute; rp_TerminationGracePeriod := Some 0;
      rp_Action := ReplaceNode |}].

Section WithKube.
Context `{KB : Kube, CA : !CoreAllocatable, GT : GoText, IC : IntConv}.
Context `{KE : KarpErrors, ET : ErrorText, SH : !SpecHash}.
Context {W : Type} `{SV : Servers W, CK : Clock W, KC : !KubeClient W}.
Context `{CP : CatalogProvider W, BS : !Bootstrapper W}.

(** ** NodeClasses and the catalog *)

Definition not_ready (e : error) : error := KarpError NodeClassNotReady e.
Definition not_found (e : error) : error := KarpError NodeClaimNotFound e.

Definition resolveNodeClass (nodeClaim : NodeClaim) : IO W (result HCloudNodeClass) :=
  match cl_NodeClassRef nodeClaim with
  | None =>
      io_ret (Err (not_ready (Errorf ("nodeclaim " +:+ Quote (cl_Name nodeClaim) +:+
                                      " has no nodeClassRef"))))
  | Some ref =>
      do r <- call_api (kube_GetNodeClass (ref_Name ref));
      io_ret
        match r with
        | Err err => Err (not_ready (Wrapf ("getting nodeclass " +:+ Quote (ref_Name ref) +:+ ", ") err))
        | Ok nodeClass =>
            if is_deleting nodeClass
            then Err (not_ready (Errorf ("nodeclass " +:+ Quote (ref_Name ref) +:+ " is terminating")))
            else if negb (RootIsTrue nodeClass)
            then Err (not_ready (Errorf ("nodeclass " +:+ Quote (ref_Name ref) +:+ " is not ready: " +:+
                   root_message (status_Conditions (nc_Status nodeClass)) (nc_Generation nodeClass))))
            else Ok nodeClass
        end
  end.

(** [nodeClassKey]: the name drift looks up, empty without a reference. *)
Definition nodeClassKey (nodeClaim : NodeClaim) : string :=
  match cl_NodeClassRef nodeClaim with None => "" | Some ref => ref_Name ref end.

(** [nodeClassForNodePool]; a NodePool is represented by the NodeClass reference
    of its template, [None] when the pool or the reference is nil. *)
Definition nodeClassForNodePool (pool : option NodeClassRef) : IO W (result HCloudNodeClass) :=
  match pool with
  | None => io_ret (Err (Errorf "nodepool has no nodeClassRef"))
  | Some ref =>
      do r <- call_api (kube_GetNodeClass (ref_Name ref));
      io_ret match r with
             | Err err => Err (Wrapf ("getting nodeclass " +:+ Quote (ref_Name ref) +:+ ", ") err)
             | Ok nodeClass => Ok nodeClass
             end
  end.

Definition instanceTypes (nodeClass : HCloudNodeClass) : IO W (result (list InstanceType)) :=
  fun st =>
  (match catalog_Get (ps_world st) with
   | None => Err (Errorf "the Hetzner server type catalog has not been fetched yet")
   | Some snapshot =>
       Ok (Build (world_now (ps_world st)) (sn_ServerTypes snapshot) nodeClass
             (sn_PrimaryIPv4Monthly snapshot) (ps_unavailable st) zero_options)
   end, st).

Definition GetInstanceTypes (pool : option NodeClassRef) : IO W (result (list InstanceType)) :=
  do r <- nodeClassForNodePool pool;
  match r with
  | Err err => io_ret (Err err)
  | Ok nodeClass => instanceTypes nodeClass
  end.

(** ** NodeClaims from servers *)

(** The labels of a server that both hydrations write. *)
Definition server_labels (srv : Server) : list (string * string) :=
  [(LabelInstanceTypeStable, srv_ServerType srv);
   (LabelTopologyRegion, srv_Location srv);
   (LabelCSILocation, srv_Location srv);
   (CapacityTypeLabelKey, CapacityTypeOnDemand);
   (LabelTopologyZone, LegacyDatacenterForLocation (srv_Location srv))].

Definition set_labels (kvs : list (string * string)) (m : gmap string string) : gmap string string :=
  foldl (fun m kv => <[ kv.1 := kv.2 ]> m) m kvs.

(** Every requirement the type pins to one value, as a label. *)
Definition pinned_labels (it : InstanceType) : list (string * string) :=
  omap (fun kr : string * Requirement =>
    if ReqLen kr.2 =? 1 then v ← head (ReqValues kr.2); Some (kr.1, v) else None)
    (ReqEntries (it_Requirements it)).

Definition hash_annotations (nodeClass : HCloudNodeClass) : gmap string string :=
  {[ AnnotationHash := Hash nodeClass; AnnotationHashVersion := HashVersion ]}.

Definition toNodeClaim (srv : Server) (it : option InstanceType) (claim : NodeClaim)
    (nodeClass : option HCloudNodeClass) : NodeClaim :=
  {| cl_Name := cl_Name claim;
     cl_UID := cl_UID claim;
     cl_Labels := set_labels (server_labels srv)
       match it with
       | Some it => set_labels (pinned_labels it) (cl_Labels claim)
       | None => cl_Labels claim
       end;
     cl_Annotations :=
       match nodeClass with
       | Some nodeClass => lo_Assign (cl_Annotations claim) (hash_annotations nodeClass)
       | None => cl_Annotations claim
       end;
     cl_CreationTimestamp := srv_Created srv;
     cl_NodeClassRef := cl_NodeClassRef claim;
     cl_Requirements := cl_Requirements claim;
     cl_Requests := cl_Requests claim;
     cl_Taints := cl_Taints claim;
     cl_StartupTaints := cl_StartupTaints claim;
     cl_ProviderID := ProviderID srv;
     cl_Capacity := match it with Some it => it_Capacity it | None => cl_Capacity claim end;
     cl_Allocatable := match it with Some it => it_Allocatable it | None => cl_Allocatable claim end;
     cl_RebootingAt := cl_RebootingAt claim;
     cl_Drifted := cl_Drifted claim |}.

(** [capacityFor]: the first catalog entry of that name, with the default
    overheads and pod limit. *)
Definition capacityFor (snapshot : option Snapshot) (serverType : string) : option ResourceList :=
  s ← snapshot;
  st ← find (fun st => (st_Name st =? serverType)%string) (sn_ServerTypes s);
  Some (Capacity (st_Cores st) (st_MemoryGiB st) (st_DiskGB st) DefaultMaxPods
          DefaultVMMemoryOverheadPercent DefaultVMDiskOverheadPercent).

Definition toNodeClaimFromServer (snapshot : option Snapshot) (srv : Server) : NodeClaim :=
  let pool := map_get (srv_Labels srv) LabelNodePool in
  let labels := set_labels (server_labels srv) ∅ in
  {| cl_Name := srv_Name srv;
     cl_UID := "";
     cl_Labels := if (pool =? "")%string then labels else <[ NodePoolLabelKey := pool ]> labels;
     cl_Annotations := ∅;
     cl_CreationTimestamp := srv_Created srv;
     cl_NodeClassRef := None;
     cl_Requirements := [];
     cl_Requests := ∅;
     cl_Taints := [];
     cl_StartupTaints := [];
     cl_ProviderID := ProviderID srv;
     cl_Capacity := default ∅ (capacityFor snapshot (srv_ServerType srv));
     cl_Allocatable := ∅;
     cl_RebootingAt := None;
     cl_Drifted := false |}.

(** ** The CloudProvider's operations *)

(** The error of an absent candidate, which names the NodeClass. *)
Definition no_candidate_for (nodeClass : HCloudNodeClass) : error :=
  KarpError InsufficientCapacity
    (Errorf ("no instance type in this NodeClaim's requirements is offered in any location " +:+
             "nodeclass " +:+ Quote (nc_Name nodeClass) +:+ " allows")).

Definition Create (p : Provider) (nodeClaim : NodeClaim) : IO W (result NodeClaim) :=
  do r <- resolveNodeClass nodeClaim;
  match r with
  | Err err => io_ret (Err err)
  | Ok nodeClass =>
      do r <- instanceTypes nodeClass;
      match r with
      | Err err => io_ret (Err err)
      | Ok its =>
          if negb (HasCandidates nodeClaim its) then io_ret (Err (no_candidate_for nodeClass))
          else
            do r <- call_api (Render nodeClass nodeClaim);
            match r with
            | Err err =>
                io_ret (Err (KarpError (CreateError "BootstrapRenderFailed" (error_text err)) err))
            | Ok userData =>
                do r <- Instance.Create p nodeClass nodeClaim its userData;
                io_ret match r with
                       | Err err => Err err
                       | Ok (srv, it) => Ok (toNodeClaim srv it nodeClaim (Some nodeClass))
                       end
            end
      end
  end.

(** No server was ever recorded for the claim. *)
Definition no_provider_id (nodeClaim : NodeClaim) : error :=
  not_found (Errorf ("nodeclaim " +:+ Quote (cl_Name nodeClaim) +:+ " has no providerID")).

Definition Delete (p : Provider) (nodeClaim : NodeClaim) : IO W (option error) :=
  if (cl_ProviderID nodeClaim =? "")%string then io_ret (Some (no_provider_id nodeClaim))
  else
    do err <- Instance.Delete p (cl_ProviderID nodeClaim);
    io_ret match err with
           | None => None
           | Some e => if IsNotFound (Some e) then Some (not_found e) else Some e
           end.

Definition Get (p : Provider) (providerID : string) : IO W (result NodeClaim) :=
  do r <- Instance.Get p providerID;
  match r with
  | Err err => io_ret (Err err)
  | Ok None => io_ret (Err (not_found (Errorf ("server " +:+ Quote providerID +:+ " not found"))))
  | Ok (Some srv) => fun st => (Ok (toNodeClaimFromServer (catalog_Get (ps_world st)) srv), st)
  end.

Definition List (p : Provider) : IO W (result (list NodeClaim)) :=
  do r <- Instance.List p;
  match r with
  | Err err => io_ret (Err err)
  | Ok servers => fun st =>
      (Ok (toNodeClaimFromServer (catalog_Get (ps_world st)) <$> servers), st)
  end.

Definition Reboot (p : Provider) (nodeClaim : NodeClaim) : IO W (option error) :=
  if (cl_ProviderID nodeClaim =? "")%string then io_ret (Some (no_provider_id nodeClaim))
  else
    let requestedAt := default time_zero (cl_RebootingAt nodeClaim) in
    do err <- Instance.Reboot p (cl_ProviderID nodeClaim) (cl_Name nodeClaim) requestedAt;
    io_ret match err with
           | Some e => if IsNotFound (Some e) then Some (not_found e) else Some e
           | None => None
           end.

Definition IsDrifted (p : Provider) (nodeClaim : NodeClaim) : IO W (result string) :=
  if (cl_ProviderID nodeClaim =? "")%string then io_ret (Ok "")
  else
    do r <- call_api (kube_GetNodeClass (nodeClassKey nodeClaim));
    match r with
    | Err err => io_ret (Err (Wrapf "getting nodeclass for drift evaluation, " err))
    | Ok nodeClass =>
        if is_deleting nodeClass then io_ret (Ok "")
        else if negb (RootIsTrue nodeClass) then io_ret (Ok "")
        else if negb (nodeClassHashDrift nodeClass nodeClaim =? "")%string
        then io_ret (Ok (nodeClassHashDrift nodeClass nodeClaim))
        else
          do t <- now;
          if negb (nodeAgeDrift t nodeClass nodeClaim =? "")%string
          then io_ret (Ok (nodeAgeDrift t nodeClass nodeClaim))
          else
            do r <- Instance.Get p (cl_ProviderID nodeClaim);
            io_ret match r with
                   | Err err => Err (Wrapf "getting server for drift evaluation, " err)
                   | Ok None => Ok ""
                   | Ok (Some srv) => Ok (serverDrift nodeClass srv)
                   end
    end.
End WithKube.
