(* ===== verification/CloudProviderProofs.v ===== *)
(** What the CloudProvider promises karpenter core.

    A launch mints a join credential only when it has somewhere to go; what it
    returns describes the server that really runs; a fresh launch is not drifted;
    drift is reported only on evidence; Get, List and Create agree with one
    another. *)

From S2P Require Import Prelude GoErrors Float64 GoText Servers Kube Api Unavailable Resources.
From S2P Require Import InstanceTypes Catalog NodeClaims KubeClient Drift Candidates ListCache.
From S2P Require Import Sim Instance InstanceTraces CloudProvider.
#[local] Open Scope go_scope.

Section WithKube.
Context `{KB : Kube, CA : !CoreAllocatable, GT : GoText, IC : IntConv}.
Context `{KE : KarpErrors, ET : ErrorText, SH : !SpecHash}.
Context {W : Type} `{SV : Servers W, CK : Clock W, KC : !KubeClient W}.
Context `{CP : CatalogProvider W, BS : !Bootstrapper W}.

(** ** Lemmas: labels and annotations *)

Lemma set_labels_lookup (kvs : list (string * string)) (m : gmap string string) (k v : string) :
  NoDup kvs.*1 -> (k, v) ∈ kvs -> set_labels kvs m !! k = Some v.
Proof.
  unfold set_labels. revert m. induction kvs as [|[k' v'] kvs IH]; intros m Hnd Hin; simpl.
  { by apply elem_of_nil in Hin. }
  apply NoDup_cons in Hnd as [Hk Hnd]. simpl in Hk.
  apply elem_of_cons in Hin as [[= <- <-]|Hin]; [|by apply IH].
  clear IH Hnd. revert m. induction kvs as [|[k2 v2] kvs IH]; intros m; simpl.
  - apply lookup_insert_eq.
  - simpl in Hk. rewrite insert_insert_ne by set_solver. apply IH. set_solver.
Qed.

Lemma server_labels_nodup (srv : Server) : NoDup (server_labels srv).*1.
Proof. simpl. apply (bool_decide_unpack _). by vm_compute. Qed.

Lemma hash_annotations_lookup (nodeClass : HCloudNodeClass) (m : gmap string string) :
  lo_Assign m (hash_annotations nodeClass) !! AnnotationHash = Some (Hash nodeClass) /\
  lo_Assign m (hash_annotations nodeClass) !! AnnotationHashVersion = Some HashVersion.
Proof. split; by apply lo_Assign_new. Qed.

(** The world moves to [w] and nothing else changes. *)
Definition set_world (st : PState W) (w : W) : PState W :=
  {| ps_world := w; ps_unavailable := ps_unavailable st; ps_cache := ps_cache st;
     ps_metrics := ps_metrics st |}.

Lemma resolveNodeClass_run (nodeClaim : NodeClaim) (ref : NodeClassRef) (st : PState W) :
  cl_NodeClassRef nodeClaim = Some ref ->
  (resolveNodeClass nodeClaim st).2 = set_world st (kube_GetNodeClass (ref_Name ref) (ps_world st)).2.
Proof.
  intros H. unfold resolveNodeClass. rewrite H. unfold io_bind, call_api.
  by destruct (kube_GetNodeClass _ _).
Qed.

Lemma resolveNodeClass_Ok (nodeClaim : NodeClaim) (st : PState W) (nodeClass : HCloudNodeClass) :
  (resolveNodeClass nodeClaim st).1 = Ok nodeClass ->
  exists ref, cl_NodeClassRef nodeClaim = Some ref /\
    (kube_GetNodeClass (ref_Name ref) (ps_world st)).1 = Ok nodeClass /\
    is_deleting nodeClass = false /\ RootIsTrue nodeClass = true.
Proof.
  unfold resolveNodeClass. destruct (cl_NodeClassRef nodeClaim) as [ref|]; [|done].
  unfold io_bind, call_api. destruct (kube_GetNodeClass _ _) as [[nc|e] w] eqn:Eg; [|done].
  cbn [fst io_ret]. destruct (is_deleting nc) eqn:Ed; [done|].
  destruct (RootIsTrue nc) eqn:Er; [|done]. intros [= <-].
  exists ref. by rewrite Eg.
Qed.

(** ** Properties: launching *)

(** What rules a launch out before anything is rendered. *)
Definition nowhere_to_go (nodeClaim : NodeClaim) (nodeClass : HCloudNodeClass) (st : PState W)
    (w : W) : Prop :=
  is_deleting nodeClass = true \/ RootIsTrue nodeClass = false \/
  catalog_Get w = None \/
  exists s, catalog_Get w = Some s /\
    orderedCandidates nodeClaim (Build (world_now w) (sn_ServerTypes s) nodeClass
      (sn_PrimaryIPv4Monthly s) (ps_unavailable st) zero_options) = [].

(** No join credential is minted in vain: for a NodeClass that is terminating or
    not ready, without a catalog, or with no candidate, Create fails having done
    nothing but read the NodeClass; nothing is rendered, nothing ordered, and no
    other state changes. *)
Theorem create_mints_only_with_candidates (p : Provider) (nodeClaim : NodeClaim)
    (ref : NodeClassRef) (nodeClass : HCloudNodeClass) (st : PState W) (w : W)
    (Href : cl_NodeClassRef nodeClaim = Some ref)
    (Hget : kube_GetNodeClass (ref_Name ref) (ps_world st) = (Ok nodeClass, w))
    (Hno : nowhere_to_go nodeClaim nodeClass st w) :
  exists e, Create p nodeClaim st = (Err e, set_world st w).
Proof.
  unfold Create, io_bind, resolveNodeClass. rewrite Href. unfold io_bind, call_api. rewrite Hget.
  unfold io_ret. cbv beta iota zeta.
  destruct (is_deleting nodeClass) eqn:Ed; [eexists; done|].
  destruct (RootIsTrue nodeClass) eqn:Er; [|eexists; done]. cbn [negb].
  destruct Hno as [?|[?|[Hc|(s & Hc & Hcs)]]]; [congruence..| |];
    unfold instanceTypes; cbn [ps_world ps_unavailable]; rewrite Hc; [eexists; done|].
  unfold HasCandidates. rewrite Hcs. cbn [negb]. eexists. done.
Qed.

(** What Create hands back describes the server that runs: it comes from a
    NodeClass that is ready and not terminating, carries the server's provider
    id, creation time, type, location and legacy zone, the NodeClass's current
    hash under the current version, and the capacity of the server's own type
    when the catalog knows it. *)
Theorem create_hydrates (p : Provider) (nodeClaim out : NodeClaim) (st : PState W)
    (Hok : (Create p nodeClaim st).1 = Ok out) :
  exists nodeClass its userData st' srv it,
    (exists ref, cl_NodeClassRef nodeClaim = Some ref /\
       (kube_GetNodeClass (ref_Name ref) (ps_world st)).1 = Ok nodeClass) /\
    is_deleting nodeClass = false /\ RootIsTrue nodeClass = true /\
    (Instance.Create p nodeClass nodeClaim its userData st').1 = Ok (srv, it) /\
    cl_Name out = cl_Name nodeClaim /\
    cl_ProviderID out = ProviderID srv /\ cl_CreationTimestamp out = srv_Created srv /\
    (forall k v, (k, v) ∈ server_labels srv -> cl_Labels out !! k = Some v) /\
    cl_Annotations out !! AnnotationHash = Some (Hash nodeClass) /\
    cl_Annotations out !! AnnotationHashVersion = Some HashVersion /\
    (forall t, it = Some t -> cl_Capacity out = it_Capacity t /\ cl_Allocatable out = it_Allocatable t).
Proof.
  unfold Create, io_bind in Hok.
  destruct (resolveNodeClass nodeClaim st) as [[nodeClass|e] st1] eqn:Er; [|done].
  destruct (instanceTypes nodeClass st1) as [[its|e] st2]; [|done].
  destruct (negb (HasCandidates nodeClaim its)); [done|].
  destruct (call_api _ st2) as [[ud|e] st3]; [|done].
  destruct (Instance.Create p nodeClass nodeClaim its ud st3) as [[[srv it]|e] st4] eqn:Ec; [|done].
  cbn in Hok. injection Hok as <-. exists nodeClass, its, ud, st3, srv, it.
  destruct (resolveNodeClass_Ok nodeClaim st nodeClass) as (ref & Href & Hg & Hd & Hr); [by rewrite Er|].
  destruct (hash_annotations_lookup nodeClass (cl_Annotations nodeClaim)) as [Hh Hv].
  split; [eauto|]. do 2 (split; [done|]). split; [by rewrite Ec|]. do 3 (split; [done|]). split; [|split; [done|split; [done|by intros t ->]]].
  intros k v Hkv. by apply set_labels_lookup; [apply server_labels_nodup|].
Qed.

(** ** Properties: drift *)

(** The server is what the request ordered. *)
Record as_ordered (r : CreateServerRequest) (srv : Server) : Prop := {
  ord_networks : srv_NetworkIDs srv = req_NetworkIDs r;
  ord_firewalls : forall id, id ∈ srv_FirewallIDs srv <-> id ∈ req_FirewallIDs r;
  ord_placement_group : srv_PlacementGroupID srv = default 0 (req_PlacementGroupID r);
  ord_ipv4 : srv_HasPublicIPv4 srv = req_PublicIPv4 r;
  ord_ipv6 : srv_HasPublicIPv6 srv = req_PublicIPv6 r;
  ord_image : srv_ImageID srv = req_ImageID r
}.

Lemma baseRequest_fields (p : Provider) (nodeClass : HCloudNodeClass) (nodeClaim : NodeClaim)
    (userData : string) (r : CreateServerRequest) :
  baseRequest p nodeClass nodeClaim userData = Ok r ->
  req_NetworkIDs r = match status_Network (nc_Status nodeClass) with
                     | Some net => if nst_ID net =? 0 then [] else [nst_ID net]
                     | None => []
                     end /\
  req_FirewallIDs r = fst_ID <$> status_Firewalls (nc_Status nodeClass) /\
  default 0 (req_PlacementGroupID r) = wanted_placement_group nodeClass /\
  req_PublicIPv4 r = PublicIPv4Enabled (Some (nc_Spec nodeClass)) /\
  req_PublicIPv6 r = PublicIPv6Enabled (Some (nc_Spec nodeClass)) /\
  ist_ID <$> status_Image (nc_Status nodeClass) = Some (req_ImageID r).
Proof.
  unfold baseRequest, wanted_placement_group. destruct (status_Image _) as [i|]; [|done].
  destruct (ist_ID i =? 0); [done|]. destruct (p_clusterName p =? "")%string; [done|].
  intros [= <-]. simpl. repeat split. destruct (status_PlacementGroup _) as [pg|]; [|done].
  destruct (Z.eqb_spec (pst_ID pg) 0) as [->|]; done.
Qed.

Lemma as_ordered_conforms p nodeClass nodeClaim userData r srv :
  baseRequest p nodeClass nodeClaim userData = Ok r -> as_ordered r srv ->
  (exists l, l ∈ status_Locations (nc_Status nodeClass) /\ lst_Name l = srv_Location srv) \/
  spec_Locations (nc_Spec nodeClass) = [] ->
  conforms nodeClass srv.
Proof.
  intros Hb [O1 O2 O3 O4 O5 O6] Hloc.
  destruct (baseRequest_fields _ _ _ _ _ Hb) as (B1 & B2 & B3 & B4 & B5 & B6). split.
  - naive_solver.
  - intros E. by rewrite O1, B1, E.
  - intros net E Hne. rewrite O1, B1, E. apply Z.eqb_neq in Hne. rewrite Hne. set_solver.
  - intros id. rewrite O2, B2, list_elem_of_fmap. naive_solver.
  - congruence.
  - congruence.
  - congruence.
  - intros _ img E _ _. rewrite E in B6. injection B6 as ->. congruence.
Qed.

(** ** Properties: drift *)

(** Both sides carry the current hash version, and their hashes differ. *)
Definition hash_evidence (nodeClass : HCloudNodeClass) (nodeClaim : NodeClaim) : Prop :=
  nc_Annotations nodeClass !! AnnotationHashVersion = Some HashVersion /\
  cl_Annotations nodeClaim !! AnnotationHashVersion = Some HashVersion /\
  exists h h', nc_Annotations nodeClass !! AnnotationHash = Some h /\
    cl_Annotations nodeClaim !! AnnotationHash = Some h' /\ h <> h'.

(** The NodeClaim's age is known and above the limit its NodeClass sets. *)
Definition age_evidence (now : time) (nodeClass : HCloudNodeClass) (nodeClaim : NodeClaim) : Prop :=
  exists maxAge, spec_MaxNodeAge (nc_Spec nodeClass) = Some maxAge /\
    cl_CreationTimestamp nodeClaim <> 0 /\ maxAge < time_sub now (cl_CreationTimestamp nodeClaim).

Lemma map_get_version (m : gmap string string) :
  map_get m AnnotationHashVersion = HashVersion <-> m !! AnnotationHashVersion = Some HashVersion.
Proof. unfold map_get. destruct (m !! AnnotationHashVersion); simpl; split; naive_solver. Qed.

Lemma nodeClassHashDrift_cases (nodeClass : HCloudNodeClass) (nodeClaim : NodeClaim) :
  nodeClassHashDrift nodeClass nodeClaim = NodeClassDrift /\ hash_evidence nodeClass nodeClaim \/
  nodeClassHashDrift nodeClass nodeClaim = "" /\ ~ hash_evidence nodeClass nodeClaim.
Proof.
  unfold nodeClassHashDrift, hash_evidence. cbv zeta. rewrite <- !map_get_version.
  destruct (String.eqb_spec (map_get (nc_Annotations nodeClass) AnnotationHashVersion) HashVersion); simpl;
    [|right; naive_solver].
  destruct (String.eqb_spec (map_get (cl_Annotations nodeClaim) AnnotationHashVersion) HashVersion); simpl;
    [|right; naive_solver].
  destruct (nc_Annotations nodeClass !! AnnotationHash) as [h|]; [|right; naive_solver].
  destruct (cl_Annotations nodeClaim !! AnnotationHash) as [h'|]; [|right; naive_solver].
  destruct (String.eqb_spec h h') as [->|Hne]; simpl; [right; naive_solver|left; eauto 10].
Qed.

Lemma nodeAgeDrift_cases (now : time) (nodeClass : HCloudNodeClass) (nodeClaim : NodeClaim) :
  nodeAgeDrift now nodeClass nodeClaim = NodeAgeDrift /\ age_evidence now nodeClass nodeClaim \/
  nodeAgeDrift now nodeClass nodeClaim = "" /\ ~ age_evidence now nodeClass nodeClaim.
Proof.
  unfold nodeAgeDrift, age_evidence. destruct (spec_MaxNodeAge _) as [maxAge|]; [|right; naive_solver].
  unfold time_is_zero. destruct (Z.eqb_spec (cl_CreationTimestamp nodeClaim) 0) as [Hz|Hz];
    [right; naive_solver|].
  destruct (Z.ltb_spec maxAge (time_sub now (cl_CreationTimestamp nodeClaim))) as [Hlt|Hge];
    [left; eauto|right; split; [done|]; intros (m & [= <-] & _ & Hm); lia].
Qed.


(** What a drift check of a launched claim answers, its NodeClass having been read
    and found comparable. *)
Lemma IsDrifted_run (p : Provider) (nodeClaim : NodeClaim) (st : PState W)
    (nodeClass : HCloudNodeClass) (w : W) :
  cl_ProviderID nodeClaim <> "" ->
  kube_GetNodeClass (nodeClassKey nodeClaim) (ps_world st) = (Ok nodeClass, w) ->
  is_deleting nodeClass = false -> RootIsTrue nodeClass = true ->
  hash_evidence nodeClass nodeClaim /\ (IsDrifted p nodeClaim st).1 = Ok NodeClassDrift \/
  ~ hash_evidence nodeClass nodeClaim /\
    (age_evidence (world_now w) nodeClass nodeClaim /\ (IsDrifted p nodeClaim st).1 = Ok NodeAgeDrift \/
     ~ age_evidence (world_now w) nodeClass nodeClaim /\
     match (Instance.Get p (cl_ProviderID nodeClaim) (set_world st w)).1 with
     | Err e => exists e', (IsDrifted p nodeClaim st).1 = Err e'
     | Ok None => (IsDrifted p nodeClaim st).1 = Ok ""
     | Ok (Some srv) => (IsDrifted p nodeClaim st).1 = Ok (serverDrift nodeClass srv)
     end).
Proof.
  intros Hpid Hget Hdel Hready. unfold IsDrifted. apply String.eqb_neq in Hpid. rewrite Hpid.
  unfold io_bind, call_api, now, io_ret. rewrite Hget, Hdel, Hready. cbn [negb].
  destruct (nodeClassHashDrift_cases nodeClass nodeClaim) as [[-> Hh]|[-> Hh]]; [by left|right].
  split; [done|]. cbn [negb String.eqb ps_world].
  destruct (nodeAgeDrift_cases (world_now w) nodeClass nodeClaim) as [[-> Ha]|[-> Ha]]; [by left|right].
  split; [done|]. cbn [negb String.eqb]. fold (set_world st w).
  destruct (Instance.Get p (cl_ProviderID nodeClaim) (set_world st w)) as [[[srv|]|e] st']; cbn; eauto.
Qed.

(** The hash the NodeClass is annotated with is of the current version but not of
    the spec it has: it was edited and not yet stamped again. *)
Definition stale_hash (nodeClass : HCloudNodeClass) : Prop :=
  nc_Annotations nodeClass !! AnnotationHashVersion = Some HashVersion /\
  exists h, nc_Annotations nodeClass !! AnnotationHash = Some h /\ h <> Hash nodeClass.

(** C15. A fresh launch is not drifted.  Take the NodeClaim Create hands back for a
    server that is what the request ordered, in a location the NodeClass resolves
    to (or any, when it names none), and check it against that same NodeClass, read
    again, ready and not being deleted, before it is older than the NodeClass
    allows and while Get still shows that server: the check answers no drift, or
    fails because the server could not be read.  The one exception is a NodeClass
    whose hash annotation is not the hash of its spec, edited and not stamped since:
    then the answer is NodeClassDrift, and only then. *)
Theorem launch_is_not_drifted (p : Provider) (nodeClass : HCloudNodeClass) (nodeClaim : NodeClaim)
    (userData : string) (r : CreateServerRequest) (srv : Server) (it : option InstanceType)
    (st : PState W) (w : W)
    (Hb : baseRequest p nodeClass nodeClaim userData = Ok r)
    (Hord : as_ordered r srv)
    (Hloc : (exists l, l ∈ status_Locations (nc_Status nodeClass) /\ lst_Name l = srv_Location srv) \/
            spec_Locations (nc_Spec nodeClass) = []) :
  let claim := toNodeClaim srv it nodeClaim (Some nodeClass) in
  kube_GetNodeClass (nodeClassKey claim) (ps_world st) = (Ok nodeClass, w) ->
  is_deleting nodeClass = false -> RootIsTrue nodeClass = true ->
  ~ age_evidence (world_now w) nodeClass claim ->
  (forall srv', (Instance.Get p (ProviderID srv) (set_world st w)).1 = Ok (Some srv') -> srv' = srv) ->
  ((IsDrifted p claim st).1 = Ok NodeClassDrift <-> stale_hash nodeClass) /\
  (~ stale_hash nodeClass ->
   (IsDrifted p claim st).1 = Ok "" \/ exists e, (IsDrifted p claim st).1 = Err e).
Proof.
  intros claim Hget Hdel Hready Hage Hsrv.
  assert (hash_evidence nodeClass claim <-> stale_hash nodeClass) as Hev.
  { unfold hash_evidence, stale_hash, claim. cbn [cl_Annotations toNodeClaim].
    destruct (hash_annotations_lookup nodeClass (cl_Annotations nodeClaim)) as [-> ->]. naive_solver. }
  assert (serverDrift nodeClass srv = "") as Hs by (by eapply serverDrift_none, as_ordered_conforms).
  rewrite <- Hev. destruct (IsDrifted_run p claim st nodeClass w) as [[Hh ->]|(Hn & [[Ha _]|[_ Hrun]])];
    [done..|naive_solver|naive_solver|].
  assert ((IsDrifted p claim st).1 = Ok "" \/ exists e, (IsDrifted p claim st).1 = Err e) as Hok.
  { change (cl_ProviderID claim) with (ProviderID srv) in Hrun.
    destruct (Instance.Get p (ProviderID srv) (set_world st w)).1 as [[srv'|]|e] eqn:Eg; [|by left|by right].
    left. rewrite Hrun, (Hsrv srv' eq_refl). by rewrite Hs. }
  split; [|done]. split; [|done]. by destruct Hok as [-> |[e ->]].
Qed.


(** ** Properties: the three views of a server agree *)

(** C38. Get and List report a server with the capacity Create gave it: for a
    NodeClass that leaves the pod limit at its default, every instance type of
    the catalog has exactly the capacity [capacityFor] computes for its name,
    overhead correction included, when no two server types share a name. *)
Theorem capacity_views_agree (now : time) (s : Snapshot) (nodeClass : HCloudNodeClass)
    (u : Unavailable) (it : InstanceType)
    (Huniq : NoDup (st_Name <$> sn_ServerTypes s))
    (Hpods : MaxPodsOrDefault (Some (spec_Kubelet (nc_Spec nodeClass))) = DefaultMaxPods)
    (Hit : it ∈ Build now (sn_ServerTypes s) nodeClass (sn_PrimaryIPv4Monthly s) u zero_options) :
  capacityFor (Some s) (it_Name it) = Some (it_Capacity it).
Proof.
  apply elem_of_Build in Hit as (st & Hst & Hb). apply build_one_Some in Hb as (_ & _ & Hn).
  assert (it_Name it = st_Name st /\ it_Capacity it =
    Capacity (st_Cores st) (st_MemoryGiB st) (st_DiskGB st) DefaultMaxPods
      DefaultVMMemoryOverheadPercent DefaultVMDiskOverheadPercent) as [-> ->].
  { unfold newInstanceType in Hn. rewrite Hpods in Hn. case_match; [done|]. by injection Hn as <-. }
  unfold capacityFor. simpl. revert Huniq Hst. induction (sn_ServerTypes s) as [|x l IH]; intros Hnd Hst.
  { by apply elem_of_nil in Hst. }
  simpl. destruct (String.eqb_spec (st_Name x) (st_Name st)) as [E|E].
  - apply elem_of_cons in Hst as [->|Hin]; [done|]. rewrite fmap_cons in Hnd.
    apply NoDup_cons in Hnd as [Hx _]. destruct Hx. rewrite E. by apply list_elem_of_fmap_2.
  - apply elem_of_cons in Hst as [->|Hin]; [done|]. rewrite fmap_cons in Hnd.
    apply NoDup_cons in Hnd as [_ Hnd]. by apply IH.
Qed.

Lemma find_server_unique (listing : list (option Server)) (srv : Server) :
  (forall x y, Some x ∈ listing -> Some y ∈ listing -> srv_ID x = srv_ID y -> x = y) ->
  Some srv ∈ listing -> find_server (srv_ID srv) listing = Some srv.
Proof.
  intros Huniq Hin. unfold find_server.
  set (f := fun s : option Server => x ← s; if srv_ID x =? srv_ID srv then Some x else None).
  assert (srv ∈ omap f listing) as Hs.
  { apply list_elem_of_omap. exists (Some srv). split; [done|]. simpl. by rewrite Z.eqb_refl. }
  assert (forall x, x ∈ omap f listing -> x = srv) as Hall.
  { intros x Hx. apply list_elem_of_omap in Hx as ([y|] & Hy & E); [|done]. simpl in E.
    destruct (Z.eqb_spec (srv_ID y) (srv_ID srv)); [|done]. injection E as <-. by apply Huniq. }
  destruct (omap f listing) as [|x l]; [by apply elem_of_nil in Hs|]. simpl. f_equal.
  apply Hall. set_solver.
Qed.

(** Get and List agree: while a listing is fresh, every server of it that is
    this cluster's is in List, and Get of its provider id answers with the same
    NodeClaim, from the same listing. *)
Theorem get_agrees_with_list (p : Provider) (st : PState W) (listing : list (option Server))
    (srv : Server)
    (Hfresh : fresh (world_now (ps_world st)) (ps_cache st) = Some listing)
    (Huniq : forall x y, Some x ∈ listing -> Some y ∈ listing -> srv_ID x = srv_ID y -> x = y)
    (Hid : 0 < srv_ID srv <= max_int64)
    (Hin : Some srv ∈ listing) (Hown : owned (p_clusterName p) srv) :
  exists nc ncs, List p st = (Ok ncs, st) /\ nc ∈ ncs /\
    Get p (ProviderID srv) st = (Ok nc, st) /\ cl_ProviderID nc = ProviderID srv.
Proof.
  assert (cached_list p st = (Ok listing, st)) as Hc.
  { unfold cached_list, list_seq. rewrite Hfresh. by destruct st. }
  assert ((p_clusterName p =? "")%string = false) as Hne
    by (apply String.eqb_neq; destruct Hown; done).
  exists (toNodeClaimFromServer (catalog_Get (ps_world st)) srv),
    (toNodeClaimFromServer (catalog_Get (ps_world st)) <$> owned_servers p listing).
  unfold List, Get, Instance.List, Instance.Get, io_bind. rewrite Hne.
  rewrite ServerID_ProviderID by done. rewrite Hc. cbn.
  rewrite find_server_unique by done. unfold visible. cbn.
  split; [done|]. split; [|split; [|done]].
  - apply list_elem_of_fmap_2. unfold owned_servers. apply list_elem_of_omap.
    exists (Some srv). apply IsManagedBy_owned in Hown. by rewrite Hown.
  - apply IsManagedBy_owned in Hown. change (IsManagedBy (Some srv) (p_clusterName p)) with
      (if bool_decide (srv_Labels srv = ∅) || (p_clusterName p =? "")%string then false
       else (map_get (srv_Labels srv) LabelManagedBy =? p_clusterName p)%string) in Hown.
    by rewrite Hown.
Qed.
End WithKube.

(** ** Properties: deleting *)

Section Traced.
Context `{KB : Kube, CA : !CoreAllocatable, GT : GoText, KE : KarpErrors, ET : ErrorText}.
Context {W : Type} `{SV : Servers W, CK : Clock W}.

(** Core is told the truth about a deletion: success exactly when a server of
    this cluster was just deleted; "not found" when the live read found it gone,
    or the delete did; a refusal, never "not found", for a foreign server; any
    other failure as it is, so core keeps retrying. *)
Theorem delete_reports_truth (p : Provider) (nodeClaim : NodeClaim)
    (st : PState (W * list call)) (Hpid : cl_ProviderID nodeClaim <> "") :
  let r := (CloudProvider.Delete p nodeClaim st).1 in
  exists new, calls_made (CloudProvider.Delete p nodeClaim) st new /\
    (r = None <-> exists id srv, owned (p_clusterName p) srv /\
       new = [CGet id (Ok (Some srv)); CDelete id None]) /\
    (forall id, new = [CGet id (Ok None)] ->
       r = Some (not_found (NotFoundError "server" (cl_ProviderID nodeClaim)))) /\
    (forall id srv, new = [CGet id (Ok (Some srv))] ->
       r = Some (errNotManaged srv) /\ ~ owned (p_clusterName p) srv) /\
    (forall id srv e, new = [CGet id (Ok (Some srv)); CDelete id (Some e)] ->
       r = Some (if IsNotFound (Some e) then not_found e else e)).
Proof.
  intros r. unfold r, CloudProvider.Delete. apply String.eqb_neq in Hpid. rewrite Hpid.
  destruct (delete_follows p (cl_ProviderID nodeClaim) st) as (new & Hc & Hp). exists new.
  unfold calls_made, io_bind in *. destruct (Instance.Delete p (cl_ProviderID nodeClaim) st) as [err st'].
  cbn [fst snd io_ret] in *. split; [done|].
  destruct Hp as [e He|id e He|id He|id srv He Hno|id srv e He Ho|id srv He Ho]; (split;
    [split; [first [by repeat case_match|intros _; eauto]|intros (? & ? & ? & ?); by simplify_eq]|]).
  all: split; [intros; by simplify_eq|]; split; intros; simplify_eq; try done.
  by destruct (IsNotFound _).
Qed.
End Traced.

(** ** Witnesses *)

Section Witnesses.
Import KubeExample CatalogExample.
#[local] Instance alloc : CoreAllocatable := fun it => Allocatable (it_Capacity it) (it_Overhead it).
#[local] Instance unwraps : KarpErrors := fun _ => true.
#[local] Instance etext : ErrorText := fun _ => "error".
#[local] Instance shash : SpecHash := fun _ => "12345".

(** The NodeClass [default], annotated as the hash controller leaves it. *)
Definition example_class : HCloudNodeClass :=
  {| nc_Name := "default"; nc_UID := "u"; nc_Generation := 1; nc_DeletionTimestamp := None;
     nc_Finalizers := [];
     nc_Annotations := {[ AnnotationHash := "12345"; AnnotationHashVersion := HashVersion ]};
     nc_Spec := spec [] ∅; nc_Status := status |}.

Definition terminating_class : HCloudNodeClass :=
  {| nc_Name := "default"; nc_UID := "u"; nc_Generation := 1; nc_DeletionTimestamp := Some 5;
     nc_Finalizers := []; nc_Annotations := ∅; nc_Spec := spec [] ∅; nc_Status := status |}.

(** A cluster with one NodeClass, [terminating_class] when [t] holds. *)
Definition cluster_client (t : bool) : KubeClient sim := {|
  kube_GetNodeClass name w :=
    (if (name =? "default")%string then Ok (if t then terminating_class else example_class)
     else Err (KubeStatus KubeNotFound "not found"), w);
  kube_ListNodeClaims w := (Ok [], w);
  kube_ListNodeClaimsFor _ w := (Ok [], w);
  kube_PatchNodeClass _ _ w := (None, w);
  kube_PatchNodeClaim _ _ w := (None, w)
|}.

#[local] Instance sim_catalog : CatalogProvider sim := fun _ =>
  Some {| sn_Generation := 1; sn_ServerTypes := [cx23; cpx22];
          sn_PrimaryIPv4Monthly := f_ratio 50 100; sn_FetchedAt := 0 |}.
#[local] Instance sim_boot : Bootstrapper sim := fun _ _ w => (Ok "#cloud-config", w).

Lemma create_mints_only_with_candidates_witness :
  exists e, Create (KC := cluster_client true) prod example_claim (init_state project) =
    (Err e, set_world (init_state project) project).
Proof.
  apply (create_mints_only_with_candidates (KC := cluster_client true) prod
    example_claim {| ref_Group := Group; ref_Kind := "HCloudNodeClass"; ref_Name := "default" |}
    terminating_class (init_state project) project).
  - done.
  - done.
  - by left.
Defined.

Definition example_launch : result NodeClaim :=
  (Create (KC := cluster_client false) prod example_claim
     (init_state empty_project)).1.

Lemma create_hydrates_witness :
  exists out nodeClass srv, example_launch = Ok out /\ cl_ProviderID out = ProviderID srv /\
    cl_Labels out !! LabelTopologyRegion = Some "nbg1" /\
    cl_Annotations out !! AnnotationHash = Some (Hash nodeClass).
Proof.
  assert (is_ok example_launch = true) as Hok by by vm_compute.
  assert (match example_launch with Ok o => cl_Labels o !! LabelTopologyRegion | Err _ => None end
    = Some "nbg1") as HL by by vm_compute.
  destruct example_launch as [out|e] eqn:E; [clear Hok|done].
  destruct (create_hydrates (KC := cluster_client false) prod example_claim out
    (init_state empty_project) E) as (nodeClass & its & ud & st' & srv & it & _ & _ & _ & _ & _ & Hp & _ & _ & Hh & _).
  exists out, nodeClass, srv. exact (conj eq_refl (conj Hp (conj HL Hh))).
Defined.

Definition example_srv : Server :=
  {| srv_ID := 4711; srv_Name := "default-x7k2p"; srv_ServerType := "cx23"; srv_Location := "nbg1";
     srv_Status := "running";
     srv_Labels := {[ LabelManagedBy := "prod"; LabelNodeClaim := "default-x7k2p" ]};
     srv_ImageID := 7; srv_Created := 0; srv_PrivateIPv4 := "10.0.0.5"; srv_PublicIPv4 := "";
     srv_NetworkIDs := [9]; srv_FirewallIDs := []; srv_PlacementGroupID := 0;
     srv_HasPublicIPv4 := true; srv_HasPublicIPv6 := true |}.

(** A project whose one server is the one just launched. *)
Definition fresh_project : sim :=
  {| sim_servers := {[ 4711 := example_srv ]}; sim_next := 5000; sim_now := 10 * second;
     sim_sold_out := []; sim_actions := ∅ |}.

Lemma launch_is_not_drifted_witness :
  let claim := toNodeClaim example_srv None example_claim (Some example_class) in
  let drifted := (IsDrifted (KC := cluster_client false) prod claim (init_state fresh_project)).1 in
  drifted = Ok "" \/ exists e, drifted = Err e.
Proof.
  intros claim drifted. unfold drifted.
  assert (~ stale_hash example_class) as Hns.
  { intros (_ & h & Hh & Hne). apply Hne. vm_compute in Hh. by injection Hh as <-. }
  edestruct (launch_is_not_drifted (KC := cluster_client false) prod example_class example_claim ""
    _ example_srv None (init_state fresh_project) fresh_project eq_refl) as [_ H].
  - by split.
  - by right.
  - done.
  - done.
  - by vm_compute.
  - by intros (m & Hm & _).
  - intros srv' Hg. vm_compute in Hg. by injection Hg as <-.
  - exact (H Hns).
Defined.

(** The server of [project] has another image and another network than
    [example_class] resolves to. *)
Definition launched_claim : NodeClaim :=
  toNodeClaim example_server None example_claim (Some example_class).


Lemma capacity_views_agree_witness :
  Forall (fun it => capacityFor (sim_catalog project) (it_Name it) = Some (it_Capacity it))
    (types [] NewUnavailable).
Proof.
  apply Forall_forall. intros it Hit.
  apply (capacity_views_agree 0
    {| sn_Generation := 1; sn_ServerTypes := [cx23; cpx22];
       sn_PrimaryIPv4Monthly := f_ratio 50 100; sn_FetchedAt := 0 |} (nodeClass [] ∅) NewUnavailable it).
  - apply (bool_decide_unpack _). by vm_compute.
  - done.
  - exact Hit.
Defined.

Lemma get_agrees_with_list_witness :
  let st := {| ps_world := project; ps_unavailable := NewUnavailable;
               ps_cache := store (sim_now project) [Some example_server; Some foreign_server]
                             (newListCache DefaultListTTL);
               ps_metrics := [] |} in
  exists nc ncs, List prod st = (Ok ncs, st) /\ nc ∈ ncs /\
    Get prod (ProviderID example_server) st = (Ok nc, st) /\ cl_ProviderID nc = ProviderID example_server.
Proof.
  intros st.
  apply (get_agrees_with_list prod st [Some example_server; Some foreign_server] example_server).
  - by vm_compute.
  - intros x y Hx Hy E. rewrite !elem_of_cons, elem_of_nil in Hx, Hy.
    destruct Hx as [[= ->]|[[= ->]|[]]], Hy as [[= ->]|[[= ->]|[]]]; done.
  - by vm_compute.
  - set_solver.
  - by split.
Defined.

Lemma delete_reports_truth_witness :
  let st := started_with project in
  exists new, calls_made (CloudProvider.Delete prod launched_claim) st new /\
    ((CloudProvider.Delete prod launched_claim st).1 = None <->
     exists id srv, owned "prod" srv /\ new = [CGet id (Ok (Some srv)); CDelete id None]).
Proof.
  intros st. destruct (delete_reports_truth prod launched_claim st) as (new & Hc & Hr & _); [done|].
  by exists new.
Defined.
End Witnesses.
