(* ===== verification/BootstrapProvider.v ===== *)
(** The bootstrap provider: a join token minted and the user data that carries it.

    Models [internal/providers/bootstrap/provider.go] and makes it the
    [Bootstrapper] the cloud provider launches with.  The proofs run a launch over
    a world that records every token Secret it is asked to write. *)

From S2P Require Import Prelude GoErrors Float64 GoText GoMaps Servers Kube Api Unavailable.
From S2P Require Import Resources InstanceTypes Catalog NodeClaims Kubeadm CloudInit Token KubeClient.
From S2P Require Import Drift Candidates ListCache Sim Instance InstanceTraces CloudProvider.
From S2P Require Import CloudProviderProofs.
#[local] Open Scope go_scope.

(** [Provider], less its discovery, which no method reads. *)
Record bootstrap_provider := { bp_minter : TokenMinter; bp_clusterName : string }.

Definition NewBootstrapProvider (minter : TokenMinter) (clusterName : string) : bootstrap_provider :=
  {| bp_minter := minter; bp_clusterName := clusterName |}.

Section WithKube.
Context `{KB : Kube, GT : GoText, MR : MapRange, GZ : GzipWriter}.
Context `{YJ : YamlMarshal joinConfiguration, YC : YamlMarshal cloudConfig}.

Definition nodeLabels (nodeClaim : NodeClaim) : gmap string string :=
  let out := maps_Copy ∅ (cl_Labels nodeClaim) in
  if (map_get out NodePoolLabelKey =? "")%string then delete NodePoolLabelKey out else out.

Definition nodeTaints (nodeClaim : NodeClaim) : list Taint :=
  cl_Taints nodeClaim ++ cl_StartupTaints nodeClaim.

(** What is rendered for a NodeClaim once its token is there. *)
Definition claim_input (nodeClass : HCloudNodeClass) (nodeClaim : NodeClaim) (token : string) : Input :=
  {| in_NodeClass := Some nodeClass;
     in_Join :=
       {| ji_APIServerEndpoint := status_APIServerEndpoint (nc_Status nodeClass);
          ji_CACertHashes := status_CACertHashes (nc_Status nodeClass);
          ji_Token := token;
          ji_NodeLabels := nodeLabels nodeClaim;
          ji_Taints := nodeTaints nodeClaim;
          ji_Kubelet := Some (spec_Kubelet (nc_Spec nodeClass)) |} |}.

Definition unresolved (nodeClass : HCloudNodeClass) : bool :=
  (status_APIServerEndpoint (nc_Status nodeClass) =? "")%string ||
  match status_CACertHashes (nc_Status nodeClass) with [] => true | _ => false end.

Section Render.
Context {W : Type} `{TW : TokenWorld W, CK : Clock W}.

(** [Provider.Render]; [None] would be a panic. *)
Definition provider_Render (p : bootstrap_provider) (nodeClass : HCloudNodeClass)
    (nodeClaim : NodeClaim) (w : W) : option (result string) * W :=
  if unresolved nodeClass
  then (Some (Err (Errorf ("nodeclass " +:+ Quote (nc_Name nodeClass) +:+
                           " has no resolved join parameters"))), w)
  else
    match Mint (tm_ttl (bp_minter p)) (Some nodeClaim) (bp_clusterName p) w with
    | (Err err, w) =>
        (Some (Err (Wrapf ("minting a join token for " +:+ Quote (cl_Name nodeClaim) +:+ ", ") err)), w)
    | (Ok token, w) => (CloudInit.Render (claim_input nodeClass nodeClaim token), w)
    end.

Lemma renderJoin_total (in_ : JoinInput) (k : KubeletConfiguration) :
  ji_Kubelet in_ = Some k -> renderJoinConfiguration in_ <> None.
Proof.
  intros Hk. unfold renderJoinConfiguration, kubeletArgs. rewrite Hk.
  destruct (_ =? "")%string; [done|]. destruct (_ =? "")%string; [done|].
  by destruct (ji_CACertHashes in_).
Qed.

(** The configuration handed to the renderer is never nil, so nothing panics. *)
Lemma provider_Render_total (p : bootstrap_provider) (nodeClass : HCloudNodeClass)
    (nodeClaim : NodeClaim) (w : W) : (provider_Render p nodeClass nodeClaim w).1 <> None.
Proof.
  unfold provider_Render. destruct (unresolved nodeClass); [done|].
  destruct (Mint _ _ _ w) as [[token|e] w']; [|done]. cbn [fst]. unfold CloudInit.Render.
  cbn [in_NodeClass claim_input]. destruct (_ && _); [done|].
  pose proof (renderJoin_total (in_Join (claim_input nodeClass nodeClaim token))
    (spec_Kubelet (nc_Spec nodeClass)) eq_refl) as Ht.
  by destruct (renderJoinConfiguration _).
Qed.
End Render.

(** The [Bootstrapper] the cloud provider is given; by [provider_Render_total] the
    last case does not arise. *)
Definition bootstrapper {W : Type} `{TW : TokenWorld W, CK : Clock W} (p : bootstrap_provider)
    : Bootstrapper W := fun nodeClass nodeClaim w =>
  match provider_Render p nodeClass nodeClaim w with
  | (Some r, w) => (r, w)
  | (None, w) => (Err (Errorf "nil pointer dereference"), w)
  end.

Section Properties.
Context {W : Type} `{TW : TokenWorld W, CK : Clock W}.

(** Rendering for a NodeClaim does exactly this: for a NodeClass without an
    endpoint or a CA pin it fails and the world is untouched, so no credential is
    minted for a node that could not join; otherwise it mints one token and, if
    that succeeds, the result is the user data rendered for that token, the
    claim's labels and taints and the class's own parameters.  It never panics. *)
Theorem provider_render_exact (p : bootstrap_provider) (nodeClass : HCloudNodeClass)
    (nodeClaim : NodeClaim) (w : W) :
  let '(r, w') := bootstrapper p nodeClass nodeClaim w in
  if decide (status_APIServerEndpoint (nc_Status nodeClass) = "" \/
             status_CACertHashes (nc_Status nodeClass) = [])
  then (exists e, r = Err e) /\ w' = w
  else
    w' = (Mint (tm_ttl (bp_minter p)) (Some nodeClaim) (bp_clusterName p) w).2 /\
    match (Mint (tm_ttl (bp_minter p)) (Some nodeClaim) (bp_clusterName p) w).1 with
    | Err e => exists t, r = Err (Wrapf t e)
    | Ok token => CloudInit.Render (claim_input nodeClass nodeClaim token) = Some r
    end.
Proof.
  pose proof (provider_Render_total p nodeClass nodeClaim w) as Ht.
  unfold bootstrapper, provider_Render, unresolved in *.
  destruct (String.eqb_spec (status_APIServerEndpoint (nc_Status nodeClass)) "") as [He|He].
  { cbn [orb]. case_decide; [eauto|naive_solver]. }
  destruct (status_CACertHashes (nc_Status nodeClass)) as [|h hs]; cbn [orb] in *.
  { case_decide; [eauto|naive_solver]. }
  case_decide as Hd; [naive_solver|].
  destruct (Mint _ _ _ w) as [[token|e] w1]; cbn [fst snd] in *; [|eauto].
  destruct (CloudInit.Render _) as [r|]; [done|done].
Qed.

(** What the node registers with: the claim's labels, less an empty pool label,
    so that no node claims a pool by an empty name. *)
Lemma nodeLabels_lookup `{ML : !MapRangeLaws MR} (nodeClaim : NodeClaim) (k : string) :
  nodeLabels nodeClaim !! k =
  if decide (k = NodePoolLabelKey /\ cl_Labels nodeClaim !! k = Some "") then None
  else cl_Labels nodeClaim !! k.
Proof.
  unfold nodeLabels, map_get. cbv zeta. rewrite !maps_Copy_union, !map_union_empty.
  destruct (String.eqb_spec (default "" (cl_Labels nodeClaim !! NodePoolLabelKey)) "") as [E|E].
  - destruct (decide (k = NodePoolLabelKey)) as [->|Hk].
    + rewrite lookup_delete_eq. case_decide as Hd; [done|].
      destruct (cl_Labels nodeClaim !! NodePoolLabelKey) as [v|]; [|done]. cbn in E.
      destruct Hd. by rewrite E.
    + rewrite lookup_delete_ne by done. case_decide as Hd; [by destruct Hd|done].
  - case_decide as Hd; [|done]. destruct Hd as [-> Hd]. by rewrite Hd in E.
Qed.
End Properties.
End WithKube.

(** ** A launch over a world that records the token Secrets *)

Section Launch.
Context `{KB : Kube, CA : !CoreAllocatable, GT : GoText, IC : IntConv, KE : KarpErrors, ET : ErrorText}.
Context `{SH : !SpecHash, MR : MapRange, GZ : GzipWriter}.
Context `{YJ : YamlMarshal joinConfiguration, YC : YamlMarshal cloudConfig}.
Context {W : Type} `{SV : Servers W, CK : Clock W, KC : !KubeClient W, CP : CatalogProvider W}.
Context `{TW : TokenWorld W}.

Abbreviation R := (W * list Secret)%type.

(** Any other call, which writes no Secret of ours. *)
Definition lift {A} (f : W -> A * W) (w : R) : A * R := let '(a, w1) := f w.1 in (a, (w1, w.2)).

#[local] Instance recorded_servers : Servers R := {
  api_Create r := lift (api_Create r);
  api_Delete i := lift (api_Delete i);
  api_Get i := lift (api_Get i);
  api_GetByName n := lift (api_GetByName n);
  api_List s := lift (api_List s);
  api_Reset i := lift (api_Reset i);
  api_RecentActions i := lift (api_RecentActions i)
}.
#[local] Instance recorded_clock : Clock R := fun w => world_now w.1.
#[local] Instance recorded_kube : KubeClient R := {
  kube_GetNodeClass n := lift (kube_GetNodeClass n);
  kube_ListNodeClaims := lift kube_ListNodeClaims;
  kube_ListNodeClaimsFor c := lift (kube_ListNodeClaimsFor c);
  kube_PatchNodeClass a b := lift (kube_PatchNodeClass a b);
  kube_PatchNodeClaim a b := lift (kube_PatchNodeClaim a b)
}.
#[local] Instance recorded_catalog : CatalogProvider R := fun w => catalog_Get w.1.
#[local] Instance recorded_tokens : TokenWorld R := {
  rand_Int m := lift (rand_Int m);
  rfc3339 := rfc3339;
  kube_CreateSecret s w := let '(r, w1) := kube_CreateSecret s w.1 in (r, (w1, w.2 ++ [s]));
  kube_DeleteSecret ns n := lift (kube_DeleteSecret ns n)
}.

Definition history (st : PState R) : list Secret := (ps_world st).2.

(** An operation that records nothing. *)
Definition keeps {A} (m : IO R A) : Prop := forall st, history (m st).2 = history st.

Lemma keeps_ret {A} (a : A) : keeps (io_ret a).
Proof. done. Qed.

Lemma keeps_bind {A B} (m : IO R A) (k : A -> IO R B) :
  keeps m -> (forall a, keeps (k a)) -> keeps (io_bind m k).
Proof.
  intros Hm Hk st. unfold io_bind. specialize (Hm st). destruct (m st) as [a st1].
  by rewrite Hk.
Qed.

Lemma keeps_lift {A} (f : W -> A * W) : keeps (call_api (lift f)).
Proof. intros st. unfold call_api, lift. by destruct (f _). Qed.

Lemma keeps_now : keeps now. Proof. done. Qed.
Lemma keeps_emit (m : metric) : keeps (emit m). Proof. done. Qed.
Lemma keeps_mark a b c : keeps (mark_unavailable a b c). Proof. done. Qed.
Lemma keeps_invalidate : keeps invalidate_cache. Proof. done. Qed.
Lemma keeps_observe a b c t : keeps (observe a b c t). Proof. done. Qed.

#[local] Hint Resolve keeps_ret keeps_lift keeps_now keeps_emit keeps_mark keeps_invalidate
  keeps_observe : hcloud.

(** Walks a program, splitting its binds, matches and conditionals. *)
Ltac keeps_solve :=
  repeat first
    [ by auto with hcloud
    | apply keeps_bind; [|intros ?]
    | match goal with |- keeps (match ?x with _ => _ end) => destruct x end ].

Lemma keeps_create_attempt p nodeClaim its started base c :
  keeps (create_attempt p nodeClaim its started base c).
Proof.
  unfold create_attempt, config_failure, adopt. cbv zeta.
  apply keeps_bind; [apply (keeps_lift (api_Create _))|intros [srv|err]]; [keeps_solve|].
  apply keeps_bind; [auto with hcloud|intros _]. apply keeps_bind; [keeps_solve|intros _].
  destruct (Classify (Some err)); keeps_solve.
  apply (keeps_lift (api_GetByName _)).
Qed.

Lemma keeps_create_loop p nodeClaim its started base ex last cs :
  keeps (create_loop p nodeClaim its started base ex last cs).
Proof.
  revert last. induction cs as [|c cs IH]; intros last; cbn [create_loop].
  - keeps_solve.
  - apply keeps_bind; [apply keeps_create_attempt|]. intros [err|res]; [apply IH|apply keeps_ret].
Qed.

Lemma keeps_instance_Create p nodeClass nodeClaim its userData :
  keeps (Instance.Create p nodeClass nodeClaim its userData).
Proof.
  unfold Instance.Create. destruct (orderedCandidates _ _); [apply keeps_ret|].
  destruct (baseRequest _ _ _ _); [|apply keeps_ret].
  apply keeps_bind; [apply keeps_now|]. intros t. apply keeps_create_loop.
Qed.

Lemma randomString_history (n : nat) (w : R) : (randomString n w).2.2 = w.2.
Proof.
  revert w. induction n as [|n IH]; intros w; cbn [randomString]; [done|].
  assert ((rand_Int (Z.of_nat (String.length tokenAlphabet)) w).2.2 = w.2) as Hr.
  { cbn [rand_Int recorded_tokens]. unfold lift. by destruct (rand_Int _ _). }
  destruct (rand_Int _ w) as [[i|e] w1]; [|done]. cbn [snd] in Hr.
  destruct (String.get _ _); [|done]. specialize (IH w1).
  destruct (randomString n w1) as [[s|e] w2]; cbn [snd] in *; congruence.
Qed.

(** Minting writes at most one Secret, the claim's, and one when it succeeds. *)
Lemma Mint_history ttl (nodeClaim : NodeClaim) (cluster : string) (w : R) :
  exists new, (Mint ttl (Some nodeClaim) cluster w).2.2 = w.2 ++ new /\ (length new <= 1)%nat /\
    (forall t, (Mint ttl (Some nodeClaim) cluster w).1 = Ok t -> length new = 1%nat) /\
    Forall (fun s => exists id secret expiry, s = token_object nodeClaim cluster id secret expiry) new.
Proof.
  assert (forall (r : result string) (w1 : R), w1.2 = w.2 -> (forall t, r <> Ok t) ->
    exists new, (r, w1).2.2 = w.2 ++ new /\ (length new <= 1)%nat /\
    (forall t, (r, w1).1 = Ok t -> length new = 1%nat) /\
    Forall (fun s => exists id secret expiry, s = token_object nodeClaim cluster id secret expiry) new)
    as Hnone.
  { intros r w1 Hw Hr. exists []. rewrite app_nil_r. cbn. split; [done|]. split; [lia|].
    split; [intros t Ht; by destruct (Hr t)|constructor]. }
  unfold Mint. destruct (cl_Name nodeClaim =? "")%string; [by apply Hnone|].
  destruct (cl_UID nodeClaim =? "")%string; [by apply Hnone|].
  pose proof (randomString_history tokenIDLength w) as H1.
  destruct (randomString tokenIDLength w) as [[id|e] w1]; [|by apply Hnone]. cbn [snd] in H1.
  pose proof (randomString_history tokenSecretLength w1) as H2.
  destruct (randomString tokenSecretLength w1) as [[secret|e] w2]; [|apply Hnone; [|done]; cbn in *; congruence].
  cbn [snd] in H2. cbn [kube_CreateSecret recorded_tokens].
  destruct (kube_CreateSecret _ w2.1) as [[e|] w3]; eexists [_]; cbn [fst snd];
    (split; [by rewrite H2, H1|]; split; [done|]; split; [done|]; constructor; [by eexists _, _, _|constructor]).
Qed.

Ltac nothing_minted :=
  exists []; rewrite app_nil_r; split; [done|]; split; [cbn; lia|]; split; [intros ? ?; done|constructor].

(** C23. A launch leaves at most one join credential behind, however many server
    types it falls through: one Create asks for at most one token Secret, that
    Secret is the NodeClaim's own, and a Create that succeeds asked for exactly
    one. *)
Theorem one_token_per_launch (bp : bootstrap_provider) (p : Provider) (nodeClaim : NodeClaim)
    (st : PState R) :
  let run := CloudProvider.Create (BS := bootstrapper bp) p nodeClaim st in
  exists new, history run.2 = history st ++ new /\ (length new <= 1)%nat /\
    (forall out, run.1 = Ok out -> length new = 1%nat) /\
    Forall (fun s => exists id secret expiry,
      s = token_object nodeClaim (bp_clusterName bp) id secret expiry) new.
Proof.
  cbv zeta. unfold CloudProvider.Create, io_bind.
  assert (keeps (resolveNodeClass nodeClaim)) as Hres.
  { unfold resolveNodeClass. destruct (cl_NodeClassRef nodeClaim); [|apply keeps_ret].
    apply keeps_bind; [apply (keeps_lift (kube_GetNodeClass _))|intros ?; apply keeps_ret]. }
  specialize (Hres st). destruct (resolveNodeClass nodeClaim st) as [[nodeClass|e] st1];
    cbn [snd] in Hres; [|nothing_minted].
  unfold instanceTypes. destruct (catalog_Get (ps_world st1)) as [s|];
    [|nothing_minted].
  destruct (negb (HasCandidates nodeClaim _)); [nothing_minted|].
  unfold call_api, Render, bootstrapper, provider_Render.
  destruct (unresolved nodeClass); [nothing_minted|].
  destruct (Mint_history (tm_ttl (bp_minter bp)) nodeClaim (bp_clusterName bp) (ps_world st1))
    as (new & Hh & Hl & Hok & Hf). fold (history st1) in Hh. rewrite Hres in Hh. exists new.
  destruct (Mint _ _ _ (ps_world st1)) as [[token|e] w2]; cbn [fst snd] in *; [|by split_and!].
  destruct (CloudInit.Render _) as [[ud|e]|]; [|by split_and!..].
  set (st2 := {| ps_world := w2; ps_unavailable := _; ps_cache := _; ps_metrics := _ |}).
  match goal with |- context [Instance.Create p nodeClass nodeClaim ?its ud st2] =>
    pose proof (keeps_instance_Create p nodeClass nodeClaim its ud st2) as Hk;
    destruct (Instance.Create p nodeClass nodeClaim its ud st2) as [[[srv it]|e] st3] end;
    cbn [snd fst io_ret] in *; rewrite Hk; split_and!; try done; intros; by eapply Hok.
Qed.
End Launch.
