(* ===== verification/Launch.v ===== *)
(** A launch from end to end: the request, the SDK, and drift.

    Ties [ServerClient] to [Instance] and [Drift]: what the adapter orders of
    Hetzner for a candidate, and what it makes of the server Hetzner delivers. *)

From S2P Require Import Prelude GoErrors Float64 GoText Servers Redact ServerClient Kube Api.
From S2P Require Import Unavailable Resources InstanceTypes Catalog NodeClaims KubeClient Drift.
From S2P Require Import Candidates ListCache Sim Instance InstanceTraces CloudProvider.
From S2P Require Import CloudProviderProofs.

Section WithKube.
Context `{KB : Kube, GT : GoText}.

(** Hetzner delivered what the options ask for: attachments as listed, firewalls
    in an order of its own, an address object exactly for the families enabled. *)
Record delivered (opts : ServerCreateOpts) (srv : sdk_server) : Prop := {
  dl_image : sv_Image srv = Some (co_Image opts);
  dl_location : sv_Location srv = Some (co_Location opts);
  dl_networks : omap snd (sv_PrivateNet srv) = co_Networks opts;
  dl_firewalls : sv_Firewalls srv ≡ₚ co_Firewalls opts;
  dl_placement_group : sv_PlacementGroup srv = co_PlacementGroup opts;
  dl_ipv4 : sv_IPv4ID srv <> 0 <-> co_EnableIPv4 opts = true;
  dl_ipv6 : sv_IPv6ID srv <> 0 <-> co_EnableIPv6 opts = true;
  dl_labels : sv_Labels srv = co_Labels opts
}.

Lemma has_address (id : Z) (b : bool) : (id <> 0 <-> b = true) -> negb (id =? 0) = b.
Proof. destruct (Z.eqb_spec id 0), b; naive_solver. Qed.

Lemma delivered_as_ordered (r : CreateServerRequest) (srv : sdk_server) :
  delivered (createOpts r) srv -> as_ordered r (serverFromHcloud srv).
Proof.
  intros [D1 D2 D3 D4 D5 D6 D7 D8]. split; cbn [serverFromHcloud srv_NetworkIDs srv_FirewallIDs
    srv_PlacementGroupID srv_HasPublicIPv4 srv_HasPublicIPv6 srv_ImageID createOpts
    co_Image co_Networks co_Firewalls co_PlacementGroup co_EnableIPv4 co_EnableIPv6] in *.
  - done.
  - intros id. by rewrite D4.
  - by rewrite D5.
  - by apply has_address.
  - by apply has_address.
  - by rewrite D1.
Qed.

(** C18. What Hetzner delivers for a candidate is this cluster's and does not drift.
    Ordered through the adapter from a NodeClass's request and delivered as
    ordered, the server the adapter describes carries the cluster's label, stands
    where the candidate says, and conforms to the NodeClass as long as that
    location is one of its own. *)
Theorem delivered_server_conforms (cluster : string) (nodeClass : HCloudNodeClass)
    (nodeClaim : NodeClaim) (userData : string) (base : CreateServerRequest) (c : Candidate)
    (srv : sdk_server)
    (Hb : baseRequest (NewProvider cluster) nodeClass nodeClaim userData = Ok base)
    (Hd : delivered (createOpts (for_candidate base c)) srv)
    (Hloc : spec_Locations (nc_Spec nodeClass) = [] \/
       c_Location c ∈ lst_Name <$> status_Locations (nc_Status nodeClass)) :
  srv_Location (serverFromHcloud srv) = c_Location c /\
  IsManagedBy (Some (serverFromHcloud srv)) cluster = true /\
  serverDrift nodeClass (serverFromHcloud srv) = "".
Proof.
  assert (srv_Location (serverFromHcloud srv) = c_Location c) as Hl.
  { cbn [serverFromHcloud srv_Location]. by rewrite (dl_location _ _ Hd). }
  split; [done|]. split.
  - apply IsManagedBy_owned. destruct (baseRequest_owned _ _ _ _ _ Hb) as [Hc Hm].
    split; [done|]. cbn [serverFromHcloud srv_Labels]. by rewrite (dl_labels _ _ Hd).
  - apply serverDrift_none. eapply as_ordered_conforms; [exact Hb| |].
    + apply delivered_as_ordered in Hd as [O1 O2 O3 O4 O5 O6]. by split.
    + destruct Hloc as [Hs|Hin]; [by right|left]. apply list_elem_of_fmap in Hin as (l & E & Hin).
      exists l. split; [done|]. congruence.
Qed.
End WithKube.

(** ** Witness *)

Section Witnesses.
Import KubeExample CatalogExample.

Definition small : Candidate :=
  {| c_InstanceType := {| it_Name := "cx23"; it_Requirements := ∅; it_Offerings := []; it_Capacity := ∅;
       it_Overhead := {| ov_KubeReserved := ∅; ov_SystemReserved := ∅; ov_EvictionThreshold := ∅ |};
       it_VolumeAttachmentLimits := ∅ |};
     c_Location := "nbg1"; c_Price := f_zero |}.

Definition delivery : sdk_server :=
  {| sv_ID := 5000; sv_Name := "default-x7k2p"; sv_Status := "running";
     sv_Labels := req_Labels example_base; sv_Created := second; sv_ServerType := Some "cx23";
     sv_Location := Some "nbg1"; sv_Image := Some (req_ImageID example_base); sv_IPv4 := Some "192.0.2.1";
     sv_IPv4ID := 1; sv_IPv6ID := 2; sv_PlacementGroup := None; sv_Firewalls := [];
     sv_PrivateNet := [(Some "10.0.0.7", Some 9)] |}.

Lemma delivered_server_conforms_witness :
  IsManagedBy (Some (serverFromHcloud delivery)) "prod" = true /\
  serverDrift (nodeClass ["nbg1"] ∅) (serverFromHcloud delivery) = "".
Proof.
  apply (delivered_server_conforms "prod" (nodeClass ["nbg1"] ∅) example_claim "#cloud-config"
    example_base small delivery).
  - reflexivity.
  - split; try reflexivity; by vm_compute.
  - right. by apply list_elem_of_here.
Defined.
End Witnesses.
