(* ===== verification/InstanceGC.v ===== *)
(** The instance garbage collector: servers whose NodeClaim is gone.

    Models [internal/controllers/instancegc/controller.go].  The controller is
    written against the two operations it needs, the class [GCProvider], and its
    theorems hold for any implementation; the instance provider is one. *)

From S2P Require Import Prelude GoErrors Float64 GoText Servers Kube Api Unavailable Resources.
From S2P Require Import InstanceTypes Catalog NodeClaims KubeClient Candidates ListCache Sim.
From S2P Require Import Instance InstanceTraces.

Definition interval : duration := 2 * minute.
Definition minAge : duration := 5 * minute.

(** [Provider]: the slice of the instance provider the controller needs. *)
Class GCProvider (W : Type) := {
  gc_List : W -> result (list Server) * W;
  gc_Delete : string -> W -> option error * W
}.

(** [reconciler.Result] with the error, and the reaped counter's increase. *)
Record gc_result := {
  gc_RequeueAfter : duration;
  gc_Err : option error;
  gc_Reaped : Z
}.

Definition gc_stop (e : error) : gc_result :=
  {| gc_RequeueAfter := 0; gc_Err := Some e; gc_Reaped := 0 |}.
Definition gc_idle : gc_result :=
  {| gc_RequeueAfter := interval; gc_Err := None; gc_Reaped := 0 |}.

Section WithKube.
Context `{KB : Kube, KE : KarpErrors}.
Context {W : Type} `{GP : GCProvider W, CK : Clock W, KC : !KubeClient W}.

(** The guards of one iteration: which server the sweep deletes. *)
Definition reapable (live : gset string) (now : time) (srv : Server) : bool :=
  let claim := map_get (srv_Labels srv) LabelNodeClaim in
  if (claim =? "")%string || bool_decide (claim ∈ live) then false
  else if time_is_zero (srv_Created srv) then false
  else if time_sub now (srv_Created srv) <? minAge then false
  else true.

(** The sweep: the errors and the reaped count accumulate. *)
Fixpoint gc_sweep (live : gset string) (servers : list Server) (errs : list error)
    (reaped : Z) (w : W) : list error * Z * W :=
  match servers with
  | [] => (errs, reaped, w)
  | srv :: rest =>
      if reapable live (world_now w) srv then
        let '(err, w') := gc_Delete (ProviderID srv) w in
        match err with
        | Some e =>
            if IsNotFound (Some e) then gc_sweep live rest errs reaped w'
            else gc_sweep live rest
                   (errs ++ [Wrapf ("deleting orphaned server " +:+ srv_Name srv +:+ ", ") e])
                   reaped w'
        | None => gc_sweep live rest errs (reaped + 1) w'
        end
      else gc_sweep live rest errs reaped w
  end.

Definition Reconcile (clusterName : string) (w : W) : gc_result * W :=
  if (clusterName =? "")%string
  then (gc_stop (Errorf "cluster name is empty, refusing to garbage collect"), w)
  else
    match gc_List w with
    | (Err err, w) => (gc_stop (Wrapf "listing servers, " err), w)
    | (Ok [], w) => (gc_idle, w)
    | (Ok servers, w) =>
        match kube_ListNodeClaims w with
        | (Err err, w) => (gc_stop (Wrapf "listing nodeclaims, " err), w)
        | (Ok nodeClaims, w) =>
            let live : gset string := list_to_set (cl_Name <$> nodeClaims) in
            if decide (live = ∅) then (gc_idle, w)
            else
              let '(errs, reaped, w) := gc_sweep live servers [] 0 w in
              ({| gc_RequeueAfter := match errs with [] => interval | _ => 0 end;
                  gc_Err := match errs with
                            | [] => None
                            | _ => Wrapf "garbage collecting orphaned servers: " <$>
                                     multierr_Combine (Some <$> errs)
                            end;
                  gc_Reaped := reaped |}, w)
        end
    end.
End WithKube.

(** ** The trace of a sweep *)

(** A delete the controller asked for: when, of what, and the answer. *)
Record gc_delete := { gd_at : time; gd_id : string; gd_out : option error }.

Section Traced.
Context `{KB : Kube, KE : KarpErrors}.
Context {W : Type} `{GP : GCProvider W, CK : Clock W, KC : !KubeClient W}.

#[local] Instance traced_gc : GCProvider (W * list gc_delete) := {
  gc_List wt := let '(r, w) := gc_List wt.1 in (r, (w, wt.2));
  gc_Delete pid wt :=
    let '(r, w) := gc_Delete pid wt.1 in
    (r, (w, wt.2 ++ [{| gd_at := world_now wt.1; gd_id := pid; gd_out := r |}]))
}.
#[local] Instance traced_gc_clock : Clock (W * list gc_delete) := fun wt => world_now wt.1.
#[local] Instance traced_gc_kube : KubeClient (W * list gc_delete) := {
  kube_GetNodeClass n wt := let '(r, w) := kube_GetNodeClass n wt.1 in (r, (w, wt.2));
  kube_ListNodeClaims wt := let '(r, w) := kube_ListNodeClaims wt.1 in (r, (w, wt.2));
  kube_ListNodeClaimsFor c wt := let '(r, w) := kube_ListNodeClaimsFor c wt.1 in (r, (w, wt.2));
  kube_PatchNodeClass a b wt := let '(r, w) := kube_PatchNodeClass a b wt.1 in (r, (w, wt.2));
  kube_PatchNodeClaim a b wt := let '(r, w) := kube_PatchNodeClaim a b wt.1 in (r, (w, wt.2))
}.

(** What an orphan is: it names a NodeClaim, that NodeClaim does not exist,
    although others do, and it has been running for at least five minutes. *)
Record orphan (live : gset string) (now : time) (srv : Server) : Prop := {
  orphan_claimed : map_get (srv_Labels srv) LabelNodeClaim <> "";
  orphan_gone : map_get (srv_Labels srv) LabelNodeClaim ∉ live;
  orphan_dated : srv_Created srv <> 0;
  orphan_old : minAge <= now - srv_Created srv
}.

Lemma reapable_orphan (live : gset string) (now : time) (srv : Server) :
  reapable live now srv = true <-> orphan live now srv.
Proof.
  unfold reapable. set (claim := map_get (srv_Labels srv) LabelNodeClaim).
  destruct (String.eqb_spec claim "") as [E|E]; cbn [orb]; [split; [done|]; by intros [? _ _ _]|].
  case_bool_decide as Hl; [split; [done|]; by intros [_ ? _ _]|].
  unfold time_is_zero. destruct (Z.eqb_spec (srv_Created srv) 0) as [Hz|Hz];
    [split; [done|]; by intros [_ _ ? _]|].
  assert (minAge <= time_sub now (srv_Created srv) <-> minAge <= now - srv_Created srv) as Hage
    by (apply time_sub_ge; by vm_compute).
  destruct (Z.ltb_spec (time_sub now (srv_Created srv)) minAge) as [Hlt|Hge].
  - split; [done|]. intros [_ _ _ Ho]. apply Hage in Ho. lia.
  - split; [|done]. intros _. split; [done..|]. by apply Hage.
Qed.

(** One delete per orphan in its turn, in the listing's order: [ds] are the
    deletes of a sweep over [servers] that starts in [w] and ends in [w'].  A
    server is asked to be deleted when it is an orphan at the moment its turn
    comes, and passed over only when it is not one then. *)
Inductive sweeps (live : gset string) (w : W) : list Server -> list gc_delete -> W -> Prop :=
  | SweepsNil : sweeps live w [] [] w
  | SweepsReap srv rest out w1 ds w' :
      orphan live (world_now w) srv -> gc_Delete (ProviderID srv) w = (out, w1) ->
      sweeps live w1 rest ds w' ->
      sweeps live w (srv :: rest)
        ({| gd_at := world_now w; gd_id := ProviderID srv; gd_out := out |} :: ds) w'
  | SweepsSkip srv rest ds w' :
      ~ orphan live (world_now w) srv -> sweeps live w rest ds w' ->
      sweeps live w (srv :: rest) ds w'.

Lemma gc_sweep_spec (live : gset string) (servers : list Server) (errs : list error)
    (reaped : Z) (wt : W * list gc_delete) :
  let '(errs', reaped', wt') := gc_sweep live servers errs reaped wt in
  exists ds, wt'.2 = wt.2 ++ ds /\ sweeps live wt.1 servers ds wt'.1 /\
    reaped' = reaped + Z.of_nat (length (filter (fun d => gd_out d = None) ds)) /\
    (errs' = [] <-> errs = [] /\
      Forall (fun d => forall e, gd_out d = Some e -> IsNotFound (Some e) = true) ds).
Proof.
  revert errs reaped wt. induction servers as [|srv rest IH]; intros errs reaped wt;
    cbn [gc_sweep gc_Delete traced_gc].
  { exists []. rewrite app_nil_r. split; [done|]. split; [apply SweepsNil|].
    split; [change (filter _ []) with (@nil gc_delete); simpl; lia|].
    rewrite Forall_nil. naive_solver. }
  destruct (reapable live (world_now wt) srv) eqn:Er.
  2: { specialize (IH errs reaped wt). destruct (gc_sweep _ _ _ _ _) as [[errs' reaped'] wt'].
       destruct IH as (ds & H1 & H2 & H3 & H4). exists ds. split; [done|]. split; [|done].
       apply SweepsSkip; [|done]. rewrite <- reapable_orphan. unfold world_now, traced_gc_clock in Er. congruence. }
  apply reapable_orphan in Er. destruct (gc_Delete (ProviderID srv) wt.1) as [[e|] w] eqn:Ed.
  - set (d := {| gd_at := world_now wt.1; gd_id := ProviderID srv; gd_out := Some e |}).
    destruct (IsNotFound (Some e)) eqn:En.
    + specialize (IH errs reaped (w, wt.2 ++ [d])). destruct (gc_sweep _ _ _ _ _) as [[errs' reaped'] wt'].
      destruct IH as (ds & H1 & H2 & H3 & H4). exists (d :: ds).
      split; [rewrite H1; cbn [snd]; by rewrite <- app_assoc|]. split; [by eapply SweepsReap|].
      split; [by rewrite filter_cons_False|]. rewrite H4, Forall_cons. naive_solver.
    + set (err := Wrapf _ e). specialize (IH (errs ++ [err]) reaped (w, wt.2 ++ [d])).
      destruct (gc_sweep _ _ _ _ _) as [[errs' reaped'] wt'].
      destruct IH as (ds & H1 & H2 & H3 & H4). exists (d :: ds).
      split; [rewrite H1; cbn [snd]; by rewrite <- app_assoc|]. split; [by eapply SweepsReap|].
      split; [by rewrite filter_cons_False|]. rewrite H4, Forall_cons.
      split; [intros [E _]; by apply app_nil in E as [_ ?]|]. intros [_ [Hd _]].
      specialize (Hd e eq_refl). congruence.
  - set (d := {| gd_at := world_now wt.1; gd_id := ProviderID srv; gd_out := None |}).
    specialize (IH errs (reaped + 1) (w, wt.2 ++ [d])). destruct (gc_sweep _ _ _ _ _) as [[errs' reaped'] wt'].
    destruct IH as (ds & H1 & H2 & H3 & H4). exists (d :: ds).
    split; [rewrite H1; cbn [snd]; by rewrite <- app_assoc|]. split; [by eapply SweepsReap|].
    split; [rewrite filter_cons_True by done; simpl; lia|]. rewrite H4, Forall_cons. naive_solver.
Qed.

(** A server that is an orphan when the sweep starts is deleted in its turn, as
    time does not run backwards across a delete. *)
Lemma gc_sweep_complete (live : gset string) (servers : list Server) (errs : list error)
    (reaped : Z) (wt : W * list gc_delete) (srv : Server) (t0 : time) :
  (forall pid (w : W), world_now w <= world_now (gc_Delete pid w).2) ->
  t0 <= world_now wt -> srv ∈ servers -> orphan live t0 srv ->
  exists ds, (gc_sweep live servers errs reaped wt).2.2 = wt.2 ++ ds /\
    ProviderID srv ∈ gd_id <$> ds.
Proof.
  intros Hmono. revert errs reaped wt.
  induction servers as [|s rest IH]; intros errs reaped wt Ht Hin Ho; [by apply elem_of_nil in Hin|].
  assert (forall errs reaped wt', world_now wt <= world_now wt' -> forall pre, wt'.2 = wt.2 ++ pre ->
    (srv ∈ rest \/ ProviderID srv ∈ gd_id <$> pre) ->
    exists ds, (gc_sweep live rest errs reaped wt').2.2 = wt.2 ++ ds /\ ProviderID srv ∈ gd_id <$> ds)
    as Hrest.
  { intros errs' reaped' wt' Hle pre Hpre [Hr|Hd].
    - destruct (IH errs' reaped' wt') as (ds & H1 & H2); [lia|done..|].
      exists (pre ++ ds). rewrite H1, Hpre, <- app_assoc, fmap_app. set_solver.
    - pose proof (gc_sweep_spec live rest errs' reaped' wt') as Hs.
      destruct (gc_sweep live rest errs' reaped' wt') as [[e1 r1] w1]. destruct Hs as (ds & H1 & _).
      exists (pre ++ ds). simpl. rewrite H1, Hpre, <- app_assoc, fmap_app. set_solver. }
  cbn [gc_sweep gc_Delete traced_gc]. destruct (reapable live (world_now wt) s) eqn:Er.
  - specialize (Hmono (ProviderID s) wt.1). destruct (gc_Delete (ProviderID s) wt.1) as [out w].
    assert (srv ∈ rest \/ ProviderID srv ∈
      gd_id <$> [{| gd_at := world_now wt.1; gd_id := ProviderID s; gd_out := out |}]) as Hor.
    { apply elem_of_cons in Hin as [->|Hin]; [right; simpl; set_solver|by left]. }
    destruct out as [e|]; [destruct (IsNotFound (Some e))|]; by eapply Hrest.
  - apply elem_of_cons in Hin as [->|Hin].
    + exfalso. apply not_true_iff_false in Er. apply Er, reapable_orphan.
      destruct Ho as [O1 O2 O3 O4]. split; [done..|]. lia.
    + apply (Hrest errs reaped wt ltac:(lia) []); [by rewrite app_nil_r|by left].
Qed.

Lemma combine_errors (errs : list error) : multierr_Combine (Some <$> errs) = None <-> errs = [].
Proof.
  rewrite multierr_Combine_None. split; [|intros ->; constructor].
  destruct errs; [done|]. intros H. by inversion H.
Qed.

(** ** Properties *)

(** How a pass goes, by what it reads. *)
Inductive gc_pass (clusterName : string) (w : W) : gc_result -> list gc_delete -> W -> Prop :=
  | PassUnnamed r :
      clusterName = "" -> gc_Err r <> None -> gc_Reaped r = 0 -> gc_pass clusterName w r [] w
  | PassUnlisted e r w1 :
      clusterName <> "" -> gc_List w = (Err e, w1) -> gc_Err r <> None -> gc_Reaped r = 0 ->
      gc_pass clusterName w r [] w1
  | PassNoServers w1 :
      clusterName <> "" -> gc_List w = (Ok [], w1) -> gc_pass clusterName w gc_idle [] w1
  | PassClaimsUnread servers w1 e r w2 :
      clusterName <> "" -> gc_List w = (Ok servers, w1) -> servers <> [] ->
      kube_ListNodeClaims w1 = (Err e, w2) -> gc_Err r <> None -> gc_Reaped r = 0 ->
      gc_pass clusterName w r [] w2
  | PassNoClaims servers w1 w2 :
      clusterName <> "" -> gc_List w = (Ok servers, w1) -> servers <> [] ->
      kube_ListNodeClaims w1 = (Ok [], w2) -> gc_pass clusterName w gc_idle [] w2
  | PassSwept servers w1 nodeClaims w2 r ds w' :
      clusterName <> "" -> gc_List w = (Ok servers, w1) -> servers <> [] ->
      kube_ListNodeClaims w1 = (Ok nodeClaims, w2) -> nodeClaims <> [] ->
      sweeps (list_to_set (cl_Name <$> nodeClaims)) w2 servers ds w' ->
      gc_Reaped r = Z.of_nat (length (filter (fun d => gd_out d = None) ds)) ->
      (gc_Err r = None <->
       Forall (fun d => forall e, gd_out d = Some e -> IsNotFound (Some e) = true) ds) ->
      gc_pass clusterName w r ds w'.

(** C10. A sweep deletes exactly the orphans.  Without a cluster name, or when a list
    cannot be read, a pass fails and asks for no deletion; with no servers, or with
    no NodeClaims at all, it succeeds and asks for none.  In every other case it
    goes through the listed servers in order and asks for the deletion of each one
    that, at the moment its turn comes, names a NodeClaim that does not exist, has
    a creation time and is at least five minutes old, and passes over no such
    server; the counter rises by the deletions that succeeded, and the pass fails
    exactly when one failed other than because the server was already gone. *)
Theorem gc_deletes_only_orphans (clusterName : string) (w : W) :
  let '(r, (w', ds)) := Reconcile clusterName (w, []) in gc_pass clusterName w r ds w'.
Proof.
  unfold Reconcile. destruct (String.eqb_spec clusterName "") as [|Hc]; [by apply PassUnnamed|].
  cbn [gc_List traced_gc kube_ListNodeClaims traced_gc_kube fst snd].
  destruct (gc_List w) as [[[|s servers]|e] w1] eqn:El; [by apply PassNoServers| |by eapply PassUnlisted].
  cbn [fst snd].
  destruct (kube_ListNodeClaims w1) as [[claims|e] w2] eqn:Ek; [|by eapply PassClaimsUnread].
  case_decide as Hlive.
  { destruct claims as [|c cs]; [by eapply PassNoClaims|set_solver]. }
  pose proof (gc_sweep_spec (list_to_set (cl_Name <$> claims)) (s :: servers) [] 0 (w2, [])) as Hs.
  destruct (gc_sweep _ _ _ _ _) as [[errs reaped] [w' ds']]. destruct Hs as (ds & H1 & H2 & H3 & H4).
  cbn [snd] in H1. rewrite app_nil_l in H1. subst ds'.
  eapply (PassSwept _ _ (s :: servers) w1 claims w2); try done; [by intros ->|]. cbn [gc_Err].
  pose proof (combine_errors errs) as Hce.
  assert (match errs with [] => None | _ => Wrapf "garbage collecting orphaned servers: " <$>
    multierr_Combine (Some <$> errs) end = None <-> errs = []) as ->; [|naive_solver].
  destruct errs as [|e errs]; [done|]. destruct (multierr_Combine _); naive_solver.
Qed.

(** Nothing leaks for long: in a pass that reads both lists, with at least one
    NodeClaim alive, every server that is an orphan when the lists are read is
    asked to be deleted. *)
Theorem gc_deletes_every_orphan (clusterName : string) (w w1 w2 : W) (servers : list Server)
    (nodeClaims : list NodeClaim) (srv : Server)
    (Hclock : forall pid (w : W), world_now w <= world_now (gc_Delete pid w).2)
    (Hc : clusterName <> "") (Hl : gc_List w = (Ok servers, w1))
    (Hk : kube_ListNodeClaims w1 = (Ok nodeClaims, w2)) (Hne : nodeClaims <> [])
    (Hin : srv ∈ servers)
    (Ho : orphan (list_to_set (cl_Name <$> nodeClaims)) (world_now w2) srv) :
  ProviderID srv ∈ gd_id <$> (Reconcile clusterName (w, [])).2.2.
Proof.
  unfold Reconcile. apply String.eqb_neq in Hc. rewrite Hc.
  cbn [gc_List traced_gc kube_ListNodeClaims traced_gc_kube fst snd]. rewrite Hl.
  destruct servers as [|s servers]; [by apply elem_of_nil in Hin|]. cbn [fst snd]. rewrite Hk.
  case_decide as Hlive.
  { exfalso. destruct nodeClaims as [|c cs]; [done|]. set_solver. }
  destruct (gc_sweep_complete (list_to_set (cl_Name <$> nodeClaims)) (s :: servers) [] 0 (w2, []) srv
    (world_now w2) Hclock) as (ds & H1 & H2); [apply Z.le_refl|done..|].
  destruct (gc_sweep _ _ _ _ _) as [[errs reaped] wt']. simpl in *. by rewrite H1.
Qed.
End Traced.

(** ** The collector on the real provider *)

(** The instance provider is the [GCProvider] the binary wires in. *)
Section Wired.
Context `{KB : Kube, CA : !CoreAllocatable, GT : GoText, KE : KarpErrors, ET : ErrorText}.
Context {W : Type} `{SV : Servers W, CK : Clock W, KC : !KubeClient W}.

#[local] Instance state_clock {V} `{Clock V} : Clock (PState V) := fun st => world_now (ps_world st).

#[local] Instance provider_gc {V} `{Servers V, Clock V} (p : Provider) : GCProvider (PState V) := {
  gc_List := Instance.List p;
  gc_Delete := Instance.Delete p
}.

(** Kubernetes calls leave the provider's state and the server-API trace alone. *)
#[local] Instance state_kube : KubeClient (PState (W * list call)) :=
  let lift {A} (f : W -> A * W) (st : PState (W * list call)) :=
    let '(r, w) := f (ps_world st).1 in
    (r, {| ps_world := (w, (ps_world st).2); ps_unavailable := ps_unavailable st;
           ps_cache := ps_cache st; ps_metrics := ps_metrics st |}) in
  {| kube_GetNodeClass n := lift (kube_GetNodeClass n);
     kube_ListNodeClaims := lift kube_ListNodeClaims;
     kube_ListNodeClaimsFor c := lift (kube_ListNodeClaimsFor c);
     kube_PatchNodeClass a b := lift (kube_PatchNodeClass a b);
     kube_PatchNodeClaim a b := lift (kube_PatchNodeClaim a b) |}.

Lemma gc_sweep_guarded (cluster : string) (live : gset string) (servers : list Server)
    (errs : list error) (reaped : Z) (st : PState (W * list call)) :
  guarded cluster (trace st) ->
  guarded cluster (trace (gc_sweep (GP := provider_gc (NewProvider cluster)) live servers errs reaped st).2).
Proof.
  revert errs reaped st. induction servers as [|s rest IH]; intros errs reaped st Hg; [done|].
  cbn [gc_sweep gc_Delete provider_gc]. destruct (reapable _ _ _); [|by apply IH].
  assert (guarded cluster (trace (Instance.Delete (NewProvider cluster) (ProviderID s) st).2)) as Hg'
    by (by apply (exec_guarded (NewProvider cluster) (ODelete (ProviderID s)));
        [apply new_provider_attempts|]).
  destruct (Instance.Delete (NewProvider cluster) (ProviderID s) st) as [[e|] st']; [|by apply IH].
  destruct (IsNotFound (Some e)); by apply IH.
Qed.

(** The collector can only ever reach this cluster's servers: run on the instance
    provider, every deletion a pass causes directly follows a live read showing
    the cluster's label, whatever the listing said. *)
Theorem gc_reaches_only_own (cluster : string) (st : PState (W * list call))
    (Hg : guarded cluster (trace st)) :
  guarded cluster
    (trace (Reconcile (GP := provider_gc (NewProvider cluster)) cluster st).2).
Proof.
  unfold Reconcile. destruct (cluster =? "")%string; [done|].
  assert (guarded cluster (trace (Instance.List (NewProvider cluster) st).2)) as Hl
    by (by apply (exec_guarded (NewProvider cluster) OList); [apply new_provider_attempts|]).
  cbn [gc_List provider_gc]. destruct (Instance.List (NewProvider cluster) st) as [[[|s l]|e] st1]; [done| |done].
  unfold kube_ListNodeClaims, state_kube. destruct (kube_ListNodeClaims (ps_world st1).1) as [[cs|e] w]; [|done].
  case_decide; [done|].
  set (st2 := {| ps_world := (w, (ps_world st1).2); ps_unavailable := ps_unavailable st1;
                 ps_cache := ps_cache st1; ps_metrics := ps_metrics st1 |}).
  pose proof (gc_sweep_guarded cluster (list_to_set (cl_Name <$> cs)) (s :: l) [] 0 st2 Hl) as Hs.
  by destruct (gc_sweep _ _ _ _ _) as [[errs reaped] st3].
Qed.
End Wired.

(** ** Witnesses *)

Section Witnesses.
Import KubeExample CatalogExample.
#[local] Instance alloc : CoreAllocatable := fun it => Allocatable (it_Capacity it) (it_Overhead it).
#[local] Instance unwraps : KarpErrors := fun _ => true.
#[local] Instance etext : ErrorText := fun _ => "error".

(** A cluster with one NodeClaim, which is not the server's. *)
#[local] Instance one_claim : KubeClient sim := {|
  kube_GetNodeClass _ w := (Err (KubeStatus KubeNotFound "not found"), w);
  kube_ListNodeClaims w :=
    (Ok [{| cl_Name := "other"; cl_UID := "uid-2"; cl_Labels := ∅; cl_Annotations := ∅;
            cl_CreationTimestamp := 0; cl_NodeClassRef := None; cl_Requirements := [];
            cl_Requests := ∅; cl_Taints := []; cl_StartupTaints := []; cl_ProviderID := "";
            cl_Capacity := ∅; cl_Allocatable := ∅; cl_RebootingAt := None; cl_Drifted := false |}], w);
  kube_ListNodeClaimsFor _ w := (Ok [], w);
  kube_PatchNodeClass _ _ w := (None, w);
  kube_PatchNodeClaim _ _ w := (None, w)
|}.

(** The server of [project], created at second 1, seen ten minutes later. *)
Definition old_server : Server :=
  {| srv_ID := 4711; srv_Name := "default-x7k2p"; srv_ServerType := "cx23"; srv_Location := "fsn1";
     srv_Status := "running";
     srv_Labels := {[ LabelManagedBy := "prod"; LabelNodeClaim := "default-x7k2p" ]};
     srv_ImageID := 9; srv_Created := second; srv_PrivateIPv4 := "10.0.0.5"; srv_PublicIPv4 := "";
     srv_NetworkIDs := [7]; srv_FirewallIDs := []; srv_PlacementGroupID := 0;
     srv_HasPublicIPv4 := false; srv_HasPublicIPv6 := false |}.

Definition old_project : sim :=
  {| sim_servers := {[ 4711 := old_server; 1 := foreign_server ]}; sim_next := 5000;
     sim_now := 10 * minute; sim_sold_out := []; sim_actions := ∅ |}.

(** A provider over the project itself: listing and deleting by id. *)
#[local] Instance sim_gc : GCProvider sim := {
  gc_List w := (Ok (filter (fun s => IsManagedBy (Some s) "prod" = true)
                      (map_to_list (sim_servers w)).*2), sim_tick w);
  gc_Delete pid w := match ServerIDFromProviderID pid with
                     | Ok id => (None, sim_set w (delete id (sim_servers w)) (sim_next w))
                     | Err e => (Some e, w)
                     end
}.

Lemma gc_deletes_every_orphan_witness :
  ProviderID old_server ∈ gd_id <$> (Reconcile (GP := traced_gc) (CK := traced_gc_clock)
    (KC := traced_gc_kube) "prod" (old_project, [])).2.2.
Proof.
  eapply (gc_deletes_every_orphan "prod" old_project (sim_tick old_project) (sim_tick old_project)
    [old_server]).
  - intros pid w. unfold gc_Delete, sim_gc, world_now, sim_clock.
    destruct (ServerIDFromProviderID pid); simpl; unfold second; lia.
  - done.
  - by vm_compute.
  - done.
  - done.
  - by apply list_elem_of_here.
  - split; [done| |done|by vm_compute]. simpl. set_solver.
Defined.

Lemma gc_reaches_only_own_witness :
  let st := (Reconcile (GP := provider_gc prod) (CK := state_clock) (KC := state_kube) "prod"
               (started_with old_project)).2 in
  guarded "prod" (trace st) /\ length (trace st) = 3%nat.
Proof.
  intros st. split; [|by vm_compute]. apply (gc_reaches_only_own "prod" (started_with old_project)).
  apply guarded_nil.
Defined.
End Witnesses.
