(* ===== verification/FleetGC.v ===== *)
(** What a sweep leaves of the fleet.

    [InstanceGC] shows which deletions the collector asks for; here the collector
    runs on the instance provider over a Hetzner that keeps to its laws, and what
    is proved is the fleet after a pass: the orphans are gone and the servers of
    living NodeClaims are there.  With [Fleet], where a failed launch may leave a
    server behind, this closes the circle: what is left behind is collected. *)

From S2P Require Import Prelude GoErrors Float64 GoText Servers Kube Api Unavailable Resources.
From S2P Require Import InstanceTypes Catalog NodeClaims KubeClient Candidates ListCache Sim.
From S2P Require Import Instance InstanceTraces Fleet InstanceGC.

Section Sweep.
Context `{KB : Kube, CA : !CoreAllocatable, GT : GoText, KE : KarpErrors, ET : ErrorText}.
Context {W : Type} `{SV : Servers W, CK : Clock W, KC : !KubeClient W, PJ : Project W}.
Context (cluster : string) {HL : HetznerLaws cluster}.

(** Kubernetes calls on the provider's state: the world moves, the caches do not. *)
#[export] Instance kube_on_state : KubeClient (PState W) :=
  let lift {A} (f : W -> A * W) (st : PState W) :=
    let '(r, w) := f (ps_world st) in
    (r, {| ps_world := w; ps_unavailable := ps_unavailable st; ps_cache := ps_cache st;
           ps_metrics := ps_metrics st |}) in
  {| kube_GetNodeClass n := lift (kube_GetNodeClass n);
     kube_ListNodeClaims := lift kube_ListNodeClaims;
     kube_ListNodeClaimsFor c := lift (kube_ListNodeClaimsFor c);
     kube_PatchNodeClass a b := lift (kube_PatchNodeClass a b);
     kube_PatchNodeClaim a b := lift (kube_PatchNodeClaim a b) |}.

(** A listing by the cluster's label is complete and true, a server reported as
    missing is gone, reading NodeClaims touches no server, time moves forward. *)
Class SweepLaws : Prop := {
  law_listed : forall w l w', api_List (ManagedBySelector cluster) w = (Ok l, w') ->
    (forall id h, fleet cluster w !! id = Some h ->
       exists s, Some s ∈ l /\ srv_ID s = id /\ held_of s = h) /\
    (forall s, Some s ∈ l -> held_servers w !! srv_ID s = Some (held_of s));
  law_missing : forall id w e w', api_Delete id w = (Some e, w') ->
    IsNotFound (Some e) = true -> fleet cluster w' !! id = None;
  law_claims : forall w, fleet cluster (kube_ListNodeClaims w).2 = fleet cluster w;
  law_forward : forall id w, world_now w <= world_now (api_Get id w).2 /\
    world_now w <= world_now (api_Delete id w).2;
  law_get_errors : forall id w e w', api_Get id w = (Err e, w') -> IsNotFound (Some e) = false
}.
Context {SL : SweepLaws}.

Abbreviation p := (NewProvider cluster).
#[local] Instance gc_provider : GCProvider (PState W) := provider_gc p.
#[local] Instance gc_clock : Clock (PState W) := state_clock.

Definition fleet_of (st : PState W) : fleet_state := fleet cluster (ps_world st).

(** One deletion: the fleet shrinks by that server at most, and by it exactly
    unless an error is reported other than that it is gone. *)
Lemma Delete_sweeps (s : Server) (st : PState W) :
  0 < srv_ID s <= max_int64 ->
  let '(err, st') := Instance.Delete p (ProviderID s) st in
  (fleet_of st' = fleet_of st \/ fleet_of st' = delete (srv_ID s) (fleet_of st)) /\
  world_now st <= world_now st' /\
  ((forall e, err = Some e -> IsNotFound (Some e) = true) -> fleet_of st' !! srv_ID s = None).
Proof using HL SL.
  intros Hid. unfold Instance.Delete. rewrite (ServerID_ProviderID s Hid).
  pose proof (law_Get cluster (srv_ID s) (ps_world st)) as Hget.
  pose proof (law_forward (srv_ID s) (ps_world st)) as [Htg _].
  pose proof (law_get_errors (srv_ID s) (ps_world st)) as Hge.
  unfold fleet_of, world_now, gc_clock, state_clock in *. unfold io_bind, call_api, io_ret.
  destruct (api_Get (srv_ID s) (ps_world st)) as [[[srv|]|e] w1] eqn:Eg; destruct Hget as [Hf Hout].
  - cbn [ps_world snd] in *. destruct (negb _) eqn:Em.
    + cbn. rewrite Hf. split; [by left|]. split; [done|]. intros Hno. by specialize (Hno _ eq_refl).
    + pose proof (law_Delete cluster (srv_ID s) w1) as Hd. pose proof (law_forward (srv_ID s) w1) as [_ Htd].
      pose proof (law_missing (srv_ID s) w1) as Hm. unfold invalidate_cache. cbn [fst snd ps_world].
      destruct (api_Delete (srv_ID s) w1) as [[e|] w2] eqn:Ed; cbn [fst snd ps_world] in *; rewrite Hf in Hd.
      * split; [exact Hd|]. split; [unfold world_now in *; lia|]. intros Hno. eapply Hm; [reflexivity|]. by apply Hno.
      * split; [by right|]. split; [unfold world_now in *; lia|]. intros _. rewrite Hd. apply lookup_delete_eq.
  - cbn in *. rewrite Hf. split; [by left|]. split; [done|]. intros _.
    apply map_lookup_filter_None. by left.
  - cbn in *. rewrite Hf. split; [by left|]. split; [done|]. intros Hno.
    specialize (Hge e w1 eq_refl). specialize (Hno e eq_refl). congruence.
Qed.

(** Errors are only ever added. *)
Lemma gc_sweep_errs (live : gset string) (servers : list Server) errs reaped (st : PState W) :
  errs `prefix_of` (gc_sweep live servers errs reaped st).1.1.
Proof.
  revert errs reaped st. induction servers as [|s rest IH]; intros errs reaped st; [done|].
  cbn [gc_sweep]. destruct (reapable _ _ _); [|apply IH].
  destruct (gc_Delete (ProviderID s) st) as [[e|] st']; [|apply IH].
  destruct (IsNotFound (Some e)); [apply IH|].
  etransitivity; [|apply IH]. by apply prefix_app_r.
Qed.

Definition in_range (s : Server) : Prop := 0 < srv_ID s <= max_int64.

Lemma gc_sweep_shrinks (live : gset string) (servers : list Server) errs reaped (st : PState W) :
  Forall in_range servers ->
  let st' := (gc_sweep live servers errs reaped st).2 in
  fleet_of st' ⊆ fleet_of st /\
  (forall id h, fleet_of st !! id = Some h ->
     (forall s, s ∈ servers -> srv_ID s = id -> map_get (srv_Labels s) LabelNodeClaim ∈ live) ->
     fleet_of st' !! id = Some h).
Proof using HL SL.
  revert errs reaped st. induction servers as [|s rest IH]; intros errs reaped st Hr; [done|].
  apply Forall_cons in Hr as [Hs Hr]. cbn [gc_sweep].
  assert (forall errs reaped st1,
    fleet_of st1 = fleet_of st \/ reapable live (world_now st) s = true /\
      fleet_of st1 = delete (srv_ID s) (fleet_of st) ->
    fleet_of (gc_sweep live rest errs reaped st1).2 ⊆ fleet_of st /\
    (forall id h, fleet_of st !! id = Some h ->
       (forall s', s' ∈ s :: rest -> srv_ID s' = id -> map_get (srv_Labels s') LabelNodeClaim ∈ live) ->
       fleet_of (gc_sweep live rest errs reaped st1).2 !! id = Some h)) as Hrest.
  { intros errs1 reaped1 st1 Hst. destruct (IH errs1 reaped1 st1 Hr) as [Hsub Hkeep]. split.
    - etransitivity; [exact Hsub|]. destruct Hst as [->|[_ ->]]; [done|apply delete_subseteq].
    - intros id h Hh Hlive. apply Hkeep; [|set_solver]. destruct Hst as [->|[Hre ->]]; [done|].
      rewrite lookup_delete_ne; [done|]. intros He.
      apply reapable_orphan in Hre as [_ Hgone _ _]. apply Hgone, Hlive; [set_solver|done]. }
  destruct (reapable live (world_now st) s) eqn:Er; [|apply Hrest; by left].
  pose proof (Delete_sweeps s st Hs) as Hd. cbn [gc_Delete gc_provider provider_gc].
  destruct (Instance.Delete p (ProviderID s) st) as [[e|] st1]; destruct Hd as (Hf & _).
  - destruct (IsNotFound (Some e)); apply Hrest; destruct Hf; auto.
  - apply Hrest. destruct Hf; auto.
Qed.

(** A server that is an orphan when the sweep starts is gone after it, if the sweep
    reports no error. *)
Lemma gc_sweep_clears (live : gset string) (servers : list Server) reaped (st : PState W) (s : Server) :
  Forall in_range servers -> s ∈ servers -> orphan live (world_now st) s ->
  (gc_sweep live servers [] reaped st).1.1 = [] ->
  fleet_of (gc_sweep live servers [] reaped st).2 !! srv_ID s = None.
Proof using HL SL.
  revert reaped st. induction servers as [|s1 rest IH]; intros reaped st Hr Hin Ho; [by apply elem_of_nil in Hin|].
  apply Forall_cons in Hr as [Hs Hr]. cbn [gc_sweep].
  assert (forall reaped st1, world_now st <= world_now st1 ->
    s ∈ rest \/ fleet_of st1 !! srv_ID s = None -> (gc_sweep live rest [] reaped st1).1.1 = [] ->
    fleet_of (gc_sweep live rest [] reaped st1).2 !! srv_ID s = None) as Hrest.
  { intros reaped1 st1 Ht [Hi|Hg] He.
    - apply IH; [done|done| |done]. destruct Ho as [O1 O2 O3 O4]. split; [done..|lia].
    - destruct (gc_sweep_shrinks live rest [] reaped1 st1 Hr) as [Hsub _].
      by eapply lookup_weaken_None. }
  destruct (reapable live (world_now st) s1) eqn:Er.
  - pose proof (Delete_sweeps s1 st Hs) as Hd. cbn [gc_Delete gc_provider provider_gc].
    destruct (Instance.Delete p (ProviderID s1) st) as [err st1]. destruct Hd as (_ & Ht & Hgone).
    assert ((forall e, err = Some e -> IsNotFound (Some e) = true) ->
      s ∈ rest \/ fleet_of st1 !! srv_ID s = None) as Hor.
    { intros Hno. apply elem_of_cons in Hin as [->|Hin]; [right; auto|by left]. }
    destruct err as [e|]; [|apply Hrest; [done|by apply Hor]].
    destruct (IsNotFound (Some e)) eqn:En; [apply Hrest; [done|]; apply Hor; by intros ? [= <-]|].
    intros He. pose proof (gc_sweep_errs live rest ([] ++ [Wrapf ("deleting orphaned server " +:+ srv_Name s1 +:+ ", ") e])
      reaped st1) as [k Hk]. rewrite He in Hk. done.
  - apply elem_of_cons in Hin as [->|Hin]; [|apply Hrest; [lia|by left]].
    apply reapable_orphan in Ho. congruence.
Qed.

Lemma elem_of_owned_servers (l : list (option Server)) (s : Server) :
  s ∈ owned_servers p l <-> Some s ∈ l /\ owned cluster s.
Proof.
  unfold owned_servers. rewrite list_elem_of_omap. split.
  - intros (o & Hin & Ho). destruct (IsManagedBy o _) eqn:Em; [|done]. subst o.
    by rewrite <- IsManagedBy_owned.
  - intros [Hin Ho]. exists (Some s). split; [done|]. apply IsManagedBy_owned in Ho. cbn in Ho |- *. by rewrite Ho.
Qed.

(** C11. A sweep leaves the fleet without its orphans.  In a pass that reads the servers
    of the cluster and the NodeClaims afresh, no server of a living NodeClaim is
    lost.  If moreover there is at least one NodeClaim and the pass reports no
    error, every server whose claim label is not empty and names a NodeClaim that
    is gone, and that has a creation time at least five minutes old, is gone too,
    whoever made it: a launch whose answer was lost and whose NodeClaim was given
    up is not paid for.  With no NodeClaims at all the code reaps nothing, and then
    every server of the fleet is still there. *)
Theorem sweep_clears_orphans (st : PState W) (l : list (option Server)) (w1 w2 : W)
    (claims : list NodeClaim) (Hcluster : cluster <> "")
    (Hfresh : fresh (world_now (ps_world st)) (ps_cache st) = None)
    (Hlist : api_List (ManagedBySelector cluster) (ps_world st) = (Ok l, w1))
    (Hrange : forall s, Some s ∈ l -> in_range s)
    (Hclaims : kube_ListNodeClaims w1 = (Ok claims, w2)) :
  let '(r, st') := Reconcile cluster st in
  (forall id h, fleet_of st !! id = Some h -> claim_of h ∈ cl_Name <$> claims -> fleet_of st' !! id = Some h) /\
  (gc_Err r = None -> claims <> [] -> forall id h, fleet_of st !! id = Some h ->
     claim_of h <> "" -> claim_of h ∉ cl_Name <$> claims ->
     (forall s, Some s ∈ l -> srv_ID s = id -> srv_Created s <> 0 /\ minAge <= world_now w2 - srv_Created s) ->
     fleet_of st' !! id = None) /\
  (claims = [] -> fleet_of st' = fleet_of st).
Proof using HL SL.
  destruct (law_listed _ _ _ Hlist) as [Hall Htrue].
  assert (forall w, fleet cluster (api_List (ManagedBySelector cluster) w).2 = fleet cluster w) as Hll
    by (intros w; apply (law_List cluster)).
  specialize (Hll (ps_world st)). rewrite Hlist in Hll. cbn [snd] in Hll.
  pose proof (law_claims w1) as Hlc. rewrite Hclaims in Hlc. cbn [snd] in Hlc.
  assert (Forall in_range (owned_servers p l)) as Hr.
  { apply Forall_forall. intros s [Hs _]%elem_of_owned_servers. by apply Hrange. }
  assert (forall id h, fleet_of st !! id = Some h ->
    exists s, s ∈ owned_servers p l /\ srv_ID s = id /\ held_of s = h) as Hlisted.
  { intros id h Hh. destruct (Hall id h Hh) as (s & Hin & Hid & Hs). exists s. split; [|done].
    apply elem_of_owned_servers. split; [done|]. split; [done|]. apply fleet_lookup in Hh as [_ Hm].
    by rewrite <- Hs in Hm. }
  unfold Reconcile. apply String.eqb_neq in Hcluster. rewrite Hcluster.
  cbn [gc_List gc_provider provider_gc]. unfold Instance.List. cbn [p_clusterName NewProvider]. rewrite Hcluster.
  unfold io_bind, io_ret, cached_list, list_seq. cbn [p_clusterName NewProvider]. rewrite Hfresh, Hlist. cbn [result_bind].
  destruct (owned_servers p l) as [|s0 ss] eqn:El.
  { cbn. unfold fleet_of in *. cbn. rewrite Hll. split; [done|]. split; [|done]. intros _ _ id h Hh.
    destruct (Hlisted id h Hh) as (s & Hin & _). by apply elem_of_nil in Hin. }
  unfold kube_ListNodeClaims, kube_on_state. cbn [ps_world]. rewrite Hclaims.
  set (st1 := {| ps_world := w2; ps_unavailable := _; ps_cache := _; ps_metrics := _ |}).
  assert (fleet_of st1 = fleet_of st) as Hst1 by (unfold fleet_of; cbn; by rewrite Hlc, Hll).
  case_decide as Hlive.
  { rewrite Hst1. split; [done|]. split; [|done]. intros _ Hne. exfalso. destruct claims as [|c cs]; [done|]. set_solver. }
  pose proof (gc_sweep_shrinks (list_to_set (cl_Name <$> claims)) (s0 :: ss) [] 0 st1 Hr) as [_ Hkeep].
  pose proof (gc_sweep_clears (list_to_set (cl_Name <$> claims)) (s0 :: ss) 0 st1) as Hclear.
  destruct (gc_sweep _ _ _ _ st1) as [[errs reaped] st2]. cbn [fst snd] in *. rewrite Hst1 in Hkeep.
  split; [|split; [|by intros ->]].
  - intros id h Hh Hin. apply Hkeep; [done|]. intros s Hs Hid. rewrite <- El in Hs.
    apply elem_of_owned_servers in Hs as [Hs _]. pose proof (Htrue s Hs) as Ht.
    apply fleet_lookup in Hh as [Hh _]. subst id.
    assert (Some h = Some (held_of s)) as [= ->] by (by rewrite <- Hh, <- Ht).
    apply elem_of_list_to_set. exact Hin.
  - intros Herr Hne id h Hh Hc Hgone Hold. destruct (Hlisted id h Hh) as (s & Hin & <- & <-).
    apply Hclear; [done|done| |].
    + rewrite <- El in Hin. apply elem_of_owned_servers in Hin as [Hin _].
      destruct (Hold s Hin eq_refl) as [Hz Ha]. split; [done| |done|exact Ha].
      by rewrite elem_of_list_to_set.
    + cbn [gc_Err] in Herr. destruct errs as [|e errs]; [done|]. exfalso.
      pose proof (combine_errors (e :: errs)) as Hce. destruct (multierr_Combine _); [done|].
      by destruct Hce as [Hce _]; specialize (Hce eq_refl).
Qed.
End Sweep.

(** ** Witness *)

Module SweepExample.
Import KubeExample CatalogExample FleetExample.

(** Kubernetes knows one NodeClaim, which is not the server's. *)
Definition other_claim : NodeClaim :=
  {| cl_Name := "other"; cl_UID := "uid-2"; cl_Labels := ∅; cl_Annotations := ∅;
     cl_CreationTimestamp := 0; cl_NodeClassRef := None; cl_Requirements := [];
     cl_Requests := ∅; cl_Taints := []; cl_StartupTaints := []; cl_ProviderID := "";
     cl_Capacity := ∅; cl_Allocatable := ∅; cl_RebootingAt := None; cl_Drifted := false |}.

#[export] Instance claims : KubeClient project := {|
  kube_GetNodeClass _ w := (Err (KubeStatus KubeNotFound "not found"), w);
  kube_ListNodeClaims w := (Ok [other_claim], w);
  kube_ListNodeClaimsFor _ w := (Ok [], w);
  kube_PatchNodeClass _ _ w := (None, w);
  kube_PatchNodeClaim _ _ w := (None, w)
|}.

Lemma elem_of_listing (m : gmap Z held) (s : Server) :
  Some s ∈ ((fun ih => Some (server_of ih.1 ih.2)) <$> map_to_list m) <->
  exists id h, s = server_of id h /\ m !! id = Some h.
Proof.
  rewrite list_elem_of_fmap. split.
  - intros ([id h] & [= ->] & Hin). exists id, h. by rewrite <- elem_of_map_to_list.
  - intros (id & h & -> & Hin). exists (id, h). by rewrite elem_of_map_to_list.
Qed.

Lemma sweep_laws : SweepLaws (W := project) "prod".
Proof.
  split; cbn [api_List api_Delete api_Get project_api kube_ListNodeClaims claims snd]; try done.
  intros [m n] l w' [= <- <-]. split.
  - intros id h Hh. apply fleet_lookup in Hh as [Hh _]. exists (server_of id h).
    split; [apply elem_of_listing; by exists id, h|]. split; [done|apply held_of_server_of].
  - intros s Hs. apply elem_of_listing in Hs as (id & h & -> & Hid). by rewrite held_of_server_of.
Qed.

(** The server a lost launch left behind, and a foreign one. *)
Definition orphaned : held :=
  {| hd_Name := "default-x7k2p"; hd_Labels := {[ LabelManagedBy := "prod"; LabelNodeClaim := "default-x7k2p" ]} |}.
Definition neighbour : held := {| hd_Name := "control-plane-1"; hd_Labels := {[ "role" := "control-plane" ]} |}.
Definition leaking : PState project := init_state ({[ 4711 := orphaned; 1 := neighbour ]}, O).

Definition listing : list (option Server) :=
  (fun ih => Some (server_of ih.1 ih.2)) <$> map_to_list (held_servers (ps_world leaking)).

Definition pass : gc_result * PState project :=
  Reconcile (GP := gc_provider "prod") (CK := gc_clock) (KC := kube_on_state) "prod" leaking.

Lemma sweep_clears_orphans_witness :
  fleet_of "prod" leaking !! 4711 = Some orphaned /\ gc_Err pass.1 = None /\
  fleet_of "prod" pass.2 !! 4711 = None /\ size (held_servers (ps_world pass.2)) = 1%nat.
Proof.
  split; [by vm_compute|]. assert (gc_Err pass.1 = None) as Herr by by vm_compute.
  split; [exact Herr|]. split; [|by vm_compute].
  assert (forall s, Some s ∈ listing -> in_range s) as Hrange.
  { intros s Hin. apply elem_of_listing in Hin as (id & h & -> & Hid). cbn in Hid.
    apply lookup_insert_Some in Hid as [[<- _]|[_ [<- _]%lookup_singleton_Some]]; by vm_compute. }
  pose proof (sweep_clears_orphans (HL := project_laws) (SL := sweep_laws) "prod" leaking listing
    (ps_world leaking) (ps_world leaking) [other_claim] ltac:(done) eq_refl eq_refl Hrange eq_refl) as Hs.
  fold pass in Hs. destruct pass as [r st']. cbn [fst snd] in *. destruct Hs as (_ & Hs & _).
  apply (Hs Herr) with (h := orphaned); [done|by vm_compute|done| |].
  - apply (bool_decide_eq_false_1 _). by vm_compute.
  - intros s Hin _. apply elem_of_listing in Hin as (id & h & -> & _). by vm_compute.
Defined.
End SweepExample.
