(* ===== verification/Concurrency.v ===== *)
(** Provider operations side by side.

    karpenter core launches, reads, reboots and deletes from many goroutines, the
    collector sweeps from another, and none of them holds a lock across its calls
    to Hetzner.  Here each is an agent that makes its calls one by one, and the
    calls of all of them, and what anyone else does to the project, interleave
    freely.

    An agent is not a second model of the code: its log has to be one the
    operations of [Instance] or the pass of [InstanceGC] leave, run from any state
    of the caches over any answers.  What a call does to the project is Hetzner's
    side ([effect]): names are unique, an id is never given twice, reads are true.
    What everyone else does to it is a relation the run is given: [anything], which
    only obeys Hetzner's ids, or [others], which also leaves the bookkeeping of the
    cluster's servers alone. *)

From S2P Require Import Prelude GoErrors Float64 GoText Servers Kube Api Unavailable Resources.
From S2P Require Import InstanceTypes Catalog NodeClaims KubeClient Candidates ListCache Sim.
From S2P Require Import Instance InstanceTraces Fleet InstanceGC.

(** ** The project *)

(** The servers that exist, and every id that was ever given. *)
Record cloud := { pj_held : gmap Z held; pj_used : gset Z }.

Definition managed (cluster : string) (h : held) : Prop :=
  hd_Labels h !! LabelManagedBy = Some cluster.

#[export] Instance managed_dec cluster h : Decision (managed cluster h).
Proof. unfold managed. apply _. Defined.

Definition cluster_fleet (cluster : string) (P : cloud) : fleet_state :=
  filter (fun ih => managed cluster ih.2) (pj_held P).

Definition add_server (r : CreateServerRequest) (id : Z) (P : cloud) : cloud :=
  {| pj_held := <[ id := requested r ]> (pj_held P); pj_used := {[ id ]} ∪ pj_used P |}.
Definition remove_server (id : Z) (P : cloud) : cloud :=
  {| pj_held := delete id (pj_held P); pj_used := pj_used P |}.

(** A create that goes through: a name nobody has, an id nobody had. *)
Definition can_add (r : CreateServerRequest) (id : Z) (P : cloud) : Prop :=
  unnamed (pj_held P) (req_Name r) /\ id ∉ pj_used P.

(** What a call, with its answer, does to the project. *)
Inductive effect : call -> cloud -> cloud -> Prop :=
  | eff_created r srv P :
      can_add r (srv_ID srv) P -> effect (CCreate r (Ok srv)) P (add_server r (srv_ID srv) P)
  | eff_refused r e P : effect (CCreate r (Err e)) P P
  | eff_lost r e id P : can_add r id P -> effect (CCreate r (Err e)) P (add_server r id P)
  | eff_deleted id P : effect (CDelete id None) P (remove_server id P)
  | eff_not_deleted id e P : effect (CDelete id (Some e)) P P
  | eff_delete_lost id e P : effect (CDelete id (Some e)) P (remove_server id P)
  | eff_got id srv P :
      pj_held P !! id = Some (held_of srv) -> effect (CGet id (Ok (Some srv))) P P
  | eff_gone id P : pj_held P !! id = None -> effect (CGet id (Ok None)) P P
  | eff_get_failed id e P : effect (CGet id (Err e)) P P
  | eff_by_name name out P : effect (CGetByName name out) P P
  | eff_list sel out P : effect (CList sel out) P P
  | eff_actions id out P : effect (CActions id out) P P
  | eff_reset id out P : effect (CReset id out) P P.

(** What anyone else may do at the least: Hetzner's ids.  A server that exists
    afterwards existed before, in whatever shape, or has an id nobody had. *)
Record anything (P P' : cloud) : Prop := {
  any_used : pj_used P ⊆ pj_used P';
  any_known : dom (pj_held P') ⊆ pj_used P';
  any_ids : forall id, id ∈ dom (pj_held P') -> id ∈ dom (pj_held P) \/ id ∉ pj_used P
}.

(** Others that keep off the cluster's bookkeeping: they may delete its servers,
    take its label off them and do as they please with everything else, but a
    server that bears the label afterwards bore it before, with the same name and
    the same NodeClaim. *)
Record others (cluster : string) (P P' : cloud) : Prop := {
  others_any : anything P P';
  others_kept : forall id h', pj_held P' !! id = Some h' -> managed cluster h' ->
    exists h, pj_held P !! id = Some h /\ managed cluster h /\
      hd_Name h' = hd_Name h /\ claim_of h' = claim_of h
}.

(** ** The agents *)

Section Agents.
Context `{KB : Kube, CA : !CoreAllocatable, GT : GoText, KE : KarpErrors, ET : ErrorText}.

(** A log an agent can have: the first calls of a sequence of provider operations,
    or of a pass of the collector, from any state and over any answers. *)
Inductive agent_log (cluster : string) (log : list call) : Prop :=
  | agent_operations (W : Type) (SV : Servers W) (CK : Clock W) (ops : list op)
      (st : PState (W * list call)) :
      trace st = [] -> log `prefix_of` trace (exec_all (NewProvider cluster) ops st) ->
      agent_log cluster log
  | agent_sweep (W : Type) (SV : Servers W) (CK : Clock W) (KC : KubeClient W)
      (st : PState (W * list call)) :
      trace st = [] ->
      log `prefix_of` trace (Reconcile (GP := provider_gc (NewProvider cluster)) (CK := state_clock)
        (KC := state_kube) cluster st).2 ->
      agent_log cluster log.

Record system := { sys_project : cloud; sys_log : nat -> list call }.

Definition logged (s : system) (i : nat) (c : call) : nat -> list call :=
  fun j => if decide (j = i) then sys_log s i ++ [c] else sys_log s j.

(** Agent [i] makes one call. *)
Inductive agent_call (cluster : string) (i : nat) (c : call) (s : system) : system -> Prop :=
  | agent_calls P' :
      agent_log cluster (sys_log s i ++ [c]) -> effect c (sys_project s) P' ->
      agent_call cluster i c s {| sys_project := P'; sys_log := logged s i c |}.

(** One step of the whole: an agent's call, or a change by others. *)
Inductive sys_step (cluster : string) (by_others : cloud -> cloud -> Prop) (s : system) :
    system -> Prop :=
  | step_agent i c s' : agent_call cluster i c s s' -> sys_step cluster by_others s s'
  | step_others P' :
      by_others (sys_project s) P' ->
      sys_step cluster by_others s {| sys_project := P'; sys_log := sys_log s |}.

(** ** The invariant *)

Lemma agent_log_guarded (cluster : string) (log : list call) :
  agent_log cluster log -> exists t, guarded cluster t /\ log `prefix_of` t.
Proof.
  intros [W SV CK ops st Hst Hp|W SV CK KC st Hst Hp]; eexists; (split; [|exact Hp]).
  - apply exec_all_guarded. rewrite Hst. apply guarded_nil.
  - apply gc_reaches_only_own. rewrite Hst. apply guarded_nil.
Qed.

(** The last call of an agent is guarded by what it logged before. *)
Lemma agent_log_last (cluster : string) (log : list call) (c : call) :
  agent_log cluster (log ++ [c]) -> call_guarded cluster log (length log) c.
Proof.
  intros Ha. apply agent_log_guarded in Ha as (t & Hg & [rest ->]).
  assert (forall j c', ((log ++ [c]) ++ rest) !! j = Some c' -> (j < length log)%nat ->
    log !! j = Some c') as Hlog
    by (intros j c' Hj Hlt; by rewrite !lookup_app_l in Hj by (rewrite ?length_app; simpl; lia)).
  specialize (Hg (length log) c). rewrite <- app_assoc, lookup_app_r, Nat.sub_diag in Hg by lia.
  specialize (Hg eq_refl). rewrite app_assoc in Hg. destruct c; try done; simpl in *.
  - destruct Hg as (j & srv & E & Hj & Ho). exists j, srv. split; [done|]. split; [|done].
    apply Hlog; [done|lia].
  - destruct Hg as (j & srv & acts & E & Hj & Hk & Ho). exists j, srv, acts. split; [done|].
    split; [apply Hlog; [done|lia]|]. split; [|done]. apply Hlog; [done|lia].
Qed.

Lemma cluster_fleet_lookup cluster P id h :
  cluster_fleet cluster P !! id = Some h <-> pj_held P !! id = Some h /\ managed cluster h.
Proof. unfold cluster_fleet. by rewrite map_lookup_filter_Some. Qed.

Lemma effect_known (c : call) (P P' : cloud) :
  effect c P P' -> dom (pj_held P) ⊆ pj_used P -> dom (pj_held P') ⊆ pj_used P'.
Proof.
  intros He Hk. destruct He; try done; cbn; rewrite ?dom_insert_L, ?dom_delete_L; set_solver.
Qed.

(** A guarded create keeps the fleet accounted for; nothing else adds to it. *)
Lemma effect_accounted (cluster : string) (log : list call) (i : nat) (c : call) (P P' : cloud) :
  call_guarded cluster log i c -> effect c P P' -> dom (pj_held P) ⊆ pj_used P ->
  accounted (cluster_fleet cluster P) -> accounted (cluster_fleet cluster P').
Proof.
  intros Hg He Hk Ha.
  assert (forall r id, req_Labels r !! LabelManagedBy = Some cluster ->
    req_Labels r !! LabelNodeClaim = Some (req_Name r) -> can_add r id P ->
    accounted (cluster_fleet cluster (add_server r id P))) as Hadd.
  { intros r id Hm Hc [Hn Hid]. unfold cluster_fleet. cbn. rewrite map_filter_insert_True by exact Hm.
    eapply (fleet_step_accounted cluster (FLaunch (req_Name r)) _ (FServer id)); [|exact Ha].
    apply fs_launched.
    - apply map_lookup_filter_None. left. apply not_elem_of_dom. set_solver.
    - intros j h Hj. apply cluster_fleet_lookup in Hj as [Hj _]. by apply (Hn j h).
    - split; [done|]. split; [done|]. cbn. unfold map_get. by rewrite Hc. }
  assert (forall id, accounted (cluster_fleet cluster (remove_server id P))) as Hrem.
  { intros id. eapply accounted_subseteq; [|exact Ha]. unfold cluster_fleet. cbn.
    rewrite map_filter_delete. apply delete_subseteq. }
  destruct He; try done; cbn in Hg; destruct Hg as (_ & Hm & Hc & _); auto.
Qed.

Lemma others_accounted (cluster : string) (P P' : cloud) :
  others cluster P P' -> accounted (cluster_fleet cluster P) -> accounted (cluster_fleet cluster P').
Proof.
  intros [_ Hkept] [Hclaim Hname].
  assert (forall id h', cluster_fleet cluster P' !! id = Some h' ->
    exists h, cluster_fleet cluster P !! id = Some h /\ hd_Name h' = hd_Name h /\ claim_of h' = claim_of h)
    as Hback.
  { intros id h' (Hid & Hm)%cluster_fleet_lookup. destruct (Hkept id h' Hid Hm) as (h & Hh & Hmh & ?).
    exists h. split; [|done]. by apply cluster_fleet_lookup. }
  split.
  - intros id h' Hid. destruct (Hback id h' Hid) as (h & Hh & -> & ->). exact (Hclaim id h Hh).
  - intros i j hi' hj' Hi Hj. destruct (Hback i hi' Hi) as (hi & Hhi & -> & _).
    destruct (Hback j hj' Hj) as (hj & Hhj & -> & _). by apply (Hname i j hi hj).
Qed.

(** Where a run starts: no agent has made a call yet. *)
Record sys_start (s : system) : Prop := {
  start_known : dom (pj_held (sys_project s)) ⊆ pj_used (sys_project s);
  start_logs : forall i, sys_log s i = []
}.


Lemma sys_accounted (cluster : string) (s s' : system) :
  rtc (sys_step cluster (others cluster)) s s' ->
  dom (pj_held (sys_project s)) ⊆ pj_used (sys_project s) ->
  accounted (cluster_fleet cluster (sys_project s)) ->
  accounted (cluster_fleet cluster (sys_project s')).
Proof.
  intros Hrun. induction Hrun as [|s s1 s2 Hs _ IH]; [done|]. intros Hk Ha.
  destruct Hs as [i c s1 [P' Hlog He]|P' Ho].
  - apply IH; cbn; [by eapply effect_known|].
    eapply effect_accounted; [by apply agent_log_last|done..].
  - apply IH; cbn; [apply Ho|by eapply others_accounted].
Qed.




(** ** Properties *)

(** C3. One server for a NodeClaim, however calls interleave.  Any number of launches,
    also of the same NodeClaim at the same time, deletions, reboots and sweeps may
    be under way, each anywhere between two of its calls, and answers may be lost.
    The others may delete the cluster's servers, take its label off them and do
    anything to the rest of the project; assumed of them is that they do not put
    the cluster's label on a server, and neither rename nor relabel to another
    NodeClaim a server that keeps it.  Started from a fleet in which each server
    bears the name of the NodeClaim on its label and names are unique (the empty
    one is such), the fleet is such at every moment, and no two of its servers are
    of the same NodeClaim. *)
Theorem concurrent_one_per_claim (cluster : string) (s s' : system)
    (Hstart : sys_start s) (Hfleet : accounted (cluster_fleet cluster (sys_project s)))
    (Hrun : rtc (sys_step cluster (others cluster)) s s') :
  accounted (cluster_fleet cluster (sys_project s')) /\
  one_per_claim (cluster_fleet cluster (sys_project s')).
Proof.
  pose proof (sys_accounted _ _ _ Hrun (start_known _ Hstart) Hfleet).
  eauto using accounted_one_per_claim.
Qed.





End Agents.

(** ** Witnesses: two races on the project of [Sim] *)

Section Witnesses.
Import KubeExample CatalogExample.
#[local] Instance race_alloc : CoreAllocatable := fun it => Allocatable (it_Capacity it) (it_Overhead it).
#[local] Instance race_unwraps : KarpErrors := fun _ => true.
#[local] Instance race_text : ErrorText := fun _ => "error".

Definition silent (P : cloud) : system := {| sys_project := P; sys_log := fun _ => [] |}.

(** What a sequence of operations logs over a project that is its own. *)
Definition log_of (ops : list op) (w : sim) : list call := trace (exec_all prod ops (started_with w)).

Lemma log_of_agent (ops : list op) (w : sim) (log : list call) :
  log `prefix_of` log_of ops w -> agent_log "prod" log.
Proof. intros Hp. by eapply agent_operations, Hp. Qed.

Definition launch : op :=
  OCreate (nodeClass ["nbg1"] ∅) example_claim (types [] NewUnavailable) "#cloud-config".

(** The first of two launches of one NodeClaim creates; the second finds the name
    taken and reads the server back. *)
Definition in_stock : sim :=
  {| sim_servers := {[ 1 := foreign_server ]}; sim_next := 5000; sim_now := 10 * second;
     sim_sold_out := []; sim_actions := ∅ |}.
Definition first_log : list call := log_of [launch] in_stock.
Definition landed : sim := (ps_world (exec_all prod [launch] (started_with in_stock))).1.
Definition second_log : list call := log_of [launch] landed.

Definition ordered (log : list call) : CreateServerRequest :=
  match log with CCreate r _ :: _ => r | _ => example_base end.
Definition made (log : list call) : Server :=
  match log with
  | CCreate _ (Ok s) :: _ | [_; CGetByName _ (Ok (Some s))] => s
  | _ => foreign_server
  end.
Definition taken (log : list call) : error :=
  match log with CCreate _ (Err e) :: _ => e | _ => Errorf "" end.

Lemma first_logged : first_log = [CCreate (ordered first_log) (Ok (made first_log))].
Proof. by vm_compute. Qed.

Lemma second_logged :
  second_log = [CCreate (ordered second_log) (Err (taken second_log));
                CGetByName (req_Name (ordered second_log)) (Ok (Some (made second_log)))].
Proof. by vm_compute. Qed.

Definition control_plane : cloud := {| pj_held := {[ 1 := held_of foreign_server ]}; pj_used := {[ 1 ]} |}.

Lemma control_plane_start : sys_start (silent control_plane).
Proof. split; [cbn; set_solver|done]. Qed.

Lemma control_plane_accounted : accounted (cluster_fleet "prod" (sys_project (silent control_plane))).
Proof.
  assert (cluster_fleet "prod" (sys_project (silent control_plane)) = ∅) as -> by by vm_compute.
  exact FleetExample.accounted_empty.
Qed.

(** Both launches are under way; the first lands between the second's two calls. *)
Lemma concurrent_one_per_claim_witness :
  exists s, rtc (sys_step "prod" (others "prod")) (silent control_plane) s /\
    length (sys_log s 0) = 1%nat /\ length (sys_log s 1) = 2%nat /\
    accounted (cluster_fleet "prod" (sys_project s)) /\ one_per_claim (cluster_fleet "prod" (sys_project s)).
Proof.
  set (r := ordered first_log). set (srv := made first_log).
  set (P := add_server r (srv_ID srv) control_plane).
  set (c1 := CCreate r (Ok srv)). set (c2 := CCreate (ordered second_log) (Err (taken second_log))).
  set (c3 := CGetByName (req_Name (ordered second_log)) (Ok (Some (made second_log)))).
  set (s1 := {| sys_project := P; sys_log := logged (silent control_plane) 0 c1 |}).
  set (s2 := {| sys_project := P; sys_log := logged s1 1 c2 |}).
  set (s3 := {| sys_project := P; sys_log := logged s2 1 c3 |}).
  assert (rtc (sys_step "prod" (others "prod")) (silent control_plane) s3) as Hrun.
  { eapply rtc_l; [|eapply rtc_l; [|apply rtc_once]]; eapply step_agent.
    - apply (agent_calls "prod" 0 c1).
      + apply (log_of_agent [launch] in_stock). fold first_log. rewrite first_logged.
        by exists [].
      + apply eff_created. split; [|by vm_compute]. intros id h Hid. cbn in Hid.
        apply lookup_singleton_Some in Hid as [_ <-]. by vm_compute.
    - apply (agent_calls "prod" 1 c2).
      + apply (log_of_agent [launch] landed). fold second_log. rewrite second_logged. by exists [c3].
      + apply eff_refused.
    - apply (agent_calls "prod" 1 c3).
      + apply (log_of_agent [launch] landed). fold second_log. rewrite second_logged. by exists [].
      + apply eff_by_name. }
  exists s3. split; [exact Hrun|]. split; [done|]. split; [done|].
  exact (concurrent_one_per_claim "prod" _ _ control_plane_start control_plane_accounted Hrun).
Defined.








End Witnesses.
