(* ===== verification/NodeClassHash.v ===== *)
(** The hash controller: the spec hash drift compares against, and its back-fill
    across NodeClaims when the hash generator changes.

    Models [internal/controllers/nodeclass/hash/controller.go]. *)

From S2P Require Import Prelude GoErrors Float64 GoText Servers Kube Api Unavailable Resources.
From S2P Require Import InstanceTypes NodeClaims KubeClient Drift Candidates.

Section WithKube.
Context `{KB : Kube, KE : KarpErrors, SH : !SpecHash}.

Definition set_class_annotations (nc : HCloudNodeClass) (a : gmap string string) : HCloudNodeClass :=
  {| nc_Name := nc_Name nc; nc_UID := nc_UID nc; nc_Generation := nc_Generation nc;
     nc_DeletionTimestamp := nc_DeletionTimestamp nc; nc_Finalizers := nc_Finalizers nc;
     nc_Annotations := a; nc_Spec := nc_Spec nc; nc_Status := nc_Status nc |}.

Definition set_claim_annotations (c : NodeClaim) (a : gmap string string) : NodeClaim :=
  {| cl_Name := cl_Name c; cl_UID := cl_UID c; cl_Labels := cl_Labels c; cl_Annotations := a;
     cl_CreationTimestamp := cl_CreationTimestamp c; cl_NodeClassRef := cl_NodeClassRef c;
     cl_Requirements := cl_Requirements c; cl_Requests := cl_Requests c; cl_Taints := cl_Taints c;
     cl_StartupTaints := cl_StartupTaints c; cl_ProviderID := cl_ProviderID c;
     cl_Capacity := cl_Capacity c; cl_Allocatable := cl_Allocatable c;
     cl_RebootingAt := cl_RebootingAt c; cl_Drifted := cl_Drifted c |}.

(** The class with the current hash under the current version. *)
Definition stamped (nodeClass : HCloudNodeClass) : HCloudNodeClass :=
  set_class_annotations nodeClass
    (lo_Assign (nc_Annotations nodeClass)
       {[ AnnotationHash := Hash nodeClass; AnnotationHashVersion := HashVersion ]}).

(** A NodeClaim re-stamped: a condemned one keeps its hash. *)
Definition restamped (hash : string) (nc : NodeClaim) : NodeClaim :=
  let updates : gmap string string := {[ AnnotationHashVersion := HashVersion ]} in
  set_claim_annotations nc
    (lo_Assign (cl_Annotations nc)
       (if cl_Drifted nc then updates else <[ AnnotationHash := hash ]> updates)).

Section Run.
Context {W : Type} `{KC : !KubeClient W}.

(** The loop over the NodeClaims, with the error of each. *)
Fixpoint backfill_each (hash : string) (claims : list NodeClaim) (w : W)
    : list (option error) * W :=
  match claims with
  | [] => ([], w)
  | nc :: rest =>
      if (map_get (cl_Annotations nc) AnnotationHashVersion =? HashVersion)%string then
        let '(errs, w) := backfill_each hash rest w in (None :: errs, w)
      else
        let new := restamped hash nc in
        let '(err, w) :=
          if decide (cl_Annotations nc = cl_Annotations new) then (None, w)
          else let '(err, w) := kube_PatchNodeClaim nc new w in (IgnoreNotFound err, w) in
        let '(errs, w) := backfill_each hash rest w in (err :: errs, w)
  end.

Definition backfillNodeClaimHashes (nodeClass : HCloudNodeClass) (w : W) : option error * W :=
  match kube_ListNodeClaimsFor nodeClass w with
  | (Err err, w) => (Some (Wrapf "listing nodeclaims using nodeclass, " err), w)
  | (Ok claims, w) =>
      let '(errs, w) := backfill_each (Hash nodeClass) claims w in (multierr_Combine errs, w)
  end.

Definition Reconcile (nodeClass : HCloudNodeClass) (w : W) : option error * W :=
  if is_deleting nodeClass then (None, w)
  else
    let '(err, w) :=
      if negb (map_get (nc_Annotations nodeClass) AnnotationHashVersion =? HashVersion)%string
      then backfillNodeClaimHashes nodeClass w else (None, w) in
    match err with
    | Some e => (Some e, w)
    | None =>
        let new := stamped nodeClass in
        if decide (nc_Annotations nodeClass = nc_Annotations new) then (None, w)
        else let '(err, w) := kube_PatchNodeClass nodeClass new w in (IgnoreNotFound err, w)
    end.
End Run.

(** ** The trace of patches *)

Inductive patch :=
  | PClass (stored new : HCloudNodeClass) (out : option error)
  | PClaim (stored new : NodeClaim) (out : option error).

Context {W : Type} `{KC : !KubeClient W}.

#[local] Instance traced_kube : KubeClient (W * list patch) := {
  kube_GetNodeClass n wt := let '(r, w) := kube_GetNodeClass n wt.1 in (r, (w, wt.2));
  kube_ListNodeClaims wt := let '(r, w) := kube_ListNodeClaims wt.1 in (r, (w, wt.2));
  kube_ListNodeClaimsFor c wt := let '(r, w) := kube_ListNodeClaimsFor c wt.1 in (r, (w, wt.2));
  kube_PatchNodeClass a b wt :=
    let '(r, w) := kube_PatchNodeClass a b wt.1 in (r, (w, wt.2 ++ [PClass a b r]));
  kube_PatchNodeClaim a b wt :=
    let '(r, w) := kube_PatchNodeClaim a b wt.1 in (r, (w, wt.2 ++ [PClaim a b r]))
}.

(** The NodeClaim already carries the current version. *)
Definition current (c : NodeClaim) : Prop :=
  cl_Annotations c !! AnnotationHashVersion = Some HashVersion.

Lemma current_dec (c : NodeClaim) :
  (map_get (cl_Annotations c) AnnotationHashVersion =? HashVersion)%string = true <-> current c.
Proof.
  unfold current, map_get. rewrite String.eqb_eq.
  destruct (cl_Annotations c !! AnnotationHashVersion); simpl; naive_solver.
Qed.

Lemma restamped_current (hash : string) (c : NodeClaim) : current (restamped hash c).
Proof. unfold current, restamped. simpl. by apply lo_Assign_new; destruct (cl_Drifted c). Qed.

Lemma restamped_hash (hash : string) (c : NodeClaim) :
  cl_Annotations (restamped hash c) !! AnnotationHash =
  if cl_Drifted c then cl_Annotations c !! AnnotationHash else Some hash.
Proof.
  unfold restamped. simpl. destruct (cl_Drifted c); [by apply lo_Assign_old|by apply lo_Assign_new].
Qed.

Lemma stamped_annotations (nodeClass : HCloudNodeClass) :
  nc_Annotations (stamped nodeClass) !! AnnotationHash = Some (Hash nodeClass) /\
  nc_Annotations (stamped nodeClass) !! AnnotationHashVersion = Some HashVersion.
Proof. split; simpl; by apply lo_Assign_new. Qed.

(** The patches of a back-fill over [claims]: one per claim that is not current,
    in order. *)
Lemma backfill_each_spec (hash : string) (claims : list NodeClaim) (wt : W * list patch) :
  exists ps, (backfill_each hash claims wt).2.2 = wt.2 ++ ps /\
    Forall (fun p => exists c out, c ∈ claims /\ p = PClaim c (restamped hash c) out) ps /\
    (multierr_Combine (backfill_each hash claims wt).1 = None ->
     forall c, c ∈ claims -> ~ current c ->
       exists out, PClaim c (restamped hash c) out ∈ ps /\ IgnoreNotFound out = None).
Proof.
  revert wt. induction claims as [|c rest IH]; intros wt; cbn [backfill_each].
  { exists []. rewrite app_nil_r. repeat split; [constructor|set_solver]. }
  destruct (map_get (cl_Annotations c) AnnotationHashVersion =? HashVersion)%string eqn:Ev.
  { apply current_dec in Ev. destruct (IH wt) as (ps & H1 & H2 & H3).
    destruct (backfill_each hash rest wt) as [errs wt']. cbn [fst snd] in *. exists ps.
    split; [done|]. split; [eapply Forall_impl; [done|]; set_solver|].
    rewrite multierr_Combine_None, Forall_cons. intros [_ Hn] c' Hc' Hcur.
    apply elem_of_cons in Hc' as [->|Hc']; [done|]. apply H3; [by apply multierr_Combine_None|done..]. }
  assert (~ current c) as Hnc by (rewrite <- current_dec; congruence).
  rewrite decide_False.
  2: { intros E. apply Hnc. unfold current. rewrite E. apply restamped_current. }
  cbn [kube_PatchNodeClaim traced_kube]. destruct (kube_PatchNodeClaim c _ wt.1) as [err w].
  destruct (IH (w, wt.2 ++ [PClaim c (restamped hash c) err])) as (ps & H1 & H2 & H3).
  destruct (backfill_each hash rest _) as [errs wt']. cbn [fst snd] in *.
  exists (PClaim c (restamped hash c) err :: ps). split; [by rewrite H1, <- app_assoc|].
  split.
  { constructor; [set_solver|]. eapply Forall_impl; [done|]. set_solver. }
  rewrite multierr_Combine_None, Forall_cons. intros [He Hn] c' Hc' Hcur.
  apply elem_of_cons in Hc' as [->|Hc']; [exists err; set_solver|].
  destruct (H3 ltac:(by apply multierr_Combine_None) c' Hc' Hcur) as (out & Ho & Hi). set_solver.
Qed.

Lemma old_class_quiet (nodeClass : HCloudNodeClass) (c : NodeClaim) :
  map_get (nc_Annotations nodeClass) AnnotationHashVersion <> HashVersion ->
  nodeClassHashDrift nodeClass c = "".
Proof.
  intros Hv. unfold nodeClassHashDrift. apply String.eqb_neq in Hv. by rewrite Hv.
Qed.

Lemma restamped_agrees (nodeClass : HCloudNodeClass) (c : NodeClaim) :
  cl_Drifted c = false ->
  nodeClassHashDrift (stamped nodeClass) (restamped (Hash nodeClass) c) = "".
Proof.
  intros Hd. unfold nodeClassHashDrift. destruct (stamped_annotations nodeClass) as [-> _].
  rewrite restamped_hash, Hd, String.eqb_refl. by destruct (_ || _).
Qed.

(** ** Properties *)

(** C13. A changed hash generator never rolls the fleet.  While the class still
    carries the old version, no NodeClaim whatever is hash-drifted against it; the
    class itself is re-stamped last, and only once every NodeClaim of the class
    that was behind has been patched, or is gone; and after that each of those is
    in agreement with it, except the ones already condemned, whose stale hash is
    left as it was. *)
Theorem upgrade_never_rolls_the_fleet (nodeClass : HCloudNodeClass) (w w1 : W)
    (claims : list NodeClaim)
    (Hlive : is_deleting nodeClass = false)
    (Hold : map_get (nc_Annotations nodeClass) AnnotationHashVersion <> HashVersion)
    (Hlist : kube_ListNodeClaimsFor nodeClass w = (Ok claims, w1)) :
  let ps := (Reconcile nodeClass (w, [])).2.2 in
  (forall c, nodeClassHashDrift nodeClass c = "") /\
  forall stored new out, PClass stored new out ∈ ps ->
    stored = nodeClass /\ new = stamped nodeClass /\ last ps = Some (PClass stored new out) /\
    forall c, c ∈ claims -> ~ current c ->
      exists c' out', PClaim c c' out' ∈ ps /\ IgnoreNotFound out' = None /\
        (cl_Drifted c = false -> nodeClassHashDrift new c' = "") /\
        (cl_Drifted c = true -> cl_Annotations c' !! AnnotationHash = cl_Annotations c !! AnnotationHash).
Proof.
  intros ps. split; [intros c; by apply old_class_quiet|].
  unfold ps, Reconcile. rewrite Hlive. pose proof Hold as Hold'. apply String.eqb_neq in Hold. rewrite Hold.
  cbn [negb]. unfold backfillNodeClaimHashes. cbn [kube_ListNodeClaimsFor traced_kube fst snd]. rewrite Hlist.
  destruct (backfill_each_spec (Hash nodeClass) claims (w1, [])) as (bs & H1 & H2 & H3).
  destruct (backfill_each (Hash nodeClass) claims (w1, [])) as [errs [w2 bs']].
  cbn [fst snd] in *. rewrite app_nil_l in H1. subst bs'.
  assert (forall a b o, PClass a b o ∉ bs) as Hnone.
  { intros a b o Hin. rewrite Forall_forall in H2. destruct (H2 _ Hin) as (? & ? & ? & ?). done. }
  destruct (multierr_Combine errs) as [e|]; [intros stored new out Hin; by apply Hnone in Hin|].
  rewrite decide_False.
  2: { intros E. apply Hold'. unfold map_get. rewrite E. by rewrite (proj2 (stamped_annotations nodeClass)). }
  cbn [kube_PatchNodeClass traced_kube fst snd].
  destruct (kube_PatchNodeClass nodeClass (stamped nodeClass) w2) as [err w3]. cbn [snd].
  intros stored new out Hin. apply elem_of_app in Hin as [Hin|Hin]; [by apply Hnone in Hin|].
  apply list_elem_of_singleton in Hin. injection Hin as -> -> ->.
  do 2 (split; [done|]). split; [by rewrite last_snoc|]. intros c Hc Hcur.
  destruct (H3 eq_refl c Hc Hcur) as (out & Ho & Hi). exists (restamped (Hash nodeClass) c), out.
  split; [set_solver|]. split; [done|]. split; [apply restamped_agrees|].
  intros Hd. by rewrite restamped_hash, Hd.
Qed.

(** The controller settles: a class it has stamped is left alone, with no patch
    and no read. *)
Theorem hash_reconcile_settles (nodeClass : HCloudNodeClass) (w : W) :
  Reconcile (stamped nodeClass) w = (None, w).
Proof.
  unfold Reconcile. destruct (is_deleting _); [done|].
  unfold map_get at 1. rewrite (proj2 (stamped_annotations nodeClass)). cbn [default negb].
  rewrite String.eqb_refl. cbn [negb]. rewrite decide_True; [done|].
  apply map_eq. intros k. unfold stamped at 2. simpl. symmetry.
  set (u := {[ AnnotationHash := _; AnnotationHashVersion := _ ]} : gmap string string).
  change (Hash (stamped nodeClass)) with (Hash nodeClass).
  unfold lo_Assign. fold u. destruct (u !! k) as [v|] eqn:E.
  - by rewrite !(lookup_union_Some_l _ _ _ _ E).
  - by rewrite !(lookup_union_r _ _ _ E).
Qed.
End WithKube.

Section Witnesses.
Import KubeExample CatalogExample.
#[local] Instance unwraps : KarpErrors := fun _ => true.
#[local] Instance shash : SpecHash := fun _ => "12345".

(** One NodeClaim of the class, never stamped; every patch succeeds. *)
#[local] Instance obliging : KubeClient unit := {|
  kube_GetNodeClass _ w := (Ok (nodeClass [] ∅), w);
  kube_ListNodeClaims w := (Ok [example_claim], w);
  kube_ListNodeClaimsFor _ w := (Ok [example_claim], w);
  kube_PatchNodeClass _ _ w := (None, w);
  kube_PatchNodeClaim _ _ w := (None, w)
|}.

Lemma upgrade_never_rolls_the_fleet_witness :
  exists c' out', PClaim example_claim c' out' ∈
      (Reconcile (KC := traced_kube) (nodeClass [] ∅) (tt, [])).2.2 /\
    nodeClassHashDrift (stamped (nodeClass [] ∅)) c' = "".
Proof.
  destruct (upgrade_never_rolls_the_fleet (nodeClass [] ∅) tt tt [example_claim]) as [_ H];
    [done..|].
  destruct (H (nodeClass [] ∅) (stamped (nodeClass [] ∅)) None) as (_ & _ & _ & Hc).
  - assert (Reconcile (KC := traced_kube) (nodeClass [] ∅) (tt, []) =
      (None, (tt, [PClaim example_claim (restamped "12345" example_claim) None;
                   PClass (nodeClass [] ∅) (stamped (nodeClass [] ∅)) None]))) as -> by reflexivity.
    simpl. set_solver.
  - destruct (Hc example_claim) as (c' & out' & Hp & _ & Hd & _); [by apply list_elem_of_here|done|].
    exists c', out'. split; [exact Hp|]. by apply Hd.
Defined.
End Witnesses.
