(* ===== verification/Operator.v ===== *)
(** The binary: start-up, wiring and the debug commands.

    Models [cmd/karpenter-provider-hcloud/main.go] and [debug.go] and
    [internal/controllers/controllers.go].  karpenter's operator, the manager and
    the health matcher are the class [OperatorLibrary]; files, the kubeconfig and
    the decoding of a NodeClass are [DebugLibrary].  What is left of a start is the
    wiring: who is built with which cluster name, and what is registered. *)

From S2P Require Import Prelude GoErrors Float64 GoText GoMaps Servers Redact Discovery Kube Api.
From S2P Require Import Unavailable Resources InstanceTypes NodeClaims Kubeadm CloudInit Token.
From S2P Require Import KubeClient Candidates ListCache Sim Instance InstanceTraces CloudProvider.
From S2P Require Import BootstrapProvider.

(** ** Controllers *)

(** The controllers of the provider, with what distinguishes their wiring. *)
Inductive controller :=
  | HashController
  | NodeClassStatusController
  | InstanceGCController (instances : Provider) (clusterName : string)
  | ConditionController.

Definition NewControllers (instances : Provider) (clusterName : string) : list controller :=
  [HashController; NodeClassStatusController; InstanceGCController instances clusterName;
   ConditionController].

(** What is added to the manager beside them. *)
Inductive runnable := CatalogRefreshLoop | SyncUnavailableLoop.

(** [hcloudprovider.New], by the parts that carry state or a name. *)
Record cloud_provider := {
  cp_instances : Provider;
  cp_bootstrapper : bootstrap_provider;
  cp_clusterName : string
}.

Definition New (instances : Provider) (bootstrapper : bootstrap_provider) (clusterName : string)
    : cloud_provider :=
  {| cp_instances := instances; cp_bootstrapper := bootstrapper; cp_clusterName := clusterName |}.

(** ** Start-up *)

Definition clusterNameEnvVar : string := "CLUSTER_NAME".

Class OperatorLibrary (W : Type) := {
  operator_New : W -> W;
  op_Add : runnable -> W -> option error * W;
  (** karpenter's decorated cloud provider. *)
  decorated : Type;
  cloudprovidermetrics_Decorate : cloud_provider -> decorated;
  health_NewRepairPolicyMatcher : decorated -> W -> option error
}.
#[global] Arguments decorated W {_}.

Definition withMetrics `{OperatorLibrary} (cp : cloud_provider) : decorated W :=
  cloudprovidermetrics_Decorate cp.

(** A start that got through: the client's token, what was registered, the
    provider built and what of it the core controllers get. *)
Record operator (D : Type) := {
  op_token : string;
  op_runnables : list runnable;
  op_instances : Provider;
  op_hcloudprovider : cloud_provider;
  op_cloudProvider : D;
  op_controllers : list controller
}.
Arguments op_token {_}. Arguments op_runnables {_}. Arguments op_instances {_}.
Arguments op_hcloudprovider {_}. Arguments op_cloudProvider {_}. Arguments op_controllers {_}.

Inductive outcome (D : Type) :=
  | Printed (text : string)
  | Failed (message : string)
  | Started (op : operator D)
  | Panicked.
Arguments Printed {_}. Arguments Failed {_}. Arguments Started {_}. Arguments Panicked {_}.

(** The repair policies are checked at start-up. *)
Definition newClusterState `{OperatorLibrary} (cloudProvider : decorated W) (w : W) : option error :=
  health_NewRepairPolicyMatcher cloudProvider w.

(** ** The debug commands *)

Class DebugLibrary `{Kube} (W : Type) := {
  scheme_AddToScheme : option error;
  ctrl_GetConfig : W -> option error;
  client_New : W -> option error;
  os_ReadFile : string -> W -> result string;
  yaml_UnmarshalNodeClass : string -> result HCloudNodeClass;
  (** The conditions of a zero status. *)
  no_conditions : Conditions
}.

Section WithKube.
Context `{KB : Kube, GT : GoText, MR : MapRange, GZ : GzipWriter, JL : JoinLibrary, KE : KarpErrors}.
Context `{ET : ErrorText}.
Context `{YJ : YamlMarshal joinConfiguration, YC : YamlMarshal cloudConfig}.
Context {W : Type} `{CI : ClusterInfoReader W, DL : !DebugLibrary W, OL : OperatorLibrary W}.

Definition newReadOnlyClient (w : W) : option error :=
  match scheme_AddToScheme with
  | Some err => Some err
  | None =>
      match ctrl_GetConfig w with
      | Some err => Some (Wrapf "loading kubeconfig: " err)
      | None => client_New w
      end
  end.

(** The lines printed, or the error. *)
Definition runDiscover (w : W) : result (list string) * W :=
  match newReadOnlyClient w with
  | Some err => (Err err, w)
  | None =>
      let '(err, d, w) := Refresh NewDiscovery w in
      match err with
      | Some err => (Err err, w)
      | None =>
          (match Discovery.Get d with
           | None => Err (Errorf "discovery returned nothing usable")
           | Some (endpoint, hashes) =>
               Ok (("apiServerEndpoint: " +:+ endpoint) ::
                   ((fun h => "caCertHash:        " +:+ h +:+ "  (valid=" +:+
                              (if ValidHash h then "true" else "false") +:+ ")") <$> hashes))
           end, w)
      end
  end.

Definition zero_kubelet : KubeletConfiguration :=
  {| kl_KubeReserved := ∅; kl_SystemReserved := ∅; kl_EvictionHard := ∅; kl_EvictionSoft := ∅;
     kl_EvictionSoftGracePeriod := ∅; kl_MaxPods := None; kl_ClusterDNS := []; kl_ExtraArgs := [] |}.

(** The minimal NodeClass rendered without a file. *)
Definition minimal_bootstrap : BootstrapSpec :=
  {| bs_OSFamily := OSFamilyDebian; bs_Mode := ""; bs_KubernetesVersion := "1.34.7";
     bs_PackageRevision := ""; bs_APIServerEndpoint := ""; bs_CACertHashes := [];
     bs_Containerd := {| cd_SystemdCgroup := None; cd_AptPin := ""; cd_ExtraConfig := "" |};
     bs_UnattendedUpgrades :=
       {| uu_Enabled := None; uu_ExtraOrigins := []; uu_RemoveUnusedKernelPackages := None |};
     bs_Sysctls := ∅; bs_KernelModules := []; bs_PackageUpgradeOnBoot := None;
     bs_ExtraPackages := []; bs_ExtraFiles := []; bs_PreJoinCommands := [];
     bs_PostJoinCommands := []; bs_Revision := "" |}.

Definition minimal_NodeClass : HCloudNodeClass :=
  {| nc_Name := ""; nc_UID := ""; nc_Generation := 0; nc_DeletionTimestamp := None;
     nc_Finalizers := []; nc_Annotations := ∅;
     nc_Spec :=
       {| spec_ImageSelector := {| sel_Name := ""; sel_ID := None |}; spec_ImageDriftPolicy := "";
          spec_MaxNodeAge := None; spec_Locations := []; spec_NetworkSelector := None;
          spec_FirewallSelectors := []; spec_SSHKeySelectors := []; spec_PlacementGroup := None;
          spec_PublicIPv4 := None; spec_PublicIPv6 := None; spec_ServerLabels := ∅;
          spec_Kubelet := zero_kubelet; spec_Bootstrap := minimal_bootstrap |};
     nc_Status :=
       {| status_Image := None; status_Network := None; status_Firewalls := []; status_SSHKeys := [];
          status_PlacementGroup := None; status_Locations := []; status_APIServerEndpoint := "";
          status_CACertHashes := []; status_Conditions := no_conditions |} |}.

Definition placeholder_token : string := "aaaaaa.bbbbbbbbbbbbbbbb".
Definition placeholder_endpoint : string := "127.0.0.1:6443".

(** [sha256:] and [fmt.Sprintf("%064d", 0)]. *)
Definition placeholder_hash : string :=
  "sha256:0000000000000000000000000000000000000000000000000000000000000000".

(** The join parameters: discovered when the cluster can be read, placeholders
    otherwise; no failure is reported. *)
Definition debug_discovery (w : W) : string * list string * W :=
  let placeholders := (placeholder_endpoint, [placeholder_hash]) in
  match newReadOnlyClient w with
  | Some _ => (placeholders, w)
  | None =>
      let '(err, d, w) := Refresh NewDiscovery w in
      match err with
      | Some _ => (placeholders, w)
      | None => (default placeholders (Discovery.Get d), w)
      end
  end.

Definition debug_input (nc : HCloudNodeClass) (endpoint : string) (hashes : list string) (token : string)
    : Input :=
  {| in_NodeClass := Some nc;
     in_Join :=
       {| ji_APIServerEndpoint := endpoint; ji_CACertHashes := hashes; ji_Token := token;
          ji_NodeLabels := {[ NodePoolLabelKey := "example" ]}; ji_Taints := [];
          ji_Kubelet := Some (spec_Kubelet (nc_Spec nc)) |} |}.

(** The document printed; [None] would be a panic. *)
Definition runRenderUserData (args : list string) (w : W) : option (result string) * W :=
  let nodeClassPath := default "" (args !! 0%nat) in
  let tokenPath := default "" (args !! 1%nat) in
  let token := if (tokenPath =? "")%string then Ok placeholder_token
               else match os_ReadFile tokenPath w with
                    | Err err => Err (Wrapf "reading token file: " err)
                    | Ok raw => Ok (TrimSpace raw)
                    end in
  match token with
  | Err err => (Some (Err err), w)
  | Ok token =>
      let '(endpoint, hashes, w) := debug_discovery w in
      let nc := if (nodeClassPath =? "")%string then Ok minimal_NodeClass
                else match os_ReadFile nodeClassPath w with
                     | Err err => Err (Wrapf "reading NodeClass: " err)
                     | Ok raw =>
                         match yaml_UnmarshalNodeClass raw with
                         | Err err => Err (Wrapf "parsing NodeClass: " err)
                         | Ok nc => Ok nc
                         end
                     end in
      match nc with
      | Err err => (Some (Err err), w)
      | Ok nc => (CloudInit.Render (debug_input nc endpoint hashes token), w)
      end
  end.

(** [None] when the command is not one of ours. *)
Definition runDebug (cmd : string) (args : list string) (w : W) : option (outcome (decorated W) * W) :=
  if (cmd =? "discover")%string then
    let '(r, w) := runDiscover w in
    Some (match r with Ok ls => Printed (Join ls nl) | Err e => Failed (error_text e) end, w)
  else if (cmd =? "render-userdata")%string then
    let '(r, w) := runRenderUserData args w in
    Some (match r with
          | Some (Ok out) => Printed out
          | Some (Err e) => Failed (error_text e)
          | None => Panicked
          end, w)
  else None.

(** ** main *)

(** Past the operator's own start: each step fails the process or goes on. *)
Definition start_operator (env : string -> string) (w : W) : outcome (decorated W) * W :=
  let w := operator_New w in
  match NewClientFromEnv (env TokenEnvVar) with
  | Err _ => (Failed "building the Hetzner API client", w)
  | Ok token =>
      match op_Add CatalogRefreshLoop w with
      | (Some _, w) => (Failed "registering the catalog refresh loop", w)
      | (None, w) =>
          let clusterName := env clusterNameEnvVar in
          if (clusterName =? "")%string then (Failed "refusing to start", w)
          else
            match op_Add SyncUnavailableLoop w with
            | (Some _, w) => (Failed "registering the offering availability metric sync", w)
            | (None, w) =>
                let instanceProvider := NewProvider clusterName in
                let provider :=
                  New instanceProvider (NewBootstrapProvider NewTokenMinter clusterName) clusterName in
                let cloudProvider := withMetrics provider in
                match newClusterState cloudProvider w with
                | Some _ => (Failed "building cluster state", w)
                | None =>
                    (Started {| op_token := token;
                                op_runnables := [CatalogRefreshLoop; SyncUnavailableLoop];
                                op_instances := instanceProvider;
                                op_hcloudprovider := provider;
                                op_cloudProvider := cloudProvider;
                                op_controllers := NewControllers instanceProvider clusterName |}, w)
                end
            end
      end
  end.

(** [args] is [os.Args[1:]]. *)
Definition main (version : string) (args : list string) (env : string -> string) (w : W) : outcome (decorated W) * W :=
  if existsb (fun a => (a =? "--version")%string || (a =? "-version")%string) args
  then (Printed version, w)
  else
    match match args with cmd :: rest => runDebug cmd rest w | [] => None end with
    | Some (r, w) => (r, w)
    | None => start_operator env w
    end.

(** ** Properties *)

Lemma start_operator_Started (env : string -> string) (w w' : W) (op : operator (decorated W)) :
  start_operator env w = (Started op, w') ->
  env clusterNameEnvVar <> "" /\
  (exists token, NewClientFromEnv (env TokenEnvVar) = Ok token /\
   op = {| op_token := token; op_runnables := [CatalogRefreshLoop; SyncUnavailableLoop];
           op_instances := NewProvider (env clusterNameEnvVar);
           op_hcloudprovider := New (NewProvider (env clusterNameEnvVar))
             (NewBootstrapProvider NewTokenMinter (env clusterNameEnvVar)) (env clusterNameEnvVar);
           op_cloudProvider := withMetrics (New (NewProvider (env clusterNameEnvVar))
             (NewBootstrapProvider NewTokenMinter (env clusterNameEnvVar)) (env clusterNameEnvVar));
           op_controllers := NewControllers (NewProvider (env clusterNameEnvVar))
             (env clusterNameEnvVar) |}).
Proof.
  unfold start_operator. destruct (NewClientFromEnv _) as [token|e]; [|done].
  destruct (op_Add CatalogRefreshLoop _) as [[e|] w1]; [done|].
  destruct (String.eqb_spec (env clusterNameEnvVar) "") as [|Hc]; [done|].
  destruct (op_Add SyncUnavailableLoop w1) as [[e|] w2]; [done|].
  destruct (newClusterState _ w2); [done|]. intros [= <- _]. eauto.
Qed.

Lemma runDebug_never_starts (cmd : string) (args : list string) (w : W) (op : operator (decorated W)) (w' : W) :
  runDebug cmd args w <> Some (Started op, w').
Proof.
  unfold runDebug. destruct (cmd =? "discover")%string.
  { by destruct (runDiscover w) as [[ls|e] w1]. }
  destruct (cmd =? "render-userdata")%string; [|done].
  by destruct (runRenderUserData args w) as [[[out|e]|] w1].
Qed.

Lemma main_Started version args env (w w' : W) (op : operator (decorated W)) :
  main version args env w = (Started op, w') -> start_operator env w = (Started op, w').
Proof.
  unfold main. destruct (existsb _ args); [done|]. destruct args as [|cmd rest]; [done|].
  pose proof (runDebug_never_starts cmd rest w op w') as Hn.
  destruct (runDebug cmd rest w) as [[r w1]|]; [|done]. intros [= -> ->]. done.
Qed.

(** C27. A process that starts is confined to a cluster it was given a name for.
    Whatever the arguments and the environment, the controllers run only with a
    well-formed API token and a cluster name, the same name in the instance
    provider, in the tokens minted, in the cloud provider and in the garbage
    collector; and from then on, whatever operations the instance provider is
    asked for and whatever Hetzner answers, every server it deletes, resets,
    lists or creates is one of that cluster's.  The core controllers get that same
    provider, decorated. *)
Theorem started_process_is_confined `{CA : !CoreAllocatable} {H : Type}
    `{SV : Servers H, CK : Clock H} version args env (w w' : W) (o : operator (decorated W)) (ops : list op) (h : H)
    (Hm : main version args env w = (Started o, w')) :
  let cluster := env clusterNameEnvVar in
  cluster <> "" /\ NewClientFromEnv (env TokenEnvVar) = Ok (op_token o) /\
  op_cloudProvider o = withMetrics (op_hcloudprovider o) /\
  bp_clusterName (cp_bootstrapper (op_hcloudprovider o)) = cluster /\
  cp_instances (op_hcloudprovider o) = op_instances o /\
  cp_clusterName (op_hcloudprovider o) = cluster /\
  InstanceGCController (op_instances o) cluster ∈ op_controllers o /\
  guarded cluster (trace (exec_all (op_instances o) ops (init_state (h, [])))).
Proof.
  apply main_Started, start_operator_Started in Hm as (Hc & token & Ht & ->).
  cbn [op_token op_hcloudprovider op_cloudProvider op_instances op_controllers].
  do 6 (split; [done|]). split.
  - unfold NewControllers. set_solver.
  - apply exec_all_guarded, guarded_nil.
Qed.

(** Rendering for inspection needs nothing of the cluster: without arguments the
    guards always pass, with the join parameters of the cluster when it can be
    read and valid placeholders otherwise, the token is the placeholder, and
    nothing panics. *)
Theorem render_userdata_without_arguments (w : W) :
  exists endpoint hashes,
    (runRenderUserData [] w).1 = CloudInit.Render (debug_input minimal_NodeClass endpoint hashes placeholder_token) /\
    (runRenderUserData [] w).1 <> None /\ endpoint <> "" /\ hashes <> [] /\
    (newReadOnlyClient w <> None -> endpoint = placeholder_endpoint /\ Forall (fun h => ValidHash h = true) hashes).
Proof.
  unfold runRenderUserData. cbn [lookup list_lookup default]. rewrite String.eqb_refl.
  destruct (debug_discovery w) as [[endpoint hashes] w1] eqn:Ed.
  assert (endpoint <> "" /\ hashes <> [] /\ (newReadOnlyClient w <> None ->
    endpoint = placeholder_endpoint /\ Forall (fun h => ValidHash h = true) hashes)) as (He & Hh & Hp).
  { unfold debug_discovery in Ed. destruct (newReadOnlyClient w).
    { injection Ed as <- <- _. split_and!; [done|done|]. intros _. split; [done|]. by repeat constructor. }
    destruct (Refresh NewDiscovery w) as [[[e|] d] w2]; [by injection Ed as <- <- _|].
    unfold Discovery.Get in Ed. destruct (String.eqb_spec (d_endpoint d) "") as [|Hd];
      [by injection Ed as <- <- _|].
    destruct (d_hashes d); by injection Ed as <- <- _. }
  exists endpoint, hashes. cbn [fst]. split; [done|]. split; [|done].
  unfold CloudInit.Render. cbn [in_NodeClass debug_input nc_Spec minimal_NodeClass spec_Bootstrap minimal_bootstrap
    bs_OSFamily]. rewrite String.eqb_refl, andb_false_r.
  pose proof (renderJoin_total (in_Join (debug_input minimal_NodeClass endpoint hashes placeholder_token))
    zero_kubelet eq_refl) as Ht. by destruct (renderJoinConfiguration _).
Qed.
End WithKube.

(** ** Witness: a start with a name, and one without *)

Section Witnesses.
Import KubeExample CatalogExample KubeadmExample CloudInitExample RedactExample.

#[local] Instance alloc : CoreAllocatable := fun it => Allocatable (it_Capacity it) (it_Overhead it).

(** A manager that takes every runnable, and no cluster to read from. *)
#[local] Instance accepting : OperatorLibrary nat := {
  operator_New w := w;
  op_Add _ w := (None, S w);
  decorated := cloud_provider;
  cloudprovidermetrics_Decorate cp := cp;
  health_NewRepairPolicyMatcher _ _ := None
}.
#[local] Instance no_join : JoinLibrary := {
  clientcmd_Load _ := Err (Errorf "no kubeconfig");
  url_Parse _ := Err (Errorf "no url");
  pem_blocks _ := [];
  x509_ParseCertificate _ := Err (Errorf "no certificate");
  x509_MarshalPKIXPublicKey _ := Err (Errorf "no key");
  sha256_hex s := s
}.
#[local] Instance no_cluster_info : ClusterInfoReader nat := fun w => (Err (Errorf "unreachable"), w).
#[local] Instance no_cluster : DebugLibrary nat := {
  scheme_AddToScheme := None;
  ctrl_GetConfig _ := Some (Errorf "no kubeconfig");
  client_New _ := None;
  os_ReadFile path _ := Err (Errorf path);
  yaml_UnmarshalNodeClass _ := Err (Errorf "no yaml");
  no_conditions := (∅ : gmap string condition)
}.

Definition named (cluster : string) : string -> string := fun v =>
  if (v =? clusterNameEnvVar)%string then cluster
  else if (v =? TokenEnvVar)%string then token else "".

Lemma started_process_is_confined_witness :
  main "1.0" [] (named "") 0%nat = (Failed "refusing to start", 1%nat) /\
  exists o, main "1.0" [] (named "prod") 0%nat = (Started o, 2%nat) /\
    guarded "prod" (trace (exec_all (op_instances o) [OList; ODelete "hcloud://1"]
                             (init_state (empty_project, [])))).
Proof.
  split; [by vm_compute|].
  destruct (main "1.0" [] (named "prod") 0%nat) as [r w'] eqn:E.
  assert (exists o, r = Started o /\ w' = 2%nat) as (o & -> & ->)
    by (vm_compute in E; injection E as <- <-; eauto).
  exists o. split; [done|].
  destruct (started_process_is_confined "1.0" [] (named "prod") 0%nat 2%nat o
    [OList; ODelete "hcloud://1"] empty_project E) as (_ & _ & _ & _ & _ & _ & _ & Hg).
  exact Hg.
Defined.
End Witnesses.
